(** * The template-substitution and batch-archive pipeline of my-worker

    A shallow embedding of the generation code shared by the three copies of
    the bot (the service-worker build and the Pages-Functions build kept in
    one file, and [src/functions/telegram.js]): [updateIntervals],
    [titleCase], [sanitizeFilename], [fetchTemplateBytes] and
    [generateOutputsZip], followed by the properties the specification states
    about them. *)

From Stdlib Require Import String Ascii.
From Stdlib Require Import List Bool Arith Lia NArith ZArith.
From Stdlib Require Import QArith_base.
From Stdlib Require Import DecimalNat DecimalString.
Import ListNotations.

Close Scope Q_scope.
Local Open Scope nat_scope.
Local Open Scope list_scope.

(** ** JavaScript strings

    A JavaScript string is a sequence of UTF-16 code units; [s.length] is the
    number of code units. *)

Definition code_unit := N.
Definition jsstring := list code_unit.

(** A string literal of the source whose characters are all ASCII. *)
Definition js (s : string) : jsstring :=
  map N_of_ascii (list_ascii_of_string s).

Fixpoint jsstring_eqb (a b : jsstring) : bool :=
  match a, b with
  | [], [] => true
  | x :: a', y :: b' => N.eqb x y && jsstring_eqb a' b'
  | _, _ => false
  end.

(** [!s] for a string: the empty string is the only falsy one. *)
Definition is_empty (s : jsstring) : bool :=
  match s with [] => true | _ => false end.

(** [s || d] for strings. *)
Definition or_default (s d : jsstring) : jsstring :=
  if is_empty s then d else s.

(** The class [\s] of a regular expression, which is also the set that
    [String.prototype.trim] removes: TAB, LF, VT, FF, CR, SPACE, NBSP, the
    other space separators, the line and paragraph separators and the BOM. *)
Definition is_ws (c : code_unit) : bool :=
  ((9 <=? c) && (c <=? 13) || (c =? 32) || (c =? 160) || (c =? 5760)
   || (8192 <=? c) && (c <=? 8202) || (c =? 8232) || (c =? 8233)
   || (c =? 8239) || (c =? 8287) || (c =? 12288) || (c =? 65279))%N.

Fixpoint trimStart (s : jsstring) : jsstring :=
  match s with
  | [] => []
  | c :: r => if is_ws c then trimStart r else s
  end.

Definition trimEnd (s : jsstring) : jsstring := rev (trimStart (rev s)).

(** [s.trim()] *)
Definition trim (s : jsstring) : jsstring := trimEnd (trimStart s).

(** The character class of the first [replace] of [sanitizeFilename]:
    backslash, slash, colon, asterisk, question mark, double quote, less-than,
    greater-than and vertical bar. *)
Definition is_forbidden (c : code_unit) : bool :=
  ((c =? 92) || (c =? 47) || (c =? 58) || (c =? 42) || (c =? 63)
   || (c =? 34) || (c =? 60) || (c =? 62) || (c =? 124))%N.

(** The first [replace] of [sanitizeFilename]: every maximal run of
    characters of the class is replaced by the empty string. *)
Fixpoint strip_forbidden (s : jsstring) : jsstring :=
  match s with
  | [] => []
  | c :: r => if is_forbidden c then strip_forbidden r
              else c :: strip_forbidden r
  end.

(** The second [replace], on [/\s+/g]: every maximal run of white space is
    replaced by one SPACE.  [in_run] tells that the previous character
    belonged to the run being replaced. *)
Fixpoint collapse_from (in_run : bool) (s : jsstring) : jsstring :=
  match s with
  | [] => []
  | c :: r =>
      if is_ws c
      then (if in_run then collapse_from true r
            else 32%N :: collapse_from true r)
      else c :: collapse_from false r
  end.

Definition collapse_ws (s : jsstring) : jsstring := collapse_from false s.

(** [s.split(/\s+/)]: the pieces between the maximal runs of white space,
    empty pieces at the ends included. *)
Fixpoint split_from (in_run : bool) (s : jsstring) : list jsstring :=
  match s with
  | [] => [[]]
  | c :: r =>
      if is_ws c
      then (if in_run then split_from true r else [] :: split_from true r)
      else match split_from false r with
           | w :: ws => (c :: w) :: ws
           | [] => [[c]]
           end
  end.

Definition split_ws (s : jsstring) : list jsstring := split_from false s.

(** [a.join(sep)] *)
Fixpoint join (sep : jsstring) (a : list jsstring) : jsstring :=
  match a with
  | [] => []
  | [x] => x
  | x :: r => x ++ sep ++ join sep r
  end.

(** [s.slice(0, n)] *)
Definition slice0 (n : nat) (s : jsstring) : jsstring := firstn n s.

(** [String(n)] for a non-negative integer: its decimal digits. *)
Definition String_of_nat (n : nat) : jsstring :=
  js (NilEmpty.string_of_uint (Nat.to_uint n)).

(** [s.padStart(w, zero)] with the digit zero as the filler *)
Definition padStart0 (w : nat) (s : jsstring) : jsstring :=
  repeat 48%N (w - length s) ++ s.

(** ** Case mapping

    [toUpperCase] and [toLowerCase] belong to the runtime and follow the
    Unicode tables; the code only calls them.  They are taken as an
    interface. *)

Class CaseMapping := {
  toUpperCase : jsstring -> jsstring;
  toLowerCase : jsstring -> jsstring
}.

Definition ascii_upper (c : code_unit) : code_unit :=
  if ((97 <=? c) && (c <=? 122))%N then (c - 32)%N else c.

Definition ascii_lower (c : code_unit) : code_unit :=
  if ((65 <=? c) && (c <=? 90))%N then (c + 32)%N else c.

Definition is_ascii (c : code_unit) : bool := (c <? 128)%N.

(** What every conforming runtime does on ASCII text. *)
Definition AsciiCompatible (cm : CaseMapping) : Prop :=
  forall s, forallb is_ascii s = true ->
    toUpperCase s = map ascii_upper s /\ toLowerCase s = map ascii_lower s.

(** The case mapping of the code units U+0000 to U+00FF, as the Unicode
    character database and its special-casing table give it: LATIN SMALL
    LETTER SHARP S (U+00DF) has the two-letter upper case SS, MICRO SIGN
    (U+00B5) and LATIN SMALL LETTER Y WITH DIAERESIS (U+00FF) have their upper
    case outside the range.  Code units above U+00FF are not in this table and
    are returned as they are. *)
Definition latin1_upper_unit (c : code_unit) : jsstring :=
  (if (97 <=? c) && (c <=? 122) then [c - 32]
   else if c =? 181 then [924]
   else if c =? 223 then [83; 83]
   else if (224 <=? c) && (c <=? 254) && negb (c =? 247) then [c - 32]
   else if c =? 255 then [376]
   else [c])%N.

Definition latin1_lower_unit (c : code_unit) : code_unit :=
  (if (65 <=? c) && (c <=? 90) then c + 32
   else if (192 <=? c) && (c <=? 222) && negb (c =? 215) then c + 32
   else c)%N.

Definition latin1_case : CaseMapping := {|
  toUpperCase := flat_map latin1_upper_unit;
  toLowerCase := map latin1_lower_unit
|}.

Section StringFunctions.

Context {cm : CaseMapping}.

(** The callback of [map] in [titleCase].  The Pages-Functions copy writes
    [x.charAt(0).toUpperCase() + x.slice(1).toLowerCase()]; the other two write
    [x[0]?.toUpperCase() + ...], which differs on the empty word only:
    [x[0]] is [undefined] there and the sum starts with the text
    [undefined]. *)
Definition capitalize (by_index : bool) (x : jsstring) : jsstring :=
  match x with
  | [] => if by_index then js "undefined" ++ toLowerCase []
          else toUpperCase [] ++ toLowerCase []
  | c :: r => toUpperCase [c] ++ toLowerCase r
  end.

(** [titleCase(s)] *)
Definition titleCase (by_index : bool) (s : jsstring) : jsstring :=
  let s := trim s in
  if is_empty s then []
  else join (js " ") (map (capitalize by_index) (split_ws s)).

End StringFunctions.

(** [sanitizeFilename(name)] *)
Definition sanitizeFilename (name : jsstring) : jsstring :=
  let name := collapse_ws (strip_forbidden (trim name)) in
  let name := if is_empty name then js "output" else name in
  if 80 <? length name then slice0 80 name else name.

(** ** JSON values and the property operations the code performs on them

    The descriptor is what [JSON.parse] returns: a tree without sharing, whose
    objects keep their properties in insertion order and have no two
    properties of one name.  A number is kept as the rational it denotes; the
    code tests numbers for zero and writes lengths, nothing else. *)

#[local] Set Warnings "-register-all,-abstract-large-number".

Inductive json :=
| JNull
| JBool (b : bool)
| JNum (q : Q)
| JStr (s : jsstring)
| JArr (items : list json)
| JObj (fields : list (jsstring * json)).

Section Assoc.

Context {V : Type}.

(** [o[k]] on the own properties of an object; [None] is [undefined]. *)
Fixpoint assoc_get (k : jsstring) (l : list (jsstring * V)) : option V :=
  match l with
  | [] => None
  | (k', v) :: r => if jsstring_eqb k k' then Some v else assoc_get k r
  end.

(** [o[k] = v]: an existing property keeps its place, a new one is added
    last. *)
Fixpoint assoc_set (k : jsstring) (v : V) (l : list (jsstring * V))
  : list (jsstring * V) :=
  match l with
  | [] => [(k, v)]
  | (k', v') :: r =>
      if jsstring_eqb k k' then (k, v) :: r else (k', v') :: assoc_set k v r
  end.

End Assoc.

(** The index an array of length [n] has under the property name [k]: the
    [i] below [n] with [String(i) = k]. *)
Fixpoint array_index (k : jsstring) (n : nat) : option nat :=
  match n with
  | 0 => None
  | S m => if jsstring_eqb k (String_of_nat m) then Some m
           else array_index k m
  end.

Fixpoint replace_nth {A : Type} (i : nat) (v : A) (l : list A) : list A :=
  match l, i with
  | [], _ => []
  | _ :: r, 0 => v :: r
  | x :: r, S j => x :: replace_nth j v r
  end.

(** Truthiness of a value. *)
Definition truthy (v : json) : bool :=
  match v with
  | JNull => false
  | JBool b => b
  | JNum q => negb (Qeq_bool q (inject_Z 0))
  | JStr s => negb (is_empty s)
  | JArr _ | JObj _ => true
  end.

(** [v && typeof v === "object"]: [null] is the one falsy value of that
    type. *)
Definition is_object (v : json) : bool :=
  match v with
  | JArr _ | JObj _ => true
  | _ => false
  end.

(** [Object.keys(o)] for an object or an array (the order in which an object
    lists integer-like names first is not modelled: no result below depends on
    the order of the visit). *)
Definition Object_keys (o : json) : list jsstring :=
  match o with
  | JObj fields => map fst fields
  | JArr items => map String_of_nat (seq 0 (length items))
  | _ => []
  end.

(** [o[k]] where [o] is not [null]: the own enumerable property of that name,
    which is all that the names read by the code can reach ([None] is
    [undefined]). *)
Definition get (o : json) (k : jsstring) : option json :=
  match o with
  | JObj fields => assoc_get k fields
  | JArr items =>
      match array_index k (length items) with
      | Some i => nth_error items i
      | None => None
      end
  | _ => None
  end.

(** [k in o] for an object or an array and a name that no prototype
    provides, as is the one name the code tests. *)
Definition has_property (k : jsstring) (o : json) : bool :=
  match get o k with Some _ => true | None => false end.

(** The effect of [o[k] = v] on the JSON content of an object, and of a
    mutation of the value [o[k]] refers to.  A named property put on an array
    is not an element and [JSON.stringify] ignores it. *)
Definition put (o : json) (k : jsstring) (v : json) : json :=
  match o with
  | JObj fields => JObj (assoc_set k v fields)
  | JArr items =>
      match array_index k (length items) with
      | Some i => JArr (replace_nth i v items)
      | None => o
      end
  | _ => o
  end.

(** ** Failures *)

Inductive error :=
| TemplateUrlNotSet                (* new Error("TEMPLATE_URL not set") *)
| TemplateFetchFailed (status : nat) (* new Error(`... ${res.status}`) *)
| FetchRejected                    (* fetch, or reading the body, rejected *)
| UnzipFailed                      (* unzipSync threw *)
| MissingDescriptor                (* new Error("Template missing data.plab") *)
| DescriptorSyntax                 (* JSON.parse threw *)
| MissingLayer (k : jsstring)      (* new Error(`Template missing layer ${k}`) *)
| TypeError                        (* a property of null or undefined, or, the
                                      code being a module, an assignment to a
                                      property of a primitive value *)
| SinkFailure                      (* progressCb threw or rejected *)
| Diverged.                        (* the suffix search ran out of fuel *)

Definition result (A : Type) : Type := error + A.

(** The error kinds of section 7 of the specification.  The code declares
    none, it throws plain [Error] objects and lets those of the host pass; a
    failure is sorted here by the statement it comes from: each failure of
    the fetch step is a [TemplateFetchError], each failure of unpacking, of
    the descriptor or of a layer a [FormatError]. *)
Inductive error_kind := TemplateFetchError | FormatError | OtherError.

Definition kind_of (e : error) : error_kind :=
  match e with
  | TemplateUrlNotSet | TemplateFetchFailed _ | FetchRejected =>
      TemplateFetchError
  | UnzipFailed | MissingDescriptor | DescriptorSyntax | MissingLayer _ =>
      FormatError
  | TypeError | SinkFailure | Diverged => OtherError
  end.

(** [o.k = v] as a statement: it throws on [null] and, in module code, on a
    primitive value. *)
Definition assign (o : json) (k : jsstring) (v : json) : result json :=
  if is_object o then inr (put o k v) else inl TypeError.

(** ** The host

    What the code calls and does not define: the network, the archive codec
    of fflate, the JSON codec composed with the UTF-8 codec, the random
    numbers and the progress callback handed in by the caller. *)

Definition bytes := list Byte.byte.

Record response := {
  status : nat;
  arrayBuffer : option bytes       (* [None]: reading the body rejects *)
}.

(** [res.ok] *)
Definition ok (r : response) : bool :=
  (200 <=? status r) && (status r <=? 299).

Definition archive := list (jsstring * bytes).

Class Host := {
  (** [fetch(url)]; [None] when the promise rejects *)
  fetch : jsstring -> option response;
  (** [unzipSync(new Uint8Array(b))]; [None] when it throws *)
  unzipSync : bytes -> option archive;
  (** [zipSync(entries, { level: 6 })] *)
  zipSync : archive -> bytes;
  (** [JSON.parse(u8ToStr(b))]; [None] when it throws *)
  JSON_parse : bytes -> option json;
  (** [strToU8(JSON.stringify(v))] *)
  JSON_stringify : json -> bytes;
  (** the [n]-th call of [Math.random()], as the number that
      [Math.floor(Math.random() * k)] is modulo [k]: every value below [k]
      can come out and no other *)
  Math_random : nat -> nat;
  (** whether the [n]-th call of [progressCb], made with this message,
      fails *)
  progressCb_fails : nat -> jsstring -> bool
}.

Record Env := {
  TEMPLATE_URL : option jsstring   (* [None]: the binding is not defined *)
}.

Record Options := {
  count : nat;
  firstMode : jsstring;
  fixedFirst : jsstring;
  lastMode : jsstring;
  fixedLast : jsstring;
  text2 : jsstring
}.

(** ** What differs between the three copies of the generation code *)

Record Variant := {
  FIRST_NAMES : list jsstring;
  LAST_NAMES : list jsstring;
  downloading_message : jsstring;
  fetch_failed_message : jsstring;
  (** [String(env.TEMPLATE_URL || "").trim()] instead of
      [env.TEMPLATE_URL] *)
  trims_url : bool;
  (** [x[0]?.toUpperCase()] instead of [x.charAt(0).toUpperCase()] *)
  first_by_index : bool
}.

Definition FIRST_NAMES_short : list jsstring := map js
  ["Ahsan";"Arafat";"Arif";"Asif";"Aziz";"Fahim";"Farhan";"Hasan";"Imran";
   "Jahid";"Kamal";"Mahmud";"Mehedi";"Naim";"Rafi";"Rahim";"Rashed";"Sabbir";
   "Saif";"Sajid";"Sakib";"Tanvir";"Tareq";"Yasin";"Zahid";"Ayesha";
   "Farzana";"Lamia";"Maliha";"Nafisa";"Nusrat";"Raisa";"Sabina";"Sadia";
   "Shirin";"Sumaiya";"Tahmina";"Tania";"Zannat"]%string.

Definition LAST_NAMES_short : list jsstring := map js
  ["Ahmed";"Akter";"Ali";"Amin";"Bhuiyan";"Chowdhury";"Haque";"Hasan";
   "Hossain";"Islam";"Jahan";"Khan";"Miah";"Mollah";"Rahman";"Rashid";
   "Sarker";"Siddique";"Sikder";"Sultana";"Uddin";"Das";"Dey";"Roy";"Saha";
   "Mondal";"Paul";"Biswas"]%string.

Definition FIRST_NAMES_long : list jsstring := map js
  ["Ahsan";"Arafat";"Arif";"Asif";"Aziz";"Fahim";"Farhan";"Faysal";"Hasan";
   "Imran";"Ismail";
   "Jahid";"Jamal";"Kamal";"Mahmud";"Mehedi";"Moin";"Monir";"Naim";"Nayeem";
   "Rafi";"Rahim";
   "Raihan";"Rashed";"Rifat";"Ridoy";"Sabbir";"Saif";"Sajid";"Sakib";
   "Salman";"Sami";"Shafi";
   "Shahriar";"Shakil";"Tanvir";"Tareq";"Yasin";"Zahid";"Zubair";"Nafis";
   "Fardin";"Tahmid";
   "Muntasir";"Aminul";"Shihab";"Rakib";"Shuvo";"Sohel";"Mahfuz";"Anwar";
   "Ruhul";"Bashir";
   "Kabir";"Ibrahim";"Hridoy";"Parvez";"Sifat";"Towhid";"Shadman";
   "Ayesha";"Farzana";"Faria";"Fariha";"Jannat";"Jui";"Lamia";"Maliha";
   "Mim";"Mitu";"Nafisa";
   "Nusrat";"Purnima";"Raisa";"Rima";"Ritu";"Sabina";"Sadia";"Sanjida";
   "Shirin";"Sumaiya";
   "Tahmina";"Tanjila";"Tania";"Zannat";"Jahanara";"Mariya";"Muna";
   "Rukaiya";"Sultana";
   "Sharmin";"Sabrina";"Nabila";"Nowrin";"Umme";"Rabeya";"Moushumi";
   "Taslima";"Afsana";
   "Ishika";"Tanisha";"Anannya";"Sreya";"Puja";"Madhuri";"Nandini";
   "Rituparna";"Oishi";
   "Anik";"Aritra";"Arpan";"Debashish";"Dip";"Niloy";"Pranto";"Rupok";
   "Sourav";"Subrata";
   "Rony";"Joy";"Sohan";"Ayon";"Pritom";"Raiyan";"Sanjit"]%string.

Definition LAST_NAMES_long : list jsstring := map js
  ["Ahmed";"Akter";"Ali";"Amin";"Arefin";"Bhuiyan";"Chowdhury";"Faruque";
   "Haque";"Hasan";
   "Hossain";"Islam";"Jahan";"Khan";"Mahmood";"Miah";"Mollah";"Mostafa";
   "Rahman";
   "Rashid";"Sarker";"Siddique";"Sikder";"Sultana";"Uddin";"Talukder";
   "Sheikh";"Matin";
   "Karim";"Kazi";"Sayeed";"Nizam";"Alam";"Kabir";"Mamun";"Shah";"Naser";
   "Tasnim";
   "Das";"Dey";"Roy";"Saha";"Sarkar";"Mondal";"Paul";"Biswas";"Barman";
   "Ghosh";
   "Chakraborty";"Bhattacharya";"Banerjee";"Mitra";"Sen";"Deb";"Datta";
   "Pal";"Majumder"]%string.

(** HOURGLASS WITH FLOWING SAND, SPARKLES, HORIZONTAL ELLIPSIS, and the
    surrogate pair of PACKAGE. *)
Definition hourglass : jsstring := [9203%N].
Definition sparkles : jsstring := [10024%N].
Definition ellipsis : jsstring := [8230%N].
Definition package : jsstring := [55357%N; 56550%N].

(** The service-worker copy, first of the two in the unnamed file. *)
Definition service_worker : Variant := {|
  FIRST_NAMES := FIRST_NAMES_short;
  LAST_NAMES := LAST_NAMES_short;
  downloading_message :=
    hourglass ++ js " Downloading template (.plp) " ++ ellipsis;
  fetch_failed_message := js "Template fetch failed: ";
  trims_url := true;
  first_by_index := true
|}.

(** The Pages-Functions copy, second of the two in the unnamed file. *)
Definition pages_functions : Variant := {|
  FIRST_NAMES := FIRST_NAMES_long;
  LAST_NAMES := LAST_NAMES_long;
  downloading_message :=
    hourglass ++ js " Downloading template (.plp) from GitHub" ++ ellipsis;
  fetch_failed_message := js "Failed to fetch template: ";
  trims_url := false;
  first_by_index := false
|}.

(** [src/functions/telegram.js] *)
Definition telegram_js : Variant := {|
  FIRST_NAMES := FIRST_NAMES_short;
  LAST_NAMES := LAST_NAMES_short;
  downloading_message :=
    hourglass ++ js " Downloading template (.plp) " ++ ellipsis;
  fetch_failed_message := js "Template fetch failed: ";
  trims_url := false;
  first_by_index := true
|}.

(** ** The effects of the pipeline

    The pipeline consumes random numbers and talks to the progress callback;
    both are threaded through a state, and a throw ends the computation with
    the state reached. *)

Record world := {
  random_calls : nat;              (* calls of [Math.random] made so far *)
  notified : list jsstring         (* messages handed to [progressCb] *)
}.

Definition M (A : Type) : Type := world -> world * result A.

Definition ret {A : Type} (a : A) : M A := fun w => (w, inr a).

Definition throw {A : Type} (e : error) : M A := fun w => (w, inl e).

Definition lift {A : Type} (r : result A) : M A := fun w => (w, r).

Definition bind {A B : Type} (m : M A) (f : A -> M B) : M B :=
  fun w =>
    match m w with
    | (w', inl e) => (w', inl e)
    | (w', inr a) => f a w'
    end.

Definition rbind {A B : Type} (r : result A) (f : A -> result B) : result B :=
  match r with
  | inl e => inl e
  | inr a => f a
  end.

Declare Scope pipeline_scope.
Delimit Scope pipeline_scope with pipeline.

Notation "x <- m ;; k" := (bind m (fun x => k))
  (at level 61, m at next level, right associativity) : pipeline_scope.
Notation "' pat <- m ;; k" := (bind m (fun x => let pat := x in k))
  (at level 61, pat pattern, m at next level, right associativity)
  : pipeline_scope.
Notation "x <~ r ;; k" := (rbind r (fun x => k))
  (at level 61, r at next level, right associativity) : pipeline_scope.

Local Open Scope pipeline_scope.

Definition initial_world : world := {| random_calls := 0; notified := [] |}.

(** The per-unit values of the loop body. *)
Record unit_record := {
  fullName : jsstring;
  t1 : jsstring;
  t2 : jsstring;
  t3 : jsstring
}.

Definition LAYERS : list jsstring := map js ["text0"; "text1"; "text2"; "text3"]%string.

(** [new Set()], [used.has(x)] and [used.add(x)] *)
Definition set_has (x : jsstring) (used : list jsstring) : bool :=
  existsb (jsstring_eqb x) used.

Definition set_add (x : jsstring) (used : list jsstring) : list jsstring :=
  if set_has x used then used else used ++ [x].

(** [`${base}.plp`] and [`${base}_${n}.plp`] *)
Definition plp (base : jsstring) : jsstring := base ++ js ".plp".

Definition plp_n (base : jsstring) (n : nat) : jsstring :=
  base ++ js "_" ++ String_of_nat n ++ js ".plp".

(** [while (used.has(`${base}_${n}.plp`)) n++], run for at most [fuel]
    tests. *)
Fixpoint first_free (fuel : nat) (n : nat) (used : list jsstring)
  (base : jsstring) : option nat :=
  match fuel with
  | 0 => None
  | S fuel' =>
      if set_has (plp_n base n) used then first_free fuel' (S n) used base
      else Some n
  end.

(** The choice of [fileName] in the loop body; the search is given one test
    more than there are names in [used]. *)
Definition allocate (used : list jsstring) (base : jsstring)
  : option jsstring :=
  if set_has (plp base) used
  then match first_free (S (length used)) 2 used base with
       | Some n => Some (plp_n base n)
       | None => None
       end
  else Some (plp base).

(** The condition under which the loop body reports progress. *)
Definition progress_due (i n : nat) : bool :=
  (i =? 1) || (i =? n) || (i mod (Nat.max 1 (n / 10)) =? 0).

Definition generating_message (i n : nat) : jsstring :=
  sparkles ++ js " Generating" ++ ellipsis ++ js " "
  ++ String_of_nat i ++ js "/" ++ String_of_nat n.

Definition packing_message : jsstring :=
  package ++ js " Packing outputs.zip" ++ ellipsis.

(** [newText.length] as a JSON number *)
Definition length_number (newText : jsstring) : json :=
  JNum (inject_Z (Z.of_nat (length newText))).

(** The body of the inner loop of [updateIntervals]: [interval] refers to a
    value inside [block], so its mutation is a mutation of [block]. *)
Definition update_interval (newText : jsstring) (block : json)
  (intervalKey : jsstring) : json :=
  match get block intervalKey with
  | Some interval =>
      if is_object interval && has_property (js "textsIntervalsEnd") interval
      then put block intervalKey
             (put interval (js "textsIntervalsEnd") (length_number newText))
      else block
  | None => block
  end.

(** The body of the outer loop of [updateIntervals]. *)
Definition update_block (newText : jsstring) (layer : json) (k : jsstring)
  : json :=
  match get layer k with
  | Some block =>
      if is_object block
      then put layer k
             (fold_left (update_interval newText) (Object_keys block) block)
      else layer
  | None => layer
  end.

(** [updateIntervals(layer, newText)], called on a layer that an assignment
    has just shown to be an object. *)
Definition updateIntervals (layer : json) (newText : jsstring) : json :=
  fold_left (update_block newText) [js "textTextColor"; js "textTextFont"]
    layer.

(** [b[k].textTextString = newText; updateIntervals(b[k], newText)], the
    [substitute] of the specification. *)
Definition substitute (b : json) (k : jsstring) (newText : jsstring)
  : result json :=
  match get b k with
  | None => inl TypeError
  | Some layer =>
      layer' <~ assign layer (js "textTextString") (JStr newText) ;;
      inr (put b k (updateIntervals layer' newText))
  end.

(** The four substitutions of the loop body, on [b = proj.objectsBundle]. *)
Definition substitute_record (proj : json) (r : unit_record) : result json :=
  match get proj (js "objectsBundle") with
  | None => inl TypeError
  | Some b =>
      b <~ substitute b (js "text0") (fullName r) ;;
      b <~ substitute b (js "text1") (t1 r) ;;
      b <~ substitute b (js "text2") (t2 r) ;;
      b <~ substitute b (js "text3") (t3 r) ;;
      inr (put proj (js "objectsBundle") b)
  end.

(** [o.k] as an expression: it throws on [null]. *)
Definition read (o : json) (k : jsstring) : result (option json) :=
  match o with
  | JNull => inl TypeError
  | _ => inr (get o k)
  end.

(** [x || {}] *)
Definition or_empty_object (x : option json) : json :=
  match x with
  | Some v => if truthy v then v else JObj []
  | None => JObj []
  end.

(** [!baseBundle[k]] *)
Definition layer_missing (baseBundle : json) (k : jsstring) : bool :=
  match get baseBundle k with
  | Some v => negb (truthy v)
  | None => true
  end.

(** The loop that throws at the first missing layer.  The two copies that
    test [baseProj.objectsBundle?.[k]] instead of [baseBundle[k]] decide the
    same: a falsy bundle has no layer under either. *)
Fixpoint check_layers (baseBundle : json) (ks : list jsstring)
  : result unit :=
  match ks with
  | [] => inr tt
  | k :: r => if layer_missing baseBundle k then inl (MissingLayer k)
              else check_layers baseBundle r
  end.

(** The sanitization in the order in which section 4.4 names its steps:
    strip, collapse, trim, default, truncate. *)
Definition sanitize_spec (name : jsstring) : jsstring :=
  let name := trim (collapse_ws (strip_forbidden name)) in
  let name := if is_empty name then js "output" else name in
  firstn 80 name.

(** The words of a text: its maximal runs of characters that are not white
    space. *)
Fixpoint words (s : jsstring) : list jsstring :=
  match s with
  | [] => []
  | c :: r =>
      if is_ws c then words r
      else match r with
           | [] => [[c]]
           | c' :: _ =>
               if is_ws c' then [c] :: words r
               else match words r with
                    | w :: ws => (c :: w) :: ws
                    | [] => [[c]]
                    end
           end
  end.

Section Pipeline.

Context {cm : CaseMapping} {host : Host} (v : Variant).

(** [Math.floor(Math.random() * k)] *)
Definition random_below (k : nat) : M nat := fun w =>
  ({| random_calls := S (random_calls w); notified := notified w |},
   inr (match k with 0 => 0 | _ => Math_random (random_calls w) mod k end)).

(** [await progressCb(message)] *)
Definition progressCb (message : jsstring) : M unit := fun w =>
  ({| random_calls := random_calls w;
      notified := notified w ++ [message] |},
   if progressCb_fails (length (notified w)) message then inl SinkFailure
   else inr tt).

(** [rand(a)]; an index outside [a] reads [undefined]. *)
Definition rand (a : list jsstring) : M jsstring :=
  i <- random_below (length a) ;;
  ret (nth i a (js "undefined")).

Definition randomText1 : M jsstring :=
  x <- random_below 1000 ;;
  y <- random_below 1000 ;;
  ret (js "451-" ++ padStart0 3 (String_of_nat x) ++ js "-"
       ++ padStart0 3 (String_of_nat y)).

Definition randomText3 : M jsstring :=
  n <- random_below 1000000 ;;
  ret (js "NSU-RCPT-" ++ padStart0 6 (String_of_nat n) ++ js "F").

(** The lines of the loop body that choose the values of a unit, the
    [nextRecord] of the specification. *)
Definition nextRecord (options : Options) : M unit_record :=
  first <- (if jsstring_eqb (firstMode options) (js "fixed")
            then ret (titleCase (first_by_index v) (fixedFirst options))
            else rand (FIRST_NAMES v)) ;;
  last <- (if jsstring_eqb (lastMode options) (js "fixed")
           then ret (titleCase (first_by_index v)
                       (or_default (fixedLast options) (js "Ahmed")))
           else rand (LAST_NAMES v)) ;;
  let fullName := trim (first ++ js " " ++ last) in
  t1 <- randomText1 ;;
  let t2 := or_default (text2 options) (js "15/11/2025") in
  t3 <- randomText3 ;;
  ret {| fullName := fullName; t1 := t1; t2 := t2; t3 := t3 |}.

(** [fetchTemplateBytes(env)] *)
Definition fetchTemplateBytes (env : Env) : result bytes :=
  let url :=
    if trims_url v
    then trim (match TEMPLATE_URL env with Some u => u | None => [] end)
    else match TEMPLATE_URL env with Some u => u | None => [] end in
  if is_empty url then inl TemplateUrlNotSet
  else match fetch url with
       | None => inl FetchRejected
       | Some res =>
           if ok res
           then match arrayBuffer res with
                | Some b => inr b
                | None => inl FetchRejected
                end
           else inl (TemplateFetchFailed (status res))
       end.

(** The entries of the archive of one unit:
    [{ ...files, "data.plab": strToU8(JSON.stringify(proj)) }]. *)
Definition outFiles (files : archive) (proj : json) : archive :=
  assoc_set (js "data.plab") (JSON_stringify proj) files.

(** One turn of the loop of [generateOutputsZip]; [structuredClone(baseProj)]
    is the value [baseProj] again, owned by this turn. *)
Definition generateUnit (files : archive) (baseProj : json)
  (options : Options) (i : nat) (st : archive * list jsstring)
  : M (archive * list jsstring) :=
  let '(out, used) := st in
  let proj := baseProj in
  r <- nextRecord options ;;
  proj <- lift (substitute_record proj r) ;;
  let plpU8 := zipSync (outFiles files proj) in
  let base := sanitizeFilename (fullName r) in
  fileName <- lift (match allocate used base with
                    | Some f => inr f
                    | None => inl Diverged
                    end) ;;
  let used := set_add fileName used in
  let out := assoc_set fileName plpU8 out in
  _ <- (if progress_due i (count options)
        then progressCb (generating_message i (count options))
        else ret tt) ;;
  ret (out, used).

(** [for (let i = 1; i <= options.count; i++)] over the indices still to
    come. *)
Fixpoint generateUnits (files : archive) (baseProj : json)
  (options : Options) (indices : list nat) (st : archive * list jsstring)
  : M (archive * list jsstring) :=
  match indices with
  | [] => ret st
  | i :: rest =>
      st' <- generateUnit files baseProj options i st ;;
      generateUnits files baseProj options rest st'
  end.

(** [generateOutputsZip(env, options, progressCb)] *)
Definition generateOutputsZip (env : Env) (options : Options) : M bytes :=
  _ <- progressCb (downloading_message v) ;;
  templateBytes <- lift (fetchTemplateBytes env) ;;
  files <- lift (match unzipSync templateBytes with
                 | Some f => inr f
                 | None => inl UnzipFailed
                 end) ;;
  match assoc_get (js "data.plab") files with
  | None => throw MissingDescriptor
  | Some plab =>
      baseProj <- lift (match JSON_parse plab with
                        | Some p => inr p
                        | None => inl DescriptorSyntax
                        end) ;;
      objectsBundle <- lift (read baseProj (js "objectsBundle")) ;;
      _ <- lift (check_layers (or_empty_object objectsBundle) LAYERS) ;;
      '(out, used) <- generateUnits files baseProj options
                        (seq 1 (count options)) ([], []) ;;
      _ <- progressCb packing_message ;;
      ret (zipSync out)
  end.

End Pipeline.

(** ** What the specification asks of a substituted layer *)

(** An interval record that is an object and carries the interval-end field
    has it equal to the length of [newText]. *)
Definition interval_ok (newText : jsstring) (interval : json) : Prop :=
  is_object interval = true ->
  has_property (js "textsIntervalsEnd") interval = true ->
  get interval (js "textsIntervalsEnd") = Some (length_number newText).

(** The interval records found under the map [k] of a layer. *)
Definition block_ok (newText : jsstring) (layer : json) (k : jsstring)
  : Prop :=
  forall block intervalKey interval,
    get layer k = Some block -> is_object block = true ->
    get block intervalKey = Some interval -> interval_ok newText interval.

(** Every interval record found under the two auxiliary maps of a layer. *)
Definition layer_ok (newText : jsstring) (layer : json) : Prop :=
  block_ok newText layer (js "textTextColor")
  /\ block_ok newText layer (js "textTextFont").

(** The layer [k] of the bundle [b] holds [newText] and its intervals end at
    the length of [newText]. *)
Definition substituted (b : json) (k : jsstring) (newText : jsstring)
  : Prop :=
  exists layer,
    get b k = Some layer /\ is_object layer = true
    /\ layer_ok newText layer
    /\ ((exists fields, layer = JObj fields) ->
        get layer (js "textTextString") = Some (JStr newText)).

(** The descriptor of a unit, after the four substitutions of its record. *)
Definition descriptor_ok (r : unit_record) (proj : json) : Prop :=
  exists b,
    get proj (js "objectsBundle") = Some b
    /\ substituted b (js "text0") (fullName r)
    /\ substituted b (js "text1") (t1 r)
    /\ substituted b (js "text2") (t2 r)
    /\ substituted b (js "text3") (t3 r).

(** ** What the specification asks of the allocated file names *)

(** [name] is the file name a unit of base name [base] receives when the
    names in [earlier] are taken: the plain name when it is free, otherwise
    the name with the first free suffix from 2 on. *)
Definition allocated (earlier : list jsstring) (base name : jsstring)
  : Prop :=
  (~ In (plp base) earlier /\ name = plp base)
  \/ (In (plp base) earlier
      /\ exists n, 2 <= n /\ name = plp_n base n
                   /\ ~ In (plp_n base n) earlier
                   /\ forall m, 2 <= m < n -> In (plp_n base m) earlier).

(** The names of a batch, unit after unit, each allocated against the names
    of the units before it. *)
Fixpoint allocation (earlier bases names : list jsstring) : Prop :=
  match bases, names with
  | [], [] => True
  | base :: bases', name :: names' =>
      allocated earlier base name
      /\ allocation (earlier ++ [name]) bases' names'
  | _, _ => False
  end.

(** ** What a batch leaves behind *)

(** The base name of the file of a unit. *)
Definition base_name (r : unit_record) : jsstring :=
  sanitizeFilename (fullName r).

(** [e] is the entry of the output collection made for a unit of record [r]:
    the archive packed from the entries of the template with the descriptor
    of the unit in the place of the descriptor of the template. *)
Definition unit_entry {host : Host} (files : archive) (baseProj : json)
  (r : unit_record) (e : jsstring * bytes) : Prop :=
  exists proj, substitute_record baseProj r = inr proj
               /\ snd e = zipSync (outFiles files proj).

(** The messages of the loop for the indices [indices] of a batch of
    [n] units. *)
Definition generating_messages (n : nat) (indices : list nat)
  : list jsstring :=
  map (fun i => generating_message i n)
      (filter (fun i => progress_due i n) indices).

(** ** A host, a template and options to run the pipeline on *)

Definition sample_descriptor : json :=
  JObj
    [(js "version", JNum (inject_Z 3));
     (js "objectsBundle",
      JObj
        [(js "text0",
          JObj
            [(js "textTextString", JStr (js "Name Here"));
             (js "textTextColor",
              JObj
                [(js "0",
                  JObj [(js "textsIntervalsStart", JNum (inject_Z 0));
                        (js "textsIntervalsEnd", JNum (inject_Z 9))]);
                 (js "note", JStr (js "not an interval"))]);
             (js "textTextFont",
              JArr [JObj [(js "textsIntervalsEnd", JNum (inject_Z 9))];
                    JObj [(js "fontName", JStr (js "Roboto"))];
                    JNull])]);
         (js "text1", JObj [(js "textTextString", JStr (js "451-000-000"))]);
         (js "text2",
          JObj [(js "textTextString", JStr (js "01/01/2025"));
                (js "textTextColor", JNull)]);
         (js "text3",
          JObj [(js "textTextFont",
                 JObj [(js "0",
                        JObj [(js "textsIntervalsEnd",
                               JNum (inject_Z 16))])])]);
         (js "image0", JObj [])])].

Definition sample_files : archive :=
  [(js "preview.png", [Byte.x89; Byte.x50; Byte.x4e; Byte.x47]);
   (js "data.plab", [Byte.x7b; Byte.x7d]);
   (js "fonts/roboto.ttf", [Byte.x00; Byte.x01])].

(** A host whose template unpacks to [files] and parses to [descriptor],
    whose packer writes the lengths of the names and the contents one after
    the other, and whose callback fails where [fails] says. *)
Definition sample_host (files : archive) (descriptor : option json)
  (fails : nat -> bool) : Host := {|
  fetch := fun url =>
    if jsstring_eqb url (js "https://example.org/template.plp")
    then Some {| status := 200; arrayBuffer := Some [Byte.x50; Byte.x4b] |}
    else if jsstring_eqb url (js "https://example.org/missing.plp")
    then Some {| status := 404; arrayBuffer := Some [] |}
    else None;
  unzipSync := fun b => match b with
                        | [Byte.x50; Byte.x4b] => Some files
                        | _ => None
                        end;
  zipSync := fun entries =>
    flat_map (fun e => Byte.x2f :: snd e) entries;
  JSON_parse := fun _ => descriptor;
  JSON_stringify := fun _ => [Byte.x7b; Byte.x22; Byte.x7d];
  Math_random := fun n => 7 * n + 3;
  progressCb_fails := fun n _ => fails n
|}.

Definition quiet_host : Host :=
  sample_host sample_files (Some sample_descriptor) (fun _ => false).

Definition sample_env : Env :=
  {| TEMPLATE_URL := Some (js "https://example.org/template.plp") |}.

Definition fixed_options (n : nat) : Options := {|
  count := n;
  firstMode := js "fixed";
  fixedFirst := js "ahsan";
  lastMode := js "fixed";
  fixedLast := js "khan";
  text2 := js "01/01/2030"
|}.

Definition random_options (n : nat) : Options := {|
  count := n;
  firstMode := js "random";
  fixedFirst := js "";
  lastMode := js "random";
  fixedLast := js "Ahmed";
  text2 := js "15/11/2025"
|}.

(** The three copies of the generation code. *)
Definition copies : list Variant :=
  [service_worker; pages_functions; telegram_js].

(** ** Failures, as the specification speaks of them *)

(** The text of the [Error] that the code makes at each of its [throw]
    statements. *)
Definition error_message (v : Variant) (e : error) : option jsstring :=
  match e with
  | TemplateUrlNotSet => Some (js "TEMPLATE_URL not set")
  | TemplateFetchFailed st =>
      Some (fetch_failed_message v ++ String_of_nat st)
  | MissingDescriptor => Some (js "Template missing data.plab")
  | MissingLayer k => Some (js "Template missing layer " ++ k)
  | _ => None
  end.

(** No call of the callback recorded in [w] has failed. *)
Definition clean {host : Host} (w : world) : Prop :=
  forall n message,
    nth_error (notified w) n = Some message ->
    progressCb_fails n message = false.

(** A computation that, started when no call has failed, ends with no failed
    call or with the failure of the callback as its own. *)
Definition sink_sound {host : Host} {A : Type} (m : M A) : Prop :=
  forall w w' res,
    m w = (w', res) -> clean w -> clean w' \/ res = inl SinkFailure.

(** A computation that the bound put on the suffix search never cuts
    short. *)
Definition never_diverges {A : Type} (m : M A) : Prop :=
  forall w w' e, m w = (w', inl e) -> e <> Diverged.

(** A computation whose failures are neither of the fetch nor of the
    format. *)
Definition fails_otherwise {A : Type} (m : M A) : Prop :=
  forall w w' e, m w = (w', inl e) -> kind_of e = OtherError.

(** The address configured for the template, the empty text when there is
    none. *)
Definition configured_url (env : Env) : jsstring :=
  match TEMPLATE_URL env with Some u => u | None => [] end.

(** The address handed to [fetch]. *)
Definition requested_url (v : Variant) (env : Env) : jsstring :=
  if trims_url v then trim (configured_url env) else configured_url env.

(** The source cannot be reached: the request, or the reading of the body of
    a successful response, rejects. *)
Definition unreachable {host : Host} (url : jsstring) : Prop :=
  fetch url = None
  \/ exists res, fetch url = Some res /\ ok res = true
                 /\ arrayBuffer res = None.

(** The source answers with a status that is not a success. *)
Definition non_success {host : Host} (url : jsstring) : Prop :=
  exists res, fetch url = Some res /\ ok res = false.

(** The configured address is unset or blank. *)
Definition unset_or_blank (env : Env) : Prop :=
  trim (configured_url env) = [].

(** A template without the layer text2, and a host that serves it. *)
Definition descriptor_without_text2 : json :=
  JObj
    [(js "objectsBundle",
      JObj [(js "text0", JObj []); (js "text1", JObj []);
            (js "text3", JObj [])])].

Definition host_without_text2 : Host :=
  sample_host sample_files (Some descriptor_without_text2) (fun _ => false).

(** A host whose template holds the JSON text [null]. *)
Definition host_of_null : Host :=
  sample_host sample_files (Some JNull) (fun _ => false).

(** A host whose callback fails at its second call. *)
Definition host_failing_second : Host :=
  sample_host sample_files (Some sample_descriptor) (fun n => n =? 1).

(** ** Title case, as the specification words it *)

(** A word with its first character in upper case and the remainder in
    lower case. *)
Definition capitalize_word {cm : CaseMapping} (x : jsstring) : jsstring :=
  toUpperCase (firstn 1 x) ++ toLowerCase (skipn 1 x).

(** The last character of a text is not white space. *)
Fixpoint ends_nonws (s : jsstring) : bool :=
  match s with
  | [] => false
  | [c] => negb (is_ws c)
  | _ :: r => ends_nonws r
  end.

(** The first character of a text is white space. *)
Definition starts_ws (s : jsstring) : bool :=
  match s with
  | c :: _ => is_ws c
  | [] => false
  end.

(** A text without white space. *)
Definition no_ws (s : jsstring) : bool := forallb (fun c => negb (is_ws c)) s.

(** A word of ASCII characters with its first letter in upper case and the
    others in lower case. *)
Definition ascii_capitalize (x : jsstring) : jsstring :=
  match x with
  | [] => []
  | c :: r => ascii_upper c :: map ascii_lower r
  end.

(** ** What the sanitization leaves in a name *)

(** Every white-space character of the text is a SPACE that no white space
    follows. *)
Fixpoint single_spaced (s : jsstring) : bool :=
  match s with
  | [] => true
  | c :: r =>
      (if is_ws c then (c =? 32)%N && negb (starts_ws r) else true)
      && single_spaced r
  end.

(** The text holds none of the nine characters. *)
Definition no_forbidden (s : jsstring) : bool :=
  forallb (fun c => negb (is_forbidden c)) s.

(** The first and the last character of the text, if any, are not among the
    nine characters. *)
Definition ends_kept (s : jsstring) : bool :=
  match s with
  | [] => true
  | c :: _ => negb (is_forbidden c) && negb (is_forbidden (last s c))
  end.

(** A name of a hundred letters. *)
Definition hundred_letters : jsstring := repeat 97%N 100.

(** ** The suffixes of a batch, counted *)

(** The number of units of base name [base] among [l]. *)
Definition occurrences (base : jsstring) (l : list jsstring) : nat :=
  length (filter (jsstring_eqb base) l).

(** The name of the [k]-th unit of a base name: the plain name for the
    first, the suffix [_k] for the others. *)
Definition numbered (base : jsstring) (k : nat) : jsstring :=
  if k =? 1 then plp base else plp_n base k.

(** The names of the units of base names [bases], counted after the units
    of base names [processed]. *)
Fixpoint numbering (processed bases : list jsstring) : list jsstring :=
  match bases with
  | [] => []
  | base :: bases' =>
      numbered base (S (occurrences base processed))
      :: numbering (processed ++ [base]) bases'
  end.

(** No base name of the batch is another base name of the batch followed by
    a suffix. *)
Definition no_cross (bases : list jsstring) : Prop :=
  forall b b' n,
    In b bases -> In b' bases -> 2 <= n ->
    b' <> b ++ js "_" ++ String_of_nat n.

(** A decimal digit. *)
Definition is_digit (c : code_unit) : bool := ((48 <=? c) && (c <=? 57))%N.

(** A letter of the pools. *)
Definition is_letter (c : code_unit) : bool :=
  ((65 <=? c) && (c <=? 90) || (97 <=? c) && (c <=? 122))%N.

(** A name made of letters, as the pools hold them. *)
Definition plain (x : jsstring) : bool :=
  negb (is_empty x) && forallb is_letter x.

(** The pools of a copy hold names made of letters. *)
Definition pools_plain (v : Variant) : bool :=
  forallb plain (FIRST_NAMES v) && forallb plain (LAST_NAMES v).

(** What the names taken so far are, in terms of the units served so far,
    for the base names of [all]. *)
Definition counted (all processed earlier : list jsstring) : Prop :=
  forall b, In b all ->
    (In (plp b) earlier <-> 1 <= occurrences b processed)
    /\ forall n, 2 <= n ->
         (In (plp_n b n) earlier <-> n <= occurrences b processed).

(** What a last name leaves in the base name after a first name of
    letters. *)
Definition tail_of_last (t : jsstring) : jsstring :=
  collapse_from false (strip_forbidden (trimEnd (js " " ++ t))).

(** ** What [updateIntervals] does, value by value *)

(** The body of the inner loop of [updateIntervals], on the interval record
    itself. *)
Definition set_end (newText : jsstring) (interval : json) : json :=
  if is_object interval && has_property (js "textsIntervalsEnd") interval
  then put interval (js "textsIntervalsEnd") (length_number newText)
  else interval.

(** The inner loop of [updateIntervals], on the value found under one of the
    two maps. *)
Definition set_ends (newText : jsstring) (block : json) : json :=
  if is_object block
  then fold_left (update_interval newText) (Object_keys block) block
  else block.

(** [o[k]] replaced by [f(o[k])] where [o] has the property. *)
Definition modify (o : json) (k : jsstring) (f : json -> json) : json :=
  match get o k with
  | Some x => put o k (f x)
  | None => o
  end.

(** No interval record under the two maps of the layer carries the
    interval-end field. *)
Definition without_ends (layer : json) : Prop :=
  forall k block intervalKey interval,
    In k [js "textTextColor"; js "textTextFont"] ->
    get layer k = Some block ->
    get block intervalKey = Some interval ->
    is_object interval && has_property (js "textsIntervalsEnd") interval
    = false.

(** ** What a batch consumes and announces *)

(** The random numbers one unit takes: one for each name that is not fixed,
    two for the number of the second layer and one for the receipt. *)
Definition draws (options : Options) : nat :=
  (if jsstring_eqb (firstMode options) (js "fixed") then 0 else 1)
  + (if jsstring_eqb (lastMode options) (js "fixed") then 0 else 1)
  + 3.

(** The unit indices of a batch of [n] units at which the loop reports
    progress. *)
Definition announced (n : nat) : list nat :=
  filter (fun i => progress_due i n) (seq 1 n).

(** ** Names that the sanitization keeps *)

(** A name that is not empty, holds none of the nine characters, has single
    spaces for its only white space, neither begins nor ends with white
    space and has at most 80 characters. *)
Definition tidy (s : jsstring) : bool :=
  negb (is_empty s) && no_forbidden s && single_spaced s
  && negb (starts_ws s) && ends_nonws s && (length s <=? 80).

(** A layer whose only interval record carries no interval end. *)
Definition layer_without_ends : json :=
  JObj [(js "textTextString", JStr (js "01/01/2025"));
        (js "textTextFont",
         JObj [(js "0", JObj [(js "fontName", JStr (js "Roboto"))])])].

(** A host whose template holds a picture and no descriptor. *)
Definition host_without_descriptor : Host :=
  sample_host [(js "preview.png", [Byte.x89; Byte.x50; Byte.x4e; Byte.x47])]
    (Some sample_descriptor) (fun _ => false).

(** ** The fetch of the template, as each copy asks for it *)

(** The copy has no address to fetch: the address that it would hand to
    [fetch], trimmed where the copy trims it, is empty. *)
Definition no_address (v : Variant) (env : Env) : Prop :=
  requested_url v env = [].

(** The template cannot be had: there is no address, the source cannot be
    reached, or it answers with a status that is not a success. *)
Definition template_unavailable {host : Host} (v : Variant) (env : Env)
  : Prop :=
  no_address v env \/ unreachable (requested_url v env)
  \/ non_success (requested_url v env).

(** A host whose callback fails at its first call. *)
Definition host_failing_first : Host :=
  sample_host sample_files (Some sample_descriptor) (fun n => n =? 0).

(** ** Words that title case leaves alone the second time *)

(** A word of which [titleCase] makes a word that it then leaves as it is:
    the upper case of the first character is one character, which is no
    white space and is its own upper case, and the lower case of the
    remainder holds no white space and is its own lower case. *)
Definition settled {cm : CaseMapping} (x : jsstring) : Prop :=
  exists u,
    toUpperCase (firstn 1 x) = [u]
    /\ toUpperCase [u] = [u]
    /\ is_ws u = false
    /\ no_ws (toLowerCase (skipn 1 x)) = true
    /\ toLowerCase (toLowerCase (skipn 1 x)) = toLowerCase (skipn 1 x).

(** Case conversions that are idempotent and make no white space, as those
    of Unicode are. *)
Definition CaseLaws (cm : CaseMapping) : Prop :=
  (forall s, toUpperCase (toUpperCase s) = toUpperCase s)
  /\ (forall s, toLowerCase (toLowerCase s) = toLowerCase s)
  /\ (forall s, no_ws s = true ->
        no_ws (toUpperCase s) = true /\ no_ws (toLowerCase s) = true).

(** * The bot around the pipeline

    The webhook entry, the conversation of the wizard and the calls to the
    Bot API of Telegram: [router], [onRequestPost] and [handleRequest],
    [handleUpdate] and [onCallback], the four menus, [tgCall] and the helpers
    built on it.  The three copies of this code differ in a few places, which
    [Bot] records as [Variant] does for the generation. *)

(** ** More of JavaScript *)

(** [s.startsWith(p)] *)
Fixpoint startsWith (p s : jsstring) : bool :=
  match p, s with
  | [], _ => true
  | a :: p', b :: s' => N.eqb a b && startsWith p' s'
  | _ :: _, [] => false
  end.

(** [s.split(sep)] for a separator of one character. *)
Fixpoint split_on (sep : code_unit) (s : jsstring) : list jsstring :=
  match s with
  | [] => [[]]
  | c :: r =>
      if N.eqb c sep then [] :: split_on sep r
      else match split_on sep r with
           | w :: ws => (c :: w) :: ws
           | [] => [[c]]
           end
  end.

(** [s.replace(/^\/+/, empty)]: the slashes a text begins with are
    removed. *)
Fixpoint strip_slashes (s : jsstring) : jsstring :=
  match s with
  | c :: r => if N.eqb c 47 then strip_slashes r else s
  | [] => []
  end.

(** The value of the longest run of decimal digits a text begins with;
    [seen] tells that a digit has been read. *)
Fixpoint digits_prefix (s : jsstring) (acc : Z) (seen : bool) : option Z :=
  match s with
  | c :: r =>
      if is_digit c then digits_prefix r (10 * acc + (Z.of_N c - 48))%Z true
      else if seen then Some acc else None
  | [] => if seen then Some acc else None
  end.

(** [parseInt(s, 10)] as the integer it denotes, [None] for [NaN]: leading
    white space is skipped, a sign is read, then the digits up to the first
    character that is none.  The Number that JavaScript returns is this
    integer rounded to a double, which changes nothing below 2^53 and leaves
    the order of two integers as it is. *)
Definition parseInt (s : jsstring) : option Z :=
  match trimStart s with
  | 45%N :: r => option_map Z.opp (digits_prefix r 0 false)
  | 43%N :: r => digits_prefix r 0 false
  | r => digits_prefix r 0 false
  end.

(** Truthiness of a value that may be [undefined]. *)
Definition truthy_opt (x : option json) : bool :=
  match x with Some v => truthy v | None => false end.

(** [a || b] *)
Definition or_else (a b : option json) : option json :=
  if truthy_opt a then a else b.

(** [x?.k] and, on a value known to be neither [null] nor [undefined],
    [x.k] *)
Definition opt_get (x : option json) (k : jsstring) : option json :=
  match x with
  | None | Some JNull => None
  | Some v => get v k
  end.

(** [x || empty] where a text is expected: [None] stands for a truthy value
    that is no text, on which the call of a method of texts throws. *)
Definition text_or_empty (x : option json) : option jsstring :=
  match x with
  | Some (JStr s) => Some s
  | Some v => if truthy v then None else Some []
  | None => Some []
  end.

(** [String(x || empty)] for a binding of the environment, which is a text
    or is not defined. *)
Definition or_empty (x : option jsstring) : jsstring :=
  match x with Some s => s | None => [] end.

(** A binding of the environment inside a template literal. *)
Definition template_binding (x : option jsstring) : jsstring :=
  match x with Some s => s | None => js "undefined" end.

(** A property of an object literal: [JSON.stringify] leaves out a property
    whose value is [undefined]. *)
Definition field (k : string) (x : option json) : list (jsstring * json) :=
  match x with Some v => [(js k, v)] | None => [] end.

(** LINE FEED *)
Definition nl : jsstring := [10%N].

(** CROSS MARK, WHITE HEAVY CHECK MARK, BULLET and the surrogate pairs of
    LOCK, OUTBOX TRAY and ROCKET. *)
Definition cross_mark : jsstring := [10060%N].
Definition check_mark : jsstring := [9989%N].
Definition bullet : jsstring := [8226%N].
Definition lock : jsstring := [55357%N; 56594%N].
Definition outbox : jsstring := [55357%N; 56548%N].
Definition rocket : jsstring := [55357%N; 56960%N].

(** ** The store, the requests and the failures *)

(** An entry of the KV namespace: its text and, when it was put with one,
    its [expirationTtl]. *)
Record kv_entry := {
  kv_value : jsstring;
  kv_ttl : option nat
}.

Definition store := list (jsstring * kv_entry).

(** A request to the Bot API: a POST of [JSON.stringify(payload)], kept as
    the value it encodes, or a POST of the form that carries a document. *)
Inductive tg_request :=
| tg_json (url : jsstring) (payload : json)
| tg_form (url : jsstring) (chat_id : jsstring) (document : bytes)
    (filename : jsstring).

(** What comes of a request: the fetch or the reading of the answer rejects
    with an error of that message; the answer is one that the code refuses,
    [body] being the text that the code puts in its own error; or the code
    returns the parsed answer. *)
Inductive tg_answer :=
| Unreachable (message : jsstring)
| Refused (body : jsstring)
| Accepted (data : json).

Inductive bot_error :=
| TokenMissing             (* new Error("TELEGRAM_BOT_TOKEN missing") *)
| MethodMissing            (* new Error("Telegram method missing") *)
| TelegramUnreachable (message : jsstring)
| TelegramRefused (method body : jsstring)
                           (* new Error(`${method} failed: ${body}`) *)
| JsTypeError              (* a property of null or undefined, a method
                              that a value has not, an assignment to a
                              property of a primitive value *)
| JsSyntaxError            (* JSON.parse threw *)
| JsReferenceError         (* a name that is not declared *)
| GenerationFailed (e : error)
| OutsideModel.            (* the options of the session have a shape that
                              the wizard never writes, and the run of
                              [generateOutputsZip] on them is not followed *)

(** What the code calls and does not define, besides [Host]. *)
Class Platform := {
  (** the outcome of the [n]-th request made to the Bot API *)
  telegram : nat -> tg_request -> tg_answer;
  (** [JSON.parse(text)]; [None] when it throws *)
  JSON_parse_text : jsstring -> option json;
  (** [JSON.stringify(v)] *)
  JSON_stringify_text : json -> jsstring;
  (** [String(x)] for a number *)
  Number_toString : Q -> jsstring;
  (** the Number nearest to an integer beyond 2^53 as [JSON.stringify]
      shows it: a number, or [null] for an infinity *)
  double_of_integer : Z -> json;
  (** [String(e.message || e)] for an error that the platform makes *)
  host_text : bot_error -> jsstring;
  (** [new Date().toISOString()] *)
  now_iso : jsstring;
  (** [new URL(u).host]; [None] when the constructor throws *)
  URL_host : jsstring -> option jsstring
}.

(** The bindings of the worker. *)
Record BotEnv := {
  template_env : Env;
  TELEGRAM_BOT_TOKEN : option jsstring;
  ADMIN_CODE : option jsstring;
  WEBHOOK_SECRET : option jsstring;
  KV_bound : bool                  (* [env.KV] is defined *)
}.

Inductive entry_point := Router | PagesPost | HandleRequest.

(** ** What differs between the three copies of the bot *)

Record Bot := {
  generation : Variant;
  (** [handleUpdate] begins with [if (!env.KV)] *)
  guards_KV : bool;
  (** the code typed after /auth is compared with
      [String(env.ADMIN_CODE || empty).trim()] instead of [env.ADMIN_CODE] *)
  trims_admin_code : bool;
  (** [tgCall] and [tgSendDocument] trim the token, throw when it is blank
      and clean the name of the method *)
  checks_token : bool;
  (** [tgEdit] begins with [if (!messageId) return] *)
  guards_tgEdit : bool;
  (** [tgSendDocument] builds its address from [method], a name that is
      declared nowhere in its scope *)
  sendDocument_names_method : bool;
  fetching_message : jsstring;
  entry : entry_point
}.

Definition service_worker_bot : Bot := {|
  generation := service_worker;
  guards_KV := true;
  trims_admin_code := true;
  checks_token := true;
  guards_tgEdit := false;
  sendDocument_names_method := false;
  fetching_message := hourglass ++ js " Fetching template" ++ ellipsis;
  entry := Router
|}.

Definition pages_functions_bot : Bot := {|
  generation := pages_functions;
  guards_KV := false;
  trims_admin_code := false;
  checks_token := false;
  guards_tgEdit := true;
  sendDocument_names_method := false;
  fetching_message :=
    hourglass ++ js " Fetching template from GitHub" ++ ellipsis;
  entry := PagesPost
|}.

(** The functions of [src/functions/telegram.js], as they run when they are
    called.  The statement [if (!token) throw] that stands between them, at
    the top level of the module, belongs to no function and is left out. *)
Definition telegram_js_bot : Bot := {|
  generation := telegram_js;
  guards_KV := false;
  trims_admin_code := false;
  checks_token := false;
  guards_tgEdit := false;
  sendDocument_names_method := true;
  fetching_message :=
    hourglass ++ js " Fetching template from GitHub" ++ ellipsis;
  entry := HandleRequest
|}.

Definition bots : list Bot :=
  [service_worker_bot; pages_functions_bot; telegram_js_bot].

(** ** The effects of the bot

    A handler reads and writes the store, sends requests to Telegram and,
    through the pipeline, takes random numbers; a throw ends it with the
    state reached.  The store is taken to answer every call made to it and
    to keep an entry until it is deleted: the expiry of an entry is recorded
    with it, and the passing of time, which would remove it, is not followed.
    What the code writes to the console is left out. *)

Record bot_world := {
  kv : store;
  sent : list tg_request;          (* requests made to the Bot API so far *)
  randoms : nat                    (* calls of [Math.random] made so far *)
}.

Definition Act (A : Type) : Type := bot_world -> bot_world * (bot_error + A).

Definition done {A : Type} (a : A) : Act A := fun w => (w, inr a).

Definition fail {A : Type} (e : bot_error) : Act A := fun w => (w, inl e).

Definition andThen {A B : Type} (m : Act A) (f : A -> Act B) : Act B :=
  fun w =>
    match m w with
    | (w', inl e) => (w', inl e)
    | (w', inr a) => f a w'
    end.

(** [try { m } catch (e) { h(e) }]; [OutsideModel] is no error of the
    program and no handler sees it: a run that the model does not follow is
    not followed to its end. *)
Definition try_catch {A : Type} (m : Act A) (h : bot_error -> Act A)
  : Act A :=
  fun w =>
    match m w with
    | (w', inl OutsideModel) => (w', inl OutsideModel)
    | (w', inl e) => h e w'
    | (w', inr a) => (w', inr a)
    end.

(** A step that throws or returns without an effect. *)
Definition check {A : Type} (r : bot_error + A) : Act A := fun w => (w, r).

Declare Scope bot_scope.
Delimit Scope bot_scope with bot.

Notation "x <- m ;; k" := (andThen m (fun x => k))
  (at level 61, m at next level, right associativity) : bot_scope.

(** The host of the pipeline, with the progress callback that a caller hands
    in. *)
Definition with_sink (host : Host) (fails : nat -> jsstring -> bool)
  : Host := {|
  fetch := @fetch host;
  unzipSync := @unzipSync host;
  zipSync := @zipSync host;
  JSON_parse := @JSON_parse host;
  JSON_stringify := @JSON_stringify host;
  Math_random := @Math_random host;
  progressCb_fails := fails
|}.

(** ** The options of a session, as the pipeline reads them *)

(** The integer a number is, if it is one. *)
Definition integer_of (q : Q) : option Z :=
  if (Qnum q mod Zpos (Qden q) =? 0)%Z
  then Some (Qnum q / Zpos (Qden q))%Z
  else None.

(** The turns of [for (let i = 1; i <= options.count; i++)]: none when the
    count is undefined, [null] or a number below 1, the count when it is a
    positive integer.  Other values are left out. *)
Definition count_of (x : option json) : option nat :=
  match x with
  | None | Some JNull => Some 0
  | Some (JNum q) =>
      if (Qnum q <? Zpos (Qden q))%Z then Some 0
      else option_map Z.to_nat (integer_of q)
  | Some _ => None
  end.

(** A mode of the options: the pipeline only asks whether it is the text
    fixed. *)
Definition mode_of (x : option json) : jsstring :=
  match x with Some (JStr s) => s | _ => [] end.

(** The options the pipeline runs on, for the object of a session; [None]
    when a value is of a kind on which the pipeline would not run as the
    model follows it. *)
Definition options_of (o : option json) : option Options :=
  match o with
  | None | Some JNull => None
  | Some o =>
      match count_of (get o (js "count")),
            text_or_empty (get o (js "fixedFirst")),
            text_or_empty (get o (js "fixedLast")),
            text_or_empty (get o (js "text2")) with
      | Some n, Some f, Some l, Some t =>
          Some {| count := n;
                  firstMode := mode_of (get o (js "firstMode"));
                  fixedFirst := f;
                  lastMode := mode_of (get o (js "lastMode"));
                  fixedLast := l;
                  text2 := t |}
      | _, _, _, _ => None
      end
  end.

(** ** The keyboards *)

Definition button (text data : string) : json :=
  JObj [(js "text", JStr (js text)); (js "callback_data", JStr (js data))].

Definition inline_keyboard (rows : list (list json))
  : list (jsstring * json) :=
  [(js "reply_markup", JObj [(js "inline_keyboard", JArr (map JArr rows))])].

Definition count_keyboard : list (jsstring * json) :=
  inline_keyboard
    [[button "10" "count:10"; button "25" "count:25"; button "50" "count:50"];
     [button "100" "count:100"; button "Custom (1-200)" "count:custom"]].

Definition first_mode_keyboard : list (jsstring * json) :=
  inline_keyboard
    [[button "Random" "first:random"]; [button "Fixed (type)" "first:fixed"]].

Definition last_mode_keyboard : list (jsstring * json) :=
  inline_keyboard
    [[button "Random" "last:random"]; [button "Fixed (type)" "last:fixed"]].

Definition confirm_keyboard : list (jsstring * json) :=
  inline_keyboard
    [[JObj [(js "text", JStr (rocket ++ js " Generate"));
            (js "callback_data", JStr (js "do_generate"))]];
     [button "Cancel" "cancel"]].

(** The session that /gen opens. *)
Definition new_session (chatId userId : option json) : json :=
  JObj
    ([(js "step", JStr (js "count"))]
     ++ field "chatId" chatId ++ field "userId" userId
     ++ [(js "options",
          JObj [(js "count", JNum (inject_Z 10));
                (js "firstMode", JStr (js "random"));
                (js "fixedFirst", JStr []);
                (js "lastMode", JStr (js "random"));
                (js "fixedLast", JStr (js "Ahmed"));
                (js "text2", JStr (js "15/11/2025"))])]).

(** [wiz.step], which throws on [null]. *)
Definition step_of (wiz : json) : bot_error + option json :=
  match wiz with
  | JNull => inl JsTypeError
  | _ => inr (get wiz (js "step"))
  end.

(** [wiz.step = s] *)
Definition set_step (wiz : json) (s : string) : bot_error + json :=
  if is_object wiz then inr (put wiz (js "step") (JStr (js s)))
  else inl JsTypeError.

(** [wiz.options.k = v]: the object of the options is a part of the
    session, which changes with it. *)
Definition set_option (wiz : json) (k : string) (v : json)
  : bot_error + json :=
  match wiz with
  | JNull => inl JsTypeError
  | _ =>
      match get wiz (js "options") with
      | Some o =>
          if is_object o
          then inr (put wiz (js "options") (put o (js k) v))
          else inl JsTypeError
      | None => inl JsTypeError
      end
  end.

(** [wiz.options], which throws on [null]. *)
Definition options_json (wiz : json) : bot_error + option json :=
  match wiz with
  | JNull => inl JsTypeError
  | _ => inr (get wiz (js "options"))
  end.

Definition is_step (step : option json) (s : string) : bool :=
  match step with
  | Some (JStr x) => jsstring_eqb x (js s)
  | _ => false
  end.

(** ** What a caller of the webhook sends and receives *)

Record request := {
  req_method : jsstring;           (* [request.method] *)
  req_pathname : jsstring;         (* [new URL(request.url).pathname] *)
  req_secret : option jsstring;    (* the header
                                      X-Telegram-Bot-Api-Secret-Token *)
  req_json : option json           (* [request.json()]; [None] when it
                                      rejects *)
}.

Inductive http_body :=
| Text (s : jsstring)
| Json (v : json).                 (* [JSON.stringify(v, null, 2)] *)

Record http_response := {
  http_status : nat;
  http_body_of : http_body
}.

(** The handler answers, or its promise rejects. *)
Inductive outcome :=
| Responded (r : http_response)
| Rejected (e : bot_error).

Section BotCode.

Context {cm : CaseMapping} {host : Host} {platform : Platform}.
Variable bot : Bot.
Variable env : BotEnv.

Local Open Scope bot_scope.

(** [String(x)] and the value of [x] in a template literal. *)
Fixpoint ToString (v : json) : jsstring :=
  match v with
  | JNull => js "null"
  | JBool true => js "true"
  | JBool false => js "false"
  | JNum q => Number_toString q
  | JStr s => s
  | JArr items =>
      join (js ",")
        (map (fun x => match x with JNull => [] | _ => ToString x end) items)
  | JObj _ => js "[object Object]"
  end.

Definition template (x : option json) : jsstring :=
  match x with Some v => ToString v | None => js "undefined" end.

(** [String(e.message || e)] *)
Definition error_text (e : bot_error) : jsstring :=
  match e with
  | TokenMissing => js "TELEGRAM_BOT_TOKEN missing"
  | MethodMissing => js "Telegram method missing"
  | TelegramUnreachable m => m
  | TelegramRefused method body => method ++ js " failed: " ++ body
  | GenerationFailed g =>
      match error_message (generation bot) g with
      | Some m => m
      | None => host_text e
      end
  | _ => host_text e
  end.

(** *** The store *)

Definition kv_get (key : jsstring) : Act (option jsstring) := fun w =>
  if KV_bound env
  then (w, inr (option_map kv_value (assoc_get key (kv w))))
  else (w, inl JsTypeError).

Definition kv_put (key value : jsstring) (ttl : option nat) : Act unit :=
  fun w =>
    if KV_bound env
    then ({| kv := assoc_set key {| kv_value := value; kv_ttl := ttl |}
                     (kv w);
             sent := sent w; randoms := randoms w |}, inr tt)
    else (w, inl JsTypeError).

Definition kv_delete (key : jsstring) : Act unit := fun w =>
  if KV_bound env
  then ({| kv := filter (fun e => negb (jsstring_eqb key (fst e))) (kv w);
           sent := sent w; randoms := randoms w |}, inr tt)
  else (w, inl JsTypeError).

Definition auth_key (userId : option json) : jsstring :=
  js "auth:" ++ template userId.

Definition wiz_key (userId : option json) : jsstring :=
  js "wiz:" ++ template userId.

(** [(await env.KV.get(`auth:${userId}`)) === one] *)
Definition is_authed (userId : option json) : Act bool :=
  v <- kv_get (auth_key userId) ;;
  done (match v with
        | Some s => jsstring_eqb s (js "1")
        | None => false
        end).

(** [env.KV.put(`wiz:${userId}`, JSON.stringify(wiz),
    { expirationTtl: 1800 })] *)
Definition save_session (userId : option json) (wiz : json) : Act unit :=
  kv_put (wiz_key userId) (JSON_stringify_text wiz) (Some 1800).

(** *** The calls to Telegram *)

Definition api_url (token method : jsstring) : jsstring :=
  js "https://api.telegram.org/bot" ++ token ++ js "/" ++ method.

(** What a request made as the [n]-th comes to. *)
Definition post_at (n : nat) (req : tg_request) (method : jsstring)
  : list tg_request * (bot_error + json) :=
  ([req],
   match telegram n req with
   | Accepted data => inr data
   | Refused body => inl (TelegramRefused method body)
   | Unreachable m => inl (TelegramUnreachable m)
   end).

(** [tgCall(env, method, payload)] when [n] requests have been made: the
    requests it makes and what it returns. *)
Definition tgCall_at (n : nat) (method : jsstring) (payload : json)
  : list tg_request * (bot_error + json) :=
  if checks_token bot
  then
    let token := trim (or_empty (TELEGRAM_BOT_TOKEN env)) in
    if is_empty token then ([], inl TokenMissing)
    else
      let method := strip_slashes (trim method) in
      if is_empty method then ([], inl MethodMissing)
      else post_at n (tg_json (api_url token method) payload) method
  else
    post_at n
      (tg_json (api_url (template_binding (TELEGRAM_BOT_TOKEN env)) method)
         payload)
      method.

(** A step that makes requests. *)
Definition requesting {A : Type}
  (f : nat -> list tg_request * (bot_error + A)) : Act A := fun w =>
  let '(reqs, r) := f (length (sent w)) in
  ({| kv := kv w; sent := sent w ++ reqs; randoms := randoms w |}, r).

Definition tgCall (method : jsstring) (payload : json) : Act json :=
  requesting (fun n => tgCall_at n method payload).

(** [tgSend(chat_id, env, text, extra)] *)
Definition tgSend (chat_id : option json) (text : jsstring)
  (extra : list (jsstring * json)) : Act json :=
  tgCall (js "sendMessage")
    (JObj (field "chat_id" chat_id ++ [(js "text", JStr text)] ++ extra)).

Definition edit_payload (chat_id message_id : option json)
  (text : jsstring) : json :=
  JObj (field "chat_id" chat_id ++ field "message_id" message_id
        ++ [(js "text", JStr text)]).

(** [tgEdit(chat_id, message_id, env, text)] when [n] requests have been
    made. *)
Definition tgEdit_at (n : nat) (chat_id message_id : option json)
  (text : jsstring) : list tg_request * (bot_error + unit) :=
  if guards_tgEdit bot && negb (truthy_opt message_id) then ([], inr tt)
  else
    let '(reqs, r) :=
      tgCall_at n (js "editMessageText")
        (edit_payload chat_id message_id text) in
    (reqs, match r with inl e => inl e | inr _ => inr tt end).

Definition tgEdit (chat_id message_id : option json) (text : jsstring)
  : Act unit :=
  requesting (fun n => tgEdit_at n chat_id message_id text).

(** [tgAnswerCb(id, env, text)] *)
Definition tgAnswerCb (id : option json) (text : jsstring) : Act json :=
  tgCall (js "answerCallbackQuery")
    (JObj (field "callback_query_id" id
           ++ [(js "text", JStr text); (js "show_alert", JBool false)])).

(** [tgSendDocument(chatId, env, bytesU8, filename)] when [n] requests have
    been made, in a copy whose function names nothing undeclared. *)
Definition tgSendDocument_at (n : nat) (chatId : option json)
  (bytesU8 : bytes) (filename : jsstring)
  : list tg_request * (bot_error + json) :=
  if checks_token bot
  then
    let token := trim (or_empty (TELEGRAM_BOT_TOKEN env)) in
    if is_empty token then ([], inl TokenMissing)
    else post_at n
           (tg_form (api_url token (js "sendDocument"))
              (template chatId) bytesU8 filename)
           (js "sendDocument")
  else
    post_at n
      (tg_form
         (api_url (template_binding (TELEGRAM_BOT_TOKEN env))
            (js "sendDocument"))
         (template chatId) bytesU8 filename)
      (js "sendDocument").

(** [tgSendDocument(chatId, env, bytesU8, filename)] *)
Definition tgSendDocument (chatId : option json) (bytesU8 : bytes)
  (filename : jsstring) : Act json :=
  if sendDocument_names_method bot then fail JsReferenceError
  else requesting (fun n => tgSendDocument_at n chatId bytesU8 filename).

(** *** The menus *)

Definition sendCountMenu (chatId : option json) : Act json :=
  tgSend chatId (js "Choose how many files:") count_keyboard.

Definition sendFirstModeMenu (chatId : option json) : Act json :=
  tgSend chatId (js "First name mode:") first_mode_keyboard.

Definition sendLastModeMenu (chatId : option json) : Act json :=
  tgSend chatId (js "Last name mode (surname):") last_mode_keyboard.

(** The text of [sendConfirm]. *)
Definition summary (options : json) : jsstring :=
  let shown (mode name : string) :=
    template (get options (js mode))
    ++ (match get options (js mode) with
        | Some (JStr m) =>
            if jsstring_eqb m (js "fixed")
            then js " (" ++ template (get options (js name)) ++ js ")"
            else []
        | _ => []
        end) in
  check_mark ++ js " Ready" ++ nl
  ++ bullet ++ js " count: " ++ template (get options (js "count")) ++ nl
  ++ bullet ++ js " first: "
  ++ shown "firstMode"%string "fixedFirst"%string ++ nl
  ++ bullet ++ js " last: "
  ++ shown "lastMode"%string "fixedLast"%string ++ nl
  ++ bullet ++ js " text2: " ++ template (get options (js "text2"))
  ++ nl ++ nl ++ js "Press Generate:".

(** [sendConfirm(chatId, env, options)]; reading a property of options that
    are [null] or [undefined] throws. *)
Definition sendConfirm (chatId : option json) (options : option json)
  : Act json :=
  match options with
  | None | Some JNull => fail JsTypeError
  | Some o => tgSend chatId (summary o) confirm_keyboard
  end.

(** *** The generation *)

(** The progress callback that [onCallback] hands to [generateOutputsZip],
    when [n] requests have been made. *)
Definition progress_at (chatId statusMsgId : option json) (n : nat)
  (t : jsstring) : list tg_request * (bot_error + unit) :=
  if truthy_opt statusMsgId then tgEdit_at n chatId statusMsgId t
  else ([], inr tt).

(** The requests of the calls of the callback with the messages [ts], the
    first of them made when [n] requests have been made. *)
Fixpoint replay (chatId statusMsgId : option json) (n : nat)
  (ts : list jsstring) : list tg_request :=
  match ts with
  | [] => []
  | t :: r =>
      let reqs := fst (progress_at chatId statusMsgId n t) in
      reqs ++ replay chatId statusMsgId (n + length reqs) r
  end.

(** [generateOutputsZip(env, options, async (t) => { if (statusMsgId) await
    tgEdit(chatId, statusMsgId, env, t); })]: the pipeline runs with the
    callback that edits the status message; a failure of the callback is the
    failure of its last call. *)
Definition run_pipeline (chatId statusMsgId : option json)
  (options : Options) : Act bytes := fun w =>
  let n := length (sent w) in
  let fails := fun k t =>
    match snd (progress_at chatId statusMsgId (n + k) t) with
    | inl _ => true
    | inr _ => false
    end in
  let '(g, res) :=
    @generateOutputsZip cm (with_sink host fails) (generation bot)
      (template_env env) options
      {| random_calls := randoms w; notified := [] |} in
  let w' := {| kv := kv w;
               sent := sent w ++ replay chatId statusMsgId n (notified g);
               randoms := random_calls g |} in
  match res with
  | inr zip => (w', inr zip)
  | inl SinkFailure =>
      (w', inl (match rev (notified g) with
                | t :: r =>
                    match snd (progress_at chatId statusMsgId
                                 (n + length r) t) with
                    | inl e => e
                    | inr _ => GenerationFailed SinkFailure
                    end
                | [] => GenerationFailed SinkFailure
                end))
  | inl e => (w', inl (GenerationFailed e))
  end.

(** The branch [do_generate] of [onCallback]. *)
Definition do_generate (cbq_id chatId userId : option json) (wiz : json)
  : Act unit :=
  _ <- tgAnswerCb cbq_id (js "Generating" ++ ellipsis) ;;
  status <- tgSend chatId (fetching_message bot) [] ;;
  let statusMsgId := opt_get (opt_get (Some status) (js "result"))
                       (js "message_id") in
  try_catch
    (o <- check (options_json wiz) ;;
     options <- check (match options_of o with
                       | Some options => inr options
                       | None => inl OutsideModel
                       end) ;;
     zipBytes <- run_pipeline chatId statusMsgId options ;;
     _ <- tgEdit chatId statusMsgId
            (outbox ++ js " Uploading outputs.zip " ++ ellipsis) ;;
     _ <- tgSendDocument chatId zipBytes (js "outputs.zip") ;;
     _ <- tgEdit chatId statusMsgId (check_mark ++ js " Done!") ;;
     kv_delete (wiz_key userId))
    (fun e =>
       tgEdit chatId statusMsgId
         (cross_mark ++ js " Error: " ++ error_text e)).

(** *** The conversation *)

(** The value that [wiz.options.count = parseInt(v, 10)] leaves in the
    session, as [JSON.stringify] shows it: [null] for [NaN]. *)
Definition parsed_count (v : jsstring) : json :=
  match parseInt v with
  | Some z =>
      if (Z.abs z <=? 2 ^ 53)%Z then JNum (inject_Z z)
      else double_of_integer z
  | None => JNull
  end.

(** The branches of [onCallback] on the datum of the button, once the
    session is read. *)
Definition callback_step (id chatId userId : option json) (data : jsstring)
  (wiz : json) : Act unit :=
  let v := nth 1 (split_on 58%N data) [] in
  if startsWith (js "count:") data
  then
    if jsstring_eqb v (js "custom")
    then wiz <- check (set_step wiz "custom_count") ;;
         _ <- save_session userId wiz ;;
         _ <- tgAnswerCb id (js "OK") ;;
         _ <- tgSend chatId (js "Type a number (1-200):") [] ;;
         done tt
    else wiz <- check (set_option wiz "count" (parsed_count v)) ;;
         wiz <- check (set_step wiz "first_mode") ;;
         _ <- save_session userId wiz ;;
         _ <- tgAnswerCb id (js "OK") ;;
         _ <- sendFirstModeMenu chatId ;;
         done tt
  else if startsWith (js "first:") data
  then
    wiz <- check (set_option wiz "firstMode" (JStr v)) ;;
    if jsstring_eqb v (js "fixed")
    then wiz <- check (set_step wiz "fixed_first_input") ;;
         _ <- save_session userId wiz ;;
         _ <- tgAnswerCb id (js "OK") ;;
         _ <- tgSend chatId (js "Type FIXED first name:") [] ;;
         done tt
    else wiz <- check (set_step wiz "last_mode") ;;
         _ <- save_session userId wiz ;;
         _ <- tgAnswerCb id (js "OK") ;;
         _ <- sendLastModeMenu chatId ;;
         done tt
  else if startsWith (js "last:") data
  then
    wiz <- check (set_option wiz "lastMode" (JStr v)) ;;
    if jsstring_eqb v (js "fixed")
    then wiz <- check (set_step wiz "fixed_last_input") ;;
         _ <- save_session userId wiz ;;
         _ <- tgAnswerCb id (js "OK") ;;
         _ <- tgSend chatId
                (js "Type FIXED last name (surname):" ++ nl
                 ++ js "(or type 'random' to switch)") [] ;;
         done tt
    else wiz <- check (set_step wiz "confirm") ;;
         _ <- save_session userId wiz ;;
         _ <- tgAnswerCb id (js "OK") ;;
         o <- check (options_json wiz) ;;
         _ <- sendConfirm chatId o ;;
         done tt
  else if jsstring_eqb data (js "do_generate")
  then do_generate id chatId userId wiz
  else if jsstring_eqb data (js "cancel")
  then _ <- kv_delete (wiz_key userId) ;;
       _ <- tgAnswerCb id (js "Cancelled") ;;
       _ <- tgSend chatId (js "Cancelled. Send /gen again anytime.") [] ;;
       done tt
  else _ <- tgAnswerCb id (js "OK") ;;
       done tt.

(** [onCallback(cbq, env)]; [cbq] is a truthy value. *)
Definition onCallback (cbq : json) : Act unit :=
  let data := text_or_empty (get cbq (js "data")) in
  let chatId := opt_get (opt_get (get cbq (js "message")) (js "chat"))
                  (js "id") in
  let userId := opt_get (get cbq (js "from")) (js "id") in
  let id := get cbq (js "id") in
  authed <- is_authed userId ;;
  if negb authed
  then _ <- tgAnswerCb id (js "Locked.") ;;
       _ <- tgSend chatId (lock ++ js " Use /auth first.") [] ;;
       done tt
  else
    wizRaw <- kv_get (wiz_key userId) ;;
    if is_empty (or_empty wizRaw)
    then _ <- tgAnswerCb id (js "Session expired.") ;;
         _ <- tgSend chatId (js "Session expired. Send /gen again.") [] ;;
         done tt
    else
      wiz <- check (match JSON_parse_text (or_empty wizRaw) with
                    | Some wiz => inr wiz
                    | None => inl JsSyntaxError
                    end) ;;
      data <- check (match data with
                     | Some d => inr d
                     | None => inl JsTypeError
                     end) ;;
      callback_step id chatId userId data wiz.

(** The admin code that the code typed after /auth is compared with;
    [None] is [undefined], which no text equals. *)
Definition admin_code : option jsstring :=
  if trims_admin_code bot then Some (trim (or_empty (ADMIN_CODE env)))
  else ADMIN_CODE env.

(** The steps of the wizard that take a typed text. *)
Definition typed_step (chatId userId : option json) (text : jsstring)
  (wiz : json) (otherwise : Act unit) : Act unit :=
  step <- check (step_of wiz) ;;
  if is_step step "custom_count"
  then
    match parseInt (trim text) with
    | Some n =>
        if ((n <? 1) || (200 <? n))%Z
        then _ <- tgSend chatId (js "Enter a number between 1 and 200.") [] ;;
             done tt
        else wiz <- check (set_option wiz "count" (JNum (inject_Z n))) ;;
             wiz <- check (set_step wiz "first_mode") ;;
             _ <- save_session userId wiz ;;
             _ <- sendFirstModeMenu chatId ;;
             done tt
    | None =>
        _ <- tgSend chatId (js "Enter a number between 1 and 200.") [] ;;
        done tt
    end
  else if is_step step "fixed_first_input"
  then
    let val := trim text in
    if is_empty val
    then _ <- tgSend chatId (js "Type a first name (e.g., Ahsan).") [] ;;
         done tt
    else wiz <- check (set_option wiz "fixedFirst"
                         (JStr (titleCase (first_by_index (generation bot))
                                  val))) ;;
         wiz <- check (set_step wiz "last_mode") ;;
         _ <- save_session userId wiz ;;
         _ <- sendLastModeMenu chatId ;;
         done tt
  else if is_step step "fixed_last_input"
  then
    let val := trim text in
    if is_empty val
    then _ <- tgSend chatId
                (js "Type a last name (surname) (e.g., Ahmed / Das).") [] ;;
         done tt
    else if jsstring_eqb (toLowerCase val) (js "random")
    then wiz <- check (set_option wiz "lastMode" (JStr (js "random"))) ;;
         wiz <- check (set_step wiz "confirm") ;;
         _ <- save_session userId wiz ;;
         o <- check (options_json wiz) ;;
         _ <- sendConfirm chatId o ;;
         done tt
    else wiz <- check (set_option wiz "fixedLast"
                         (JStr (titleCase (first_by_index (generation bot))
                                  val))) ;;
         wiz <- check (set_step wiz "confirm") ;;
         _ <- save_session userId wiz ;;
         o <- check (options_json wiz) ;;
         _ <- sendConfirm chatId o ;;
         done tt
  else otherwise.

(** [handleUpdate] on a message: [msg] is a truthy value. *)
Definition on_message (msg : option json) : Act unit :=
  let chatId := opt_get (opt_get msg (js "chat")) (js "id") in
  let userId := opt_get (opt_get msg (js "from")) (js "id") in
  text <- check (match text_or_empty (opt_get msg (js "text")) with
                 | Some t => inr t
                 | None => inl JsTypeError
                 end) ;;
  if startsWith (js "/start") text
  then _ <- tgSend chatId
              (js "Hi! Use /auth <admin_code> to unlock." ++ nl
               ++ js "Then /gen") [] ;;
       done tt
  else if startsWith (js "/auth") text
  then
    let code := nth 1 (split_ws text) [] in
    if negb (is_empty code)
       && match admin_code with
          | Some a => jsstring_eqb code a
          | None => false
          end
    then _ <- kv_put (auth_key userId) (js "1") None ;;
         _ <- tgSend chatId
                (check_mark ++ js " Authorized." ++ nl
                 ++ js "Use /gen to generate.") [] ;;
         done tt
    else _ <- tgSend chatId (cross_mark ++ js " Wrong code.") [] ;;
         done tt
  else
    authed <- is_authed userId ;;
    if negb authed
    then _ <- tgSend chatId
                (lock ++ js " Locked. Use /auth <admin_code> first.") [] ;;
         done tt
    else if startsWith (js "/logout") text
    then _ <- kv_delete (auth_key userId) ;;
         _ <- kv_delete (wiz_key userId) ;;
         _ <- tgSend chatId (check_mark ++ js " Logged out.") [] ;;
         done tt
    else if startsWith (js "/gen") text
    then _ <- save_session userId (new_session chatId userId) ;;
         _ <- sendCountMenu chatId ;;
         done tt
    else
      let commands :=
        _ <- tgSend chatId
               (js "Commands:" ++ nl ++ js "/auth <code>" ++ nl
                ++ js "/gen" ++ nl ++ js "/logout") [] ;;
        done tt in
      wizRaw <- kv_get (wiz_key userId) ;;
      if is_empty (or_empty wizRaw) then commands
      else
        wiz <- check (match JSON_parse_text (or_empty wizRaw) with
                      | Some wiz => inr wiz
                      | None => inl JsSyntaxError
                      end) ;;
        typed_step chatId userId text wiz commands.

(** The notice of the service-worker copy when no store is bound. *)
Definition kv_notice : jsstring :=
  cross_mark ++ js " KV not bound. Please bind KV namespace as 'KV'"
  ++ js " in Worker settings.".

(** [handleUpdate(update, env)]; [update] is a truthy value. *)
Definition handleUpdate (update : json) : Act unit :=
  let msg := or_else (get update (js "message"))
               (get update (js "edited_message")) in
  let cbq := get update (js "callback_query") in
  if guards_KV bot && negb (KV_bound env)
  then
    if truthy_opt (opt_get (opt_get msg (js "chat")) (js "id"))
    then _ <- tgSend (opt_get (opt_get msg (js "chat")) (js "id"))
                kv_notice [] ;;
         done tt
    else done tt
  else
    match cbq with
    | Some c =>
        if truthy c then onCallback c
        else if truthy_opt msg then on_message msg else done tt
    | None => if truthy_opt msg then on_message msg else done tt
    end.

(** *** The webhook *)

Definition respond (st : nat) (s : string) : outcome :=
  Responded {| http_status := st; http_body_of := Text (js s) |}.

(** Whether a binding holds a text that is not blank:
    [!!String(x || empty).trim()]. *)
Definition is_set (x : option jsstring) : bool :=
  negb (is_empty (trim (or_empty x))).

Definition number (n : nat) : json := JNum (inject_Z (Z.of_nat n)).

(** The object that /debug shows in the service-worker copy. *)
Definition debug_of_router : json :=
  let token := trim (or_empty (TELEGRAM_BOT_TOKEN env)) in
  let template := trim (or_empty (TEMPLATE_URL (template_env env))) in
  JObj [(js "ok", JBool true);
        (js "hasKV", JBool (KV_bound env));
        (js "hasToken", JBool (negb (is_empty token)));
        (js "tokenLen", number (length token));
        (js "tokenStarts",
         JStr (if is_empty token then [] else firstn 6 token));
        (js "hasAdmin", JBool (is_set (ADMIN_CODE env)));
        (js "hasSecret", JBool (is_set (WEBHOOK_SECRET env)));
        (js "hasTemplate", JBool (negb (is_empty template)));
        (js "templateHost",
         JStr (if is_empty template then []
               else match URL_host template with
                    | Some h => h
                    | None => []
                    end));
        (js "now", JStr now_iso)].

(** The object that /debug shows in [src/functions/telegram.js]. *)
Definition debug_of_handleRequest : json :=
  let token := trim (or_empty (TELEGRAM_BOT_TOKEN env)) in
  JObj [(js "hasToken", JBool (negb (is_empty token)));
        (js "tokenLen", number (length token));
        (js "tokenStarts", JStr (firstn 6 token));
        (js "hasKV", JBool (KV_bound env));
        (js "hasAdmin", JBool (is_set (ADMIN_CODE env)));
        (js "hasTemplate",
         JBool (is_set (TEMPLATE_URL (template_env env))));
        (js "hasSecret", JBool (is_set (WEBHOOK_SECRET env)))].

(** [env.WEBHOOK_SECRET && secret !== env.WEBHOOK_SECRET] *)
Definition secret_differs (secret : option jsstring) : bool :=
  match WEBHOOK_SECRET env with
  | Some s =>
      negb (is_empty s)
      && negb (match secret with
               | Some h => jsstring_eqb h s
               | None => false
               end)
  | None => false
  end.

(** The test of the service-worker copy: the secret counts when it is not
    blank, and a header that is missing or empty never passes. *)
Definition secret_denied (secret : option jsstring) : bool :=
  is_set (WEBHOOK_SECRET env)
  && (is_empty (or_empty secret)
      || negb (jsstring_eqb (or_empty secret)
                 (or_empty (WEBHOOK_SECRET env)))).

(** [router(request)] of the service-worker copy. *)
Definition router (req : request) : bot_world -> bot_world * outcome :=
  fun w =>
    if jsstring_eqb (req_pathname req) (js "/debug")
    then (w, Responded {| http_status := 200;
                          http_body_of := Json debug_of_router |})
    else if jsstring_eqb (req_method req) (js "GET")
    then (w, respond 200 "OK")
    else if negb (jsstring_eqb (req_method req) (js "POST"))
    then (w, respond 200 "OK")
    else if secret_denied (req_secret req)
    then (w, respond 403 "forbidden")
    else
      match req_json req with
      | Some update =>
          if truthy update
          then match handleUpdate update w with
               | (w', inr _) => (w', respond 200 "OK")
               | (w', inl OutsideModel) => (w', Rejected OutsideModel)
               | (w', inl _) => (w', respond 500 "Internal Error")
               end
          else (w, respond 400 "bad request")
      | None => (w, respond 400 "bad request")
      end.

(** [onRequestPost(context)] of the Pages-Functions copy: the update is
    handled under [waitUntil], and the answer does not wait for it. *)
Definition onRequestPost (req : request)
  : bot_world -> bot_world * outcome :=
  fun w =>
    if secret_differs (req_secret req)
    then (w, respond 403 "forbidden")
    else
      match req_json req with
      | Some update =>
          if truthy update
          then (fst (handleUpdate update w), respond 200 "OK")
          else (w, respond 400 "bad request")
      | None => (w, respond 400 "bad request")
      end.

(** [handleRequest(request, env)] of [src/functions/telegram.js]. *)
Definition handleRequest (req : request)
  : bot_world -> bot_world * outcome :=
  fun w =>
    if jsstring_eqb (req_pathname req) (js "/debug")
    then (w, Responded {| http_status := 200;
                          http_body_of := Json debug_of_handleRequest |})
    else if negb (jsstring_eqb (req_method req) (js "POST"))
    then (w, respond 200 "OK")
    else if secret_differs (req_secret req)
    then (w, respond 403 "forbidden")
    else
      match req_json req with
      | Some update =>
          if truthy update
          then match handleUpdate update w with
               | (w', inr _) => (w', respond 200 "OK")
               | (w', inl e) => (w', Rejected e)
               end
          else (w, respond 400 "bad request")
      | None => (w, respond 400 "bad request")
      end.

(** The handler of the copy. *)
Definition webhook (req : request) : bot_world -> bot_world * outcome :=
  match entry bot with
  | Router => router req
  | PagesPost => onRequestPost req
  | HandleRequest => handleRequest req
  end.

End BotCode.

(** ** What an update is about *)

(** The callback query of an update, if it holds one: [handleUpdate] looks
    at it first. *)
Definition callback_of (update : json) : option json :=
  match get update (js "callback_query") with
  | Some c => if truthy c then Some c else None
  | None => None
  end.

(** The message of an update that holds no callback query. *)
Definition message_of (update : json) : option json :=
  match callback_of update with
  | Some _ => None
  | None =>
      let msg := or_else (get update (js "message"))
                   (get update (js "edited_message")) in
      if truthy_opt msg then msg else None
  end.

(** The user an update comes from: [cbq.from?.id] or [msg.from?.id]. *)
Definition user_of (update : json) : option json :=
  match callback_of update with
  | Some c => opt_get (get c (js "from")) (js "id")
  | None => opt_get (opt_get (message_of update) (js "from")) (js "id")
  end.

(** The chat an update comes from: [cbq.message?.chat?.id] or
    [msg.chat?.id]. *)
Definition chat_of (update : json) : option json :=
  match callback_of update with
  | Some c => opt_get (opt_get (get c (js "message")) (js "chat")) (js "id")
  | None => opt_get (opt_get (message_of update) (js "chat")) (js "id")
  end.

(** The text of the message of an update, [msg.text || empty], when the
    update holds a message and the text is one. *)
Definition text_of (update : json) : option jsstring :=
  match message_of update with
  | Some msg => text_or_empty (get msg (js "text"))
  | None => None
  end.

(** The text under which the store keeps that a user is authorized. *)
Definition authorized (w : bot_world) (key : jsstring) : bool :=
  match assoc_get key (kv w) with
  | Some e => jsstring_eqb (kv_value e) (js "1")
  | None => false
  end.

(** A request that posts a message or an answer of the text [text], and no
    document. *)
Definition says (text : jsstring) (req : tg_request) : Prop :=
  exists url payload,
    req = tg_json url payload
    /\ get payload (js "text") = Some (JStr text).

(** A step that, whatever comes of it, leaves the world in the relation [R]
    to the world it started from. *)
Definition keeps (R : bot_world -> bot_world -> Prop) {A : Type}
  (m : Act A) : Prop :=
  forall w w' r, m w = (w', r) -> R w w'.

(** The store and the count of random numbers are the same. *)
Definition quiet (w w' : bot_world) : Prop :=
  kv w' = kv w /\ randoms w' = randoms w.

(** The store differs under the two keys [a] and [s] at most; what is new
    under [a] is the text of an authorization, put without an expiry, and
    what is new under [s] has an expiry of 1800 seconds. *)
Definition touches_only (a s : jsstring) (w w' : bot_world) : Prop :=
  (forall key, key <> a -> key <> s ->
     assoc_get key (kv w') = assoc_get key (kv w))
  /\ (forall e, assoc_get a (kv w') = Some e ->
        assoc_get a (kv w) = Some e
        \/ e = {| kv_value := js "1"; kv_ttl := None |})
  /\ (forall e, assoc_get s (kv w') = Some e ->
        assoc_get s (kv w) = Some e \/ kv_ttl e = Some 1800).

(** The notices of a locked bot. *)
Definition locked_notice : jsstring :=
  lock ++ js " Locked. Use /auth <admin_code> first.".

Definition locked_answer : jsstring := js "Locked.".

Definition locked_callback_notice : jsstring := lock ++ js " Use /auth first.".

(** The session that the store holds for a user: the value that the text
    under the key of the user parses to, when that text is not empty. *)
Definition session {platform : Platform} (w : bot_world)
  (userId : option json) : option json :=
  match option_map kv_value
          (assoc_get (wiz_key userId) (kv w)) with
  | Some (c :: raw) => JSON_parse_text (c :: raw)
  | _ => None
  end.

(** The text of a message that begins with none of the commands. *)
Definition plain_text (update : json) : option jsstring :=
  match text_of update with
  | Some text =>
      if startsWith (js "/start") text || startsWith (js "/auth") text
         || startsWith (js "/logout") text || startsWith (js "/gen") text
      then None
      else Some text
  | None => None
  end.

(** The entry that [handleUpdate] and [onCallback] write for a session. *)
Definition stored {platform : Platform} (wiz : json) : kv_entry :=
  {| kv_value := JSON_stringify_text wiz; kv_ttl := Some 1800 |}.

(** The session [wiz] with the option [k] set to [v] and the step set to
    [step]. *)
Definition advanced (wiz : json) (k : string) (v : json) (step : string)
  : json :=
  put (put wiz (js "options")
         (put (match get wiz (js "options") with
               | Some o => o
               | None => JNull
               end) (js k) v))
    (js "step") (JStr (js step)).

(** A request that carries a document. *)
Definition carries_document (req : tg_request) : bool :=
  match req with
  | tg_form _ _ _ _ => true
  | tg_json _ _ => false
  end.

(** The random numbers are as many as before and the requests made since
    carry no document. *)
Definition draws_and_uploads_nothing (w w' : bot_world) : Prop :=
  randoms w' = randoms w
  /\ exists reqs,
       sent w' = sent w ++ reqs
       /\ Forall (fun req => carries_document req = false) reqs.

(** The text that the store holds for the session of a user, empty when it
    holds none. *)
Definition session_text {platform : Platform} (w : bot_world)
  (userId : option json) : jsstring :=
  or_empty (option_map kv_value (assoc_get (wiz_key userId) (kv w))).

(** A session that the platform writes as a text that is not empty and reads
    back from it. *)
Definition reads_back {platform : Platform} (wiz : json) : Prop :=
  JSON_stringify_text wiz <> []
  /\ JSON_parse_text (JSON_stringify_text wiz) = Some wiz.

(** The list of the commands. *)
Definition commands_notice : jsstring :=
  js "Commands:" ++ nl ++ js "/auth <code>" ++ nl ++ js "/gen" ++ nl
  ++ js "/logout".

(** [data.split(":")[1]] for the datum of a button that holds a colon. *)
Definition piece (data : jsstring) : jsstring :=
  nth 1 (split_on 58%N data) [].

(** ** A platform to run the bot on *)

(** A codec for the texts of the store: a value is written as the code units
    of its parts, each after a mark that tells its kind and its size, and
    read back from them. *)
Fixpoint encode (v : json) : jsstring :=
  match v with
  | JNull => [0%N]
  | JBool b => [1%N; if b then 1%N else 0%N]
  | JNum q =>
      [2%N; if (Qnum q <? 0)%Z then 1%N else 0%N; Z.to_N (Z.abs (Qnum q));
       Npos (Qden q)]
  | JStr s => 3%N :: N.of_nat (length s) :: s
  | JArr items => 4%N :: N.of_nat (length items) :: flat_map encode items
  | JObj fields =>
      5%N :: N.of_nat (length fields)
      :: flat_map (fun kv => N.of_nat (length (fst kv)) :: fst kv
                             ++ encode (snd kv)) fields
  end.

(** [n] values read one after the other by [dec]. *)
Fixpoint read_items (dec : jsstring -> option (json * jsstring)) (n : nat)
  (s : jsstring) : option (list json * jsstring) :=
  match n with
  | 0 => Some ([], s)
  | S m =>
      match dec s with
      | Some (v, r) =>
          match read_items dec m r with
          | Some (vs, r') => Some (v :: vs, r')
          | None => None
          end
      | None => None
      end
  end.

Fixpoint read_fields (dec : jsstring -> option (json * jsstring)) (n : nat)
  (s : jsstring) : option (list (jsstring * json) * jsstring) :=
  match n, s with
  | 0, _ => Some ([], s)
  | S m, len :: r =>
      match dec (skipn (N.to_nat len) r) with
      | Some (v, r') =>
          match read_fields dec m r' with
          | Some (fs, r'') => Some ((firstn (N.to_nat len) r, v) :: fs, r'')
          | None => None
          end
      | None => None
      end
  | S _, [] => None
  end.

Fixpoint decode (fuel : nat) (s : jsstring) : option (json * jsstring) :=
  match fuel with
  | 0 => None
  | S fuel' =>
      match s with
      | 0%N :: r => Some (JNull, r)
      | 1%N :: b :: r => Some (JBool (N.eqb b 1), r)
      | 2%N :: sign :: n :: Npos d :: r =>
          Some (JNum (Qmake (if N.eqb sign 1 then Z.opp (Z.of_N n)
                             else Z.of_N n) d), r)
      | 3%N :: len :: r =>
          Some (JStr (firstn (N.to_nat len) r), skipn (N.to_nat len) r)
      | 4%N :: len :: r =>
          match read_items (decode fuel') (N.to_nat len) r with
          | Some (items, r') => Some (JArr items, r')
          | None => None
          end
      | 5%N :: len :: r =>
          match read_fields (decode fuel') (N.to_nat len) r with
          | Some (fields, r') => Some (JObj fields, r')
          | None => None
          end
      | _ => None
      end
  end.

(** The answer of Telegram to a request it accepts. *)
Definition accepted_answer : json :=
  JObj [(js "ok", JBool true);
        (js "result", JObj [(js "message_id", JNum (inject_Z 77))])].

(** A platform whose Telegram refuses the requests that [refuses] tells and
    accepts the others, and whose codec is the one above. *)
Definition sample_platform (refuses : nat -> bool) : Platform := {|
  telegram := fun n _ =>
    if refuses n then Refused (js "{}") else Accepted accepted_answer;
  JSON_parse_text := fun s =>
    match decode (S (length s)) s with
    | Some (v, []) => Some v
    | _ => None
    end;
  JSON_stringify_text := encode;
  Number_toString := fun q =>
    (if (Qnum q <? 0)%Z then js "-" else [])
    ++ String_of_nat (Z.to_nat (Z.abs (Qnum q) / Zpos (Qden q)));
  double_of_integer := fun _ => JNull;
  host_text := fun _ => js "Error";
  now_iso := js "2025-11-15T00:00:00.000Z";
  URL_host := fun u =>
    if startsWith (js "https://") u
    then Some (hd [] (split_on 47%N (skipn 8 u)))
    else None
|}.

Definition willing_platform : Platform := sample_platform (fun _ => false).

(** Bindings of a worker that is set up. *)
Definition sample_bot_env : BotEnv := {|
  template_env := sample_env;
  TELEGRAM_BOT_TOKEN := Some (js "123456:ABCDEF");
  ADMIN_CODE := Some (js "open-sesame");
  WEBHOOK_SECRET := Some (js "s3cret");
  KV_bound := true
|}.

(** A user and a chat. *)
Definition sample_user : json := JNum (inject_Z 5).
Definition sample_chat : json := JNum (inject_Z 9).

(** The update of a message of that user with the text [text]. *)
Definition message_update (text : string) : json :=
  JObj [(js "update_id", JNum (inject_Z 1));
        (js "message",
         JObj [(js "chat", JObj [(js "id", sample_chat)]);
               (js "from", JObj [(js "id", sample_user)]);
               (js "text", JStr (js text))])].

(** A press of the button of datum [data] by that user, and the update
    that brings it. *)
Definition sample_press (data : string) : json :=
  JObj [(js "id", JStr (js "cb1"));
        (js "from", JObj [(js "id", sample_user)]);
        (js "message", JObj [(js "chat", JObj [(js "id", sample_chat)])]);
        (js "data", JStr (js data))].

Definition callback_update (data : string) : json :=
  JObj [(js "update_id", JNum (inject_Z 2));
        (js "callback_query", sample_press data)].

Definition empty_world : bot_world :=
  {| kv := []; sent := []; randoms := 0 |}.

(** The store after [sample_user] has been authorized. *)
Definition authorized_world : bot_world :=
  {| kv := [(js "auth:5", {| kv_value := js "1"; kv_ttl := None |})];
     sent := []; randoms := 0 |}.

(** The store when the session of [sample_user] is [wiz]. *)
Definition world_with_session (wiz : json) : bot_world :=
  {| kv := [(js "auth:5", {| kv_value := js "1"; kv_ttl := None |});
            (js "wiz:5", {| kv_value := encode wiz; kv_ttl := Some 1800 |})];
     sent := []; randoms := 0 |}.

(** The session of [sample_user] at the step [step]. *)
Definition session_at (step : string) : json :=
  put (new_session (Some sample_chat) (Some sample_user)) (js "step")
    (JStr (js step)).

Definition webhook_request (secret : option jsstring) (update : json)
  : request := {|
  req_method := js "POST";
  req_pathname := js "/";
  req_secret := secret;
  req_json := Some update
|}.

(** The session of [sample_user] when the wizard has come to the
    confirmation, for a batch of [n] units. *)
Definition confirmed_session (n : Z) : json :=
  advanced (session_at "confirm") "count" (JNum (inject_Z n)) "confirm".

(** Bindings as [sample_bot_env] with other secrets of the same shape. *)
Definition other_bot_env : BotEnv := {|
  template_env := sample_env;
  TELEGRAM_BOT_TOKEN := Some (js "123456:UVWXYZ");
  ADMIN_CODE := Some (js "abracadabra");
  WEBHOOK_SECRET := Some (js "hunter2");
  KV_bound := true
|}.

(** Bindings of a worker to which no store is bound. *)
Definition storeless_bot_env : BotEnv := {|
  template_env := sample_env;
  TELEGRAM_BOT_TOKEN := Some (js "123456:ABCDEF");
  ADMIN_CODE := Some (js "open-sesame");
  WEBHOOK_SECRET := Some (js "s3cret");
  KV_bound := false
|}.

(** Bindings of a worker whose template has no address. *)
Definition templateless_bot_env : BotEnv := {|
  template_env := {| TEMPLATE_URL := None |};
  TELEGRAM_BOT_TOKEN := Some (js "123456:ABCDEF");
  ADMIN_CODE := Some (js "open-sesame");
  WEBHOOK_SECRET := Some (js "s3cret");
  KV_bound := true
|}.

(** Bindings of a worker to which no token is bound. *)
Definition tokenless_bot_env : BotEnv := {|
  template_env := sample_env;
  TELEGRAM_BOT_TOKEN := None;
  ADMIN_CODE := Some (js "open-sesame");
  WEBHOOK_SECRET := Some (js "s3cret");
  KV_bound := true
|}.

(** The text elodie, with E ACUTE (U+00E9) as its first letter, and its
    title case under [latin1_case]. *)
Definition sample_first_name : jsstring :=
  [233; 108; 111; 100; 105; 101]%N.

Definition sample_first_name_stored : jsstring :=
  [201; 108; 111; 100; 105; 101]%N.

(** The options that /gen sets. *)
Definition default_fields : list (jsstring * json) :=
  [(js "count", JNum (inject_Z 10));
   (js "firstMode", JStr (js "random"));
   (js "fixedFirst", JStr []);
   (js "lastMode", JStr (js "random"));
   (js "fixedLast", JStr (js "Ahmed"));
   (js "text2", JStr (js "15/11/2025"))].

(** The text of the confirmation when both names are fixed: the count and
    the date as texts, and the two names. *)
Definition fixed_confirmation (count text2 first last : jsstring)
  : jsstring :=
  check_mark ++ js " Ready" ++ nl
  ++ bullet ++ js " count: " ++ count ++ nl
  ++ bullet ++ js " first: fixed (" ++ first ++ js ")" ++ nl
  ++ bullet ++ js " last: fixed (" ++ last ++ js ")" ++ nl
  ++ bullet ++ js " text2: " ++ text2
  ++ nl ++ nl ++ js "Press Generate:".

(** The update of a message of [sample_user] with the text [text], given by
    its code units. *)
Definition text_update (text : jsstring) : json :=
  JObj [(js "update_id", JNum (inject_Z 1));
        (js "message",
         JObj [(js "chat", JObj [(js "id", sample_chat)]);
               (js "from", JObj [(js "id", sample_user)]);
               (js "text", JStr text)])].

(** * Properties *)

Arguments js : simpl never.
Arguments String_of_nat : simpl never.

(** ** Strings *)

Lemma jsstring_eqb_eq (a b : jsstring) : jsstring_eqb a b = true <-> a = b.
Proof.
  revert b; induction a as [|x a IH]; intros [|y b]; simpl;
    try (split; [discriminate | discriminate]); [tauto|].
  rewrite andb_true_iff, N.eqb_eq, IH.
  split; [intros [-> ->]; reflexivity | intros [= -> ->]; auto].
Qed.

Lemma jsstring_eqb_refl (a : jsstring) : jsstring_eqb a a = true.
Proof. apply jsstring_eqb_eq; reflexivity. Qed.

Lemma jsstring_eqb_neq (a b : jsstring) : jsstring_eqb a b = false <-> a <> b.
Proof.
  rewrite <- jsstring_eqb_eq.
  destruct (jsstring_eqb a b); split; congruence.
Qed.

Lemma jsstring_eqb_sym (a b : jsstring) : jsstring_eqb a b = jsstring_eqb b a.
Proof.
  destruct (jsstring_eqb b a) eqn:E.
  - apply jsstring_eqb_eq in E; subst; apply jsstring_eqb_refl.
  - apply jsstring_eqb_neq. apply jsstring_eqb_neq in E. congruence.
Qed.

Lemma js_inj (s t : string) : js s = js t -> s = t.
Proof.
  unfold js; intros H.
  rewrite <- (string_of_list_ascii_of_string s),
          <- (string_of_list_ascii_of_string t).
  f_equal.
  revert H; generalize (list_ascii_of_string s) (list_ascii_of_string t).
  induction l as [|a l IH]; intros [|b l']; simpl; try discriminate; auto.
  intros [= Hab Hl]. f_equal; auto.
  rewrite <- (ascii_N_embedding a), <- (ascii_N_embedding b), Hab.
  reflexivity.
Qed.

Lemma String_of_nat_inj (n m : nat) :
  String_of_nat n = String_of_nat m -> n = m.
Proof.
  unfold String_of_nat; intros H. apply js_inj in H.
  assert (E : Some (Nat.to_uint n) = Some (Nat.to_uint m))
    by (rewrite <- !NilEmpty.usu, H; reflexivity).
  injection E as E.
  rewrite <- (Unsigned.of_to n), <- (Unsigned.of_to m), E. reflexivity.
Qed.

Lemma set_has_In (x : jsstring) (used : list jsstring) :
  set_has x used = true <-> In x used.
Proof.
  unfold set_has. rewrite existsb_exists. split.
  - intros (y & Hy & E). apply jsstring_eqb_eq in E. subst; auto.
  - intros H. exists x. split; auto. apply jsstring_eqb_refl.
Qed.

Lemma set_has_not_In (x : jsstring) (used : list jsstring) :
  set_has x used = false <-> ~ In x used.
Proof.
  rewrite <- set_has_In. destruct (set_has x used); split; congruence.
Qed.

(** ** Objects and arrays *)

Section AssocFacts.

Context {V : Type}.
Implicit Types (k : jsstring) (v : V) (l : list (jsstring * V)).

Lemma assoc_get_set_same k v l : assoc_get k (assoc_set k v l) = Some v.
Proof.
  induction l as [|[k' v'] l IH]; simpl.
  - rewrite jsstring_eqb_refl; reflexivity.
  - destruct (jsstring_eqb k k') eqn:E; simpl.
    + rewrite jsstring_eqb_refl; reflexivity.
    + rewrite E; exact IH.
Qed.

Lemma assoc_get_set_other k k' v l :
  k <> k' -> assoc_get k' (assoc_set k v l) = assoc_get k' l.
Proof.
  intros N. induction l as [|[k0 v0] l IH]; simpl.
  - apply jsstring_eqb_neq in N. rewrite jsstring_eqb_sym, N; reflexivity.
  - destruct (jsstring_eqb k k0) eqn:E; simpl.
    + apply jsstring_eqb_eq in E; subst k0.
      apply jsstring_eqb_neq in N. rewrite jsstring_eqb_sym, N; reflexivity.
    + rewrite IH; reflexivity.
Qed.

Lemma assoc_get_In_keys k v l : assoc_get k l = Some v -> In k (map fst l).
Proof.
  induction l as [|[k' v'] l IH]; simpl; [discriminate|].
  destruct (jsstring_eqb k k') eqn:E.
  - apply jsstring_eqb_eq in E; auto.
  - auto.
Qed.

Lemma assoc_get_None_keys k l : assoc_get k l = None <-> ~ In k (map fst l).
Proof.
  induction l as [|[k' v'] l IH]; simpl; [tauto|].
  destruct (jsstring_eqb k k') eqn:E.
  - apply jsstring_eqb_eq in E; subst. split; [discriminate | tauto].
  - apply jsstring_eqb_neq in E. rewrite IH. split; [intros H [?|?]|];
      [congruence | tauto | tauto].
Qed.

(** Writing a property that exists keeps the names and their order. *)
Lemma assoc_set_keys_present k v l :
  In k (map fst l) -> map fst (assoc_set k v l) = map fst l.
Proof.
  induction l as [|[k' v'] l IH]; simpl; [tauto|].
  destruct (jsstring_eqb k k') eqn:E; simpl.
  - apply jsstring_eqb_eq in E; subst; reflexivity.
  - apply jsstring_eqb_neq in E. intros [?|H]; [congruence|].
    rewrite IH; auto.
Qed.

(** Writing a property that does not exist adds it last. *)
Lemma assoc_set_fresh k v l :
  ~ In k (map fst l) -> assoc_set k v l = l ++ [(k, v)].
Proof.
  induction l as [|[k' v'] l IH]; simpl; [reflexivity|].
  intros H. destruct (jsstring_eqb k k') eqn:E.
  - apply jsstring_eqb_eq in E; subst; tauto.
  - rewrite IH; tauto.
Qed.

Lemma assoc_set_In k v l (e : jsstring * V) :
  In e (assoc_set k v l) -> e = (k, v) \/ In e l.
Proof.
  induction l as [|[k' v'] l IH]; simpl.
  - intros [<-|[]]; auto.
  - destruct (jsstring_eqb k k'); simpl; intros [<-|H]; auto.
    destruct (IH H); auto.
Qed.

End AssocFacts.

Lemma array_index_Some (k : jsstring) (n i : nat) :
  array_index k n = Some i -> i < n /\ k = String_of_nat i.
Proof.
  induction n as [|n IH]; simpl; [discriminate|].
  destruct (jsstring_eqb k (String_of_nat n)) eqn:E.
  - intros [= <-]. apply jsstring_eqb_eq in E. split; [lia | assumption].
  - intros H. destruct (IH H). split; [lia | assumption].
Qed.

Lemma array_index_String (i n : nat) :
  i < n -> array_index (String_of_nat i) n = Some i.
Proof.
  induction n as [|n IH]; simpl; [lia|]. intros H.
  destruct (jsstring_eqb (String_of_nat i) (String_of_nat n)) eqn:E.
  - apply jsstring_eqb_eq, String_of_nat_inj in E. subst; reflexivity.
  - apply jsstring_eqb_neq in E. apply IH.
    assert (i <> n) by congruence. lia.
Qed.

Lemma length_replace_nth {A : Type} (i : nat) (v : A) (l : list A) :
  length (replace_nth i v l) = length l.
Proof.
  revert i; induction l as [|x l IH]; intros [|i]; simpl; auto.
Qed.

Lemma nth_error_replace_nth_same {A : Type} (i : nat) (v : A) (l : list A) :
  i < length l -> nth_error (replace_nth i v l) i = Some v.
Proof.
  revert i; induction l as [|x l IH]; intros [|i]; simpl; try lia; auto.
  intros H. apply IH. lia.
Qed.

Lemma nth_error_replace_nth_other {A : Type} (i j : nat) (v : A)
  (l : list A) :
  i <> j -> nth_error (replace_nth i v l) j = nth_error l j.
Proof.
  revert i j; induction l as [|x l IH]; intros [|i] [|j]; simpl; auto;
    try congruence.
Qed.

Lemma get_put_same (o : json) (k : jsstring) (v : json) :
  get o k <> None -> get (put o k v) k = Some v.
Proof.
  destruct o; simpl; try congruence.
  - destruct (array_index k (length items)) as [i|] eqn:E; [|congruence].
    intros _. simpl. rewrite length_replace_nth, E.
    apply nth_error_replace_nth_same.
    apply array_index_Some in E. tauto.
  - intros _. apply assoc_get_set_same.
Qed.

Lemma get_put_other (o : json) (k k' : jsstring) (v : json) :
  k <> k' -> get (put o k v) k' = get o k'.
Proof.
  intros N. destruct o; simpl; try reflexivity.
  - destruct (array_index k (length items)) as [i|] eqn:E; [|reflexivity].
    simpl. rewrite length_replace_nth.
    destruct (array_index k' (length items)) as [j|] eqn:E'; [|reflexivity].
    apply nth_error_replace_nth_other.
    apply array_index_Some in E, E'. intros ->. destruct E, E'; congruence.
  - apply assoc_get_set_other; assumption.
Qed.

Lemma is_object_put (o : json) (k : jsstring) (v : json) :
  is_object (put o k v) = is_object o.
Proof.
  destruct o; simpl; try reflexivity.
  destruct (array_index k (length items)); reflexivity.
Qed.

Lemma get_In_keys (o : json) (k : jsstring) (x : json) :
  get o k = Some x -> In k (Object_keys o).
Proof.
  destruct o; simpl; try discriminate.
  - destruct (array_index k (length items)) as [i|] eqn:E; [|discriminate].
    intros _. apply array_index_Some in E. destruct E as [Hi ->].
    apply in_map, in_seq. lia.
  - apply assoc_get_In_keys.
Qed.

Lemma get_put_None (o : json) (k k' : jsstring) (v : json) :
  get o k <> None -> get (put o k v) k' = None -> get o k' = None.
Proof.
  intros Hk H. destruct (jsstring_eqb k k') eqn:E.
  - apply jsstring_eqb_eq in E; subst k'.
    rewrite get_put_same in H; [discriminate | assumption].
  - apply jsstring_eqb_neq in E. rewrite get_put_other in H; assumption.
Qed.

(** ** Interval ends *)

Lemma update_interval_establishes (t : jsstring) (block : json)
  (k : jsstring) (x : json) :
  get (update_interval t block k) k = Some x -> interval_ok t x.
Proof.
  unfold update_interval.
  destruct (get block k) as [interval|] eqn:G; [|congruence].
  destruct (is_object interval
            && has_property (js "textsIntervalsEnd") interval) eqn:C.
  - rewrite get_put_same by congruence. intros [= <-] _ _.
    apply andb_true_iff in C. destruct C as [_ C].
    apply get_put_same. unfold has_property in C.
    destruct (get interval (js "textsIntervalsEnd")); congruence.
  - rewrite G. intros [= <-] H1 H2. rewrite H1, H2 in C. discriminate.
Qed.

Lemma update_interval_other (t : jsstring) (block : json)
  (k k' : jsstring) :
  k <> k' -> get (update_interval t block k) k' = get block k'.
Proof.
  intros N. unfold update_interval.
  destruct (get block k) as [interval|]; [|reflexivity].
  destruct (is_object interval && _); [|reflexivity].
  apply get_put_other; assumption.
Qed.

Lemma update_interval_preserves (t : jsstring) (block : json)
  (k k' : jsstring) :
  (forall x, get block k' = Some x -> interval_ok t x) ->
  forall x, get (update_interval t block k) k' = Some x -> interval_ok t x.
Proof.
  intros H x. destruct (jsstring_eqb k k') eqn:E.
  - apply jsstring_eqb_eq in E; subst k'. apply update_interval_establishes.
  - apply jsstring_eqb_neq in E. rewrite update_interval_other by assumption.
    apply H.
Qed.

Lemma update_interval_present (t : jsstring) (block : json)
  (k k' : jsstring) :
  get (update_interval t block k) k' <> None -> get block k' <> None.
Proof.
  unfold update_interval.
  destruct (get block k) as [interval|] eqn:G; [|tauto].
  destruct (is_object interval && _); [|tauto].
  intros H H'. apply H. destruct (jsstring_eqb k k') eqn:E.
  - apply jsstring_eqb_eq in E; subst k'. congruence.
  - apply jsstring_eqb_neq in E. rewrite get_put_other; assumption.
Qed.

Lemma fold_update_interval_present (t : jsstring) (ks : list jsstring)
  (block : json) (k' : jsstring) :
  get (fold_left (update_interval t) ks block) k' <> None ->
  get block k' <> None.
Proof.
  revert block; induction ks as [|k ks IH]; simpl; intros block H; auto.
  apply (update_interval_present t block k k'). apply IH; assumption.
Qed.

(** The invariant of the inner loop: an entry that was visited, or was right
    before, is right after. *)
Lemma fold_update_interval_ok (t : jsstring) (ks : list jsstring)
  (block : json) (k' : jsstring) :
  In k' ks \/ (forall x, get block k' = Some x -> interval_ok t x) ->
  forall x, get (fold_left (update_interval t) ks block) k' = Some x ->
            interval_ok t x.
Proof.
  revert block; induction ks as [|k ks IH]; simpl; intros block H.
  - destruct H as [[]|H]; exact H.
  - apply IH. destruct H as [[->|H]|H].
    + right. apply update_interval_establishes.
    + left; assumption.
    + right. apply update_interval_preserves; assumption.
Qed.

Lemma inner_loop_ok (t : jsstring) (block : json) (k' : jsstring)
  (x : json) :
  get (fold_left (update_interval t) (Object_keys block) block) k' = Some x ->
  interval_ok t x.
Proof.
  intros H. refine (fold_update_interval_ok t _ block k' _ x H).
  left.
  assert (P : get block k' <> None)
    by (apply (fold_update_interval_present t (Object_keys block));
        congruence).
  destruct (get block k') as [y|] eqn:G; [|congruence].
  eapply get_In_keys; eassumption.
Qed.

Lemma update_block_establishes (t : jsstring) (layer : json)
  (k : jsstring) : block_ok t (update_block t layer k) k.
Proof.
  unfold block_ok, update_block. intros block ik interval.
  destruct (get layer k) as [b0|] eqn:G.
  - destruct (is_object b0) eqn:O.
    + rewrite get_put_same by congruence. intros [= <-] _.
      apply inner_loop_ok.
    + rewrite G. intros [= <-]. congruence.
  - rewrite G. discriminate.
Qed.

Lemma update_block_other (t : jsstring) (layer : json) (k k' : jsstring) :
  k <> k' -> get (update_block t layer k) k' = get layer k'.
Proof.
  intros N. unfold update_block.
  destruct (get layer k) as [b0|]; [|reflexivity].
  destruct (is_object b0); [|reflexivity].
  apply get_put_other; assumption.
Qed.

Lemma is_object_update_block (t : jsstring) (layer : json) (k : jsstring) :
  is_object (update_block t layer k) = is_object layer.
Proof.
  unfold update_block.
  destruct (get layer k) as [b0|]; [|reflexivity].
  destruct (is_object b0); [|reflexivity].
  apply is_object_put.
Qed.

Lemma updateIntervals_layer_ok (layer : json) (newText : jsstring) :
  layer_ok newText (updateIntervals layer newText).
Proof.
  unfold layer_ok, updateIntervals. simpl. split.
  - intros block ik interval G.
    rewrite update_block_other in G by (intros E; discriminate E).
    revert G. apply update_block_establishes.
  - apply update_block_establishes.
Qed.

Lemma updateIntervals_other (layer : json) (newText k' : jsstring) :
  k' <> js "textTextColor" -> k' <> js "textTextFont" ->
  get (updateIntervals layer newText) k' = get layer k'.
Proof.
  intros N1 N2. unfold updateIntervals. simpl.
  rewrite !update_block_other by congruence. reflexivity.
Qed.

Lemma is_object_updateIntervals (layer : json) (newText : jsstring) :
  is_object (updateIntervals layer newText) = is_object layer.
Proof.
  unfold updateIntervals. simpl. rewrite !is_object_update_block.
  reflexivity.
Qed.

(** One substitution leaves the layer with its text and its interval ends. *)
Lemma substitute_substituted (b : json) (k newText : jsstring) (b' : json) :
  substitute b k newText = inr b' -> substituted b' k newText.
Proof.
  unfold substitute, assign.
  destruct (get b k) as [layer|] eqn:G; [|discriminate].
  destruct (is_object layer) eqn:O; simpl; [|discriminate].
  intros [= <-].
  exists (updateIntervals (put layer (js "textTextString") (JStr newText))
            newText).
  split; [apply get_put_same; congruence|].
  split; [rewrite is_object_updateIntervals, is_object_put; exact O|].
  split; [apply updateIntervals_layer_ok|].
  rewrite updateIntervals_other by (intros E; discriminate E).
  destruct layer; try discriminate.
  - intros [fields E]. exfalso. revert E.
    unfold updateIntervals, update_block, put; simpl.
    destruct (array_index _ _); simpl.
    all: repeat match goal with
         | |- context [array_index ?a ?b] => destruct (array_index a b); simpl
         | |- context [nth_error ?a ?b] => destruct (nth_error a b); simpl
         | |- context [is_object ?a] => destruct (is_object a); simpl
         end; discriminate.
  - intros _. simpl. apply assoc_get_set_same.
Qed.

Lemma substitute_preserves (b : json) (k k' t t' : jsstring) (b' : json) :
  k <> k' -> substituted b k t -> substitute b k' t' = inr b' ->
  substituted b' k t.
Proof.
  intros N (layer & G & H) S. exists layer. split; [|exact H].
  revert S. unfold substitute.
  destruct (get b k') as [l'|]; [|discriminate].
  destruct (assign l' _ _); simpl; [discriminate|].
  intros [= <-]. rewrite get_put_other by congruence. exact G.
Qed.

(** The four substitutions of a unit leave each of the four layers with its
    text and its interval ends. *)
Lemma substitute_record_ok (proj : json) (r : unit_record) (proj' : json) :
  substitute_record proj r = inr proj' -> descriptor_ok r proj'.
Proof.
  unfold substitute_record.
  destruct (get proj (js "objectsBundle")) as [b|] eqn:G; [|discriminate].
  destruct (substitute b (js "text0") (fullName r)) as [|b0] eqn:S0;
    simpl; [discriminate|].
  destruct (substitute b0 (js "text1") (t1 r)) as [|b1] eqn:S1;
    simpl; [discriminate|].
  destruct (substitute b1 (js "text2") (t2 r)) as [|b2] eqn:S2;
    simpl; [discriminate|].
  destruct (substitute b2 (js "text3") (t3 r)) as [|b3] eqn:S3;
    simpl; [discriminate|].
  intros [= <-]. exists b3.
  split; [apply get_put_same; congruence|].
  pose proof (substitute_substituted _ _ _ _ S0) as P0.
  pose proof (substitute_substituted _ _ _ _ S1) as P1.
  pose proof (substitute_substituted _ _ _ _ S2) as P2.
  pose proof (substitute_substituted _ _ _ _ S3) as P3.
  assert (D : forall a c : string, a <> c -> js a <> js c)
    by (intros a c N E; apply N, js_inj, E).
  repeat split; try assumption.
  - eapply substitute_preserves; [| |exact S3]; [apply D; discriminate|].
    eapply substitute_preserves; [| |exact S2]; [apply D; discriminate|].
    eapply substitute_preserves; [| |exact S1]; [apply D; discriminate|].
    exact P0.
  - eapply substitute_preserves; [| |exact S3]; [apply D; discriminate|].
    eapply substitute_preserves; [| |exact S2]; [apply D; discriminate|].
    exact P1.
  - eapply substitute_preserves; [| |exact S3]; [apply D; discriminate|].
    exact P2.
Qed.

(** ** File names *)

Lemma plp_n_inj (base : jsstring) (n m : nat) :
  plp_n base n = plp_n base m -> n = m.
Proof.
  unfold plp_n. intros H.
  apply app_inv_head, app_inv_head, app_inv_tail in H.
  apply String_of_nat_inj; assumption.
Qed.

Lemma first_free_Some (fuel n : nat) (used : list jsstring)
  (base : jsstring) (m : nat) :
  first_free fuel n used base = Some m ->
  n <= m /\ ~ In (plp_n base m) used
  /\ forall j, n <= j < m -> In (plp_n base j) used.
Proof.
  revert n; induction fuel as [|fuel IH]; simpl; intros n; [discriminate|].
  destruct (set_has (plp_n base n) used) eqn:E.
  - intros H. destruct (IH _ H) as (L & F & A).
    split; [lia|]. split; [assumption|].
    intros j Hj. destruct (Nat.eq_dec j n) as [->|N].
    + apply set_has_In; assumption.
    + apply A; lia.
  - intros [= <-]. split; [lia|]. split.
    + apply set_has_not_In; assumption.
    + intros j Hj; lia.
Qed.

Lemma first_free_None (fuel n : nat) (used : list jsstring)
  (base : jsstring) :
  first_free fuel n used base = None ->
  forall j, n <= j < n + fuel -> In (plp_n base j) used.
Proof.
  revert n; induction fuel as [|fuel IH]; simpl; intros n H j Hj; [lia|].
  destruct (set_has (plp_n base n) used) eqn:E; [|discriminate].
  destruct (Nat.eq_dec j n) as [->|N].
  - apply set_has_In; assumption.
  - apply (IH _ H). lia.
Qed.

(** The search for a suffix ends: the set holds fewer names than the search
    is allowed tests. *)
Lemma first_free_total (n : nat) (used : list jsstring) (base : jsstring) :
  first_free (S (length used)) n used base <> None.
Proof.
  intros H. pose proof (first_free_None _ _ _ _ H) as A.
  assert (L : length (map (plp_n base) (seq n (S (length used))))
              <= length used).
  { apply NoDup_incl_length.
    - apply NoDup_map_NoDup_ForallPairs; [|apply seq_NoDup].
      intros x y _ _. apply plp_n_inj.
    - intros s Hs. apply in_map_iff in Hs. destruct Hs as (j & <- & Hj).
      apply in_seq in Hj. apply A. lia. }
  rewrite length_map, length_seq in L. lia.
Qed.

Lemma allocate_total (used : list jsstring) (base : jsstring) :
  allocate used base <> None.
Proof.
  unfold allocate. destruct (set_has (plp base) used); [|discriminate].
  pose proof (first_free_total 2 used base).
  destruct (first_free (S (length used)) 2 used base); congruence.
Qed.

Lemma allocate_allocated (used : list jsstring) (base name : jsstring) :
  allocate used base = Some name -> allocated used base name.
Proof.
  unfold allocate, allocated.
  destruct (set_has (plp base) used) eqn:E.
  - destruct (first_free (S (length used)) 2 used base) as [n|] eqn:F;
      [|discriminate].
    intros [= <-]. right. apply set_has_In in E. split; [assumption|].
    destruct (first_free_Some _ _ _ _ _ F) as (L & N & A).
    exists n. auto.
  - intros [= <-]. left. apply set_has_not_In in E. auto.
Qed.

Lemma allocated_fresh (earlier : list jsstring) (base name : jsstring) :
  allocated earlier base name -> ~ In name earlier.
Proof.
  intros [[N ->]|[_ (n & _ & -> & N & _)]]; assumption.
Qed.

(** ** The effects of the pipeline *)

Lemma bind_inr {A B : Type} (m : M A) (f : A -> M B) (w w' : world)
  (b : B) :
  bind m f w = (w', inr b) ->
  exists a w1, m w = (w1, inr a) /\ f a w1 = (w', inr b).
Proof.
  unfold bind. destruct (m w) as [w1 [e|a]]; [discriminate|eauto].
Qed.

Lemma bind_inl {A B : Type} (m : M A) (f : A -> M B) (w w' : world)
  (e : error) :
  bind m f w = (w', inl e) ->
  m w = (w', inl e)
  \/ exists a w1, m w = (w1, inr a) /\ f a w1 = (w', inl e).
Proof.
  unfold bind. destruct (m w) as [w1 [e'|a]]; [intros [= <- <-]|]; eauto.
Qed.

Lemma lift_run {A : Type} (r : result A) (w w' : world) (r' : result A) :
  lift r w = (w', r') -> w' = w /\ r' = r.
Proof. unfold lift. intros [= <- <-]. auto. Qed.

Ltac run_inr H :=
  repeat match type of H with
  | bind _ _ _ = (_, inr _) =>
      let a := fresh "a" in let w1 := fresh "w" in
      let H1 := fresh "R" in
      apply bind_inr in H; destruct H as (a & w1 & H1 & H)
  | ret _ _ = (_, inr _) => unfold ret in H; injection H as H; subst
  end.

Section PipelineFacts.

Context {cm : CaseMapping} {host : Host} (v : Variant).

Lemma random_below_run (k : nat) (w : world) :
  exists n, random_below k w
            = ({| random_calls := S (random_calls w);
                  notified := notified w |}, inr n)
            /\ (k <> 0 -> n < k).
Proof.
  unfold random_below. eexists. split; [reflexivity|].
  destruct k; [congruence|]. intros _. apply Nat.mod_upper_bound. lia.
Qed.

(** A pool name is drawn without a word to the callback. *)
Lemma rand_run (a : list jsstring) (w : world) :
  exists x, rand a w
            = ({| random_calls := S (random_calls w);
                  notified := notified w |}, inr x)
            /\ (a <> [] -> In x a).
Proof.
  unfold rand, bind, ret.
  destruct (random_below_run (length a) w) as (n & -> & B).
  eexists. split; [reflexivity|].
  intros N. apply nth_In. apply B. destruct a; simpl; congruence.
Qed.

(** The values of a unit are always produced, and producing them says
    nothing to the callback. *)
Lemma nextRecord_run (options : Options) (w : world) :
  exists r w', nextRecord v options w = (w', inr r)
               /\ notified w' = notified w.
Proof.
  unfold nextRecord, randomText1, randomText3.
  destruct (jsstring_eqb (firstMode options) (js "fixed"));
    destruct (jsstring_eqb (lastMode options) (js "fixed"));
    unfold rand, bind, ret;
    repeat match goal with
    | |- context [random_below ?k ?w0] =>
        destruct (random_below_run k w0) as (? & -> & _)
    end;
    eexists; eexists; (split; [reflexivity|reflexivity]).
Qed.

Lemma progressCb_run (message : jsstring) (w w' : world)
  (res : result unit) :
  progressCb message w = (w', res) ->
  notified w' = notified w ++ [message]
  /\ random_calls w' = random_calls w
  /\ res = (if progressCb_fails (length (notified w)) message
            then inl SinkFailure else inr tt).
Proof. unfold progressCb. intros [= <- <-]. auto. Qed.

(** One turn of the loop, when it completes. *)
Lemma generateUnit_inr (files : archive) (baseProj : json)
  (options : Options) (i : nat) (out : archive) (used : list jsstring)
  (w w' : world) (out' : archive) (used' : list jsstring) :
  generateUnit v files baseProj options i (out, used) w
  = (w', inr (out', used')) ->
  exists r proj fileName w1,
    nextRecord v options w = (w1, inr r)
    /\ substitute_record baseProj r = inr proj
    /\ allocate used (sanitizeFilename (fullName r)) = Some fileName
    /\ used' = set_add fileName used
    /\ out' = assoc_set fileName (zipSync (outFiles files proj)) out
    /\ notified w'
       = notified w
         ++ (if progress_due i (count options)
             then [generating_message i (count options)] else []).
Proof.
  unfold generateUnit. intros H. run_inr H.
  apply lift_run in R0. destruct R0 as [-> R0].
  apply lift_run in R1. destruct R1 as [-> R1].
  destruct (allocate used (sanitizeFilename (fullName a))) as [f|] eqn:F;
    [|discriminate].
  injection R1 as R1. subst a1.
  destruct (nextRecord_run options w) as (r & w1 & E & L).
  rewrite E in R. injection R as R R'. subst a w0.
  exists r, a0, f, w1. repeat (split; [auto; fail|]).
  rewrite <- L.
  destruct (progress_due i (count options)).
  - apply progressCb_run in R2. tauto.
  - unfold ret in R2. injection R2 as <-. rewrite app_nil_r. reflexivity.
Qed.

End PipelineFacts.

Lemma allocation_NoDup (earlier bases names : list jsstring) :
  NoDup earlier -> allocation earlier bases names ->
  NoDup (earlier ++ names).
Proof.
  revert earlier names; induction bases as [|b bases IH];
    intros earlier [|n names]; simpl; try tauto.
  - intros H _. rewrite app_nil_r. exact H.
  - intros H [A R].
    replace (earlier ++ n :: names) with ((earlier ++ [n]) ++ names)
      by (rewrite <- app_assoc; reflexivity).
    apply IH; [|exact R].
    apply NoDup_app; [exact H | repeat constructor; simpl; tauto |].
    intros x Hx [<-|[]]. revert Hx. eapply allocated_fresh; eassumption.
Qed.

Lemma allocation_length (earlier bases names : list jsstring) :
  allocation earlier bases names -> length names = length bases.
Proof.
  revert earlier names; induction bases as [|b bases IH];
    intros earlier [|n names]; simpl; try tauto.
  intros [_ R]. f_equal. eapply IH; eassumption.
Qed.

Section BatchFacts.

Context {cm : CaseMapping} {host : Host} (v : Variant).

(** The invariant of the loop of [generateOutputsZip]: the set of used names
    is the list of the names of the output collection, every turn adds one
    entry under a name allocated against the earlier ones, and the callback
    hears of the turns that are due. *)
Lemma generateUnits_inr (files : archive) (baseProj : json)
  (options : Options) (indices : list nat) :
  forall (out : archive) (used : list jsstring) (w w' : world)
         (out' : archive) (used' : list jsstring),
    used = map fst out ->
    generateUnits v files baseProj options indices (out, used) w
    = (w', inr (out', used')) ->
    exists rs new,
      out' = out ++ new /\ used' = map fst out'
      /\ length rs = length indices
      /\ Forall2 (unit_entry files baseProj) rs new
      /\ Forall (fun r => exists w0 w1,
                   nextRecord v options w0 = (w1, inr r)) rs
      /\ allocation (map fst out) (map base_name rs) (map fst new)
      /\ notified w'
         = notified w ++ generating_messages (count options) indices.
Proof.
  induction indices as [|i indices IH]; simpl; intros out used w w' out' used' U H.
  - unfold ret in H. injection H as <- <- <-.
    exists [], []. rewrite !app_nil_r. simpl.
    repeat split; auto.
  - apply bind_inr in H. destruct H as ([out1 used1] & w1 & S & H).
    apply generateUnit_inr in S.
    destruct S as (r & proj & f & w0 & R & P & A & -> & -> & L).
    pose proof (allocate_allocated _ _ _ A) as Al.
    pose proof (allocated_fresh _ _ _ Al) as Fr.
    assert (Hset : set_add f used = used ++ [f]).
    { unfold set_add. apply set_has_not_In in Fr. rewrite Fr. reflexivity. }
    assert (Hout : assoc_set f (zipSync (outFiles files proj)) out
                   = out ++ [(f, zipSync (outFiles files proj))]).
    { apply assoc_set_fresh. rewrite <- U. exact Fr. }
    rewrite Hset, Hout in H.
    apply IH in H;
      [|rewrite U, map_app; reflexivity].
    destruct H as (rs & new & -> & -> & Len & F2 & Fa & All & Lw).
    exists (r :: rs), ((f, zipSync (outFiles files proj)) :: new).
    split; [rewrite <- app_assoc; reflexivity|].
    split; [reflexivity|].
    split; [simpl; congruence|].
    split; [constructor; [exists proj; auto | exact F2]|].
    split; [constructor; [eauto | exact Fa]|].
    split.
    + simpl. split; [rewrite <- U; exact Al|].
      rewrite map_app in All. exact All.
    + rewrite Lw, L, <- app_assoc. f_equal.
      unfold generating_messages. simpl.
      destruct (progress_due i (count options)); reflexivity.
Qed.

(** What a completed run of [generateOutputsZip] went through. *)
Lemma generateOutputsZip_inr (env : Env) (options : Options)
  (w w' : world) (zip : bytes) :
  generateOutputsZip v env options w = (w', inr zip) ->
  exists templateBytes files plab baseProj objectsBundle w1 w2 out used,
    progressCb_fails (length (notified w)) (downloading_message v) = false
    /\ fetchTemplateBytes v env = inr templateBytes
    /\ unzipSync templateBytes = Some files
    /\ assoc_get (js "data.plab") files = Some plab
    /\ JSON_parse plab = Some baseProj
    /\ read baseProj (js "objectsBundle") = inr objectsBundle
    /\ check_layers (or_empty_object objectsBundle) LAYERS = inr tt
    /\ notified w1 = notified w ++ [downloading_message v]
    /\ generateUnits v files baseProj options (seq 1 (count options))
         ([], []) w1 = (w2, inr (out, used))
    /\ notified w' = notified w2 ++ [packing_message]
    /\ zip = zipSync out.
Proof.
  unfold generateOutputsZip. intros H.
  apply bind_inr in H. destruct H as ([] & w1 & R0 & H).
  apply progressCb_run in R0. destruct R0 as (L0 & _ & F0).
  apply bind_inr in H. destruct H as (tb & w2 & R1 & H).
  apply lift_run in R1. destruct R1 as [-> R1].
  apply bind_inr in H. destruct H as (files & w3 & R2 & H).
  apply lift_run in R2. destruct R2 as [-> R2].
  destruct (unzipSync tb) as [files'|] eqn:U; [|discriminate].
  injection R2 as ->.
  destruct (assoc_get (js "data.plab") files') as [plab|] eqn:G;
    [|discriminate].
  apply bind_inr in H. destruct H as (baseProj & w4 & R3 & H).
  apply lift_run in R3. destruct R3 as [-> R3].
  destruct (JSON_parse plab) as [p|] eqn:Pa; [|discriminate].
  injection R3 as ->.
  apply bind_inr in H. destruct H as (bundle & w5 & R4 & H).
  apply lift_run in R4. destruct R4 as [-> R4].
  apply bind_inr in H. destruct H as ([] & w6 & R5 & H).
  apply lift_run in R5. destruct R5 as [-> R5].
  apply bind_inr in H. destruct H as ([out used] & w7 & R6 & H).
  apply bind_inr in H. destruct H as ([] & w8 & R7 & H).
  apply progressCb_run in R7. destruct R7 as (L7 & _ & _).
  unfold ret in H. injection H as <- <-.
  exists tb, files', plab, p, bundle, w1, w7, out, used.
  repeat split; auto.
  destruct (progressCb_fails _ _); [discriminate|reflexivity].
Qed.

End BatchFacts.

(** ** The archive of a unit *)

(** Replacing the descriptor of an archive that has one keeps every name in
    its place and every other content as it was. *)
Lemma assoc_set_frame {V : Type} (k : jsstring) (x : V)
  (l : list (jsstring * V)) :
  In k (map fst l) ->
  Forall2 (fun e e' => fst e' = fst e /\ (fst e <> k -> snd e' = snd e))
          l (assoc_set k x l).
Proof.
  induction l as [|[k' v'] l IH]; simpl; [tauto|].
  destruct (jsstring_eqb k k') eqn:E.
  - apply jsstring_eqb_eq in E; subst k'. intros _.
    constructor; [simpl; split; [reflexivity|congruence]|].
    clear IH. induction l; constructor; auto.
  - apply jsstring_eqb_neq in E. intros [?|H]; [congruence|].
    constructor; [simpl; auto | apply IH; assumption].
Qed.

Lemma Forall2_Forall_r {A B : Type} (R : A -> B -> Prop) (P : B -> Prop)
  (la : list A) (lb : list B) :
  (forall a b, R a b -> P b) -> Forall2 R la lb -> Forall P lb.
Proof. intros H F. induction F; constructor; eauto. Qed.

(** ** The names of a batch *)

Lemma allocation_nth (bases : list jsstring) :
  forall (earlier names : list jsstring) (j : nat) (base : jsstring),
    allocation earlier bases names ->
    nth_error bases j = Some base ->
    exists name, nth_error names j = Some name
                 /\ allocated (earlier ++ firstn j names) base name.
Proof.
  induction bases as [|b bases IH]; intros earlier [|n names] j base;
    simpl; try tauto.
  - destruct j; discriminate.
  - intros [A R]. destruct j as [|j]; simpl.
    + intros [= <-]. exists n. rewrite app_nil_r. auto.
    + intros Hj. destruct (IH _ _ _ _ R Hj) as (name & Hn & Al).
      exists name. split; [exact Hn|].
      rewrite <- app_assoc in Al. exact Al.
Qed.

(** Once a unit of some base name has been served, the plain name of that
    base is taken. *)
Lemma allocation_plain_taken (bases : list jsstring) :
  forall (earlier names : list jsstring) (j : nat) (base : jsstring),
    allocation earlier bases names ->
    In base (firstn j bases) \/ In (plp base) earlier ->
    In (plp base) (earlier ++ firstn j names).
Proof.
  induction bases as [|b bases IH]; intros earlier [|n names] j base;
    simpl; try tauto.
  - intros _. rewrite firstn_nil, app_nil_r. simpl. tauto.
  - intros [A R] H. destruct j as [|j]; simpl in *.
    + rewrite app_nil_r. tauto.
    + replace (earlier ++ n :: firstn j names)
        with ((earlier ++ [n]) ++ firstn j names)
        by (rewrite <- app_assoc; reflexivity).
      apply IH; [exact R|].
      destruct H as [[<-|H]|H].
      * right. apply in_or_app.
        destruct A as [[_ ->]|[I _]]; simpl; auto.
      * left; exact H.
      * right. apply in_or_app; auto.
Qed.

(** A unit whose base name an earlier unit of the batch had receives the
    first free suffix from 2 on. *)
Lemma allocation_suffix (bases names : list jsstring) (j : nat)
  (base : jsstring) :
  allocation [] bases names ->
  nth_error bases j = Some base ->
  In base (firstn j bases) ->
  exists n, 2 <= n
            /\ nth_error names j = Some (plp_n base n)
            /\ ~ In (plp_n base n) (firstn j names)
            /\ forall m, 2 <= m < n -> In (plp_n base m) (firstn j names).
Proof.
  intros A Hj Hin.
  destruct (allocation_nth _ _ _ _ _ A Hj) as (name & Hn & Al).
  pose proof (allocation_plain_taken _ _ _ j base A (or_introl Hin)) as T.
  simpl in *.
  destruct Al as [[N _]|[_ (n & L & -> & Fr & Be)]]; [tauto|].
  exists n. auto.
Qed.

(** ** The progress callback *)

Section SinkFacts.

Context {cm : CaseMapping} {host : Host} (v : Variant).

Lemma clean_same_log (w w' : world) :
  notified w' = notified w -> clean w -> clean w'.
Proof. unfold clean. intros ->. auto. Qed.

Lemma sink_sound_ret {A : Type} (a : A) : sink_sound (ret a).
Proof. intros w w' res [= <- <-]. auto. Qed.

Lemma sink_sound_throw {A : Type} (e : error) : sink_sound (@throw A e).
Proof. intros w w' res [= <- <-]. auto. Qed.

Lemma sink_sound_lift {A : Type} (r : result A) : sink_sound (lift r).
Proof. intros w w' res [= <- <-]. auto. Qed.

Lemma sink_sound_bind {A B : Type} (m : M A) (f : A -> M B) :
  sink_sound m -> (forall a, sink_sound (f a)) -> sink_sound (bind m f).
Proof.
  intros Hm Hf w w' res H C. unfold bind in H.
  destruct (m w) as [w1 [e|a]] eqn:E.
  - injection H as <- <-.
    destruct (Hm _ _ _ E C) as [C1|[= ->]]; [left|right]; auto.
  - destruct (Hm _ _ _ E C) as [C1|]; [|discriminate].
    eapply Hf; eassumption.
Qed.

Lemma sink_sound_progressCb (message : jsstring) :
  sink_sound (progressCb message).
Proof.
  intros w w' res H C. apply progressCb_run in H.
  destruct H as (L & _ & ->).
  destruct (progressCb_fails (length (notified w)) message) eqn:F;
    [right; reflexivity|].
  left. intros n m. rewrite L. intros Hn.
  destruct (Nat.lt_ge_cases n (length (notified w))) as [Lt|Ge].
  - rewrite nth_error_app1 in Hn by assumption. apply C; assumption.
  - rewrite nth_error_app2 in Hn by assumption.
    destruct (n - length (notified w)) as [|d] eqn:D; simpl in Hn.
    + injection Hn as <-. replace n with (length (notified w)) by lia.
      exact F.
    + destruct d; discriminate.
Qed.

Lemma sink_sound_nextRecord (options : Options) :
  sink_sound (nextRecord v options).
Proof.
  intros w w' res H C.
  destruct (nextRecord_run v options w) as (r & w1 & E & L).
  rewrite E in H. injection H as <- <-. left.
  eapply clean_same_log; eassumption.
Qed.

Lemma sink_sound_generateUnit (files : archive) (baseProj : json)
  (options : Options) (i : nat) (st : archive * list jsstring) :
  sink_sound (generateUnit v files baseProj options i st).
Proof.
  destruct st as [out used]. unfold generateUnit.
  apply sink_sound_bind; [apply sink_sound_nextRecord|intros r].
  apply sink_sound_bind; [apply sink_sound_lift|intros proj].
  apply sink_sound_bind; [apply sink_sound_lift|intros f].
  apply sink_sound_bind; [|intros; apply sink_sound_ret].
  destruct (progress_due i (count options));
    [apply sink_sound_progressCb | apply sink_sound_ret].
Qed.

Lemma sink_sound_generateUnits (files : archive) (baseProj : json)
  (options : Options) (indices : list nat) :
  forall st, sink_sound (generateUnits v files baseProj options indices st).
Proof.
  induction indices as [|i indices IH]; intros st; simpl.
  - apply sink_sound_ret.
  - apply sink_sound_bind; [apply sink_sound_generateUnit|exact IH].
Qed.

Lemma sink_sound_generateOutputsZip (env : Env) (options : Options) :
  sink_sound (generateOutputsZip v env options).
Proof.
  unfold generateOutputsZip.
  apply sink_sound_bind; [apply sink_sound_progressCb|intros _].
  apply sink_sound_bind; [apply sink_sound_lift|intros tb].
  apply sink_sound_bind; [apply sink_sound_lift|intros files].
  destruct (assoc_get (js "data.plab") files); [|apply sink_sound_throw].
  apply sink_sound_bind; [apply sink_sound_lift|intros baseProj].
  apply sink_sound_bind; [apply sink_sound_lift|intros bundle].
  apply sink_sound_bind; [apply sink_sound_lift|intros _].
  apply sink_sound_bind; [apply sink_sound_generateUnits|intros [out used]].
  apply sink_sound_bind; [apply sink_sound_progressCb|intros _].
  apply sink_sound_ret.
Qed.

End SinkFacts.

(** ** Failures before the loop *)

Lemma check_layers_first_missing (b : json) (pre post : list jsstring)
  (k : jsstring) :
  (forall x, In x pre -> layer_missing b x = false) ->
  layer_missing b k = true ->
  check_layers b (pre ++ k :: post) = inl (MissingLayer k).
Proof.
  intros P K. induction pre as [|x pre IH]; simpl.
  - rewrite K. reflexivity.
  - rewrite (P x) by (left; reflexivity). apply IH.
    intros y Hy. apply P. right; exact Hy.
Qed.

(** ** Failures of the fetch *)

Section FetchFacts.

Context {cm : CaseMapping} {host : Host} (v : Variant).

Lemma fails_otherwise_bind {A B : Type} (m : M A) (f : A -> M B) :
  fails_otherwise m -> (forall a, fails_otherwise (f a)) ->
  fails_otherwise (bind m f).
Proof.
  intros Hm Hf w w' e H. apply bind_inl in H.
  destruct H as [H|(a & w1 & _ & H)]; [eapply Hm | eapply Hf]; eassumption.
Qed.

Lemma fails_otherwise_ret {A : Type} (a : A) : fails_otherwise (ret a).
Proof. intros w w' e [=]. Qed.

Lemma substitute_inl (b : json) (k t : jsstring) (e : error) :
  substitute b k t = inl e -> e = TypeError.
Proof.
  unfold substitute, assign. destruct (get b k) as [layer|]; [|congruence].
  destruct (is_object layer); simpl; congruence.
Qed.

Lemma substitute_record_inl (proj : json) (r : unit_record) (e : error) :
  substitute_record proj r = inl e -> e = TypeError.
Proof.
  unfold substitute_record.
  destruct (get proj (js "objectsBundle")) as [b|]; [|congruence].
  destruct (substitute b _ _) as [e0|b0] eqn:S0; simpl;
    [intros [= <-]; eapply substitute_inl; eassumption|].
  destruct (substitute b0 _ _) as [e1|b1] eqn:S1; simpl;
    [intros [= <-]; eapply substitute_inl; eassumption|].
  destruct (substitute b1 _ _) as [e2|b2] eqn:S2; simpl;
    [intros [= <-]; eapply substitute_inl; eassumption|].
  destruct (substitute b2 _ _) as [e3|b3] eqn:S3; simpl;
    [intros [= <-]; eapply substitute_inl; eassumption|].
  discriminate.
Qed.

Lemma fails_otherwise_generateUnit (files : archive) (baseProj : json)
  (options : Options) (i : nat) (st : archive * list jsstring) :
  fails_otherwise (generateUnit v files baseProj options i st).
Proof.
  destruct st as [out used]. unfold generateUnit.
  apply fails_otherwise_bind.
  { intros w w' e H.
    destruct (nextRecord_run v options w) as (r & w1 & E & _).
    rewrite E in H. discriminate. }
  intros r. apply fails_otherwise_bind.
  { intros w w' e H. apply lift_run in H. destruct H as [_ H].
    symmetry in H. apply substitute_record_inl in H. subst. reflexivity. }
  intros proj. apply fails_otherwise_bind.
  { intros w w' e H. apply lift_run in H. destruct H as [_ H].
    destruct (allocate used _); [discriminate|].
    injection H as ->. reflexivity. }
  intros f. apply fails_otherwise_bind; [|intros; apply fails_otherwise_ret].
  destruct (progress_due i (count options)); [|apply fails_otherwise_ret].
  intros w w' e H. apply progressCb_run in H. destruct H as (_ & _ & H).
  destruct (progressCb_fails _ _); [|discriminate].
  injection H as ->. reflexivity.
Qed.

Lemma fails_otherwise_generateUnits (files : archive) (baseProj : json)
  (options : Options) (indices : list nat) :
  forall st,
    fails_otherwise (generateUnits v files baseProj options indices st).
Proof.
  induction indices as [|i indices IH]; intros st; simpl.
  - apply fails_otherwise_ret.
  - apply fails_otherwise_bind;
      [apply fails_otherwise_generateUnit | exact IH].
Qed.

Lemma fetchTemplateBytes_kind (env : Env) (e : error) :
  fetchTemplateBytes v env = inl e -> kind_of e = TemplateFetchError.
Proof.
  unfold fetchTemplateBytes.
  destruct (is_empty _); [intros [= <-]; reflexivity|].
  destruct (fetch _) as [res|]; [|intros [= <-]; reflexivity].
  destruct (ok res); [|intros [= <-]; reflexivity].
  destruct (arrayBuffer res); [discriminate|intros [= <-]; reflexivity].
Qed.

(** A failure of the kind of the fetch comes from the fetch. *)
Lemma generateOutputsZip_fetch_kind (env : Env) (options : Options)
  (w w' : world) (e : error) :
  generateOutputsZip v env options w = (w', inl e) ->
  kind_of e = TemplateFetchError ->
  fetchTemplateBytes v env = inl e.
Proof.
  unfold generateOutputsZip. intros H K.
  apply bind_inl in H. destruct H as [H|([] & w1 & _ & H)].
  { apply progressCb_run in H. destruct H as (_ & _ & H).
    destruct (progressCb_fails _ _); [|discriminate].
    injection H as ->. discriminate. }
  apply bind_inl in H. destruct H as [H|(tb & w2 & _ & H)].
  { apply lift_run in H. destruct H as [_ H]. congruence. }
  apply bind_inl in H. destruct H as [H|(files & w3 & _ & H)].
  { apply lift_run in H. destruct H as [_ H].
    destruct (unzipSync tb); [discriminate|].
    injection H as ->. discriminate. }
  destruct (assoc_get (js "data.plab") files) as [plab|].
  2:{ unfold throw in H. injection H as _ <-. discriminate. }
  apply bind_inl in H. destruct H as [H|(baseProj & w4 & _ & H)].
  { apply lift_run in H. destruct H as [_ H].
    destruct (JSON_parse plab); [discriminate|].
    injection H as ->. discriminate. }
  apply bind_inl in H. destruct H as [H|(bundle & w5 & _ & H)].
  { apply lift_run in H. destruct H as [_ H].
    destruct baseProj; simpl in H; try discriminate.
    injection H as ->. discriminate. }
  apply bind_inl in H. destruct H as [H|([] & w6 & _ & H)].
  { apply lift_run in H. destruct H as [_ H].
    exfalso. revert H K. generalize LAYERS.
    induction l as [|x l IH]; simpl; [discriminate|].
    destruct (layer_missing _ x); [intros [= ->]; discriminate|exact IH]. }
  apply bind_inl in H. destruct H as [H|([out used] & w7 & _ & H)].
  { apply fails_otherwise_generateUnits in H. congruence. }
  apply bind_inl in H. destruct H as [H|([] & w8 & _ & H)].
  { apply progressCb_run in H. destruct H as (_ & _ & H).
    destruct (progressCb_fails _ _); [|discriminate].
    injection H as ->. discriminate. }
  discriminate.
Qed.

(** When the fetch fails, so does the batch; with the failure of the fetch
    when the callback took the message of the download. *)
Lemma generateOutputsZip_fetch_failure (env : Env) (options : Options)
  (w : world) (e : error) :
  fetchTemplateBytes v env = inl e ->
  exists w' e',
    generateOutputsZip v env options w = (w', inl e')
    /\ (progressCb_fails (length (notified w)) (downloading_message v)
        = false -> e' = e).
Proof.
  intros F. unfold generateOutputsZip, bind, progressCb, lift.
  destruct (progressCb_fails _ _).
  - eexists. eexists. split; [reflexivity|discriminate].
  - rewrite F. eexists. eexists. split; [reflexivity|reflexivity].
Qed.

Lemma is_empty_nil (s : jsstring) : is_empty s = true <-> s = [].
Proof. destruct s; simpl; split; congruence. Qed.

(** When [fetchTemplateBytes] fails. *)
Lemma fetchTemplateBytes_fails_iff (env : Env) :
  (trims_url v = false -> forall u, trim u = [] -> fetch u = None) ->
  (exists e, fetchTemplateBytes v env = inl e)
  <-> unset_or_blank env \/ unreachable (requested_url v env)
      \/ non_success (requested_url v env).
Proof.
  intros Pl. unfold fetchTemplateBytes, unset_or_blank, unreachable,
    non_success, requested_url, configured_url.
  set (u := match TEMPLATE_URL env with Some u => u | None => [] end).
  destruct (trims_url v) eqn:T.
  - destruct (is_empty (trim u)) eqn:E.
    + apply is_empty_nil in E. split; eauto.
    + assert (N : trim u <> []) by (intros Z; apply is_empty_nil in Z;
                                     congruence).
      destruct (fetch (trim u)) as [res|] eqn:Fe.
      * destruct (ok res) eqn:O.
        -- destruct (arrayBuffer res) as [b|] eqn:B.
           ++ split; [intros [e [=]]|].
              intros [Z|[[Z|(r & [= <-] & _ & Z)]|(r & [= <-] & Z)]];
                congruence.
           ++ split; [|eauto]. intros _. right. left. right. eauto.
        -- split; [|eauto]. intros _. right. right. eauto.
      * split; [|eauto]. intros _. right. left. left. reflexivity.
  - destruct (is_empty u) eqn:E.
    + apply is_empty_nil in E. rewrite E. split; eauto.
    + destruct (fetch u) as [res|] eqn:Fe.
      * destruct (ok res) eqn:O.
        -- destruct (arrayBuffer res) as [b|] eqn:B.
           ++ split; [intros [e [=]]|].
              intros [Z|[[Z|(r & [= <-] & _ & Z)]|(r & [= <-] & Z)]];
                try congruence.
              rewrite (Pl eq_refl u Z) in Fe. discriminate.
           ++ split; [|eauto]. intros _. right. left. right. eauto.
        -- split; [|eauto]. intros _. right. right. eauto.
      * split; [|eauto]. intros _. right. left. left. reflexivity.
Qed.

End FetchFacts.

Lemma sample_host_rejects_blank (files : archive) (d : option json)
  (fails : nat -> bool) (u : jsstring) :
  trim u = [] -> fetch (Host := sample_host files d fails) u = None.
Proof.
  intros B. simpl.
  destruct (jsstring_eqb u (js "https://example.org/template.plp")) eqn:E1.
  { apply jsstring_eqb_eq in E1. subst u. vm_compute in B. discriminate. }
  destruct (jsstring_eqb u (js "https://example.org/missing.plp")) eqn:E2.
  { apply jsstring_eqb_eq in E2. subst u. vm_compute in B. discriminate. }
  reflexivity.
Qed.

(** ** The suffix search ends *)

Section Termination.

Context {cm : CaseMapping} {host : Host} (v : Variant).

Lemma never_diverges_bind {A B : Type} (m : M A) (f : A -> M B) :
  never_diverges m -> (forall a, never_diverges (f a)) ->
  never_diverges (bind m f).
Proof.
  intros Hm Hf w w' e H. apply bind_inl in H.
  destruct H as [H|(a & w1 & _ & H)]; [eapply Hm | eapply Hf]; eassumption.
Qed.

Lemma never_diverges_ret {A : Type} (a : A) : never_diverges (ret a).
Proof. intros w w' e [=]. Qed.

Lemma never_diverges_lift {A : Type} (r : result A) :
  r <> inl Diverged -> never_diverges (lift r).
Proof. intros N w w' e H. apply lift_run in H. destruct H. congruence. Qed.

Lemma never_diverges_progressCb (message : jsstring) :
  never_diverges (progressCb message).
Proof.
  intros w w' e H. apply progressCb_run in H. destruct H as (_ & _ & H).
  destruct (progressCb_fails _ _); [|discriminate].
  injection H as ->. discriminate.
Qed.

Lemma never_diverges_generateUnit (files : archive) (baseProj : json)
  (options : Options) (i : nat) (st : archive * list jsstring) :
  never_diverges (generateUnit v files baseProj options i st).
Proof.
  destruct st as [out used]. unfold generateUnit.
  apply never_diverges_bind.
  { intros w w' e H.
    destruct (nextRecord_run v options w) as (r & w1 & E & _).
    rewrite E in H. discriminate. }
  intros r. apply never_diverges_bind.
  { apply never_diverges_lift. intros E.
    apply substitute_record_inl in E. discriminate. }
  intros proj. apply never_diverges_bind.
  { apply never_diverges_lift.
    pose proof (allocate_total used (sanitizeFilename (fullName r))).
    destruct (allocate used _); congruence. }
  intros f. apply never_diverges_bind; [|intros; apply never_diverges_ret].
  destruct (progress_due i (count options));
    [apply never_diverges_progressCb | apply never_diverges_ret].
Qed.

Lemma never_diverges_generateUnits (files : archive) (baseProj : json)
  (options : Options) (indices : list nat) :
  forall st,
    never_diverges (generateUnits v files baseProj options indices st).
Proof.
  induction indices as [|i indices IH]; intros st; simpl.
  - apply never_diverges_ret.
  - apply never_diverges_bind;
      [apply never_diverges_generateUnit | exact IH].
Qed.

(** No run of [generateOutputsZip] is cut short by the bound put on the
    suffix search. *)
Lemma never_diverges_generateOutputsZip (env : Env) (options : Options) :
  never_diverges (generateOutputsZip v env options).
Proof.
  unfold generateOutputsZip.
  apply never_diverges_bind; [apply never_diverges_progressCb|intros _].
  apply never_diverges_bind.
  { apply never_diverges_lift. intros E.
    apply fetchTemplateBytes_kind in E. discriminate. }
  intros tb. apply never_diverges_bind.
  { apply never_diverges_lift. destruct (unzipSync tb); discriminate. }
  intros files.
  destruct (assoc_get (js "data.plab") files) as [plab|].
  2:{ intros w w' e [= _ <-]. discriminate. }
  apply never_diverges_bind.
  { apply never_diverges_lift. destruct (JSON_parse plab); discriminate. }
  intros baseProj. apply never_diverges_bind.
  { apply never_diverges_lift. destruct baseProj; discriminate. }
  intros bundle. apply never_diverges_bind.
  { apply never_diverges_lift. generalize LAYERS.
    induction l as [|x l IH]; simpl; [discriminate|].
    destruct (layer_missing _ x); [discriminate|exact IH]. }
  intros _. apply never_diverges_bind;
    [apply never_diverges_generateUnits|intros [out used]].
  apply never_diverges_bind; [apply never_diverges_progressCb|intros _].
  apply never_diverges_ret.
Qed.

End Termination.

(** ** Runs that complete *)

Lemma is_object_truthy (x : json) : is_object x = true -> truthy x = true.
Proof. destruct x; simpl; congruence. Qed.

Lemma get_is_object (o : json) (k : jsstring) (x : json) :
  get o k = Some x -> is_object o = true.
Proof. destruct o; simpl; congruence. Qed.

(** A substitution in a layer that is an object succeeds, and leaves the
    other layers as they were. *)
Lemma substitute_succeeds (b : json) (k t : jsstring) (layer : json) :
  get b k = Some layer -> is_object layer = true ->
  exists b', substitute b k t = inr b'
             /\ forall k', k' <> k -> get b' k' = get b k'.
Proof.
  intros G O. unfold substitute, assign. rewrite G, O. simpl.
  eexists. split; [reflexivity|].
  intros k' N. apply get_put_other. congruence.
Qed.

Lemma substitute_record_succeeds (proj : json) (r : unit_record)
  (bundle : json) :
  get proj (js "objectsBundle") = Some bundle ->
  (forall k, In k LAYERS ->
     exists layer, get bundle k = Some layer /\ is_object layer = true) ->
  exists proj', substitute_record proj r = inr proj'.
Proof.
  intros G L. unfold substitute_record. rewrite G.
  assert (D : forall a c : string, a <> c -> js a <> js c)
    by (intros a c N E; apply N, js_inj, E).
  destruct (L (js "text0")) as (l0 & G0 & O0); [simpl; auto|].
  destruct (L (js "text1")) as (l1 & G1 & O1); [simpl; auto|].
  destruct (L (js "text2")) as (l2 & G2 & O2); [simpl; auto|].
  destruct (L (js "text3")) as (l3 & G3 & O3); [simpl; auto 6|].
  destruct (substitute_succeeds bundle _ (fullName r) l0 G0 O0)
    as (b0 & -> & K0). simpl.
  rewrite <- K0 in G1, G2, G3 by (apply D; discriminate).
  destruct (substitute_succeeds b0 _ (t1 r) l1 G1 O1) as (b1 & -> & K1).
  simpl.
  rewrite <- K1 in G2, G3 by (apply D; discriminate).
  destruct (substitute_succeeds b1 _ (t2 r) l2 G2 O2) as (b2 & -> & K2).
  simpl.
  rewrite <- K2 in G3 by (apply D; discriminate).
  destruct (substitute_succeeds b2 _ (t3 r) l3 G3 O3) as (b3 & -> & K3).
  simpl. eauto.
Qed.

Section Completion.

Context {cm : CaseMapping} {host : Host} (v : Variant).

Hypothesis sink_holds : forall n message, progressCb_fails n message = false.

Lemma progressCb_succeeds (message : jsstring) (w : world) :
  exists w', progressCb message w = (w', inr tt).
Proof.
  unfold progressCb. rewrite sink_holds. eauto.
Qed.

Lemma generateUnits_complete (files : archive) (baseProj bundle : json)
  (options : Options) (indices : list nat) :
  get baseProj (js "objectsBundle") = Some bundle ->
  (forall k, In k LAYERS ->
     exists layer, get bundle k = Some layer /\ is_object layer = true) ->
  forall st w,
    exists st' w',
      generateUnits v files baseProj options indices st w = (w', inr st').
Proof.
  intros G L. induction indices as [|i indices IH]; intros [out used] w.
  - simpl. unfold ret. eauto.
  - simpl. unfold bind at 1. unfold generateUnit, bind, lift, ret.
    destruct (nextRecord_run v options w) as (r & w1 & -> & _).
    destruct (substitute_record_succeeds baseProj r bundle G L)
      as (proj & ->).
    pose proof (allocate_total used (sanitizeFilename (fullName r))) as T.
    destruct (allocate used (sanitizeFilename (fullName r))) as [f|];
      [|congruence].
    destruct (progress_due i (count options)).
    + destruct (progressCb_succeeds (generating_message i (count options))
                  w1) as (w2 & ->).
      apply IH.
    + apply IH.
Qed.

(** With a callback that does not fail and a template whose four layers are
    objects, the batch completes. *)
Lemma generateOutputsZip_completes (env : Env) (options : Options)
  (w : world) (templateBytes : bytes) (files : archive) (plab : bytes)
  (baseProj bundle : json) :
  fetchTemplateBytes v env = inr templateBytes ->
  unzipSync templateBytes = Some files ->
  assoc_get (js "data.plab") files = Some plab ->
  JSON_parse plab = Some baseProj ->
  get baseProj (js "objectsBundle") = Some bundle ->
  (forall k, In k LAYERS ->
     exists layer, get bundle k = Some layer /\ is_object layer = true) ->
  exists w' zip, generateOutputsZip v env options w = (w', inr zip).
Proof.
  intros Fe U P Pa G L.
  unfold generateOutputsZip.
  unfold bind at 1.
  destruct (progressCb_succeeds (downloading_message v) w) as (w1 & ->).
  unfold bind at 1. unfold lift at 1. rewrite Fe.
  unfold bind at 1. unfold lift at 1. rewrite U, P.
  unfold bind at 1. unfold lift at 1. rewrite Pa.
  assert (R : read baseProj (js "objectsBundle") = inr (Some bundle)).
  { destruct baseProj; simpl in *; congruence. }
  unfold bind at 1. unfold lift at 1. rewrite R.
  assert (C : check_layers (or_empty_object (Some bundle)) LAYERS = inr tt).
  { destruct (L (js "text0")) as (l0 & G0 & _); [simpl; auto|].
    unfold or_empty_object.
    rewrite (is_object_truthy _ (get_is_object _ _ _ G0)).
    assert (M : forall k, In k LAYERS -> layer_missing bundle k = false).
    { intros k Hk. destruct (L k Hk) as (l & Gl & Ol).
      unfold layer_missing. rewrite Gl, (is_object_truthy l Ol).
      reflexivity. }
    clear - M. revert M. generalize LAYERS as ks.
    induction ks as [|x ks IH]; intros M; [reflexivity|].
    cbn [check_layers]. rewrite (M x) by (left; reflexivity).
    apply IH. intros k Hk. apply M. right. exact Hk. }
  unfold bind at 1. unfold lift at 1. rewrite C.
  unfold bind at 1.
  destruct (generateUnits_complete files baseProj bundle options
              (seq 1 (count options)) G L ([], []) w1)
    as ([out used] & w2 & ->).
  unfold bind at 1.
  destruct (progressCb_succeeds packing_message w2) as (w3 & ->).
  unfold ret. eauto.
Qed.

End Completion.

(** ** Words and title case *)

Lemma words_trimStart (s : jsstring) : words (trimStart s) = words s.
Proof.
  induction s as [|c r IH]; simpl; [reflexivity|].
  destruct (is_ws c) eqn:E; [exact IH|]. simpl. rewrite E. reflexivity.
Qed.

Lemma words_app_ws (s : jsstring) (c : code_unit) :
  is_ws c = true -> words (s ++ [c]) = words s.
Proof.
  intros W. induction s as [|x r IH]; simpl.
  - rewrite W. reflexivity.
  - destruct (is_ws x); [exact IH|].
    destruct r as [|c' r']; simpl in *.
    + rewrite W. reflexivity.
    + destruct (is_ws c'); rewrite IH; reflexivity.
Qed.

Lemma words_trimEnd (s : jsstring) : words (trimEnd s) = words s.
Proof.
  unfold trimEnd. rewrite <- (rev_involutive s) at 2.
  induction (rev s) as [|c t IH]; simpl; [reflexivity|].
  destruct (is_ws c) eqn:E.
  - rewrite IH, words_app_ws by exact E. reflexivity.
  - reflexivity.
Qed.

Lemma words_trim (s : jsstring) : words (trim s) = words s.
Proof. unfold trim. rewrite words_trimEnd, words_trimStart. reflexivity. Qed.

Lemma starts_ws_trimStart (s : jsstring) : starts_ws (trimStart s) = false.
Proof.
  induction s as [|c r IH]; simpl; [reflexivity|].
  destruct (is_ws c) eqn:E; [exact IH|]. simpl. exact E.
Qed.

Lemma trimStart_app_nonws (a : jsstring) (c : code_unit) :
  is_ws c = false -> trimStart (a ++ [c]) = trimStart a ++ [c].
Proof.
  intros W. induction a as [|x a IH]; simpl.
  - rewrite W. reflexivity.
  - destruct (is_ws x); [exact IH|reflexivity].
Qed.

Lemma trimEnd_cons_nonws (c : code_unit) (r : jsstring) :
  is_ws c = false -> trimEnd (c :: r) = c :: trimEnd r.
Proof.
  intros W. unfold trimEnd. simpl.
  rewrite trimStart_app_nonws by exact W.
  rewrite rev_app_distr. reflexivity.
Qed.

Lemma ends_nonws_app (a : jsstring) (c : code_unit) :
  ends_nonws (a ++ [c]) = negb (is_ws c).
Proof.
  induction a as [|x a IH]; simpl; [reflexivity|].
  destruct (a ++ [c]) eqn:E; [destruct a; discriminate|exact IH].
Qed.

Lemma ends_nonws_trimEnd (s : jsstring) :
  trimEnd s <> [] -> ends_nonws (trimEnd s) = true.
Proof.
  unfold trimEnd. pose proof (starts_ws_trimStart (rev s)) as H.
  destruct (trimStart (rev s)) as [|c t]; simpl in *; [congruence|].
  intros _. rewrite ends_nonws_app, H. reflexivity.
Qed.

(** A trimmed text that is not empty begins and ends with a character that
    is not white space. *)
Lemma trim_ends (s : jsstring) :
  trim s <> [] ->
  starts_ws (trim s) = false /\ ends_nonws (trim s) = true.
Proof.
  unfold trim. intros N. split; [|apply ends_nonws_trimEnd; exact N].
  pose proof (starts_ws_trimStart s) as H.
  destruct (trimStart s) as [|c t]; simpl in *; [reflexivity|].
  rewrite trimEnd_cons_nonws by exact H. simpl. exact H.
Qed.

(** On a text that ends with a character that is not white space, and is cut
    after white space or begins with another character, the pieces of
    [split] are the words. *)
Lemma split_from_words (s : jsstring) :
  forall in_run,
    ends_nonws s = true ->
    in_run = true \/ starts_ws s = false ->
    split_from in_run s = words s.
Proof.
  induction s as [|c r IH]; intros in_run E H; [discriminate|].
  destruct (is_ws c) eqn:W.
  - destruct H as [->|H]; [|simpl in H; congruence].
    cbn [split_from words]. rewrite W.
    apply IH; [|left; reflexivity].
    destruct r; [cbn in E; rewrite W in E; discriminate|exact E].
  - destruct r as [|c' r'].
    + cbn. rewrite W. reflexivity.
    + assert (E' : ends_nonws (c' :: r') = true) by exact E.
      destruct (is_ws c') eqn:W'.
      * pose proof (IH true E' (or_introl eq_refl)) as I.
        cbn [split_from words] in I |- *. rewrite W' in *. rewrite W.
        rewrite I. reflexivity.
      * pose proof (IH false E' (or_intror W')) as I.
        cbn [split_from words] in I |- *. rewrite W' in *. rewrite W.
        rewrite I. reflexivity.
Qed.

Lemma words_nonempty (s : jsstring) : Forall (fun x => x <> []) (words s).
Proof.
  induction s as [|c r IH]; simpl; [constructor|].
  destruct (is_ws c); [exact IH|].
  destruct r as [|c' r']; [repeat constructor; discriminate|].
  destruct (is_ws c'); [constructor; [discriminate|exact IH]|].
  destruct (words (c' :: r')) as [|x xs];
    [repeat constructor; discriminate|].
  inversion IH; subst. constructor; [discriminate|assumption].
Qed.

Section TitleCaseFacts.

Context {cm : CaseMapping}.

Lemma capitalize_nonempty (by_index : bool) (x : jsstring) :
  x <> [] -> capitalize by_index x = capitalize_word x.
Proof. destruct x; [congruence|reflexivity]. Qed.

(** [titleCase] puts every word of the text in upper case at its first
    character and in lower case after it, and joins the words with one
    space. *)
Lemma titleCase_words (by_index : bool) (s : jsstring) :
  titleCase by_index s = join (js " ") (map capitalize_word (words s)).
Proof.
  unfold titleCase. rewrite <- (words_trim s).
  destruct (trim s) as [|c t] eqn:T; [reflexivity|].
  assert (N : trim s <> []) by congruence.
  destruct (trim_ends s N) as [S E]. rewrite T in S, E.
  cbn [is_empty]. unfold split_ws.
  rewrite (split_from_words _ false E (or_intror S)).
  f_equal. apply map_ext_in. intros x Hx. apply capitalize_nonempty.
  pose proof (words_nonempty (c :: t)) as F.
  rewrite Forall_forall in F. apply F; exact Hx.
Qed.

End TitleCaseFacts.

(** ** Title case twice *)

Ltac ncases :=
  repeat match goal with
  | |- context [(?a <=? ?b)%N] =>
      destruct (N.leb_spec a b); cbn [andb orb negb] in *; try lia
  | |- context [(?a <? ?b)%N] =>
      destruct (N.ltb_spec a b); cbn [andb orb negb] in *; try lia
  | |- context [(?a =? ?b)%N] =>
      destruct (N.eqb_spec a b); cbn [andb orb negb] in *; try lia
  end; try reflexivity; try lia.

Lemma is_ws_ascii_upper (c : code_unit) : is_ws (ascii_upper c) = is_ws c.
Proof.
  unfold ascii_upper.
  destruct ((97 <=? c) && (c <=? 122))%N eqn:E; [|reflexivity].
  apply andb_true_iff in E. destruct E as [E1 E2].
  apply N.leb_le in E1, E2. unfold is_ws. ncases.
Qed.

Lemma is_ws_ascii_lower (c : code_unit) : is_ws (ascii_lower c) = is_ws c.
Proof.
  unfold ascii_lower.
  destruct ((65 <=? c) && (c <=? 90))%N eqn:E; [|reflexivity].
  apply andb_true_iff in E. destruct E as [E1 E2].
  apply N.leb_le in E1, E2. unfold is_ws. ncases.
Qed.

Lemma is_ascii_upper (c : code_unit) :
  is_ascii c = true -> is_ascii (ascii_upper c) = true.
Proof.
  unfold is_ascii, ascii_upper. intros H. apply N.ltb_lt in H. ncases.
Qed.

Lemma is_ascii_lower (c : code_unit) :
  is_ascii c = true -> is_ascii (ascii_lower c) = true.
Proof.
  unfold is_ascii, ascii_lower. intros H. apply N.ltb_lt in H. ncases.
Qed.

Lemma ascii_upper_idem (c : code_unit) :
  ascii_upper (ascii_upper c) = ascii_upper c.
Proof. unfold ascii_upper. ncases. Qed.

Lemma ascii_lower_idem (c : code_unit) :
  ascii_lower (ascii_lower c) = ascii_lower c.
Proof. unfold ascii_lower. ncases. Qed.

Lemma ascii_capitalize_idem (x : jsstring) :
  ascii_capitalize (ascii_capitalize x) = ascii_capitalize x.
Proof.
  destruct x as [|c r]; simpl; [reflexivity|].
  rewrite ascii_upper_idem, map_map. f_equal.
  apply map_ext. apply ascii_lower_idem.
Qed.

Lemma ascii_capitalize_ascii (x : jsstring) :
  forallb is_ascii x = true -> forallb is_ascii (ascii_capitalize x) = true.
Proof.
  destruct x as [|c r]; simpl; [reflexivity|].
  rewrite !andb_true_iff. intros [H1 H2]. split.
  - apply is_ascii_upper; exact H1.
  - rewrite forallb_forall in *. intros y Hy.
    apply in_map_iff in Hy. destruct Hy as (z & <- & Hz).
    apply is_ascii_lower. apply H2; exact Hz.
Qed.

Lemma ascii_capitalize_no_ws (x : jsstring) :
  no_ws x = true -> no_ws (ascii_capitalize x) = true.
Proof.
  unfold no_ws. destruct x as [|c r]; simpl; [reflexivity|].
  rewrite !andb_true_iff. intros [H1 H2]. split.
  - rewrite is_ws_ascii_upper; exact H1.
  - rewrite forallb_forall in *. intros y Hy.
    apply in_map_iff in Hy. destruct Hy as (z & <- & Hz).
    rewrite is_ws_ascii_lower. apply H2; exact Hz.
Qed.

(** On ASCII text the case mapping of the runtime is the mapping of the
    letters. *)
Lemma capitalize_word_ascii {cm : CaseMapping} (x : jsstring) :
  AsciiCompatible cm -> forallb is_ascii x = true ->
  capitalize_word x = ascii_capitalize x.
Proof.
  intros AC H. unfold capitalize_word.
  destruct x as [|c r]; simpl in *.
  - destruct (AC [] eq_refl) as [-> ->]. reflexivity.
  - apply andb_true_iff in H. destruct H as [H1 H2].
    assert (Hc : forallb is_ascii [c] = true) by (simpl; rewrite H1; auto).
    destruct (AC [c] Hc) as [-> _]. destruct (AC r H2) as [_ ->].
    reflexivity.
Qed.

Lemma words_no_ws (s : jsstring) :
  Forall (fun x => no_ws x = true) (words s).
Proof.
  unfold no_ws. induction s as [|c r IH]; simpl; [constructor|].
  destruct (is_ws c) eqn:W; [exact IH|].
  destruct r as [|c' r'];
    [repeat constructor; simpl; rewrite W; reflexivity|].
  destruct (is_ws c');
    [constructor; [simpl; rewrite W; reflexivity|exact IH]|].
  destruct (words (c' :: r')) as [|x xs];
    [repeat constructor; simpl; rewrite W; reflexivity|].
  inversion IH; subst. constructor; [|assumption].
  simpl. rewrite W. assumption.
Qed.

Lemma words_forall (P : code_unit -> bool) (s : jsstring) :
  forallb P s = true -> Forall (fun x => forallb P x = true) (words s).
Proof.
  induction s as [|c r IH]; simpl; [constructor|].
  rewrite andb_true_iff. intros [Hc Hr]. specialize (IH Hr).
  destruct (is_ws c); [exact IH|].
  destruct r as [|c' r'];
    [repeat constructor; simpl; rewrite Hc; reflexivity|].
  destruct (is_ws c');
    [constructor; [simpl; rewrite Hc; reflexivity|exact IH]|].
  destruct (words (c' :: r')) as [|x xs];
    [repeat constructor; simpl; rewrite Hc; reflexivity|].
  inversion IH; subst. constructor; [|assumption].
  simpl. rewrite Hc. assumption.
Qed.

(** A word followed by a space and a text is the first word of the whole. *)
Lemma words_app_space (x t : jsstring) :
  x <> [] -> no_ws x = true -> words (x ++ 32%N :: t) = x :: words t.
Proof.
  unfold no_ws. induction x as [|c r IH]; [congruence|]. intros _.
  simpl. rewrite andb_true_iff, negb_true_iff. intros [W H].
  rewrite W. destruct r as [|c' r']; simpl in *.
  - reflexivity.
  - apply andb_true_iff in H. destruct H as [W' H].
    apply negb_true_iff in W'. rewrite W'.
    rewrite W' in IH. rewrite IH; [reflexivity|discriminate|].
    simpl. exact H.
Qed.

Lemma words_word (x : jsstring) :
  x <> [] -> no_ws x = true -> words x = [x].
Proof.
  unfold no_ws. induction x as [|c r IH]; [congruence|]. intros _.
  simpl. rewrite andb_true_iff, negb_true_iff. intros [W H].
  rewrite W. destruct r as [|c' r']; simpl in *; [reflexivity|].
  apply andb_true_iff in H. destruct H as [W' H].
  apply negb_true_iff in W'. rewrite W'.
  rewrite W' in IH. rewrite IH; [reflexivity|discriminate|].
  simpl. exact H.
Qed.

(** The words of words joined with one space are those words. *)
Lemma words_join (l : list jsstring) :
  Forall (fun x => x <> [] /\ no_ws x = true) l ->
  words (join (js " ") l) = l.
Proof.
  induction 1 as [|x l [N W] F IH]; [reflexivity|].
  destruct l as [|y l'].
  - simpl. apply words_word; assumption.
  - change (join (js " ") (x :: y :: l'))
      with (x ++ 32%N :: join (js " ") (y :: l')).
    rewrite words_app_space by assumption. rewrite IH. reflexivity.
Qed.

Lemma latin1_ascii_compatible : AsciiCompatible latin1_case.
Proof.
  intros s H. simpl. split.
  - induction s as [|c r IH]; simpl in *; [reflexivity|].
    apply andb_true_iff in H. destruct H as [Hc Hr].
    rewrite (IH Hr). f_equal.
    unfold is_ascii in Hc. apply N.ltb_lt in Hc.
    unfold latin1_upper_unit, ascii_upper. ncases.
  - apply map_ext_in. intros c Hc.
    rewrite forallb_forall in H. specialize (H c Hc).
    unfold is_ascii in H. apply N.ltb_lt in H.
    unfold latin1_lower_unit, ascii_lower. ncases.
Qed.

(** ** Sanitized names *)

Lemma collapse_from_single_spaced (s : jsstring) :
  forall in_run,
    single_spaced (collapse_from in_run s) = true
    /\ (in_run = true -> starts_ws (collapse_from in_run s) = false).
Proof.
  induction s as [|c r IH]; intros in_run; simpl; [auto|].
  destruct (is_ws c) eqn:W.
  - destruct in_run.
    + apply IH.
    + destruct (IH true) as [S1 S2]. simpl.
      rewrite (S2 eq_refl), S1. split; [reflexivity|discriminate].
  - destruct (IH false) as [S1 _]. simpl. rewrite W, S1. auto.
Qed.

Lemma starts_ws_firstn (n : nat) (s : jsstring) :
  starts_ws s = false -> starts_ws (firstn n s) = false.
Proof. destruct n, s; simpl; auto. Qed.

Lemma single_spaced_firstn (n : nat) (s : jsstring) :
  single_spaced s = true -> single_spaced (firstn n s) = true.
Proof.
  revert n; induction s as [|c r IH]; intros [|n]; simpl; auto.
  rewrite !andb_true_iff. intros [H1 H2]. split; [|apply IH; exact H2].
  destruct (is_ws c); [|reflexivity].
  apply andb_true_iff in H1. destruct H1 as [E S].
  rewrite E. apply negb_true_iff in S.
  rewrite (starts_ws_firstn n r S). reflexivity.
Qed.

Lemma no_forbidden_strip (s : jsstring) :
  no_forbidden (strip_forbidden s) = true.
Proof.
  unfold no_forbidden. induction s as [|c r IH]; simpl; [reflexivity|].
  destruct (is_forbidden c) eqn:F; [exact IH|].
  simpl. rewrite F, IH. reflexivity.
Qed.

Lemma no_forbidden_collapse (s : jsstring) :
  forall in_run,
    no_forbidden s = true -> no_forbidden (collapse_from in_run s) = true.
Proof.
  unfold no_forbidden. induction s as [|c r IH]; intros in_run; simpl;
    [reflexivity|].
  rewrite andb_true_iff. intros [Hc Hr].
  destruct (is_ws c); [destruct in_run|]; simpl;
    rewrite ?Hc, (IH _ Hr); reflexivity.
Qed.

Lemma forallb_firstn {A : Type} (P : A -> bool) (n : nat) (l : list A) :
  forallb P l = true -> forallb P (firstn n l) = true.
Proof.
  revert n; induction l as [|x l IH]; intros [|n]; simpl; auto.
  rewrite !andb_true_iff. intros [? ?]. auto.
Qed.

Lemma sanitizeFilename_unfold (name : jsstring) :
  sanitizeFilename name
  = firstn 80 (or_default (collapse_ws (strip_forbidden (trim name)))
                 (js "output")).
Proof.
  unfold sanitizeFilename, or_default, slice0.
  set (n := if is_empty _ then _ else _).
  destruct (80 <? length n) eqn:E; [reflexivity|].
  apply Nat.ltb_ge in E. symmetry. apply firstn_all2. exact E.
Qed.

Lemma trimStart_no_ws (s : jsstring) : no_ws s = true -> trimStart s = s.
Proof.
  unfold no_ws. destruct s as [|c r]; simpl; [reflexivity|].
  rewrite andb_true_iff, negb_true_iff. intros [-> _]. reflexivity.
Qed.

Lemma trim_no_ws (s : jsstring) : no_ws s = true -> trim s = s.
Proof.
  intros H. unfold trim, trimEnd. rewrite (trimStart_no_ws s H).
  rewrite trimStart_no_ws, rev_involutive; [reflexivity|].
  unfold no_ws in *. rewrite forallb_forall in *.
  intros x Hx. apply H. apply in_rev; exact Hx.
Qed.

Lemma strip_no_forbidden (s : jsstring) :
  no_forbidden s = true -> strip_forbidden s = s.
Proof.
  unfold no_forbidden. induction s as [|c r IH]; simpl; [reflexivity|].
  rewrite andb_true_iff, negb_true_iff. intros [-> H].
  rewrite (IH H). reflexivity.
Qed.

Lemma collapse_no_ws (s : jsstring) :
  forall in_run, no_ws s = true -> collapse_from in_run s = s.
Proof.
  unfold no_ws. induction s as [|c r IH]; intros in_run; simpl;
    [reflexivity|].
  rewrite andb_true_iff, negb_true_iff. intros [-> H].
  rewrite (IH _ H). reflexivity.
Qed.

(** A name of ordinary characters is kept, up to its first 80 characters. *)
Lemma sanitizeFilename_plain (s : jsstring) :
  s <> [] -> no_ws s = true -> no_forbidden s = true ->
  sanitizeFilename s = firstn 80 s.
Proof.
  intros N W F. rewrite sanitizeFilename_unfold.
  rewrite (trim_no_ws s W), (strip_no_forbidden s F).
  unfold collapse_ws. rewrite (collapse_no_ws s false W).
  destruct s; [congruence|reflexivity].
Qed.

(** *** The order of the steps *)

Lemma trimStart_split (s : jsstring) :
  exists l, s = l ++ trimStart s /\ forallb is_ws l = true.
Proof.
  induction s as [|c r (l & E & W)]; simpl; [exists []; auto|].
  destruct (is_ws c) eqn:Wc.
  - exists (c :: l). simpl. rewrite Wc, W, <- E. auto.
  - exists []. auto.
Qed.

Lemma trimEnd_split (s : jsstring) :
  exists r, s = trimEnd s ++ r /\ forallb is_ws r = true.
Proof.
  unfold trimEnd. destruct (trimStart_split (rev s)) as (l & E & W).
  exists (rev l). split.
  - rewrite <- rev_app_distr, <- E, rev_involutive. reflexivity.
  - rewrite forallb_forall in *. intros x Hx. apply W, in_rev; exact Hx.
Qed.

Lemma trim_split (s : jsstring) :
  exists l r, s = l ++ trim s ++ r
              /\ forallb is_ws l = true /\ forallb is_ws r = true.
Proof.
  destruct (trimStart_split s) as (l & E & W).
  destruct (trimEnd_split (trimStart s)) as (r & E' & W').
  exists l, r. unfold trim. rewrite <- E', <- E. auto.
Qed.

Lemma forbidden_not_ws (c : code_unit) :
  is_forbidden c = true -> is_ws c = false.
Proof.
  unfold is_forbidden. rewrite !orb_true_iff, !N.eqb_eq.
  intros H. repeat destruct H as [H|H]; subst c; reflexivity.
Qed.

Lemma ws_not_forbidden (c : code_unit) :
  is_ws c = true -> is_forbidden c = false.
Proof.
  intros W. destruct (is_forbidden c) eqn:F; [|reflexivity].
  rewrite (forbidden_not_ws c F) in W. discriminate.
Qed.

Lemma strip_app (a b : jsstring) :
  strip_forbidden (a ++ b) = strip_forbidden a ++ strip_forbidden b.
Proof.
  induction a as [|c a IH]; simpl; [reflexivity|].
  destruct (is_forbidden c); rewrite IH; reflexivity.
Qed.

Lemma strip_all_ws (l : jsstring) :
  forallb is_ws l = true -> strip_forbidden l = l.
Proof.
  induction l as [|c l IH]; simpl; [reflexivity|].
  rewrite andb_true_iff. intros [W H].
  rewrite (ws_not_forbidden c W), (IH H). reflexivity.
Qed.

Lemma collapse_from_ws_prefix (l x : jsstring) :
  forall in_run,
    forallb is_ws l = true ->
    collapse_from in_run (l ++ x)
    = match l with
      | [] => collapse_from in_run x
      | _ => (if in_run then [] else [32%N]) ++ collapse_from true x
      end.
Proof.
  induction l as [|c l IH]; intros in_run; simpl; [reflexivity|].
  rewrite andb_true_iff. intros [W H]. rewrite W.
  rewrite (IH true H).
  destruct in_run; destruct l; reflexivity.
Qed.

Lemma collapse_from_start (x : jsstring) (in_run : bool) :
  x <> [] -> starts_ws x = false ->
  collapse_from in_run x = collapse_from false x.
Proof.
  destruct x as [|c r]; [congruence|]. simpl. intros _ ->. reflexivity.
Qed.

Lemma collapse_from_cons (in_run : bool) (c : code_unit) (r : jsstring) :
  collapse_from in_run (c :: r)
  = if is_ws c
    then (if in_run then collapse_from true r
          else 32%N :: collapse_from true r)
    else c :: collapse_from false r.
Proof. reflexivity. Qed.

Lemma collapse_from_app_end (m r : jsstring) :
  forall in_run,
    ends_nonws m = true -> forallb is_ws r = true ->
    collapse_from in_run (m ++ r)
    = collapse_from in_run m ++ match r with [] => [] | _ => [32%N] end.
Proof.
  induction m as [|c m IH]; intros in_run E W; [discriminate|].
  destruct m as [|c' m'].
  - simpl in E. apply negb_true_iff in E. simpl. rewrite E.
    f_equal. rewrite <- (app_nil_r r) at 1.
    rewrite (collapse_from_ws_prefix r [] false W).
    destruct r; reflexivity.
  - assert (E' : ends_nonws (c' :: m') = true) by exact E.
    change ((c :: c' :: m') ++ r) with (c :: ((c' :: m') ++ r)).
    rewrite (collapse_from_cons in_run c ((c' :: m') ++ r)).
    rewrite (collapse_from_cons in_run c (c' :: m')).
    destruct (is_ws c); [destruct in_run|];
      rewrite (IH _ E' W); reflexivity.
Qed.

Lemma ends_nonws_cons (c : code_unit) (x : jsstring) :
  ends_nonws x = true -> ends_nonws (c :: x) = true.
Proof. destruct x; [discriminate|auto]. Qed.

Lemma ends_nonws_collapse (m : jsstring) :
  forall in_run,
    ends_nonws m = true -> ends_nonws (collapse_from in_run m) = true.
Proof.
  induction m as [|c m IH]; intros in_run E; [discriminate|].
  destruct m as [|c' m'].
  - simpl in *. apply negb_true_iff in E. rewrite E. simpl.
    rewrite E. reflexivity.
  - assert (E' : ends_nonws (c' :: m') = true) by exact E.
    rewrite (collapse_from_cons in_run c (c' :: m')).
    destruct (is_ws c); [destruct in_run|];
      try apply ends_nonws_cons; apply IH; exact E'.
Qed.

Lemma ends_nonws_split (x : jsstring) :
  ends_nonws x = true ->
  exists a c, x = a ++ [c] /\ is_ws c = false.
Proof.
  induction x as [|c x IH]; [discriminate|].
  destruct x as [|c' x'].
  - simpl. intros E. apply negb_true_iff in E. exists [], c. auto.
  - intros E. destruct (IH E) as (a & z & -> & W).
    exists (c :: a), z. auto.
Qed.

Lemma trimStart_ws_prefix (pre x : jsstring) :
  forallb is_ws pre = true -> trimStart (pre ++ x) = trimStart x.
Proof.
  induction pre as [|c pre IH]; simpl; [reflexivity|].
  rewrite andb_true_iff. intros [-> H]. exact (IH H).
Qed.

Lemma trimStart_id (x : jsstring) : starts_ws x = false -> trimStart x = x.
Proof. destruct x; simpl; [reflexivity|intros ->; reflexivity]. Qed.

Lemma trimEnd_ws_suffix (x post : jsstring) :
  forallb is_ws post = true -> trimEnd (x ++ post) = trimEnd x.
Proof.
  intros W. unfold trimEnd. rewrite rev_app_distr.
  rewrite trimStart_ws_prefix; [reflexivity|].
  rewrite forallb_forall in *. intros y Hy. apply W, in_rev; exact Hy.
Qed.

Lemma trimEnd_id (x : jsstring) : ends_nonws x = true -> trimEnd x = x.
Proof.
  intros E. destruct (ends_nonws_split x E) as (a & c & -> & W).
  unfold trimEnd. rewrite rev_app_distr. simpl. rewrite W. simpl.
  rewrite rev_involutive. reflexivity.
Qed.

Lemma ends_nonws_strip (t : jsstring) (d : code_unit) :
  ends_nonws t = true -> is_forbidden (last t d) = false ->
  ends_nonws (strip_forbidden t) = true.
Proof.
  intros E F. destruct (ends_nonws_split t E) as (a & c & -> & W).
  rewrite last_last in F. rewrite strip_app. simpl. rewrite F.
  rewrite ends_nonws_app, W. reflexivity.
Qed.

(** When the trimmed name neither begins nor ends with one of the nine
    characters, trimming first and trimming last give the same text. *)
Lemma trim_last_or_first (s : jsstring) :
  ends_kept (trim s) = true ->
  trim (collapse_ws (strip_forbidden s))
  = collapse_ws (strip_forbidden (trim s)).
Proof.
  intros K. destruct (trim_split s) as (l & r & E & Wl & Wr).
  rewrite E at 1. rewrite !strip_app.
  rewrite (strip_all_ws l Wl), (strip_all_ws r Wr).
  destruct (trim s) as [|c t] eqn:T.
  - simpl. unfold collapse_ws. rewrite <- (app_nil_r (l ++ r)).
    rewrite collapse_from_ws_prefix
      by (rewrite forallb_app, Wl, Wr; reflexivity).
    destruct (l ++ r); reflexivity.
  - assert (N : trim s <> []) by congruence.
    destruct (trim_ends s N) as [S En]. rewrite T in S, En.
    simpl in K. apply andb_true_iff in K. destruct K as [K1 K2].
    apply negb_true_iff in K1, K2.
    pose proof (ends_nonws_strip (c :: t) c En K2) as Em.
    set (m := strip_forbidden (c :: t)) in *.
    assert (Sm : starts_ws m = false /\ m <> []).
    { subst m. simpl. rewrite K1. simpl in S. simpl. split;
        [exact S|discriminate]. }
    destruct Sm as [Sm Nm].
    unfold collapse_ws.
    assert (C : collapse_from false (l ++ m ++ r)
                = match l with [] => [] | _ => [32%N] end
                  ++ collapse_from false m
                  ++ match r with [] => [] | _ => [32%N] end).
    { rewrite (collapse_from_ws_prefix l (m ++ r) false Wl).
      destruct l.
      - simpl. apply collapse_from_app_end; assumption.
      - rewrite (collapse_from_start (m ++ r) true).
        + rewrite collapse_from_app_end by assumption. reflexivity.
        + destruct m; [congruence|discriminate].
        + destruct m; [congruence|exact Sm]. }
    rewrite C.
    pose proof (ends_nonws_collapse m false Em) as Ec.
    assert (Sc : starts_ws (collapse_from false m) = false).
    { destruct m as [|a m']; [congruence|]. simpl in *. rewrite Sm.
      simpl. exact Sm. }
    unfold trim.
    rewrite trimStart_ws_prefix by (destruct l; reflexivity).
    rewrite trimStart_id.
    + rewrite trimEnd_ws_suffix by (destruct r; reflexivity).
      apply trimEnd_id; exact Ec.
    + destruct (collapse_from false m); [discriminate|exact Sc].
Qed.

Lemma sanitize_spec_agrees (s : jsstring) :
  ends_kept (trim s) = true -> sanitizeFilename s = sanitize_spec s.
Proof.
  intros K. rewrite sanitizeFilename_unfold. unfold sanitize_spec.
  rewrite (trim_last_or_first s K). reflexivity.
Qed.

(** ** The suffixes of a batch, counted *)

Lemma digits_of_uint (d : Decimal.uint) :
  forallb is_digit (js (NilEmpty.string_of_uint d)) = true.
Proof.
  induction d; try reflexivity; exact IHd.
Qed.

Lemma String_of_nat_digits (n : nat) :
  forallb is_digit (String_of_nat n) = true.
Proof. apply digits_of_uint. Qed.

(** Two texts cut at the first occurrence of a character are cut at the
    same place. *)
Lemma split_first {A : Type} (x : A) (a a' u u' : list A) :
  ~ In x a -> ~ In x a' -> a ++ x :: u = a' ++ x :: u' ->
  a = a' /\ u = u'.
Proof.
  revert a'; induction a as [|c a IH]; intros [|c' a']; simpl.
  - intros _ _ [= ->]. auto.
  - intros _ N [= -> _]. tauto.
  - intros N _ [= -> _]. tauto.
  - intros N N' [= -> E]. destruct (IH a') as [-> ->]; auto.
Qed.

Lemma not_In_forallb {A : Type} (P : A -> bool) (x : A) (l : list A) :
  forallb P l = true -> P x = false -> ~ In x l.
Proof.
  intros F Px I. rewrite forallb_forall in F. rewrite (F x I) in Px.
  discriminate.
Qed.

(** A text cut at its last underscore, when digits follow it. *)
Lemma suffix_inj (b b' d d' : jsstring) :
  forallb is_digit d = true -> forallb is_digit d' = true ->
  b ++ 95%N :: d = b' ++ 95%N :: d' -> b = b' /\ d = d'.
Proof.
  intros D D' E.
  assert (R : rev d ++ 95%N :: rev b = rev d' ++ 95%N :: rev b').
  { apply (f_equal (@rev _)) in E. rewrite !rev_app_distr in E.
    simpl in E. rewrite <- !app_assoc in E. exact E. }
  apply split_first in R.
  - destruct R as [R1 R2].
    apply (f_equal (@rev _)) in R1, R2.
    rewrite !rev_involutive in R1, R2. auto.
  - intros I. apply in_rev in I. revert I.
    apply (not_In_forallb is_digit); [exact D|reflexivity].
  - intros I. apply in_rev in I. revert I.
    apply (not_In_forallb is_digit); [exact D'|reflexivity].
Qed.

Lemma plp_inj (b b' : jsstring) : plp b = plp b' -> b = b'.
Proof. unfold plp. apply app_inv_tail. Qed.

Lemma plp_n_plp (b b' : jsstring) (n : nat) :
  plp_n b n = plp b' <-> b' = b ++ js "_" ++ String_of_nat n.
Proof.
  unfold plp_n, plp. split.
  - intros E. rewrite !app_assoc in E. apply app_inv_tail in E.
    rewrite <- app_assoc in E. congruence.
  - intros ->. rewrite <- !app_assoc. reflexivity.
Qed.

Lemma plp_n_plp_same (b : jsstring) (n : nat) : plp_n b n <> plp b.
Proof.
  intros E. apply plp_n_plp in E. apply (f_equal (@length _)) in E.
  rewrite !length_app in E. change (length (js "_")) with 1 in E. lia.
Qed.

Lemma plp_n_inj2 (b b' : jsstring) (n m : nat) :
  plp_n b n = plp_n b' m -> b = b' /\ n = m.
Proof.
  unfold plp_n. intros E. rewrite !app_assoc in E.
  apply app_inv_tail in E. rewrite <- !app_assoc in E.
  change (js "_" ++ ?x) with (95%N :: x) in E.
  apply suffix_inj in E; try apply String_of_nat_digits.
  destruct E as [-> E]. split; [reflexivity|].
  apply String_of_nat_inj; exact E.
Qed.

Lemma occurrences_app (b : jsstring) (l l' : list jsstring) :
  occurrences b (l ++ l') = occurrences b l + occurrences b l'.
Proof.
  unfold occurrences. rewrite filter_app, length_app. reflexivity.
Qed.

Lemma occurrences_one (b b' : jsstring) :
  occurrences b [b'] = if jsstring_eqb b b' then 1 else 0.
Proof. unfold occurrences. simpl. destruct (jsstring_eqb b b'); auto. Qed.

Section Numbering.

Variable all : list jsstring.
Hypothesis NC : no_cross all.

Lemma allocated_numbered (processed earlier : list jsstring)
  (base name : jsstring) :
  In base all -> counted all processed earlier ->
  allocated earlier base name ->
  name = numbered base (S (occurrences base processed)).
Proof.
  intros I C A. destruct (C base I) as [C1 C2]. unfold numbered.
  destruct A as [[N ->]|[T (n & L & -> & Fr & Be)]].
  - assert (occurrences base processed = 0) by (rewrite C1 in N; lia).
    rewrite H. reflexivity.
  - rewrite C1 in T. rewrite (C2 n L) in Fr.
    assert (E : n = S (occurrences base processed)).
    { destruct (Nat.eq_dec n 2) as [->|N2]; [lia|].
      assert (B : In (plp_n base (n - 1)) earlier) by (apply Be; lia).
      rewrite C2 in B by lia. lia. }
    rewrite <- E. destruct (Nat.eqb_spec n 1); [lia|reflexivity].
Qed.

Lemma counted_step (processed earlier : list jsstring) (base : jsstring) :
  In base all -> counted all processed earlier ->
  counted all (processed ++ [base])
          (earlier ++ [numbered base (S (occurrences base processed))]).
Proof.
  intros I C b Ib. destruct (C b Ib) as [C1 C2].
  rewrite occurrences_app, occurrences_one.
  set (k := occurrences base processed).
  split; [|intros n Ln]; rewrite in_app_iff; simpl.
  - rewrite C1. destruct (jsstring_eqb b base) eqn:E.
    + split; [lia|]. intros _.
      apply jsstring_eqb_eq in E. subst b. fold k.
      unfold numbered. destruct (Nat.eqb_spec (S k) 1); [auto|].
      left. lia.
    + apply jsstring_eqb_neq in E. split; [|intros; left; lia].
      intros [H|[H|[]]]; [lia|]. exfalso. unfold numbered in H.
      destruct (Nat.eqb_spec (S k) 1) as [K|K].
      * apply plp_inj in H. congruence.
      * apply plp_n_plp in H. revert H. apply NC; auto. lia.
  - rewrite (C2 n Ln). destruct (jsstring_eqb b base) eqn:E.
    + apply jsstring_eqb_eq in E. subst b. fold k. unfold numbered.
      destruct (Nat.eqb_spec (S k) 1) as [K|K].
      * split.
        -- intros [H|[H|[]]]; [lia|]. symmetry in H.
           apply plp_n_plp_same in H. tauto.
        -- intros H. left. lia.
      * split.
        -- intros [H|[H|[]]]; [lia|]. apply plp_n_inj in H. lia.
        -- intros H. destruct (Nat.eq_dec n (S k)) as [->|N];
             [right; auto|left; lia].
    + apply jsstring_eqb_neq in E. split; [|intros; left; lia].
      intros [H|[H|[]]]; [lia|]. exfalso. unfold numbered in H.
      destruct (Nat.eqb_spec (S k) 1) as [K|K].
      * symmetry in H. apply plp_n_plp in H. revert H. apply NC; auto.
      * apply plp_n_inj2 in H. destruct H; congruence.
Qed.

Lemma allocation_numbering (bases : list jsstring) :
  forall processed earlier names,
    (forall b, In b bases -> In b all) ->
    counted all processed earlier ->
    allocation earlier bases names ->
    names = numbering processed bases.
Proof.
  induction bases as [|b bases IH]; intros processed earlier [|n names];
    simpl; try tauto.
  intros I C [A R].
  pose proof (allocated_numbered _ _ _ _ (I b (or_introl eq_refl)) C A)
    as ->.
  f_equal. apply (IH _ _ _ (fun x H => I x (or_intror H))
                     (counted_step _ _ _ (I b (or_introl eq_refl)) C) R).
Qed.

End Numbering.

Lemma nth_error_numbering (bases : list jsstring) :
  forall processed j base,
    nth_error bases j = Some base ->
    nth_error (numbering processed bases) j
    = Some (numbered base
              (S (occurrences base (processed ++ firstn j bases)))).
Proof.
  induction bases as [|b bases IH]; intros processed [|j] base; simpl;
    try discriminate.
  - intros [= ->]. rewrite app_nil_r. reflexivity.
  - intros H. rewrite (IH _ _ _ H). rewrite <- app_assoc. reflexivity.
Qed.

(** In a batch in which no base name is another one followed by a suffix,
    the units of one base name receive the plain name, then the suffixes
    [_2], [_3] and so on, in the order of their allocation. *)
Lemma allocation_in_order (bases names : list jsstring) (j : nat)
  (base : jsstring) :
  no_cross bases -> allocation [] bases names ->
  nth_error bases j = Some base ->
  nth_error names j
  = Some (numbered base (S (occurrences base (firstn j bases)))).
Proof.
  intros NC A H.
  rewrite (allocation_numbering bases NC bases [] [] names); auto.
  - apply (nth_error_numbering bases [] j base H).
  - intros b _. split; [|intros n Hn]; simpl; split; try tauto;
      unfold occurrences; simpl; lia.
Qed.

(** ** The base names a batch can have *)

Lemma letter_facts (c : code_unit) :
  is_letter c = true ->
  is_ws c = false /\ is_forbidden c = false /\ c <> 95%N /\ c <> 32%N.
Proof.
  unfold is_letter. intros H.
  assert (R : (65 <= c <= 90 \/ 97 <= c <= 122)%N).
  { apply orb_true_iff in H.
    destruct H as [H|H]; apply andb_true_iff in H; destruct H as [H1 H2];
      apply N.leb_le in H1, H2; lia. }
  clear H. unfold is_ws, is_forbidden.
  repeat split; try lia; ncases.
Qed.

Lemma plain_facts (x : jsstring) :
  plain x = true ->
  x <> [] /\ no_ws x = true /\ no_forbidden x = true
  /\ ~ In 95%N x /\ ~ In 32%N x.
Proof.
  unfold plain, no_ws, no_forbidden. rewrite andb_true_iff.
  intros [N L]. split; [destruct x; [discriminate|congruence]|].
  rewrite !forallb_forall in *.
  repeat split.
  - intros c Hc. destruct (letter_facts c (L c Hc)) as (-> & _). auto.
  - intros c Hc. destruct (letter_facts c (L c Hc)) as (_ & -> & _). auto.
  - intros I. destruct (letter_facts _ (L _ I)) as (_ & _ & ? & _). auto.
  - intros I. destruct (letter_facts _ (L _ I)) as (_ & _ & _ & ?). auto.
Qed.

Lemma trimStart_app_r (x l : jsstring) :
  l <> [] -> starts_ws l = false -> trimStart (x ++ l) = trimStart x ++ l.
Proof.
  intros N S. induction x as [|c x IH]; simpl.
  - apply trimStart_id; exact S.
  - destruct (is_ws c); [exact IH|reflexivity].
Qed.

Lemma ends_nonws_app_r (y l : jsstring) :
  l <> [] -> ends_nonws (y ++ l) = ends_nonws l.
Proof.
  intros N. induction y as [|c y IH]; simpl; [reflexivity|].
  destruct (y ++ l) eqn:E; [|exact IH].
  destruct y, l; simpl in E; congruence.
Qed.

Lemma ends_nonws_no_ws (l : jsstring) :
  l <> [] -> no_ws l = true -> ends_nonws l = true.
Proof.
  unfold no_ws. induction l as [|c l IH]; [congruence|]. intros _.
  simpl. rewrite andb_true_iff. intros [W H].
  destruct l; [exact W|]. apply IH; [discriminate|exact H].
Qed.

Lemma starts_ws_no_ws (l : jsstring) : no_ws l = true -> starts_ws l = false.
Proof.
  unfold no_ws. destruct l as [|c l]; simpl; [reflexivity|].
  rewrite andb_true_iff, negb_true_iff. tauto.
Qed.

(** White space before a name of letters goes, the name stays. *)
Lemma trim_app_plain (x l : jsstring) :
  plain l = true -> trim (x ++ l) = trimStart x ++ l.
Proof.
  intros P. destruct (plain_facts l P) as (N & W & _).
  unfold trim. rewrite trimStart_app_r;
    [|exact N|apply starts_ws_no_ws; exact W].
  apply trimEnd_id. rewrite ends_nonws_app_r by exact N.
  apply ends_nonws_no_ws; assumption.
Qed.

Lemma collapse_from_app_no_ws (z l : jsstring) :
  forall in_run,
    no_ws l = true ->
    collapse_from in_run (z ++ l) = collapse_from in_run z ++ l.
Proof.
  induction z as [|c z IH]; intros in_run W; simpl.
  - apply collapse_no_ws; exact W.
  - destruct (is_ws c); [destruct in_run|]; rewrite IH by exact W;
      reflexivity.
Qed.

(** The base name of a unit whose last name is a name of letters: what the
    first name leaves, then the last name, cut at 80 characters. *)
Lemma base_with_plain_last (f l : jsstring) :
  plain l = true ->
  sanitizeFilename (trim (f ++ js " " ++ l))
  = firstn 80
      (collapse_ws (strip_forbidden (trimStart (f ++ js " "))) ++ l).
Proof.
  intros P. destruct (plain_facts l P) as (N & W & F & _).
  rewrite sanitizeFilename_unfold.
  rewrite app_assoc. rewrite (trim_app_plain _ l P).
  rewrite (trim_app_plain _ l P).
  rewrite (trimStart_id (trimStart _)) by apply starts_ws_trimStart.
  rewrite strip_app, (strip_no_forbidden l F).
  unfold collapse_ws. rewrite (collapse_from_app_no_ws _ l false W).
  unfold or_default.
  destruct (collapse_from false _ ++ l) eqn:E; [|reflexivity].
  apply app_eq_nil in E. tauto.
Qed.

Lemma trimEnd_app_no_ws (f y : jsstring) :
  no_ws f = true -> trimEnd (f ++ y) = f ++ trimEnd y.
Proof.
  unfold no_ws. induction f as [|c f IH]; simpl; [reflexivity|].
  rewrite andb_true_iff, negb_true_iff. intros [W H].
  rewrite trimEnd_cons_nonws by exact W. rewrite (IH H). reflexivity.
Qed.

Lemma trimEnd_idem (y : jsstring) : trimEnd (trimEnd y) = trimEnd y.
Proof.
  destruct (trimEnd y) as [|c t] eqn:E; [reflexivity|].
  rewrite <- E. apply trimEnd_id. apply ends_nonws_trimEnd. congruence.
Qed.

Lemma collapse_from_no_ws_prefix (f u : jsstring) :
  forall in_run,
    f <> [] -> no_ws f = true ->
    collapse_from in_run (f ++ u) = f ++ collapse_from false u.
Proof.
  unfold no_ws. induction f as [|c f IH]; intros in_run N; [congruence|].
  simpl. rewrite andb_true_iff, negb_true_iff. intros [W H]. rewrite W.
  f_equal. destruct f as [|c' f']; [reflexivity|].
  apply IH; [discriminate|exact H].
Qed.

Lemma tail_of_last_shape (t : jsstring) :
  tail_of_last t = [] \/ exists s, tail_of_last t = 32%N :: s.
Proof.
  unfold tail_of_last.
  destruct (trimEnd_split (js " " ++ t)) as (r & E & _).
  destruct (trimEnd (js " " ++ t)) as [|c z]; [left; reflexivity|].
  right. injection E as <- _. simpl. eauto.
Qed.

(** The base name of a unit whose first name is a name of letters: the
    first name, then what the last name leaves, cut at 80 characters. *)
Lemma base_with_plain_first (f t : jsstring) :
  plain f = true ->
  sanitizeFilename (trim (f ++ js " " ++ t))
  = firstn 80 (f ++ tail_of_last t).
Proof.
  intros P. destruct (plain_facts f P) as (N & W & F & _).
  assert (T : forall y, trim (f ++ y) = f ++ trimEnd y).
  { intros y. unfold trim. rewrite trimStart_id.
    - apply trimEnd_app_no_ws; exact W.
    - destruct f; [congruence|]. simpl.
      apply (starts_ws_no_ws (c :: f) W). }
  rewrite sanitizeFilename_unfold, !T, trimEnd_idem.
  rewrite strip_app, (strip_no_forbidden f F).
  unfold collapse_ws. rewrite (collapse_from_no_ws_prefix f _ false N W).
  unfold or_default, tail_of_last.
  destruct f; [congruence|reflexivity].
Qed.

Lemma firstn_short {A : Type} (n : nat) (x y : list A) :
  length (firstn n x) < n -> firstn n x = x.
Proof.
  rewrite length_firstn. intros H. apply firstn_all2. lia.
Qed.

Lemma In_firstn {A : Type} (c : A) (n : nat) (x : list A) :
  In c (firstn n x) -> In c x.
Proof.
  intros H. rewrite <- (firstn_skipn n x). apply in_or_app. auto.
Qed.

Lemma shorter_than_cut (n : nat) (x y d : jsstring) (c : code_unit) :
  firstn n y = firstn n x ++ c :: d -> length (firstn n x) < n.
Proof.
  intros E. pose proof (f_equal (@length _) E) as E1.
  rewrite length_app in E1.
  change (length (c :: d)) with (S (length d)) in E1.
  pose proof (firstn_le_length n y). lia.
Qed.

(** Two units with one first name and last names of letters. *)
Lemma no_cross_same_first (p l l' d : jsstring) :
  ~ In 95%N l' ->
  firstn 80 (p ++ l') <> firstn 80 (p ++ l) ++ 95%N :: d.
Proof.
  intros N E.
  pose proof (shorter_than_cut _ _ _ _ _ E) as L.
  pose proof (firstn_short 80 (p ++ l) [] L) as Sf.
  rewrite Sf in E, L. rewrite length_app in L.
  rewrite firstn_app, (firstn_all2 p) in E by lia.
  rewrite <- app_assoc in E. apply app_inv_head in E.
  apply N. apply (In_firstn _ (80 - length p)).
  exact (eq_ind_r (fun z => In 95%N z) (in_elt 95%N l d) E).
Qed.

(** Two units with first names of letters and one last name. *)
Lemma no_cross_same_last (f f' s d : jsstring) :
  ~ In 32%N f -> ~ In 32%N f' -> ~ In 95%N f' ->
  s = [] \/ (exists s', s = 32%N :: s') ->
  firstn 80 (f' ++ s) <> firstn 80 (f ++ s) ++ 95%N :: d.
Proof.
  intros N N' U Sh E.
  pose proof (shorter_than_cut _ _ _ _ _ E) as L.
  pose proof (firstn_short 80 (f ++ s) [] L) as Sf.
  rewrite Sf in E. clear L Sf.
  destruct Sh as [->|(s' & ->)].
  - rewrite !app_nil_r in *.
    apply U. apply (In_firstn _ 80).
    exact (eq_ind_r (fun z => In 95%N z) (in_elt 95%N f d) E).
  - rewrite <- app_assoc in E.
    change ((32%N :: s') ++ 95%N :: d) with (32%N :: (s' ++ 95%N :: d)) in E.
    destruct (Nat.le_gt_cases 80 (length f')) as [G|G].
    + rewrite firstn_app in E.
      replace (80 - length f') with 0 in E by lia.
      rewrite firstn_O, app_nil_r in E.
      apply N'. apply (In_firstn _ 80).
      exact (eq_ind_r (fun z => In 32%N z)
               (in_elt 32%N f (s' ++ 95%N :: d)) E).
    + rewrite firstn_app, (firstn_all2 f') in E by lia.
      destruct (80 - length f') as [|k] eqn:K; [lia|].
      rewrite firstn_cons in E.
      apply split_first in E; [|assumption|assumption].
      destruct E as [_ E]. apply (f_equal (@length _)) in E.
      rewrite length_firstn, length_app in E.
      change (length (95%N :: d)) with (S (length d)) in E. lia.
Qed.

Lemma In_trimStart (c : code_unit) (x : jsstring) :
  In c (trimStart x) -> In c x.
Proof.
  destruct (trimStart_split x) as (l & E & _). intros H.
  rewrite E. apply in_or_app. auto.
Qed.

Lemma In_trim (c : code_unit) (x : jsstring) : In c (trim x) -> In c x.
Proof.
  destruct (trim_split x) as (l & r & E & _). intros H.
  rewrite E. apply in_or_app. right. apply in_or_app. auto.
Qed.

Lemma In_strip (c : code_unit) (x : jsstring) :
  In c (strip_forbidden x) -> In c x.
Proof.
  induction x as [|a x IH]; simpl; [tauto|].
  destruct (is_forbidden a); simpl; tauto.
Qed.

Lemma In_collapse (c : code_unit) (x : jsstring) :
  forall in_run, In c (collapse_from in_run x) -> In c x \/ c = 32%N.
Proof.
  induction x as [|a x IH]; intros in_run; simpl; [tauto|].
  destruct (is_ws a); [destruct in_run|]; simpl; intros H.
  - destruct (IH _ H); auto.
  - destruct H as [<-|H]; [auto|]. destruct (IH _ H); auto.
  - destruct H as [<-|H]; [auto|]. destruct (IH _ H); auto.
Qed.

(** The sanitization brings no underscore into a name. *)
Lemma sanitizeFilename_no_underscore (x : jsstring) :
  ~ In 95%N x -> ~ In 95%N (sanitizeFilename x).
Proof.
  intros N I. rewrite sanitizeFilename_unfold in I.
  apply In_firstn in I. unfold or_default in I.
  destruct (is_empty _).
  - vm_compute in I. repeat destruct I as [I|I]; try discriminate.
    exact I.
  - apply In_collapse in I. destruct I as [I|I]; [|discriminate].
    apply N. apply In_trim, In_strip; exact I.
Qed.

Lemma copies_pools (v : Variant) :
  In v copies ->
  FIRST_NAMES v <> [] /\ LAST_NAMES v <> [] /\ pools_plain v = true.
Proof.
  intros [<-|[<-|[<-|[]]]]; (split; [|split]);
    try (intros E; vm_compute in E; discriminate);
    vm_compute; reflexivity.
Qed.

Section BatchNames.

Context {cm : CaseMapping} {host : Host} (v : Variant).

(** The names of a unit, by the modes of the options. *)
Lemma nextRecord_names (options : Options) (w w' : world)
  (r : unit_record) :
  FIRST_NAMES v <> [] -> LAST_NAMES v <> [] ->
  nextRecord v options w = (w', inr r) ->
  exists first last,
    fullName r = trim (first ++ js " " ++ last)
    /\ (if jsstring_eqb (firstMode options) (js "fixed")
        then first = titleCase (first_by_index v) (fixedFirst options)
        else In first (FIRST_NAMES v))
    /\ (if jsstring_eqb (lastMode options) (js "fixed")
        then last = titleCase (first_by_index v)
                      (or_default (fixedLast options) (js "Ahmed"))
        else In last (LAST_NAMES v)).
Proof.
  intros PF PL. unfold nextRecord, randomText1, randomText3.
  destruct (jsstring_eqb (firstMode options) (js "fixed")) eqn:E1;
    destruct (jsstring_eqb (lastMode options) (js "fixed")) eqn:E2;
    unfold bind, ret;
    repeat match goal with
    | |- context [rand ?a ?w0] =>
        let H := fresh "In_pool" in
        destruct (rand_run a w0) as (? & -> & H)
    | |- context [random_below ?k ?w0] =>
        destruct (random_below_run k w0) as (? & -> & _)
    end;
    intros [= _ <-]; do 2 eexists; (split; [reflexivity|]); auto.
Qed.

(** No base name of a batch is another base name of the batch followed by
    a suffix: the names of the pools are made of letters, and what the
    units of a batch do not draw from a pool they share. *)
Lemma batch_no_cross (options : Options) (rs : list unit_record) :
  In v copies ->
  Forall (fun r => exists w0 w1,
            nextRecord v options w0 = (w1, inr r)) rs ->
  no_cross (map base_name rs).
Proof.
  intros Hv F b b' n Hb Hb' Hn E.
  destruct (copies_pools v Hv) as (PF & PL & PP).
  unfold pools_plain in PP. apply andb_true_iff in PP.
  destruct PP as [PPF PPL]. rewrite forallb_forall in PPF, PPL.
  rewrite Forall_forall in F.
  apply in_map_iff in Hb, Hb'.
  destruct Hb as (r & <- & Hr). destruct Hb' as (r' & <- & Hr').
  destruct (F r Hr) as (w0 & w1 & R).
  destruct (F r' Hr') as (w0' & w1' & R').
  destruct (nextRecord_names options _ _ _ PF PL R)
    as (f & l & N & Hf & Hl).
  destruct (nextRecord_names options _ _ _ PF PL R')
    as (f' & l' & N' & Hf' & Hl').
  unfold base_name in E. rewrite N, N' in E.
  change (js "_" ++ String_of_nat n) with (95%N :: String_of_nat n) in E.
  destruct (jsstring_eqb (firstMode options) (js "fixed"));
    destruct (jsstring_eqb (lastMode options) (js "fixed")).
  - subst f f' l l'. apply (f_equal (@length _)) in E.
    rewrite length_app in E.
    change (length (95%N :: String_of_nat n))
      with (S (length (String_of_nat n))) in E. lia.
  - subst f f'.
    rewrite (base_with_plain_last _ l (PPL l Hl)) in E.
    rewrite (base_with_plain_last _ l' (PPL l' Hl')) in E.
    revert E. apply no_cross_same_first.
    apply (plain_facts l' (PPL l' Hl')).
  - subst l l'.
    rewrite (base_with_plain_first f _ (PPF f Hf)) in E.
    rewrite (base_with_plain_first f' _ (PPF f' Hf')) in E.
    revert E.
    destruct (plain_facts f (PPF f Hf)) as (_ & _ & _ & _ & S).
    destruct (plain_facts f' (PPF f' Hf')) as (_ & _ & _ & U' & S').
    apply no_cross_same_last; auto. apply tail_of_last_shape.
  - assert (U : ~ In 95%N (trim (f' ++ js " " ++ l'))).
    { intros I. apply In_trim in I. apply in_app_or in I.
      destruct (plain_facts f' (PPF f' Hf')) as (_ & _ & _ & Uf & _).
      destruct (plain_facts l' (PPL l' Hl')) as (_ & _ & _ & Ul & _).
      destruct I as [I|[I|I]]; [tauto|discriminate|tauto]. }
    apply (sanitizeFilename_no_underscore _ U).
    exact (eq_ind_r (fun z => In 95%N z)
             (in_elt 95%N _ (String_of_nat n)) E).
Qed.

End BatchNames.

(** * The claims of the specification *)

#[local] Existing Instance latin1_case.
#[local] Existing Instance quiet_host.

(** C1: for every generated unit and each of the four substituted layers,
    once the text of the layer is set to the new text, every interval record
    found under the maps [textTextColor] and [textTextFont] of that layer
    that is an object carrying [textsIntervalsEnd] has that field equal to the
    length of the new text; and a layer that is an object is substituted
    without an error whatever maps or fields it lacks, so that a template
    whose four layers are objects yields a completed batch whenever the
    progress callback does not fail. *)
Theorem C1_interval_ends_follow_the_text {cm : CaseMapping} {host : Host}
  (v : Variant) (env : Env) (options : Options) (w w' : world)
  (zip : bytes) :
  generateOutputsZip v env options w = (w', inr zip) ->
  (exists templateBytes files plab baseProj out rs,
     fetchTemplateBytes v env = inr templateBytes
     /\ unzipSync templateBytes = Some files
     /\ assoc_get (js "data.plab") files = Some plab
     /\ JSON_parse plab = Some baseProj
     /\ zip = zipSync out /\ length rs = count options
     /\ Forall (fun r => exists w0 w1,
                  nextRecord v options w0 = (w1, inr r)) rs
     /\ Forall2 (fun r e =>
                   exists proj,
                     substitute_record baseProj r = inr proj
                     /\ snd e = zipSync (outFiles files proj)
                     /\ descriptor_ok r proj) rs out)
  /\ (forall b k layer newText,
        get b k = Some layer -> is_object layer = true ->
        exists b', substitute b k newText = inr b'
                   /\ substituted b' k newText)
  /\ (forall env0 options0 w0 templateBytes files plab baseProj bundle,
        (forall n message, progressCb_fails n message = false) ->
        fetchTemplateBytes v env0 = inr templateBytes ->
        unzipSync templateBytes = Some files ->
        assoc_get (js "data.plab") files = Some plab ->
        JSON_parse plab = Some baseProj ->
        get baseProj (js "objectsBundle") = Some bundle ->
        (forall k, In k LAYERS ->
           exists layer, get bundle k = Some layer
                         /\ is_object layer = true) ->
        exists w1 zip0,
          generateOutputsZip v env0 options0 w0 = (w1, inr zip0)).
Proof.
  intros H. split; [|split].
  - apply generateOutputsZip_inr in H.
    destruct H as (tb & files & plab & baseProj & bundle & w1 & w2 & out
                   & used & _ & Fe & U & P & Pa & _ & _ & _ & G & _ & ->).
    apply generateUnits_inr in G; [|reflexivity].
    destruct G as (rs & new & -> & _ & Len & F2 & Fa & _ & _).
    exists tb, files, plab, baseProj, new, rs. simpl.
    repeat (split; [assumption|]).
    split; [reflexivity|]. split; [rewrite Len; apply length_seq|].
    split; [exact Fa|].
    revert F2. apply Forall2_impl. intros r e (proj & S & E).
    exists proj. repeat split; auto.
    eapply substitute_record_ok; eassumption.
  - intros b k layer newText G O.
    assert (E : exists b', substitute b k newText = inr b').
    { unfold substitute, assign. rewrite G, O. simpl. eauto. }
    destruct E as (b' & E). exists b'. split; [exact E|].
    eapply substitute_substituted; eassumption.
  - intros env0 options0 w0 tb files plab baseProj bundle Hs.
    apply generateOutputsZip_completes. exact Hs.
Qed.

Lemma C1_witness :
  exists w' zip,
    generateOutputsZip (cm := latin1_case) (host := quiet_host)
      pages_functions sample_env (random_options 3) initial_world
    = (w', inr zip)
    /\ exists templateBytes files plab baseProj out rs,
         fetchTemplateBytes pages_functions sample_env = inr templateBytes
         /\ unzipSync templateBytes = Some files
         /\ assoc_get (js "data.plab") files = Some plab
         /\ JSON_parse plab = Some baseProj
         /\ zip = zipSync out /\ length rs = 3
         /\ Forall (fun r => exists w0 w1,
                      nextRecord pages_functions (random_options 3) w0
                      = (w1, inr r)) rs
         /\ Forall2 (fun r e =>
                       exists proj,
                         substitute_record baseProj r = inr proj
                         /\ snd e = zipSync (outFiles files proj)
                         /\ descriptor_ok r proj) rs out.
Proof.
  eexists. eexists. split; [vm_compute; reflexivity|].
  eapply (C1_interval_ends_follow_the_text (cm := latin1_case)
            (host := quiet_host) pages_functions sample_env
            (random_options 3) initial_world).
  vm_compute. reflexivity.
Defined.

(** C2: the names allocated to the units of a batch are as many as the
    units and pairwise distinct.  A unit whose sanitized base name an
    earlier unit of the batch had receives that name with the suffix [_n]
    before the extension, [n] being the first integer from 2 on whose name
    is not yet taken; and in each of the three copies the units of one base
    name receive, in the order of their allocation, the plain name, then
    the suffixes [_2], [_3] and so on.  The search for a suffix always
    ends. *)
Theorem C2_file_names_are_distinct {cm : CaseMapping} {host : Host}
  (v : Variant) (env : Env) (options : Options) (w w' : world)
  (zip : bytes) :
  generateOutputsZip v env options w = (w', inr zip) ->
  exists out rs,
    zip = zipSync out
    /\ length out = count options
    /\ length rs = count options
    /\ Forall (fun r => exists w0 w1,
                 nextRecord v options w0 = (w1, inr r)) rs
    /\ NoDup (map fst out)
    /\ allocation [] (map base_name rs) (map fst out)
    /\ (forall j base,
          nth_error (map base_name rs) j = Some base ->
          In base (firstn j (map base_name rs)) ->
          exists n, 2 <= n
                    /\ nth_error (map fst out) j = Some (plp_n base n)
                    /\ ~ In (plp_n base n) (firstn j (map fst out))
                    /\ forall m, 2 <= m < n ->
                         In (plp_n base m) (firstn j (map fst out)))
    /\ (In v copies ->
        forall j base,
          nth_error (map base_name rs) j = Some base ->
          nth_error (map fst out) j
          = Some (numbered base
                    (S (occurrences base
                          (firstn j (map base_name rs))))))
    /\ (forall used base,
          exists name, allocate used base = Some name
                       /\ allocated used base name)
    /\ (forall w0 w1 e,
          generateOutputsZip v env options w0 = (w1, inl e) ->
          e <> Diverged).
Proof.
  intros H. apply generateOutputsZip_inr in H.
  destruct H as (tb & files & plab & baseProj & bundle & w1 & w2 & out
                 & used & _ & _ & _ & _ & _ & _ & _ & _ & G & _ & ->).
  apply generateUnits_inr in G; [|reflexivity].
  destruct G as (rs & new & -> & _ & Len & F2 & Fa & Al & _).
  simpl in *. rewrite length_seq in Len.
  exists new, rs.
  split; [reflexivity|].
  split; [rewrite <- (Forall2_length F2); exact Len|].
  split; [exact Len|]. split; [exact Fa|].
  split; [apply (allocation_NoDup [] _ _ (NoDup_nil _) Al)|].
  split; [exact Al|].
  split; [intros j base; apply allocation_suffix; exact Al|].
  split.
  { intros Hv j base. apply allocation_in_order; [|exact Al].
    exact (batch_no_cross v options rs Hv Fa). }
  split.
  - intros u base. pose proof (allocate_total u base) as T.
    destruct (allocate u base) as [name|] eqn:A; [|congruence].
    exists name. split; [reflexivity|].
    apply allocate_allocated; exact A.
  - apply never_diverges_generateOutputsZip.
Qed.

Lemma C2_witness :
  exists w' zip,
    generateOutputsZip pages_functions sample_env (fixed_options 3)
      initial_world = (w', inr zip)
    /\ exists out rs,
         zip = zipSync out
         /\ length out = 3
         /\ length rs = 3
         /\ Forall (fun r => exists w0 w1,
                      nextRecord pages_functions (fixed_options 3) w0
                      = (w1, inr r)) rs
         /\ NoDup (map fst out)
         /\ allocation [] (map base_name rs) (map fst out)
         /\ (forall j base,
               nth_error (map base_name rs) j = Some base ->
               In base (firstn j (map base_name rs)) ->
               exists n, 2 <= n
                         /\ nth_error (map fst out) j = Some (plp_n base n)
                         /\ ~ In (plp_n base n) (firstn j (map fst out))
                         /\ forall m, 2 <= m < n ->
                              In (plp_n base m) (firstn j (map fst out)))
         /\ (In pages_functions copies ->
             forall j base,
               nth_error (map base_name rs) j = Some base ->
               nth_error (map fst out) j
               = Some (numbered base
                         (S (occurrences base
                               (firstn j (map base_name rs))))))
         /\ (forall used base,
               exists name, allocate used base = Some name
                            /\ allocated used base name)
         /\ (forall w0 w1 e,
               generateOutputsZip pages_functions sample_env
                 (fixed_options 3) w0 = (w1, inl e) ->
               e <> Diverged).
Proof.
  eexists. eexists. split; [vm_compute; reflexivity|].
  eapply (C2_file_names_are_distinct pages_functions sample_env
            (fixed_options 3) initial_world).
  vm_compute. reflexivity.
Defined.

(** C3, as the code has it: a failure of a call of the progress callback is
    not caught.  A run in which a call of the callback has failed has ended
    with that failure, and has returned no archive. *)
Theorem C3_sink_failure_ends_the_batch {cm : CaseMapping} {host : Host}
  (v : Variant) (env : Env) (options : Options) (w' : world)
  (res : result bytes) (n : nat) (message : jsstring) :
  generateOutputsZip v env options initial_world = (w', res) ->
  nth_error (notified w') n = Some message ->
  progressCb_fails n message = true ->
  res = inl SinkFailure.
Proof.
  intros H Hn F.
  destruct (sink_sound_generateOutputsZip v env options _ _ _ H) as [C|E].
  - intros k m Hk. destruct k; discriminate.
  - rewrite (C _ _ Hn) in F. discriminate.
  - exact E.
Qed.

Lemma C3_witness :
  exists w' res,
    generateOutputsZip (host := host_failing_second) pages_functions
      sample_env (fixed_options 3) initial_world = (w', res)
    /\ nth_error (notified w') 1 = Some (generating_message 1 3)
    /\ progressCb_fails (Host := host_failing_second) 1
         (generating_message 1 3) = true
    /\ res = inl SinkFailure.
Proof.
  eexists. eexists.
  split; [vm_compute; reflexivity|].
  split; [vm_compute; reflexivity|].
  split; [vm_compute; reflexivity|].
  eapply (C3_sink_failure_ends_the_batch (host := host_failing_second)
            pages_functions sample_env (fixed_options 3) _ _ 1
            (generating_message 1 3)).
  - vm_compute; reflexivity.
  - vm_compute; reflexivity.
  - vm_compute; reflexivity.
Defined.

(** The claim C3 fails: with the same template and the same options, the
    batch that completes under a callback that never fails is lost when the
    second call of the callback fails. *)
Lemma C3_counterexample :
  (exists zip,
     snd (generateOutputsZip (host := quiet_host) pages_functions
            sample_env (fixed_options 3) initial_world) = inr zip)
  /\ snd (generateOutputsZip (host := host_failing_second) pages_functions
            sample_env (fixed_options 3) initial_world) = inl SinkFailure.
Proof.
  split; [eexists|]; vm_compute; reflexivity.
Qed.

(** C4, as the code has it: when the descriptor of the template is not
    [null] and lacks one of the four layers, [generateOutputsZip] fails with
    the error that names the first missing layer, before any unit is
    generated: no random number has been drawn, and the callback has heard
    the message of the download and no other. *)
Theorem C4_missing_layer_fails_before_any_unit {cm : CaseMapping}
  {host : Host} (v : Variant) (env : Env) (options : Options) (w : world)
  (templateBytes : bytes) (files : archive) (plab : bytes)
  (baseProj : json) (pre post : list jsstring) (k : jsstring) :
  progressCb_fails (length (notified w)) (downloading_message v) = false ->
  fetchTemplateBytes v env = inr templateBytes ->
  unzipSync templateBytes = Some files ->
  assoc_get (js "data.plab") files = Some plab ->
  JSON_parse plab = Some baseProj ->
  baseProj <> JNull ->
  LAYERS = pre ++ k :: post ->
  (forall x, In x pre ->
     layer_missing
       (or_empty_object (get baseProj (js "objectsBundle"))) x = false) ->
  layer_missing (or_empty_object (get baseProj (js "objectsBundle"))) k
  = true ->
  generateOutputsZip v env options w
  = ({| random_calls := random_calls w;
        notified := notified w ++ [downloading_message v] |},
     inl (MissingLayer k))
  /\ error_message v (MissingLayer k)
     = Some (js "Template missing layer " ++ k)
  /\ kind_of (MissingLayer k) = FormatError.
Proof.
  intros F Fe U G P NN L Pre K.
  split; [|split; reflexivity].
  unfold generateOutputsZip, bind, progressCb, lift.
  rewrite F, Fe, U, G, P.
  assert (R : read baseProj (js "objectsBundle")
              = inr (get baseProj (js "objectsBundle")))
    by (destruct baseProj; try reflexivity; congruence).
  rewrite R, L, (check_layers_first_missing _ _ _ _ Pre K). reflexivity.
Qed.

Lemma C4_witness :
  generateOutputsZip (host := host_without_text2) telegram_js sample_env
    (fixed_options 5) initial_world
  = ({| random_calls := 0;
        notified := [downloading_message telegram_js] |},
     inl (MissingLayer (js "text2")))
  /\ error_message telegram_js (MissingLayer (js "text2"))
     = Some (js "Template missing layer text2")
  /\ kind_of (MissingLayer (js "text2")) = FormatError.
Proof.
  refine (C4_missing_layer_fails_before_any_unit
            (host := host_without_text2) telegram_js sample_env
            (fixed_options 5) initial_world [Byte.x50; Byte.x4b]
            sample_files [Byte.x7b; Byte.x7d] descriptor_without_text2
            [js "text0"; js "text1"] [js "text3"] (js "text2")
            _ _ _ _ _ _ _ _ _).
  - vm_compute; reflexivity.
  - vm_compute; reflexivity.
  - vm_compute; reflexivity.
  - vm_compute; reflexivity.
  - vm_compute; reflexivity.
  - discriminate.
  - vm_compute; reflexivity.
  - intros x [<-|[<-|[]]]; vm_compute; reflexivity.
  - vm_compute; reflexivity.
Defined.

(** The claim C4 fails in two places.  A template without the layer text2
    makes the batch fail with the error that names text2, but the callback
    has been called by then, with the message of the download; and a
    descriptor that is the JSON text [null] lacks every layer and makes the
    batch fail with a [TypeError] that names none. *)
Lemma C4_counterexample :
  (snd (generateOutputsZip (host := host_without_text2) pages_functions
          sample_env (fixed_options 3) initial_world)
   = inl (MissingLayer (js "text2"))
   /\ notified (fst (generateOutputsZip (host := host_without_text2)
                       pages_functions sample_env (fixed_options 3)
                       initial_world))
      = [downloading_message pages_functions]
   /\ notified (fst (generateOutputsZip (host := host_without_text2)
                       pages_functions sample_env (fixed_options 3)
                       initial_world))
      <> [])
  /\ snd (generateOutputsZip (host := host_of_null) pages_functions
            sample_env (fixed_options 3) initial_world)
     = inl TypeError.
Proof.
  split; [split; [|split]|]; try (vm_compute; reflexivity).
  vm_compute. discriminate.
Qed.

(** C5: the archive of every generated unit holds the names of the unpacked
    template, each in its place, and every entry other than [data.plab] has
    the bytes of the entry of the template; the one entry whose content is
    new is the descriptor, serialized again. *)
Theorem C5_payload_passes_through {cm : CaseMapping} {host : Host}
  (v : Variant) (env : Env) (options : Options) (w w' : world)
  (zip : bytes) :
  generateOutputsZip v env options w = (w', inr zip) ->
  exists templateBytes files out,
    fetchTemplateBytes v env = inr templateBytes
    /\ unzipSync templateBytes = Some files
    /\ zip = zipSync out
    /\ length out = count options
    /\ Forall (fun e =>
         exists unit_files proj,
           snd e = zipSync unit_files
           /\ map fst unit_files = map fst files
           /\ Forall2 (fun t u =>
                         fst u = fst t
                         /\ (fst t <> js "data.plab" -> snd u = snd t))
                      files unit_files
           /\ (forall name, name <> js "data.plab" ->
                 assoc_get name unit_files = assoc_get name files)
           /\ assoc_get (js "data.plab") unit_files
              = Some (JSON_stringify proj)) out.
Proof.
  intros H. apply generateOutputsZip_inr in H.
  destruct H as (tb & files & plab & baseProj & bundle & w1 & w2 & out
                 & used & _ & Fe & U & P & _ & _ & _ & _ & G & _ & ->).
  apply generateUnits_inr in G; [|reflexivity].
  destruct G as (rs & new & -> & _ & Len & F2 & _ & _ & _).
  exists tb, files, new. simpl.
  split; [exact Fe|]. split; [exact U|]. split; [reflexivity|].
  split.
  { rewrite <- (Forall2_length F2), Len. apply length_seq. }
  revert F2. apply Forall2_Forall_r. intros r e (proj & _ & E).
  exists (outFiles files proj), proj. unfold outFiles.
  assert (I : In (js "data.plab") (map fst files))
    by (eapply assoc_get_In_keys; eassumption).
  split; [exact E|].
  split; [apply assoc_set_keys_present; exact I|].
  split; [apply assoc_set_frame; exact I|].
  split; [intros name N; apply assoc_get_set_other; congruence|].
  apply assoc_get_set_same.
Qed.

Lemma C5_witness :
  exists w' zip,
    generateOutputsZip (cm := latin1_case) (host := quiet_host)
      telegram_js sample_env (random_options 2) initial_world
    = (w', inr zip)
    /\ exists templateBytes files out,
         fetchTemplateBytes (host := quiet_host) telegram_js sample_env
         = inr templateBytes
         /\ unzipSync templateBytes = Some files
         /\ zip = zipSync out
         /\ length out = 2
         /\ Forall (fun e =>
              exists unit_files proj,
                snd e = zipSync unit_files
                /\ map fst unit_files = map fst files
                /\ Forall2 (fun t u =>
                              fst u = fst t
                              /\ (fst t <> js "data.plab" -> snd u = snd t))
                           files unit_files
                /\ (forall name, name <> js "data.plab" ->
                      assoc_get name unit_files = assoc_get name files)
                /\ assoc_get (js "data.plab") unit_files
                   = Some (JSON_stringify proj)) out.
Proof.
  eexists. eexists. split; [vm_compute; reflexivity|].
  eapply (C5_payload_passes_through (cm := latin1_case)
            (host := quiet_host) telegram_js sample_env
            (random_options 2) initial_world).
  vm_compute. reflexivity.
Defined.

(** C6, as the code has it: the sanitization trims the name first, then
    strips the nine characters, then puts one space for each run of white
    space; an empty result becomes the text output, and the result is cut
    to its first 80 characters.  The result is never empty, holds none of
    the nine characters and no white space but single spaces; it is the
    result of stripping, collapsing and trimming in that order whenever
    the trimmed name neither begins nor ends with one of the nine
    characters.  The three examples hold. *)
Theorem C6_sanitization (name : jsstring) :
  sanitizeFilename name
  = firstn 80 (or_default (collapse_ws (strip_forbidden (trim name)))
                 (js "output"))
  /\ no_forbidden (sanitizeFilename name) = true
  /\ single_spaced (sanitizeFilename name) = true
  /\ 1 <= length (sanitizeFilename name) <= 80
  /\ (ends_kept (trim name) = true ->
      sanitizeFilename name = sanitize_spec name)
  /\ sanitizeFilename (js "Ann:Marie/Lee") = js "AnnMarieLee"
  /\ sanitizeFilename (js "   ") = js "output"
  /\ (length name = 100 -> no_ws name = true ->
      no_forbidden name = true ->
      sanitizeFilename name = firstn 80 name
      /\ length (sanitizeFilename name) = 80).
Proof.
  split; [apply sanitizeFilename_unfold|].
  assert (D : forall x, or_default x (js "output") <> []
                        /\ (no_forbidden x = true ->
                            no_forbidden (or_default x (js "output")) = true)
                        /\ (single_spaced x = true ->
                            single_spaced (or_default x (js "output"))
                            = true)).
  { intros [|c x]; simpl; repeat split; auto; discriminate. }
  destruct (D (collapse_ws (strip_forbidden (trim name)))) as (Hn & Hf & Hs).
  rewrite sanitizeFilename_unfold.
  split.
  { apply forallb_firstn. apply Hf. apply no_forbidden_collapse.
    apply no_forbidden_strip. }
  split.
  { apply single_spaced_firstn. apply Hs.
    apply collapse_from_single_spaced. }
  split.
  { rewrite length_firstn.
    destruct (or_default _ _) as [|c x]; [congruence|].
    change (length (c :: x)) with (S (length x)). lia. }
  split.
  { intros K. rewrite <- sanitizeFilename_unfold.
    apply sanitize_spec_agrees; exact K. }
  split; [reflexivity|]. split; [reflexivity|].
  intros L W Fo. rewrite <- sanitizeFilename_unfold.
  assert (Ne : name <> []) by (destruct name; [discriminate|congruence]).
  rewrite (sanitizeFilename_plain name Ne W Fo).
  split; [reflexivity|]. rewrite length_firstn, L. reflexivity.
Qed.

Lemma C6_witness :
  (length hundred_letters = 100 /\ no_ws hundred_letters = true
   /\ no_forbidden hundred_letters = true
   /\ sanitizeFilename hundred_letters = firstn 80 hundred_letters
   /\ length (sanitizeFilename hundred_letters) = 80)
  /\ (ends_kept (trim (js "  Ann:Marie   Lee ")) = true
      /\ sanitizeFilename (js "  Ann:Marie   Lee ")
         = sanitize_spec (js "  Ann:Marie   Lee ")).
Proof.
  split.
  - split; [reflexivity|]. split; [reflexivity|]. split; [reflexivity|].
    apply (C6_sanitization hundred_letters); reflexivity.
  - split; [reflexivity|].
    apply (C6_sanitization (js "  Ann:Marie   Lee ")). reflexivity.
Defined.

(** The claim C6 fails: a name that begins with one of the nine characters
    followed by white space keeps a space at its head, which stripping,
    collapsing and then trimming would have removed. *)
Lemma C6_counterexample :
  sanitizeFilename (js ": a") = js " a"
  /\ sanitize_spec (js ": a") = js "a"
  /\ sanitizeFilename (js ": a") <> sanitize_spec (js ": a")
  /\ trim (sanitizeFilename (js ": a")) <> sanitizeFilename (js ": a").
Proof.
  repeat split; try reflexivity; vm_compute; discriminate.
Qed.

(** C7: the progress messages of the loop are those of the unit indices [i]
    from 1 to N with [i = 1], or [i = N], or [i] a multiple of
    [max(1, floor(N / 10))], in the order of the indices, between the
    message of the download and the message of the packing; for N = 23 they
    are the indices 1, 2, 4, 6, 8, 10, 12, 14, 16, 18, 20, 22 and 23. *)
Theorem C7_progress_cadence {cm : CaseMapping} {host : Host}
  (v : Variant) (env : Env) (options : Options) (w w' : world)
  (zip : bytes) :
  generateOutputsZip v env options w = (w', inr zip) ->
  notified w'
  = notified w ++ [downloading_message v]
    ++ map (fun i => generating_message i (count options))
         (filter (fun i => progress_due i (count options))
            (seq 1 (count options)))
    ++ [packing_message]
  /\ (forall i,
        In i (filter (fun i => progress_due i (count options))
                (seq 1 (count options)))
        <-> 1 <= i <= count options
            /\ (i = 1 \/ i = count options
                \/ i mod Nat.max 1 (count options / 10) = 0))
  /\ (forall i j, generating_message i (count options)
                  = generating_message j (count options) -> i = j)
  /\ filter (fun i => progress_due i 23) (seq 1 23)
     = [1; 2; 4; 6; 8; 10; 12; 14; 16; 18; 20; 22; 23].
Proof.
  intros H. split; [|split; [|split]].
  - apply generateOutputsZip_inr in H.
    destruct H as (tb & files & plab & baseProj & bundle & w1 & w2 & out
                   & used & _ & _ & _ & _ & _ & _ & _ & L1 & G & L2 & _).
    apply generateUnits_inr in G; [|reflexivity].
    destruct G as (rs & new & _ & _ & _ & _ & _ & _ & L).
    rewrite L2, L, L1. unfold generating_messages.
    rewrite <- !app_assoc. reflexivity.
  - intros i. rewrite filter_In, in_seq. unfold progress_due.
    rewrite !orb_true_iff, !Nat.eqb_eq. split.
    + intros [? ?]. split; [lia | tauto].
    + intros [? ?]. split; [lia | tauto].
  - intros i j E. unfold generating_message in E.
    do 4 apply app_inv_head in E.
    apply app_inv_tail in E. apply String_of_nat_inj; assumption.
  - reflexivity.
Qed.

Lemma C7_witness :
  exists w' zip,
    generateOutputsZip (cm := latin1_case) (host := quiet_host)
      service_worker sample_env (random_options 23) initial_world
    = (w', inr zip)
    /\ notified w'
       = [downloading_message service_worker]
         ++ map (fun i => generating_message i 23)
              [1; 2; 4; 6; 8; 10; 12; 14; 16; 18; 20; 22; 23]
         ++ [packing_message].
Proof.
  eexists. eexists. split; [vm_compute; reflexivity|].
  refine (proj1 (C7_progress_cadence (cm := latin1_case)
                   (host := quiet_host) service_worker sample_env
                   (random_options 23) initial_world _ _ _)).
  vm_compute. reflexivity.
Defined.

(** C8: in fixed mode the first name of a unit is the title-casing of the
    configured value, each word of it with its first character in upper case
    and the remainder in lower case; otherwise it is drawn from the pool of
    first names as stored.  The last name follows the same rule, an empty
    configured value being replaced by Ahmed.  The full name is the first
    name, one space and the last name, trimmed. *)
Theorem C8_names_of_a_unit {cm : CaseMapping} {host : Host} (v : Variant)
  (options : Options) (w : world) :
  In v copies ->
  exists r w' first last,
    nextRecord v options w = (w', inr r)
    /\ fullName r = trim (first ++ js " " ++ last)
    /\ (firstMode options = js "fixed" ->
        first = titleCase (first_by_index v) (fixedFirst options))
    /\ (firstMode options <> js "fixed" -> In first (FIRST_NAMES v))
    /\ (lastMode options = js "fixed" ->
        last = titleCase (first_by_index v)
                 (if is_empty (fixedLast options) then js "Ahmed"
                  else fixedLast options))
    /\ (lastMode options <> js "fixed" -> In last (LAST_NAMES v))
    /\ (forall s,
          titleCase (first_by_index v) s
          = join (js " ") (map capitalize_word (words s))).
Proof.
  intros Hv.
  assert (P : FIRST_NAMES v <> [] /\ LAST_NAMES v <> []).
  { destruct Hv as [<-|[<-|[<-|[]]]]; split; intros E; vm_compute in E;
      discriminate. }
  destruct P as [PF PL].
  unfold nextRecord, randomText1, randomText3.
  destruct (jsstring_eqb (firstMode options) (js "fixed")) eqn:E1;
    destruct (jsstring_eqb (lastMode options) (js "fixed")) eqn:E2;
    unfold bind, ret;
    repeat match goal with
    | |- context [rand ?a ?w0] =>
        let H := fresh "In_pool" in
        destruct (rand_run a w0) as (? & -> & H)
    | |- context [random_below ?k ?w0] =>
        destruct (random_below_run k w0) as (? & -> & _)
    end;
    repeat match goal with
    | E : jsstring_eqb _ _ = true |- _ => apply jsstring_eqb_eq in E
    | E : jsstring_eqb _ _ = false |- _ => apply jsstring_eqb_neq in E
    end;
    do 4 eexists; (split; [reflexivity|]); (split; [reflexivity|]);
    repeat split; try congruence; try (intros; apply titleCase_words);
    auto.
Qed.

Lemma C8_witness :
  In pages_functions copies
  /\ exists r w' first last,
       nextRecord pages_functions (fixed_options 1) initial_world
       = (w', inr r)
       /\ fullName r = trim (first ++ js " " ++ last)
       /\ (firstMode (fixed_options 1) = js "fixed" ->
           first = titleCase false (fixedFirst (fixed_options 1)))
       /\ fullName r = js "Ahsan Khan".
Proof.
  split; [right; left; reflexivity|].
  destruct (C8_names_of_a_unit pages_functions (fixed_options 1)
              initial_world (or_intror (or_introl eq_refl)))
    as (r & w' & first & last & R & F & H1 & _ & H2 & _).
  exists r, w', first, last. repeat split; try assumption.
  rewrite F, (H1 eq_refl), (H2 eq_refl). vm_compute. reflexivity.
Defined.

(** When [fetchTemplateBytes] fails, whatever the platform. *)
Lemma fetchTemplateBytes_fails_when {cm : CaseMapping} {host : Host}
  (v : Variant) (env : Env) :
  (exists e, fetchTemplateBytes v env = inl e)
  <-> template_unavailable v env.
Proof.
  unfold fetchTemplateBytes, template_unavailable, no_address, unreachable,
    non_success, requested_url, configured_url.
  set (u := match TEMPLATE_URL env with Some u => u | None => [] end).
  set (a := if trims_url v then trim u else u).
  destruct (is_empty a) eqn:E.
  - apply is_empty_nil in E. split; eauto.
  - assert (N : a <> [])
      by (intros Z; apply is_empty_nil in Z; congruence).
    destruct (fetch a) as [res|] eqn:Fe.
    + destruct (ok res) eqn:O.
      * destruct (arrayBuffer res) as [b|] eqn:B.
        -- split; [intros [e [=]]|].
           intros [Z|[[Z|(r & [= <-] & _ & Z)]|(r & [= <-] & Z)]];
             congruence.
        -- split; [|eauto]. intros _. right. left. right. eauto.
      * split; [|eauto]. intros _. right. right. eauto.
    + split; [|eauto]. intros _. right. left. left. reflexivity.
Qed.

(** A batch whose callback fails at the message of the download ends there,
    before the address is looked at. *)
Lemma generateOutputsZip_first_call_fails {cm : CaseMapping} {host : Host}
  (v : Variant) (env : Env) (options : Options) (w : world) :
  progressCb_fails (length (notified w)) (downloading_message v) = true ->
  generateOutputsZip v env options w
  = ({| random_calls := random_calls w;
        notified := notified w ++ [downloading_message v] |},
     inl SinkFailure).
Proof.
  intros F. unfold generateOutputsZip, bind, progressCb. rewrite F.
  reflexivity.
Qed.

(** C9, as the code has it: the callback hears of the download before the
    fetch is made.  When that first call returns, [generateOutputsZip] fails
    with a failure of the fetch exactly when the copy has no address (the
    address is unset or empty or, in the copy that trims it, blank), the
    source cannot be reached, or it answers with a status that is not a
    success; in each of these cases the batch returns no archive, whether the
    callback fails or not.  When that first call fails, the batch fails
    with the failure of the callback, which is none of the fetch, whatever
    the address is.  A copy that does not trim hands a blank address that is
    not empty to [fetch]; where [fetch] rejects such an address, the copy
    fails on every address that is unset or blank. *)
Theorem C9_template_fetch_failures {cm : CaseMapping} {host : Host}
  (v : Variant) (env : Env) :
  (forall options w,
     progressCb_fails (length (notified w)) (downloading_message v) = false ->
     ((exists w' e,
         generateOutputsZip v env options w = (w', inl e)
         /\ kind_of e = TemplateFetchError)
      <-> template_unavailable v env))
  /\ (template_unavailable v env ->
      forall options w,
        exists w' e, generateOutputsZip v env options w = (w', inl e))
  /\ (forall options w,
        progressCb_fails (length (notified w)) (downloading_message v)
        = true ->
        exists w',
          generateOutputsZip v env options w = (w', inl SinkFailure)
          /\ kind_of SinkFailure <> TemplateFetchError
          /\ random_calls w' = random_calls w
          /\ notified w' = notified w ++ [downloading_message v])
  /\ ((exists e, fetchTemplateBytes v env = inl e)
      <-> template_unavailable v env)
  /\ (forall e, fetchTemplateBytes v env = inl e ->
        kind_of e = TemplateFetchError
        /\ forall options w,
             exists w' e',
               generateOutputsZip v env options w = (w', inl e')
               /\ (progressCb_fails (length (notified w))
                     (downloading_message v) = false -> e' = e))
  /\ (forall options w w' e,
        generateOutputsZip v env options w = (w', inl e) ->
        kind_of e = TemplateFetchError ->
        fetchTemplateBytes v env = inl e)
  /\ (no_address v env
      <-> if trims_url v then unset_or_blank env
          else configured_url env = [])
  /\ ((trims_url v = false -> forall u, trim u = [] -> fetch u = None) ->
      (template_unavailable v env
       <-> unset_or_blank env \/ unreachable (requested_url v env)
           \/ non_success (requested_url v env))).
Proof.
  split; [|split; [|split; [|split; [|split; [|split; [|split]]]]]].
  - intros options w Q.
    rewrite <- (fetchTemplateBytes_fails_when v env). split.
    + intros (w' & e & R & K). exists e.
      eapply generateOutputsZip_fetch_kind; eassumption.
    + intros (e & Fe).
      destruct (generateOutputsZip_fetch_failure v env options w e Fe)
        as (w' & e' & R & Eq).
      exists w', e'. split; [exact R|]. rewrite (Eq Q).
      eapply fetchTemplateBytes_kind; eassumption.
  - intros U options w.
    apply (fetchTemplateBytes_fails_when v env) in U.
    destruct U as (e & Fe).
    destruct (generateOutputsZip_fetch_failure v env options w e Fe)
      as (w' & e' & R & _).
    exists w', e'. exact R.
  - intros options w F.
    rewrite (generateOutputsZip_first_call_fails v env options w F).
    eexists. split; [reflexivity|]. split; [discriminate|].
    split; reflexivity.
  - apply fetchTemplateBytes_fails_when.
  - intros e Fe. split; [eapply fetchTemplateBytes_kind; eassumption|].
    intros options w. apply generateOutputsZip_fetch_failure; exact Fe.
  - intros options w w' e. apply generateOutputsZip_fetch_kind.
  - unfold no_address, requested_url, unset_or_blank.
    destruct (trims_url v); reflexivity.
  - intros Pl. rewrite <- (fetchTemplateBytes_fails_when v env).
    apply fetchTemplateBytes_fails_iff. exact Pl.
Qed.

Lemma C9_witness :
  progressCb_fails (Host := quiet_host)
    (length (notified initial_world)) (downloading_message service_worker)
  = false
  /\ ((exists w' e,
         generateOutputsZip (cm := latin1_case) (host := quiet_host)
           service_worker {| TEMPLATE_URL := Some (js "   ") |}
           (fixed_options 2) initial_world = (w', inl e)
         /\ kind_of e = TemplateFetchError)
      <-> template_unavailable (host := quiet_host) service_worker
            {| TEMPLATE_URL := Some (js "   ") |}).
Proof.
  split; [reflexivity|].
  refine (proj1 (C9_template_fetch_failures (cm := latin1_case)
                   (host := quiet_host) service_worker
                   {| TEMPLATE_URL := Some (js "   ") |})
            (fixed_options 2) initial_world _).
  reflexivity.
Defined.

(** The claim C9 fails: with no address configured and a callback that
    fails at its first call, the batch fails with the failure of the
    callback, which is no failure of the fetch. *)
Lemma C9_counterexample :
  unset_or_blank {| TEMPLATE_URL := None |}
  /\ snd (generateOutputsZip (cm := latin1_case)
            (host := host_failing_first) pages_functions
            {| TEMPLATE_URL := None |} (fixed_options 3) initial_world)
     = inl SinkFailure
  /\ kind_of SinkFailure = OtherError
  /\ ~ (exists w' e,
          generateOutputsZip (cm := latin1_case)
            (host := host_failing_first) pages_functions
            {| TEMPLATE_URL := None |} (fixed_options 3) initial_world
          = (w', inl e)
          /\ kind_of e = TemplateFetchError).
Proof.
  split; [reflexivity|]. split; [vm_compute; reflexivity|].
  split; [reflexivity|].
  intros (w' & e & H & K). vm_compute in H.
  injection H as _ <-. discriminate.
Qed.

(** The claim C10 fails: the upper case of LATIN SMALL LETTER SHARP S is
    the two letters SS, of which a second application puts the second in
    lower case. *)
Lemma C10_counterexample :
  titleCase (cm := latin1_case) false [223; 97]%N = js "SSa"
  /\ titleCase (cm := latin1_case) false
       (titleCase (cm := latin1_case) false [223; 97]%N) = js "Ssa"
  /\ titleCase (cm := latin1_case) false
       (titleCase (cm := latin1_case) false [223; 97]%N)
     <> titleCase (cm := latin1_case) false [223; 97]%N
  /\ titleCase (cm := latin1_case) true
       (titleCase (cm := latin1_case) true [223; 97]%N)
     <> titleCase (cm := latin1_case) true [223; 97]%N.
Proof.
  repeat split; try reflexivity; vm_compute; discriminate.
Qed.

(** * Further properties of the code *)

(** ** Writing into objects and arrays *)

Lemma assoc_set_same_value {V : Type} (k : jsstring) (v : V)
  (l : list (jsstring * V)) :
  assoc_get k l = Some v -> assoc_set k v l = l.
Proof.
  induction l as [|[k' v'] l IH]; simpl; [discriminate|].
  destruct (jsstring_eqb k k') eqn:E.
  - apply jsstring_eqb_eq in E. intros [= ->]. subst. reflexivity.
  - intros H. rewrite IH by assumption. reflexivity.
Qed.

Lemma assoc_set_twice {V : Type} (k : jsstring) (v v' : V)
  (l : list (jsstring * V)) :
  assoc_set k v' (assoc_set k v l) = assoc_set k v' l.
Proof.
  induction l as [|[k0 v0] l IH]; simpl.
  - rewrite jsstring_eqb_refl. reflexivity.
  - destruct (jsstring_eqb k k0) eqn:E; simpl.
    + rewrite jsstring_eqb_refl. reflexivity.
    + rewrite E, IH. reflexivity.
Qed.

Lemma assoc_set_comm {V : Type} (k k' : jsstring) (v v' : V)
  (l : list (jsstring * V)) :
  k <> k' -> In k (map fst l) -> In k' (map fst l) ->
  assoc_set k' v' (assoc_set k v l) = assoc_set k v (assoc_set k' v' l).
Proof.
  intros N. induction l as [|[k0 v0] l IH]; simpl; [tauto|].
  intros Hk Hk'.
  destruct (jsstring_eqb k k0) eqn:E; destruct (jsstring_eqb k' k0) eqn:E';
    simpl; rewrite ?E, ?E', ?jsstring_eqb_refl; try reflexivity.
  - apply jsstring_eqb_eq in E, E'. congruence.
  - apply jsstring_eqb_eq in E. subst k0.
    apply jsstring_eqb_neq in E'.
    destruct (jsstring_eqb k' k) eqn:E2; [|reflexivity].
    apply jsstring_eqb_eq in E2. congruence.
  - apply jsstring_eqb_eq in E'. subst k0.
    destruct (jsstring_eqb k k') eqn:E2; [|reflexivity].
    apply jsstring_eqb_eq in E2. congruence.
  - apply jsstring_eqb_neq in E, E'. f_equal. apply IH.
    + destruct Hk; [congruence | assumption].
    + destruct Hk'; [congruence | assumption].
Qed.

Lemma replace_nth_same_value {A : Type} (i : nat) (v : A) (l : list A) :
  nth_error l i = Some v -> replace_nth i v l = l.
Proof.
  revert i; induction l as [|x l IH]; intros [|i]; simpl; try discriminate.
  - intros [= ->]. reflexivity.
  - intros H. rewrite IH by assumption. reflexivity.
Qed.

Lemma replace_nth_twice {A : Type} (i : nat) (v v' : A) (l : list A) :
  replace_nth i v' (replace_nth i v l) = replace_nth i v' l.
Proof.
  revert i; induction l as [|x l IH]; intros [|i]; simpl; try reflexivity.
  rewrite IH. reflexivity.
Qed.

Lemma replace_nth_comm {A : Type} (i j : nat) (v v' : A) (l : list A) :
  i <> j ->
  replace_nth j v' (replace_nth i v l) = replace_nth i v (replace_nth j v' l).
Proof.
  revert i j; induction l as [|x l IH]; intros [|i] [|j] N; simpl;
    try reflexivity; try congruence.
  rewrite IH by congruence. reflexivity.
Qed.

(** Writing the value a property already has changes nothing. *)
Lemma put_get (o : json) (k : jsstring) (v : json) :
  get o k = Some v -> put o k v = o.
Proof.
  destruct o; simpl; try reflexivity.
  - destruct (array_index k (length items)) as [i|]; [|reflexivity].
    intros H. rewrite replace_nth_same_value by assumption. reflexivity.
  - intros H. rewrite assoc_set_same_value by assumption. reflexivity.
Qed.

(** Of two writes of one property, the second is kept. *)
Lemma put_put (o : json) (k : jsstring) (v v' : json) :
  put (put o k v) k v' = put o k v'.
Proof.
  destruct o; simpl; try reflexivity.
  - destruct (array_index k (length items)) as [i|] eqn:E; simpl.
    + rewrite length_replace_nth, E, replace_nth_twice. reflexivity.
    + rewrite E. reflexivity.
  - rewrite assoc_set_twice. reflexivity.
Qed.

(** Writes of two properties that exist can be made in either order. *)
Lemma put_comm (o : json) (k k' : jsstring) (v v' : json) :
  k <> k' -> get o k <> None -> get o k' <> None ->
  put (put o k v) k' v' = put (put o k' v') k v.
Proof.
  intros N Hk Hk'. destruct o; simpl in *; try congruence.
  - destruct (array_index k (length items)) as [i|] eqn:E; [|congruence].
    destruct (array_index k' (length items)) as [j|] eqn:E'; [|congruence].
    simpl. rewrite !length_replace_nth, E, E'.
    rewrite replace_nth_comm; [reflexivity|].
    apply array_index_Some in E, E'. intros ->.
    destruct E as [_ ->], E' as [_ ->]. congruence.
  - f_equal. apply assoc_set_comm; [assumption| |].
    + destruct (assoc_get k fields) eqn:G; [|congruence].
      eapply assoc_get_In_keys; eassumption.
    + destruct (assoc_get k' fields) eqn:G; [|congruence].
      eapply assoc_get_In_keys; eassumption.
Qed.

Lemma Object_keys_put (o : json) (k : jsstring) (v : json) :
  get o k <> None -> Object_keys (put o k v) = Object_keys o.
Proof.
  destruct o; simpl; try reflexivity.
  - destruct (array_index k (length items)); [|reflexivity].
    intros _. simpl. rewrite length_replace_nth. reflexivity.
  - intros H. apply assoc_set_keys_present.
    destruct (assoc_get k fields) eqn:G; [|congruence].
    eapply assoc_get_In_keys; eassumption.
Qed.

Lemma get_modify_same (o : json) (k : jsstring) (f : json -> json) :
  get (modify o k f) k = option_map f (get o k).
Proof.
  unfold modify. destruct (get o k) as [x|] eqn:G; simpl.
  - apply get_put_same. congruence.
  - exact G.
Qed.

Lemma get_modify_other (o : json) (k k' : jsstring) (f : json -> json) :
  k <> k' -> get (modify o k f) k' = get o k'.
Proof.
  intros N. unfold modify. destruct (get o k); [|reflexivity].
  apply get_put_other; assumption.
Qed.

Lemma is_object_modify (o : json) (k : jsstring) (f : json -> json) :
  is_object (modify o k f) = is_object o.
Proof.
  unfold modify. destruct (get o k); [|reflexivity]. apply is_object_put.
Qed.

Lemma Object_keys_modify (o : json) (k : jsstring) (f : json -> json) :
  Object_keys (modify o k f) = Object_keys o.
Proof.
  unfold modify. destruct (get o k) eqn:G; [|reflexivity].
  apply Object_keys_put. congruence.
Qed.

Lemma modify_ext (o : json) (k : jsstring) (f g : json -> json) :
  (forall x, get o k = Some x -> f x = g x) -> modify o k f = modify o k g.
Proof.
  intros H. unfold modify. destruct (get o k); [|reflexivity].
  rewrite H; reflexivity.
Qed.

Lemma modify_id (o : json) (k : jsstring) (f : json -> json) :
  (forall x, get o k = Some x -> f x = x) -> modify o k f = o.
Proof.
  intros H. unfold modify. destruct (get o k) as [x|] eqn:G; [|reflexivity].
  rewrite H by reflexivity. apply put_get; assumption.
Qed.

Lemma modify_modify (o : json) (k : jsstring) (f g : json -> json) :
  modify (modify o k g) k f = modify o k (fun x => f (g x)).
Proof.
  unfold modify at 1. rewrite get_modify_same. unfold modify.
  destruct (get o k); simpl; [|reflexivity]. apply put_put.
Qed.

Lemma modify_comm (o : json) (k k' : jsstring) (f g : json -> json) :
  k <> k' -> modify (modify o k f) k' g = modify (modify o k' g) k f.
Proof.
  intros N. unfold modify at 1 3.
  rewrite !get_modify_other by congruence. unfold modify.
  destruct (get o k) as [x|] eqn:G; destruct (get o k') as [y|] eqn:G';
    rewrite ?G, ?G'; try reflexivity.
  apply put_comm; congruence.
Qed.

(** ** [updateIntervals], value by value *)

Lemma update_interval_modify (t : jsstring) (block : json)
  (k : jsstring) :
  update_interval t block k = modify block k (set_end t).
Proof.
  unfold update_interval, modify, set_end.
  destruct (get block k) as [interval|] eqn:G; [|reflexivity].
  destruct (is_object interval && _); [reflexivity|].
  symmetry. apply put_get; assumption.
Qed.

Lemma update_block_modify (t : jsstring) (layer : json) (k : jsstring) :
  update_block t layer k = modify layer k (set_ends t).
Proof.
  unfold update_block, modify, set_ends.
  destruct (get layer k) as [block|] eqn:G; [|reflexivity].
  destruct (is_object block); [reflexivity|].
  symmetry. apply put_get; assumption.
Qed.

Lemma updateIntervals_modify (layer : json) (t : jsstring) :
  updateIntervals layer t
  = modify (modify layer (js "textTextColor") (set_ends t))
      (js "textTextFont") (set_ends t).
Proof.
  unfold updateIntervals. simpl. rewrite !update_block_modify.
  reflexivity.
Qed.

Lemma set_end_twice (t t' : jsstring) (x : json) :
  set_end t' (set_end t x) = set_end t' x.
Proof.
  unfold set_end.
  destruct (is_object x && has_property (js "textsIntervalsEnd") x) eqn:C;
    [|rewrite C; reflexivity].
  apply andb_true_iff in C. destruct C as [O P].
  assert (G : get x (js "textsIntervalsEnd") <> None).
  { unfold has_property in P.
    destruct (get x (js "textsIntervalsEnd")); congruence. }
  rewrite is_object_put, O. unfold has_property at 1.
  rewrite get_put_same by assumption. simpl. apply put_put.
Qed.

Lemma set_end_keys (t : jsstring) (x : json) :
  Object_keys (set_end t x) = Object_keys x.
Proof.
  unfold set_end.
  destruct (is_object x && has_property (js "textsIntervalsEnd") x) eqn:C;
    [|reflexivity].
  apply andb_true_iff in C. destruct C as [_ P].
  apply Object_keys_put. unfold has_property in P.
  destruct (get x (js "textsIntervalsEnd")); congruence.
Qed.

Lemma set_end_other (t : jsstring) (x : json) (f : jsstring) :
  f <> js "textsIntervalsEnd" -> get (set_end t x) f = get x f.
Proof.
  intros N. unfold set_end.
  destruct (is_object x && _); [|reflexivity].
  apply get_put_other. congruence.
Qed.

Lemma is_object_set_end (t : jsstring) (x : json) :
  is_object (set_end t x) = is_object x.
Proof.
  unfold set_end. destruct (is_object x && _); [|reflexivity].
  apply is_object_put.
Qed.

Lemma fold_update_interval_keys (t : jsstring) (ks : list jsstring)
  (block : json) :
  Object_keys (fold_left (update_interval t) ks block) = Object_keys block
  /\ is_object (fold_left (update_interval t) ks block) = is_object block.
Proof.
  revert block; induction ks as [|k ks IH]; intros block; simpl;
    [split; reflexivity|].
  destruct (IH (update_interval t block k)) as [-> ->].
  rewrite update_interval_modify, Object_keys_modify, is_object_modify.
  split; reflexivity.
Qed.

(** An entry of a block after the inner loop is the entry it was, with at
    most its interval end set. *)
Lemma fold_update_interval_get (t : jsstring) (ks : list jsstring)
  (block : json) (k : jsstring) :
  get (fold_left (update_interval t) ks block) k
  = if existsb (jsstring_eqb k) ks
    then option_map (set_end t) (get block k)
    else get block k.
Proof.
  revert block; induction ks as [|k0 ks IH]; intros block; simpl;
    [reflexivity|].
  rewrite IH, update_interval_modify.
  destruct (jsstring_eqb k k0) eqn:E; simpl.
  - apply jsstring_eqb_eq in E. subst k0. rewrite get_modify_same.
    destruct (existsb (jsstring_eqb k) ks); [|reflexivity].
    destruct (get block k); simpl; [|reflexivity].
    rewrite set_end_twice. reflexivity.
  - apply jsstring_eqb_neq in E.
    rewrite get_modify_other by congruence. reflexivity.
Qed.

Lemma set_ends_keys (t : jsstring) (block : json) :
  Object_keys (set_ends t block) = Object_keys block
  /\ is_object (set_ends t block) = is_object block.
Proof.
  unfold set_ends. destruct (is_object block) eqn:O; [|auto].
  rewrite <- O. apply fold_update_interval_keys.
Qed.

Lemma set_ends_get (t : jsstring) (block : json) (k : jsstring) :
  get (set_ends t block) k = option_map (set_end t) (get block k).
Proof.
  unfold set_ends. destruct (is_object block) eqn:O.
  - rewrite fold_update_interval_get.
    destruct (existsb (jsstring_eqb k) (Object_keys block)) eqn:X;
      [reflexivity|].
    destruct (get block k) as [x|] eqn:G; [|reflexivity].
    apply get_In_keys in G.
    assert (existsb (jsstring_eqb k) (Object_keys block) = true).
    { apply existsb_exists. exists k. split; [assumption|].
      apply jsstring_eqb_refl. }
    congruence.
  - destruct block; simpl in *; try discriminate; reflexivity.
Qed.

(** A loop over the keys undoes nothing that a later loop over the same keys
    does again. *)
Lemma fold_update_interval_absorbs (t t' : jsstring) (ks : list jsstring)
  (k : jsstring) (block : json) :
  In k ks ->
  fold_left (update_interval t') ks (update_interval t block k)
  = fold_left (update_interval t') ks block.
Proof.
  revert block; induction ks as [|k0 ks IH]; intros block; simpl; [tauto|].
  intros H. rewrite !update_interval_modify.
  destruct (jsstring_eqb k k0) eqn:E.
  - apply jsstring_eqb_eq in E. subst k0. rewrite modify_modify.
    f_equal. apply modify_ext. intros x _. apply set_end_twice.
  - apply jsstring_eqb_neq in E. rewrite modify_comm by assumption.
    rewrite <- !update_interval_modify. apply IH.
    destruct H; [congruence | assumption].
Qed.

Lemma fold_update_interval_twice (t t' : jsstring) (ks ks' : list jsstring)
  (block : json) :
  incl ks' ks ->
  fold_left (update_interval t') ks (fold_left (update_interval t) ks' block)
  = fold_left (update_interval t') ks block.
Proof.
  revert block; induction ks' as [|k ks' IH]; intros block H; simpl;
    [reflexivity|].
  rewrite IH by (intros x Hx; apply H; right; assumption).
  apply fold_update_interval_absorbs. apply H. left. reflexivity.
Qed.

Lemma set_ends_twice (t t' : jsstring) (block : json) :
  set_ends t' (set_ends t block) = set_ends t' block.
Proof.
  destruct (set_ends_keys t block) as [K O].
  unfold set_ends at 1. rewrite O, K. unfold set_ends.
  destruct (is_object block); [|reflexivity].
  apply fold_update_interval_twice. apply incl_refl.
Qed.

Lemma fold_update_interval_id (t : jsstring) (ks : list jsstring)
  (block : json) :
  (forall k x, get block k = Some x -> set_end t x = x) ->
  fold_left (update_interval t) ks block = block.
Proof.
  intros H. induction ks as [|k ks IH]; simpl; [reflexivity|].
  rewrite update_interval_modify, modify_id; [exact IH|].
  intros x. apply H.
Qed.

(** X1: [updateIntervals] keeps the layer as it is but for the interval
    ends: the layer has the same properties in the same order, each property
    other than the two maps has the value it had, each of the two maps has
    the same entries, and each entry has the same fields with, the interval
    end apart, the values they had. *)
Theorem updateIntervals_frame (layer : json) (newText : jsstring) :
  is_object (updateIntervals layer newText) = is_object layer
  /\ Object_keys (updateIntervals layer newText) = Object_keys layer
  /\ (forall k, k <> js "textTextColor" -> k <> js "textTextFont" ->
        get (updateIntervals layer newText) k = get layer k)
  /\ (forall k, In k [js "textTextColor"; js "textTextFont"] ->
        match get layer k, get (updateIntervals layer newText) k with
        | None, None => True
        | Some block, Some block' =>
            is_object block' = is_object block
            /\ Object_keys block' = Object_keys block
            /\ forall intervalKey,
                 match get block intervalKey, get block' intervalKey with
                 | None, None => True
                 | Some interval, Some interval' =>
                     is_object interval' = is_object interval
                     /\ Object_keys interval' = Object_keys interval
                     /\ forall f, f <> js "textsIntervalsEnd" ->
                                  get interval' f = get interval f
                 | _, _ => False
                 end
        | _, _ => False
        end).
Proof.
  rewrite updateIntervals_modify.
  assert (N : js "textTextColor" <> js "textTextFont")
    by (intros E; discriminate E).
  split; [rewrite !is_object_modify; reflexivity|].
  split; [rewrite !Object_keys_modify; reflexivity|].
  split.
  { intros k N1 N2. rewrite !get_modify_other by congruence. reflexivity. }
  assert (B : forall block,
            is_object (set_ends newText block) = is_object block
            /\ Object_keys (set_ends newText block) = Object_keys block
            /\ forall intervalKey,
                 match get block intervalKey,
                       get (set_ends newText block) intervalKey with
                 | None, None => True
                 | Some interval, Some interval' =>
                     is_object interval' = is_object interval
                     /\ Object_keys interval' = Object_keys interval
                     /\ forall f, f <> js "textsIntervalsEnd" ->
                                  get interval' f = get interval f
                 | _, _ => False
                 end).
  { intros block. destruct (set_ends_keys newText block) as [K O].
    split; [exact O|]. split; [exact K|].
    intros ik. rewrite set_ends_get.
    destruct (get block ik) as [x|]; simpl; [|exact I].
    split; [apply is_object_set_end|]. split; [apply set_end_keys|].
    intros f Hf. apply set_end_other; assumption. }
  intros k [<-|[<-|[]]].
  - rewrite get_modify_other by congruence. rewrite get_modify_same.
    destruct (get layer (js "textTextColor")) as [block|]; simpl;
      [apply B | exact I].
  - rewrite get_modify_same. rewrite get_modify_other by congruence.
    destruct (get layer (js "textTextFont")) as [block|]; simpl;
      [apply B | exact I].
Qed.

(** X2: Of two calls of [updateIntervals] on a layer the second decides: the
    layer is as the second call alone leaves it.  The function is thus
    idempotent. *)
Theorem updateIntervals_last_call_decides (layer : json)
  (t t' : jsstring) :
  updateIntervals (updateIntervals layer t) t' = updateIntervals layer t'
  /\ updateIntervals (updateIntervals layer t) t = updateIntervals layer t.
Proof.
  assert (N : js "textTextColor" <> js "textTextFont")
    by (intros E; discriminate E).
  assert (H : forall a b,
            updateIntervals (updateIntervals layer a) b
            = updateIntervals layer b).
  { intros a b. rewrite !updateIntervals_modify.
    rewrite (modify_comm _ (js "textTextFont") (js "textTextColor"))
      by congruence.
    rewrite !modify_modify.
    rewrite (modify_ext _ (js "textTextFont") _ (set_ends b))
      by (intros x _; apply set_ends_twice).
    f_equal. apply modify_ext. intros x _. apply set_ends_twice. }
  split; apply H.
Qed.

(** X3: A layer none of whose interval records carries the interval-end field is
    returned as it is. *)
Theorem updateIntervals_without_ends (layer : json) (newText : jsstring) :
  without_ends layer -> updateIntervals layer newText = layer.
Proof.
  intros H. rewrite updateIntervals_modify.
  assert (B : forall k block,
            In k [js "textTextColor"; js "textTextFont"] ->
            get layer k = Some block -> set_ends newText block = block).
  { intros k block Hk G. unfold set_ends.
    destruct (is_object block); [|reflexivity].
    apply fold_update_interval_id. intros ik x Gx. unfold set_end.
    rewrite (H k block ik x Hk G Gx). reflexivity. }
  rewrite (modify_id layer (js "textTextColor"))
    by (intros x G; apply (B (js "textTextColor")); simpl; auto).
  apply modify_id. intros x G. apply (B (js "textTextFont")); simpl; auto.
Qed.

Lemma updateIntervals_without_ends_witness :
  updateIntervals layer_without_ends (js "15/11/2025") = layer_without_ends.
Proof.
  apply updateIntervals_without_ends.
  intros k block ik interval [<-|[<-|[]]]; simpl; [discriminate|].
  intros [= <-]. simpl.
  destruct (jsstring_eqb ik (js "0")); [|discriminate].
  intros [= <-]. reflexivity.
Defined.

(** ** The decimal numerals *)

Lemma length_js (s : string) : length (js s) = String.length s.
Proof.
  unfold js. rewrite length_map.
  induction s as [|a s IH]; simpl; congruence.
Qed.

Lemma length_string_of_uint (d : Decimal.uint) :
  String.length (NilEmpty.string_of_uint d) = Decimal.nb_digits d.
Proof. induction d; simpl; congruence. Qed.

Lemma to_uint_normal (n : nat) :
  Decimal.unorm (Nat.to_uint n) = Nat.to_uint n.
Proof.
  rewrite <- Unsigned.to_of. rewrite Unsigned.of_to. reflexivity.
Qed.

(** A numeral that begins with a digit other than zero denotes a number of
    at least the power of ten of its other digits. *)
Lemma of_uint_lower (d : Decimal.uint) :
  Decimal.nzhead d = d -> d <> Decimal.Nil ->
  10 ^ (Decimal.nb_digits d - 1) <= Nat.of_uint d.
Proof.
  intros H N. destruct d; [congruence | | | | | | | | | |];
    try (unfold Nat.of_uint; simpl Nat.of_uint_acc;
         rewrite Unsigned.of_uint_acc_spec;
         change (Nat.tail_mul 10 0) with 0;
         change (Unsigned.usize d) with (Decimal.nb_digits d);
         simpl Decimal.nb_digits; rewrite Nat.sub_succ, Nat.sub_0_r;
         generalize (10 ^ Decimal.nb_digits d); intros p; lia).
  exfalso. simpl in H. exact (DecimalFacts.nzhead_nonzero _ _ H).
Qed.

(** A number below the [k]-th power of ten is written with at most [k]
    digits. *)
Lemma length_String_of_nat (n k : nat) :
  0 < k -> n < 10 ^ k -> length (String_of_nat n) <= k.
Proof.
  intros K H. unfold String_of_nat.
  rewrite length_js, length_string_of_uint.
  pose proof (to_uint_normal n) as U.
  pose proof (Unsigned.of_to n) as V.
  set (d := Nat.to_uint n) in *.
  unfold Decimal.unorm in U.
  destruct (Decimal.nzhead d) eqn:Z;
    [rewrite <- U; simpl; lia
    |exfalso; exact (DecimalFacts.nzhead_nonzero _ _ Z)|..];
    try (assert (Z' : Decimal.nzhead d = d) by congruence;
         assert (L : 10 ^ (Decimal.nb_digits d - 1) <= n)
           by (rewrite <- V; apply of_uint_lower;
               [exact Z' | rewrite <- U; discriminate]);
         destruct (Nat.le_gt_cases (Decimal.nb_digits d) k) as [?|G];
           [assumption|];
         assert (10 ^ k <= 10 ^ (Decimal.nb_digits d - 1))
           by (apply Nat.pow_le_mono_r; lia);
         lia).
Qed.

Lemma padStart0_digits (w n : nat) :
  n < 10 ^ w -> 0 < w ->
  length (padStart0 w (String_of_nat n)) = w
  /\ forallb is_digit (padStart0 w (String_of_nat n)) = true.
Proof.
  intros H W. pose proof (length_String_of_nat n w W H) as L.
  unfold padStart0. split.
  - rewrite length_app, repeat_length. unfold code_unit in *. lia.
  - rewrite forallb_app, String_of_nat_digits, andb_true_r.
    apply forallb_forall. intros x Hx. apply repeat_spec in Hx.
    subst x. reflexivity.
Qed.

(** The bound of the receipt number, as a power of ten. *)
Lemma million : 1000000 = 10 ^ 6.
Proof.
  change 1000000 with
    (Nat.of_uint
       (Decimal.D1 (Decimal.D0 (Decimal.D0 (Decimal.D0 (Decimal.D0
          (Decimal.D0 (Decimal.D0 Decimal.Nil)))))))).
  rewrite Unsigned.of_uint_alt.
  cbn [Decimal.rev Decimal.revapp Unsigned.of_lu Nat.pow]. lia.
Qed.

(** ** The random texts *)

(** X4: [randomText1] returns the text 451-, three decimal digits, a hyphen and
    three decimal digits, and [randomText3] the text NSU-RCPT-, six decimal
    digits and the letter F, whatever the random numbers are; the first
    takes two random numbers and the second one, and neither says a word to
    the progress callback. *)
Theorem random_texts_have_their_formats {host : Host} (w : world) :
  (exists a b w',
     randomText1 w = (w', inr (js "451-" ++ a ++ js "-" ++ b))
     /\ length a = 3 /\ forallb is_digit a = true
     /\ length b = 3 /\ forallb is_digit b = true
     /\ random_calls w' = random_calls w + 2
     /\ notified w' = notified w)
  /\ (exists c w',
        randomText3 w = (w', inr (js "NSU-RCPT-" ++ c ++ js "F"))
        /\ length c = 6 /\ forallb is_digit c = true
        /\ random_calls w' = random_calls w + 1
        /\ notified w' = notified w).
Proof.
  split.
  - unfold randomText1, bind, ret.
    destruct (random_below_run 1000 w) as (x & -> & Bx).
    match goal with
    | |- context [random_below 1000 ?w0] =>
        destruct (random_below_run 1000 w0) as (y & -> & By)
    end.
    destruct (padStart0_digits 3 x) as [Lx Dx];
      [apply Bx; discriminate | lia |].
    destruct (padStart0_digits 3 y) as [Ly Dy];
      [apply By; discriminate | lia |].
    do 3 eexists. split; [reflexivity|].
    simpl random_calls. simpl notified.
    repeat split; try assumption. lia.
  - unfold randomText3, bind, ret.
    destruct (random_below_run 1000000 w) as (x & -> & Bx).
    rewrite million in Bx.
    destruct (padStart0_digits 6 x) as [Lx Dx];
      [apply Bx, Nat.pow_nonzero; discriminate | lia |].
    do 2 eexists. split; [reflexivity|].
    simpl random_calls. simpl notified.
    repeat split; try assumption. lia.
Qed.

(** ** Names that the sanitization keeps *)

Lemma length_trimStart (s : jsstring) :
  length (trimStart s) <= length s
  /\ (starts_ws s = true -> length (trimStart s) < length s).
Proof.
  induction s as [|c r IH]; simpl; [split; [lia|discriminate]|].
  destruct (is_ws c); simpl; [|split; [lia|discriminate]].
  destruct IH as [IH _]. split; [lia|]. intros _. lia.
Qed.

Lemma length_trimEnd (s : jsstring) :
  length (trimEnd s) <= length s
  /\ (s <> [] -> ends_nonws s = false -> length (trimEnd s) < length s).
Proof.
  unfold trimEnd. rewrite length_rev.
  destruct (length_trimStart (rev s)) as [L1 L2].
  rewrite length_rev in L1, L2. split; [exact L1|].
  intros N E. apply L2.
  destruct (rev s) as [|c t] eqn:R.
  - apply (f_equal (@rev _)) in R. rewrite rev_involutive in R.
    simpl in R. congruence.
  - apply (f_equal (@rev _)) in R. rewrite rev_involutive in R.
    simpl in R. subst s. rewrite ends_nonws_app in E.
    simpl. destruct (is_ws c); [reflexivity|discriminate].
Qed.

Lemma length_trim (s : jsstring) :
  length (trim s) <= length s
  /\ (starts_ws s = true -> length (trim s) < length s)
  /\ (s <> [] -> ends_nonws s = false -> length (trim s) < length s).
Proof.
  unfold trim.
  destruct (length_trimStart s) as [S1 S2].
  destruct (length_trimEnd (trimStart s)) as [E1 E2].
  split; [lia|]. split.
  - intros H. specialize (S2 H). lia.
  - intros N E.
    destruct (starts_ws s) eqn:W; [specialize (S2 eq_refl); lia|].
    rewrite (trimStart_id s W) in *. specialize (E2 N E). lia.
Qed.

Lemma length_strip (s : jsstring) :
  length (strip_forbidden s) <= length s.
Proof.
  induction s as [|c r IH]; simpl; [lia|].
  destruct (is_forbidden c); simpl; lia.
Qed.

Lemma length_collapse (s : jsstring) (in_run : bool) :
  length (collapse_from in_run s) <= length s.
Proof.
  revert in_run; induction s as [|c r IH]; intros in_run; simpl; [lia|].
  destruct (is_ws c); [destruct in_run|]; simpl;
    try (specialize (IH true); lia); specialize (IH false); lia.
Qed.

Lemma collapse_single_spaced (s : jsstring) :
  forall in_run,
    single_spaced s = true -> (in_run = true -> starts_ws s = false) ->
    collapse_from in_run s = s.
Proof.
  induction s as [|c r IH]; intros in_run; simpl; [reflexivity|].
  rewrite andb_true_iff. intros [H1 H2] H3.
  destruct (is_ws c) eqn:W.
  - apply andb_true_iff in H1. destruct H1 as [E S].
    apply N.eqb_eq in E. apply negb_true_iff in S.
    destruct in_run; [specialize (H3 eq_refl); discriminate|].
    rewrite IH by auto. subst c. reflexivity.
  - rewrite IH; [reflexivity | exact H2 | discriminate].
Qed.

(** What every sanitized name has. *)
Lemma sanitizeFilename_result (s : jsstring) :
  sanitizeFilename s <> []
  /\ no_forbidden (sanitizeFilename s) = true
  /\ single_spaced (sanitizeFilename s) = true
  /\ length (sanitizeFilename s) <= 80.
Proof.
  rewrite sanitizeFilename_unfold. unfold or_default.
  destruct (is_empty (collapse_ws (strip_forbidden (trim s)))) eqn:E.
  - repeat split; try reflexivity; [discriminate | simpl; lia].
  - set (x := collapse_ws (strip_forbidden (trim s))) in *.
    split; [destruct x; [discriminate|]; discriminate|].
    split; [apply forallb_firstn; unfold x, collapse_ws;
            apply no_forbidden_collapse, no_forbidden_strip|].
    split; [apply single_spaced_firstn; unfold x, collapse_ws;
            apply collapse_from_single_spaced|].
    rewrite length_firstn. lia.
Qed.

(** X5: The names that [sanitizeFilename] returns as they are, are the tidy
    ones: not empty, without any of the nine characters, with single spaces
    for their only white space, without white space at either end and of at
    most 80 characters.  A second sanitization thus changes a sanitized name
    exactly when the first one left white space at one of its ends. *)
Theorem sanitizeFilename_keeps_tidy_names (s : jsstring) :
  (sanitizeFilename s = s <-> tidy s = true)
  /\ (sanitizeFilename (sanitizeFilename s) = sanitizeFilename s
      <-> starts_ws (sanitizeFilename s) = false
          /\ ends_nonws (sanitizeFilename s) = true).
Proof.
  assert (K : forall x, sanitizeFilename x = x <-> tidy x = true).
  { intros x. unfold tidy. rewrite !andb_true_iff, !negb_true_iff.
    rewrite Nat.leb_le. split.
    - intros E. destruct (sanitizeFilename_result x) as (N & F & S & L).
      rewrite E in N, F, S, L.
      assert (B : length (sanitizeFilename x)
                  <= length (trim x) \/ sanitizeFilename x = js "output").
      { rewrite sanitizeFilename_unfold. unfold or_default.
        destruct (is_empty _); [right; reflexivity|left].
        rewrite length_firstn.
        pose proof (length_collapse (strip_forbidden (trim x)) false).
        pose proof (length_strip (trim x)).
        unfold collapse_ws. lia. }
      rewrite E in B. destruct (length_trim x) as (_ & T1 & T2).
      repeat split; try assumption.
      + destruct x; [congruence|reflexivity].
      + destruct (starts_ws x) eqn:W; [|reflexivity].
        destruct B as [B|B]; [specialize (T1 eq_refl); lia|].
        subst x. discriminate W.
      + destruct (ends_nonws x) eqn:W; [reflexivity|].
        destruct B as [B|B]; [specialize (T2 N eq_refl); lia|].
        subst x. discriminate W.
    - intros (((((N & F) & S) & W) & E) & L).
      rewrite sanitizeFilename_unfold. unfold trim.
      rewrite (trimStart_id x W), (trimEnd_id x E).
      rewrite (strip_no_forbidden x F). unfold collapse_ws.
      rewrite (collapse_single_spaced x false S) by discriminate.
      unfold or_default. rewrite N. apply firstn_all2. exact L. }
  split; [apply K|].
  rewrite K. unfold tidy.
  destruct (sanitizeFilename_result s) as (N & F & S & L).
  rewrite F, S. apply Nat.leb_le in L. rewrite L.
  destruct (sanitizeFilename s) as [|c r] eqn:E; [congruence|].
  simpl is_empty. simpl negb at 1. rewrite !andb_true_l, andb_true_r.
  rewrite andb_true_iff, negb_true_iff. reflexivity.
Qed.

(** ** What a batch announces *)

Lemma filter_length_le {A : Type} (p : A -> bool) (l : list A) :
  length (filter p l) <= length l.
Proof.
  induction l as [|x l IH]; simpl; [lia|]. destruct (p x); simpl; lia.
Qed.

Lemma filter_length_mono {A : Type} (p q : A -> bool) (l : list A) :
  (forall x, p x = true -> q x = true) ->
  length (filter p l) <= length (filter q l).
Proof.
  intros H. induction l as [|x l IH]; simpl; [lia|].
  destruct (p x) eqn:P; [rewrite (H x P); simpl; lia|].
  destruct (q x); simpl; lia.
Qed.

Lemma filter_length_or {A : Type} (p q : A -> bool) (l : list A) :
  length (filter (fun x => p x || q x) l)
  <= length (filter p l) + length (filter q l).
Proof.
  induction l as [|x l IH]; simpl; [lia|].
  destruct (p x), (q x); simpl; lia.
Qed.

Lemma filter_all {A : Type} (p : A -> bool) (l : list A) :
  (forall x, In x l -> p x = true) -> filter p l = l.
Proof.
  intros H. induction l as [|x l IH]; simpl; [reflexivity|].
  rewrite (H x) by (left; reflexivity). f_equal. apply IH.
  intros y Hy. apply H. right. exact Hy.
Qed.

(** At most one index of a run of consecutive indices is a given one. *)
Lemma filter_eqb_seq (a start len : nat) :
  length (filter (fun i => i =? a) (seq start len)) <= 1
  /\ (a < start -> filter (fun i => i =? a) (seq start len) = []).
Proof.
  revert start; induction len as [|len IH]; intros start; simpl;
    [split; [lia|reflexivity]|].
  destruct (IH (S start)) as [L1 L2].
  destruct (Nat.eqb_spec start a) as [->|N]; simpl.
  - rewrite L2 by lia. split; [simpl; lia|lia].
  - split; [exact L1|]. intros H. apply L2. lia.
Qed.

(** The multiples of [s] among the first [n] indices are [n / s]. *)
Lemma multiples_upto (s n : nat) :
  0 < s -> length (filter (fun i => i mod s =? 0) (seq 1 n)) = n / s.
Proof.
  intros Hs. induction n as [|n IH]; [rewrite Nat.Div0.div_0_l; reflexivity|].
  rewrite seq_S, filter_app, length_app, IH. simpl.
  pose proof (Nat.div_mod_eq n s) as D.
  pose proof (Nat.mod_upper_bound n s ltac:(lia)) as B.
  destruct (Nat.eq_dec (S (n mod s)) s) as [E|E].
  - assert (M : S n mod s = 0).
    { symmetry. apply (Nat.mod_unique (S n) s (S (n / s)) 0); [lia|]. nia. }
    assert (Q : S n / s = S (n / s)).
    { symmetry. apply (Nat.div_unique (S n) s (S (n / s)) 0); [lia|]. nia. }
    rewrite M, Q. simpl. lia.
  - assert (M : S n mod s = S (n mod s)).
    { symmetry. apply (Nat.mod_unique (S n) s (n / s) (S (n mod s)));
        [lia|]. nia. }
    assert (Q : S n / s = n / s).
    { symmetry. apply (Nat.div_unique (S n) s (n / s) (S (n mod s)));
        [lia|]. nia. }
    rewrite M, Q. simpl. lia.
Qed.

(** The loop reports progress for at most 19 units, for every unit of a
    batch of at most 19, and for at least ten units of a batch of ten or
    more. *)
Lemma announced_bounds (n : nat) :
  length (announced n) <= 19
  /\ (n <= 19 -> announced n = seq 1 n)
  /\ (10 <= n -> 10 <= length (announced n)).
Proof.
  unfold announced.
  assert (Small : n <= 19 ->
            filter (fun i => progress_due i n) (seq 1 n) = seq 1 n).
  { intros H. apply filter_all. intros i _. unfold progress_due.
    assert (E : Nat.max 1 (n / 10) = 1).
    { assert (n / 10 <= 1)
        by (apply Nat.lt_succ_r, Nat.Div0.div_lt_upper_bound; lia).
      lia. }
    rewrite E, Nat.mod_1_r. rewrite orb_true_r. reflexivity. }
  split; [|split; [exact Small|]].
  - destruct (Nat.le_gt_cases n 19) as [H|H].
    + rewrite (Small H), length_seq. exact H.
    + set (s := Nat.max 1 (n / 10)).
      assert (Hs : 2 <= n / 10)
        by (apply Nat.div_le_lower_bound; lia).
      assert (Es : s = n / 10) by (unfold s; lia).
      pose proof (filter_length_or
                    (fun i => (i =? 1) || (i =? n))
                    (fun i => i mod s =? 0) (seq 1 n)) as P.
      pose proof (filter_length_or (fun i => i =? 1) (fun i => i =? n)
                    (seq 1 n)) as P'.
      destruct (filter_eqb_seq 1 1 n) as [A _].
      destruct (filter_eqb_seq n 1 n) as [B _].
      rewrite (multiples_upto s n) in P by lia.
      assert (Q : n / s < 15).
      { apply Nat.Div0.div_lt_upper_bound. rewrite Es.
        pose proof (Nat.div_mod_eq n 10).
        pose proof (Nat.mod_upper_bound n 10 ltac:(lia)). lia. }
      unfold progress_due. fold s. lia.
  - intros H. set (s := Nat.max 1 (n / 10)).
    assert (Hs : 1 <= n / 10) by (apply Nat.div_le_lower_bound; lia).
    assert (Es : s = n / 10) by (unfold s; lia).
    pose proof (filter_length_mono (fun i => i mod s =? 0)
                  (fun i => progress_due i n) (seq 1 n)) as P.
    rewrite (multiples_upto s n) in P by lia.
    assert (Q : 10 <= n / s).
    { apply Nat.div_le_lower_bound; [lia|]. rewrite Es.
      pose proof (Nat.div_mod_eq n 10). lia. }
    etransitivity; [exact Q|]. apply P.
    intros i Hi. unfold progress_due. fold s. rewrite Hi.
    apply orb_true_r.
Qed.

Section BatchAccounts.

Context {cm : CaseMapping} {host : Host} (v : Variant).

(** X6: A completed batch has spoken to the progress callback at most 21 times:
    once for the download, once for the packing and for at most 19 units;
    for every unit when the batch has at most 19, and for at least ten when
    it has ten or more. *)
Theorem progress_reports_are_bounded (env : Env) (options : Options)
  (w w' : world) (zip : bytes) :
  generateOutputsZip v env options w = (w', inr zip) ->
  length (notified w')
  = length (notified w) + 2 + length (announced (count options))
  /\ length (notified w') <= length (notified w) + 21
  /\ (count options <= 19 ->
      length (notified w') = length (notified w) + 2 + count options)
  /\ (10 <= count options ->
      length (notified w) + 12 <= length (notified w')).
Proof.
  intros H. apply generateOutputsZip_inr in H.
  destruct H as (tb & files & plab & baseProj & bundle & w1 & w2 & out
                 & used & _ & _ & _ & _ & _ & _ & _ & L1 & G & L2 & _).
  apply generateUnits_inr in G; [|reflexivity].
  destruct G as (rs & new & _ & _ & _ & _ & _ & _ & L).
  assert (E : length (notified w')
              = length (notified w) + 2 + length (announced (count options))).
  { rewrite L2, L, L1. unfold generating_messages, announced.
    rewrite !length_app, length_map. simpl. lia. }
  destruct (announced_bounds (count options)) as (B1 & B2 & B3).
  split; [exact E|]. split; [lia|]. split.
  - intros S. rewrite E, (B2 S), length_seq. reflexivity.
  - intros S. specialize (B3 S). lia.
Qed.

Lemma nextRecord_draws (options : Options) (w w' : world)
  (r : unit_record) :
  nextRecord v options w = (w', inr r) ->
  random_calls w' = random_calls w + draws options.
Proof.
  unfold nextRecord, randomText1, randomText3, draws.
  destruct (jsstring_eqb (firstMode options) (js "fixed"));
    destruct (jsstring_eqb (lastMode options) (js "fixed"));
    unfold rand, bind, ret;
    repeat match goal with
    | |- context [random_below ?k ?w0] =>
        destruct (random_below_run k w0) as (? & -> & _)
    end;
    intros [= <- _]; simpl; lia.
Qed.

Lemma generateUnit_draws (files : archive) (baseProj : json)
  (options : Options) (i : nat) (st st' : archive * list jsstring)
  (w w' : world) :
  generateUnit v files baseProj options i st w = (w', inr st') ->
  random_calls w' = random_calls w + draws options.
Proof.
  destruct st as [out used]. unfold generateUnit. intros H. run_inr H.
  apply nextRecord_draws in R.
  apply lift_run in R0. destruct R0 as [-> _].
  apply lift_run in R1. destruct R1 as [-> _].
  destruct (progress_due i (count options)).
  - apply progressCb_run in R2. destruct R2 as (_ & -> & _). exact R.
  - unfold ret in R2. injection R2 as <-. exact R.
Qed.

Lemma generateUnits_draws (files : archive) (baseProj : json)
  (options : Options) (indices : list nat) :
  forall (st st' : archive * list jsstring) (w w' : world),
    generateUnits v files baseProj options indices st w = (w', inr st') ->
    random_calls w'
    = random_calls w + length indices * draws options.
Proof.
  induction indices as [|i indices IH]; simpl; intros st st' w w' H.
  - unfold ret in H. injection H as <- _. lia.
  - apply bind_inr in H. destruct H as (st1 & w1 & S & H).
    apply generateUnit_draws in S. apply IH in H. lia.
Qed.

(** X7: A completed batch of N units has taken from [Math.random] three numbers
    for each unit, and one more for each of the two names that is not
    fixed: N times three, four or five numbers. *)
Theorem random_numbers_of_a_batch (env : Env) (options : Options)
  (w w' : world) (zip : bytes) :
  generateOutputsZip v env options w = (w', inr zip) ->
  random_calls w' = random_calls w + count options * draws options
  /\ 3 <= draws options <= 5.
Proof.
  intros H. split.
  - unfold generateOutputsZip in H.
    apply bind_inr in H. destruct H as ([] & w1 & R0 & H).
    apply progressCb_run in R0. destruct R0 as (_ & E0 & _).
    apply bind_inr in H. destruct H as (tb & w2 & R1 & H).
    apply lift_run in R1. destruct R1 as [-> _].
    apply bind_inr in H. destruct H as (files & w3 & R2 & H).
    apply lift_run in R2. destruct R2 as [-> _].
    destruct (assoc_get (js "data.plab") files) as [plab|];
      [|discriminate].
    apply bind_inr in H. destruct H as (baseProj & w4 & R3 & H).
    apply lift_run in R3. destruct R3 as [-> _].
    apply bind_inr in H. destruct H as (bundle & w5 & R4 & H).
    apply lift_run in R4. destruct R4 as [-> _].
    apply bind_inr in H. destruct H as ([] & w6 & R5 & H).
    apply lift_run in R5. destruct R5 as [-> _].
    apply bind_inr in H. destruct H as ([out used] & w7 & R6 & H).
    apply generateUnits_draws in R6. rewrite length_seq in R6.
    apply bind_inr in H. destruct H as ([] & w8 & R7 & H).
    apply progressCb_run in R7. destruct R7 as (_ & E7 & _).
    unfold ret in H. injection H as <- _. lia.
  - unfold draws.
    destruct (jsstring_eqb (firstMode options) (js "fixed"));
      destruct (jsstring_eqb (lastMode options) (js "fixed")); simpl; lia.
Qed.

(** A failure of [generateUnits] leaves no failure of the template. *)
Lemma generateOutputsZip_template_failure (env : Env) (options : Options)
  (w w' : world) (e : error) :
  generateOutputsZip v env options w = (w', inl e) ->
  kind_of e <> OtherError ->
  random_calls w' = random_calls w
  /\ notified w' = notified w ++ [downloading_message v]
  /\ progressCb_fails (length (notified w)) (downloading_message v) = false.
Proof.
  unfold generateOutputsZip. intros H K.
  apply bind_inl in H. destruct H as [H|([] & w1 & R0 & H)].
  { apply progressCb_run in H. destruct H as (_ & _ & H).
    destruct (progressCb_fails _ _); [|discriminate].
    injection H as ->. exfalso. apply K. reflexivity. }
  apply progressCb_run in R0. destruct R0 as (L0 & E0 & F0).
  assert (F : progressCb_fails (length (notified w)) (downloading_message v)
              = false)
    by (destruct (progressCb_fails _ _); [discriminate|reflexivity]).
  apply bind_inl in H. destruct H as [H|(tb & w2 & R1 & H)].
  { apply lift_run in H. destruct H as [-> _]. auto. }
  apply lift_run in R1. destruct R1 as [-> _].
  apply bind_inl in H. destruct H as [H|(files & w3 & R2 & H)].
  { apply lift_run in H. destruct H as [-> _]. auto. }
  apply lift_run in R2. destruct R2 as [-> _].
  destruct (assoc_get (js "data.plab") files) as [plab|].
  2:{ unfold throw in H. injection H as <- _. auto. }
  apply bind_inl in H. destruct H as [H|(baseProj & w4 & R3 & H)].
  { apply lift_run in H. destruct H as [-> _]. auto. }
  apply lift_run in R3. destruct R3 as [-> _].
  apply bind_inl in H. destruct H as [H|(bundle & w5 & R4 & H)].
  { apply lift_run in H. destruct H as [-> _]. auto. }
  apply lift_run in R4. destruct R4 as [-> _].
  apply bind_inl in H. destruct H as [H|([] & w6 & R5 & H)].
  { apply lift_run in H. destruct H as [-> _]. auto. }
  apply lift_run in R5. destruct R5 as [-> _].
  apply bind_inl in H. destruct H as [H|([out used] & w7 & _ & H)].
  { apply fails_otherwise_generateUnits in H. congruence. }
  apply bind_inl in H. destruct H as [H|([] & w8 & _ & H)].
  { apply progressCb_run in H. destruct H as (_ & _ & H).
    destruct (progressCb_fails _ packing_message); [|discriminate].
    injection H as ->. exfalso. apply K. reflexivity. }
  discriminate.
Qed.

(** X8: A batch that fails for its template, be it for the fetch, the
    unpacking, the missing descriptor, its syntax or a missing layer, has
    generated nothing: no random number is taken and the progress callback
    has heard of the download only.  A template without [data.plab] fails
    the batch in this way whenever the callback took that message. *)
Theorem template_failures_come_before_any_unit (env : Env)
  (options : Options) (w w' : world) (e : error) :
  generateOutputsZip v env options w = (w', inl e) ->
  kind_of e = TemplateFetchError \/ kind_of e = FormatError ->
  (random_calls w' = random_calls w
   /\ notified w' = notified w ++ [downloading_message v])
  /\ (forall templateBytes files,
        fetchTemplateBytes v env = inr templateBytes ->
        unzipSync templateBytes = Some files ->
        assoc_get (js "data.plab") files = None ->
        e = MissingDescriptor
        /\ error_message v e = Some (js "Template missing data.plab")).
Proof.
  intros H K.
  assert (K' : kind_of e <> OtherError)
    by (destruct K as [K|K]; rewrite K; discriminate).
  destruct (generateOutputsZip_template_failure env options w w' e H K')
    as (R & L & F).
  split; [split; assumption|].
  intros tb files Fe U G. revert H.
  unfold generateOutputsZip, bind, progressCb, lift, throw.
  rewrite F, Fe, U, G. intros [= _ <-]. split; reflexivity.
Qed.

Lemma nextRecord_fixed (options : Options) (w w' : world)
  (r : unit_record) :
  firstMode options = js "fixed" -> lastMode options = js "fixed" ->
  nextRecord v options w = (w', inr r) ->
  fullName r
  = trim (titleCase (first_by_index v) (fixedFirst options) ++ js " "
          ++ titleCase (first_by_index v)
               (or_default (fixedLast options) (js "Ahmed"))).
Proof.
  intros E1 E2. unfold nextRecord, randomText1, randomText3.
  rewrite E1, E2, !jsstring_eqb_refl. unfold bind, ret.
  repeat match goal with
  | |- context [random_below ?k ?w0] =>
      destruct (random_below_run k w0) as (? & -> & _)
  end.
  intros [= _ <-]. reflexivity.
Qed.

(** X9: With both names fixed, the files of a completed batch are named after
    the one full name of its units: the plain name for the first unit, then
    the suffixes [_2], [_3] and so on up to the number of units, in the order
    of the units. *)
Theorem fixed_names_are_numbered (env : Env) (options : Options)
  (w w' : world) (zip : bytes) :
  firstMode options = js "fixed" -> lastMode options = js "fixed" ->
  generateOutputsZip v env options w = (w', inr zip) ->
  exists out,
    zip = zipSync out
    /\ map fst out
       = map (numbered
                (sanitizeFilename
                   (trim (titleCase (first_by_index v) (fixedFirst options)
                          ++ js " "
                          ++ titleCase (first_by_index v)
                               (or_default (fixedLast options)
                                  (js "Ahmed"))))))
           (seq 1 (count options)).
Proof.
  intros E1 E2 H. apply generateOutputsZip_inr in H.
  destruct H as (tb & files & plab & baseProj & bundle & w1 & w2 & out
                 & used & _ & _ & _ & _ & _ & _ & _ & _ & G & _ & ->).
  apply generateUnits_inr in G; [|reflexivity].
  destruct G as (rs & new & -> & _ & Len & _ & Fa & Al & _).
  exists new. split; [reflexivity|]. simpl in Al |- *.
  set (base := sanitizeFilename _).
  assert (B : map base_name rs = repeat base (length rs)).
  { clear Al Len. induction Fa as [|r rs (w0 & w3 & R) Fa IH]; simpl;
      [reflexivity|].
    rewrite IH. f_equal. unfold base_name.
    rewrite (nextRecord_fixed options w0 w3 r E1 E2 R). reflexivity. }
  rewrite length_seq in Len. rewrite Len in B. rewrite B in Al.
  clearbody base.
  assert (NC : no_cross (repeat base (count options))).
  { intros b b' n Hb Hb' _ E. apply repeat_spec in Hb, Hb'. subst b b'.
    apply (f_equal (@length _)) in E. rewrite !length_app in E.
    change (length (js "_")) with 1 in E. lia. }
  apply nth_ext with (d := []) (d' := []).
  - rewrite (allocation_length _ _ _ Al), repeat_length, length_map,
      length_seq. reflexivity.
  - intros j Hj.
    rewrite (allocation_length _ _ _ Al), repeat_length in Hj.
    assert (Nb : nth_error (repeat base (count options)) j = Some base).
    { rewrite nth_error_repeat by exact Hj. reflexivity. }
    pose proof (allocation_in_order _ _ j base NC Al Nb) as N.
    rewrite (nth_error_nth _ _ _ N).
    assert (M : nth_error (map (numbered base) (seq 1 (count options))) j
                = Some (numbered base (S j))).
    { apply map_nth_error. rewrite nth_error_seq.
      destruct (Nat.ltb_spec j (count options)); [reflexivity|lia]. }
    rewrite (nth_error_nth _ _ _ M).
    assert (O : occurrences base (firstn j (repeat base (count options)))
                = j).
    { unfold occurrences. clear - Hj. revert Hj.
      generalize (count options) as n.
      induction j as [|j IH]; intros [|n] Hj; simpl; try lia.
      rewrite jsstring_eqb_refl. simpl. rewrite IH by lia. reflexivity. }
    rewrite O. reflexivity.
Qed.

End BatchAccounts.

(** ** The accounts of a batch, on a template *)

Lemma progress_reports_are_bounded_witness :
  exists w' zip,
    generateOutputsZip (cm := latin1_case) (host := quiet_host)
      service_worker sample_env (random_options 23) initial_world
    = (w', inr zip)
    /\ length (notified w')
       = length (notified initial_world) + 2
         + length (announced (count (random_options 23)))
    /\ length (notified w') <= length (notified initial_world) + 21.
Proof.
  eexists. eexists. split; [vm_compute; reflexivity|].
  refine ((fun H => conj (proj1 H) (proj1 (proj2 H)))
            (progress_reports_are_bounded (cm := latin1_case)
               (host := quiet_host) service_worker sample_env
               (random_options 23) initial_world _ _ _)).
  vm_compute. reflexivity.
Defined.

Lemma random_numbers_of_a_batch_witness :
  exists w' zip,
    generateOutputsZip (cm := latin1_case) (host := quiet_host)
      telegram_js sample_env (random_options 4) initial_world
    = (w', inr zip)
    /\ random_calls w'
       = random_calls initial_world
         + count (random_options 4) * draws (random_options 4)
    /\ 3 <= draws (random_options 4) <= 5.
Proof.
  eexists. eexists. split; [vm_compute; reflexivity|].
  eapply (random_numbers_of_a_batch (cm := latin1_case)
            (host := quiet_host) telegram_js sample_env
            (random_options 4) initial_world).
  vm_compute. reflexivity.
Defined.

Lemma template_failures_come_before_any_unit_witness :
  exists w',
    generateOutputsZip (cm := latin1_case) (host := host_without_descriptor)
      service_worker sample_env (random_options 3) initial_world
    = (w', inl MissingDescriptor)
    /\ random_calls w' = random_calls initial_world
    /\ notified w'
       = notified initial_world ++ [downloading_message service_worker].
Proof.
  eexists. split; [vm_compute; reflexivity|].
  refine (proj1 (template_failures_come_before_any_unit
                   (cm := latin1_case) (host := host_without_descriptor)
                   service_worker sample_env (random_options 3)
                   initial_world _ MissingDescriptor _ _)).
  - vm_compute. reflexivity.
  - right. reflexivity.
Defined.

Lemma fixed_names_are_numbered_witness :
  exists w' zip,
    generateOutputsZip (cm := latin1_case) (host := quiet_host)
      pages_functions sample_env (fixed_options 3) initial_world
    = (w', inr zip)
    /\ exists out,
         zip = zipSync out
         /\ map fst out
            = map (numbered (js "Ahsan Khan")) (seq 1 3).
Proof.
  eexists. eexists. split; [vm_compute; reflexivity|].
  refine (fixed_names_are_numbered (cm := latin1_case) (host := quiet_host)
            pages_functions sample_env (fixed_options 3) initial_world _ _
            eq_refl eq_refl _).
  vm_compute. reflexivity.
Defined.

(** ** The steps of the bot *)

Section BotFacts.

Context {cm : CaseMapping} {host : Host} {platform : Platform}.
Variable bot : Bot.
Variable env : BotEnv.

(** A step that makes requests leaves the store and the random numbers as
    they are. *)
Lemma requesting_run {A : Type}
  (f : nat -> list tg_request * (bot_error + A)) (w w' : bot_world)
  (r : bot_error + A) :
  requesting f w = (w', r) ->
  kv w' = kv w /\ randoms w' = randoms w
  /\ sent w' = sent w ++ fst (f (length (sent w)))
  /\ r = snd (f (length (sent w))).
Proof.
  unfold requesting. destruct (f (length (sent w))) as [reqs r0].
  intros [= <- <-]. simpl. auto.
Qed.

Lemma tgCall_at_requests (n : nat) (method : jsstring) (payload : json) :
  length (fst (tgCall_at bot env n method payload)) <= 1.
Proof.
  unfold tgCall_at, post_at.
  repeat match goal with
  | |- context [if ?b then _ else _] => destruct b
  end; simpl; lia.
Qed.

Lemma tgCall_run (method : jsstring) (payload : json) (w w' : bot_world)
  (r : bot_error + json) :
  tgCall bot env method payload w = (w', r) ->
  kv w' = kv w /\ randoms w' = randoms w
  /\ exists reqs, sent w' = sent w ++ reqs /\ length reqs <= 1.
Proof.
  intros H. unfold tgCall in H. apply requesting_run in H.
  destruct H as (K & R & S & _).
  repeat split; try assumption. eexists. split; [exact S|].
  apply tgCall_at_requests.
Qed.

Lemma kv_get_run (key : jsstring) (w : bot_world) :
  KV_bound env = true ->
  kv_get env key w = (w, inr (option_map kv_value (assoc_get key (kv w)))).
Proof. intros B. unfold kv_get. rewrite B. reflexivity. Qed.

Lemma is_authed_run (userId : option json) (w : bot_world) :
  KV_bound env = true ->
  is_authed env userId w
  = (w, inr (match option_map kv_value (assoc_get (auth_key userId) (kv w))
             with
             | Some s => jsstring_eqb s (js "1")
             | None => false
             end)).
Proof.
  intros B. unfold is_authed, andThen. rewrite kv_get_run by exact B.
  reflexivity.
Qed.

End BotFacts.

(** ** The webhook *)

Lemma is_set_nonempty (s : jsstring) :
  is_set (Some s) = true -> is_empty s = false.
Proof. destruct s; [discriminate|reflexivity]. Qed.

(** X10: a POST that does not carry the configured secret in its header is
    answered 403 and nothing else happens, in each of the three copies: the
    store is not read, no request goes to Telegram and the update is not
    looked at.  A POST that carries it is not answered 403. *)
Theorem webhook_asks_for_the_secret {cm : CaseMapping} {host : Host}
  {platform : Platform} (bot : Bot) (env : BotEnv) (req : request)
  (secret : jsstring) (w : bot_world) :
  In bot bots ->
  WEBHOOK_SECRET env = Some secret -> is_set (Some secret) = true ->
  req_method req = js "POST" -> req_pathname req <> js "/debug" ->
  (req_secret req <> Some secret ->
   webhook bot env req w = (w, respond 403 "forbidden"))
  /\ (req_secret req = Some secret ->
      snd (webhook bot env req w) <> respond 403 "forbidden").
Proof.
  intros Hb Hs Hset Hm Hp.
  pose proof (is_set_nonempty secret Hset) as Ne.
  apply jsstring_eqb_neq in Hp.
  assert (D : req_secret req <> Some secret ->
              secret_differs env (req_secret req) = true
              /\ secret_denied env (req_secret req) = true).
  { intros N. unfold secret_differs, secret_denied. rewrite Hs, Hset, Ne.
    simpl. destruct (req_secret req) as [h|]; simpl; [|auto].
    assert (E : jsstring_eqb h secret = false)
      by (apply jsstring_eqb_neq; congruence).
    rewrite E. split; [reflexivity|apply orb_true_r]. }
  assert (S : req_secret req = Some secret ->
              secret_differs env (req_secret req) = false
              /\ secret_denied env (req_secret req) = false).
  { intros E. unfold secret_differs, secret_denied. rewrite Hs, E, Hset, Ne.
    simpl. rewrite jsstring_eqb_refl, Ne. auto. }
  split.
  - intros N. destruct (D N) as [D1 D2].
    destruct Hb as [<-|[<-|[<-|[]]]]; unfold webhook; simpl;
      unfold router, onRequestPost, handleRequest;
      rewrite ?Hp, ?Hm, ?D1, ?D2; reflexivity.
  - intros E. destruct (S E) as [S1 S2].
    destruct Hb as [<-|[<-|[<-|[]]]]; unfold webhook; simpl;
      unfold router, onRequestPost, handleRequest;
      rewrite ?Hp, ?Hm, ?S1, ?S2; simpl;
      destruct (req_json req) as [u|]; try discriminate;
      destruct (truthy u); try discriminate;
      destruct (handleUpdate _ _ u w) as [w' [e|[]]]; try discriminate;
      destruct e; discriminate.
Qed.

(** X11: the service-worker copy and the Pages-Functions copy answer every
    request, with the status 200, 400, 403 or 500, whatever becomes of the
    update (a run on options that the model does not follow is set apart as
    [Rejected OutsideModel]); the copy of [src/functions/telegram.js]
    answers or rejects with the failure of [handleUpdate].  A request
    answered 400 or 403 has changed nothing, and so has a request that is
    not a POST where the copy looks at the method. *)
Theorem webhook_answers {cm : CaseMapping} {host : Host}
  {platform : Platform} (bot : Bot) (env : BotEnv) (req : request)
  (w : bot_world) :
  In bot bots ->
  (entry bot <> HandleRequest ->
   snd (webhook bot env req w) <> Rejected OutsideModel ->
   exists r, snd (webhook bot env req w) = Responded r
             /\ In (http_status r) [200; 400; 403; 500])
  /\ (forall e, snd (webhook bot env req w) = Rejected e ->
        req_json req <> None
        /\ exists update w',
             req_json req = Some update
             /\ handleUpdate bot env update w = (w', inl e))
  /\ (forall r, snd (webhook bot env req w) = Responded r ->
        http_status r = 400 \/ http_status r = 403 ->
        fst (webhook bot env req w) = w)
  /\ (entry bot <> PagesPost -> req_method req <> js "POST" ->
      fst (webhook bot env req w) = w
      /\ exists r, snd (webhook bot env req w) = Responded r
                   /\ http_status r = 200).
Proof.
  intros Hb.
  destruct Hb as [<-|[<-|[<-|[]]]]; unfold webhook; simpl;
    unfold router, onRequestPost, handleRequest, respond;
    (split; [|split; [|split]]).
  all: try (intros N; exfalso; apply N; reflexivity).
  all: repeat match goal with
       | |- context [jsstring_eqb ?a ?b] =>
           let E := fresh "E" in destruct (jsstring_eqb a b) eqn:E
       | |- context [secret_denied ?a ?b] => destruct (secret_denied a b)
       | |- context [secret_differs ?a ?b] => destruct (secret_differs a b)
       | |- context [req_json ?q] => destruct (req_json q)
       | |- context [truthy ?u] => destruct (truthy u)
       | |- context [handleUpdate ?b ?e ?u ?w0] =>
           let R := fresh "R" in
           destruct (handleUpdate b e u w0) as [? [[]|?]] eqn:R
       end; simpl.
  all: try (intros _ _; eexists; split; [reflexivity|simpl; tauto]).
  all: try (intros _ N; exfalso; apply N; reflexivity).
  all: try (intros ? [= <-]; split; [discriminate|];
            do 2 eexists; split; [reflexivity|eassumption]).
  all: try (intros ? ?; discriminate).
  all: try (intros ? [= <-]; simpl; intros [?|?]; try reflexivity;
            discriminate).
  all: try (intros _ N; split; [reflexivity|];
            eexists; split; reflexivity).
  all: try (intros _ N; exfalso; apply N;
            match goal with
            | E : jsstring_eqb _ _ = true |- _ =>
                apply jsstring_eqb_eq in E; exact E
            end).
  all: try (intros _ N; exfalso;
            match goal with
            | E : jsstring_eqb (req_method _) (js "POST") = true |- _ =>
                apply jsstring_eqb_eq in E; congruence
            end).
Qed.

(** ** What a step keeps *)

Section Keeping.

Context {cm : CaseMapping} {host : Host} {platform : Platform}.
Variable bot : Bot.
Variable env : BotEnv.
Variable R : bot_world -> bot_world -> Prop.
Hypothesis R_refl : forall w, R w w.
Hypothesis R_trans : forall a b c, R a b -> R b c -> R a c.

(** The relation holds across the requests that [tgCall] makes. *)
Hypothesis R_calls :
  forall w n method payload,
    R w {| kv := kv w;
           sent := sent w ++ fst (tgCall_at bot env n method payload);
           randoms := randoms w |}.

Lemma keeps_done {A : Type} (a : A) : keeps R (done a).
Proof. intros w w' r [= <- _]. apply R_refl. Qed.

Lemma keeps_fail {A : Type} (e : bot_error) : keeps R (@fail A e).
Proof. intros w w' r [= <- _]. apply R_refl. Qed.

Lemma keeps_check {A : Type} (x : bot_error + A) : keeps R (check x).
Proof. intros w w' r [= <- _]. apply R_refl. Qed.

Lemma keeps_andThen {A B : Type} (m : Act A) (f : A -> Act B) :
  keeps R m -> (forall a, keeps R (f a)) -> keeps R (andThen m f).
Proof.
  intros Hm Hf w w' r. unfold andThen.
  destruct (m w) as [w1 [e|a]] eqn:E.
  - intros [= <- _]. eapply Hm; eassumption.
  - intros H. eapply R_trans; [eapply Hm; eassumption|].
    eapply Hf; eassumption.
Qed.

Lemma keeps_try_catch {A : Type} (m : Act A) (h : bot_error -> Act A) :
  keeps R m -> (forall e, keeps R (h e)) -> keeps R (try_catch m h).
Proof.
  intros Hm Hh w w' r. unfold try_catch.
  destruct (m w) as [w1 [e|a]] eqn:E.
  - assert (H1 : R w w1) by (eapply Hm; eassumption).
    destruct e; try (intros [= <- _]; exact H1);
      intros H; (eapply R_trans; [exact H1|]); eapply Hh; eassumption.
  - intros [= <- _]. eapply Hm; eassumption.
Qed.

Lemma keeps_requesting {A : Type}
  (f : nat -> list tg_request * (bot_error + A)) :
  (forall w n,
     R w {| kv := kv w; sent := sent w ++ fst (f n);
            randoms := randoms w |}) ->
  keeps R (requesting f).
Proof.
  intros J w w' r. unfold requesting.
  specialize (J w (length (sent w))).
  destruct (f (length (sent w))) as [reqs r0]. intros [= <- _].
  exact J.
Qed.

Lemma keeps_kv_get (key : jsstring) : keeps R (kv_get env key).
Proof.
  intros w w' r. unfold kv_get.
  destruct (KV_bound env); intros [= <- _]; apply R_refl.
Qed.

Lemma keeps_is_authed (userId : option json) :
  keeps R (is_authed env userId).
Proof.
  apply keeps_andThen; [apply keeps_kv_get|]. intros a. apply keeps_done.
Qed.

Lemma keeps_tgCall (method : jsstring) (payload : json) :
  keeps R (tgCall bot env method payload).
Proof. apply keeps_requesting. intros w n. apply R_calls. Qed.

Lemma keeps_tgSend (chat_id : option json) (text : jsstring)
  (extra : list (jsstring * json)) :
  keeps R (tgSend bot env chat_id text extra).
Proof. apply keeps_tgCall. Qed.

(** The requests of [tgEdit] are those of a call, when it makes any. *)
Lemma tgEdit_at_requests (n : nat) (chat_id message_id : option json)
  (text : jsstring) :
  fst (tgEdit_at bot env n chat_id message_id text) = []
  \/ fst (tgEdit_at bot env n chat_id message_id text)
     = fst (tgCall_at bot env n (js "editMessageText")
              (edit_payload chat_id message_id text)).
Proof.
  unfold tgEdit_at. destruct (guards_tgEdit bot && _); [left; reflexivity|].
  right. destruct (tgCall_at _ _ _ _ _) as [reqs r]. reflexivity.
Qed.

Lemma R_edits (w : bot_world) (n : nat) (chat_id message_id : option json)
  (text : jsstring) :
  R w {| kv := kv w;
         sent := sent w
                 ++ fst (tgEdit_at bot env n chat_id message_id text);
         randoms := randoms w |}.
Proof.
  destruct (tgEdit_at_requests n chat_id message_id text) as [E|E];
    rewrite E; [|apply R_calls].
  rewrite app_nil_r. destruct w. apply R_refl.
Qed.

Lemma keeps_tgEdit (chat_id message_id : option json) (text : jsstring) :
  keeps R (tgEdit bot env chat_id message_id text).
Proof. apply keeps_requesting. intros w n. apply R_edits. Qed.

Lemma keeps_tgAnswerCb (id : option json) (text : jsstring) :
  keeps R (tgAnswerCb bot env id text).
Proof. apply keeps_tgCall. Qed.

Lemma keeps_sendConfirm (chatId options : option json) :
  keeps R (sendConfirm bot env chatId options).
Proof.
  unfold sendConfirm. destruct options as [[]|];
    try apply keeps_fail; apply keeps_tgSend.
Qed.

(** A notice and nothing after it. *)
Lemma keeps_notice {A : Type} (m : Act A) :
  keeps R m -> keeps R (_ <- m ;; done tt)%bot.
Proof.
  intros H. apply keeps_andThen; [exact H|]. intros _. apply keeps_done.
Qed.

End Keeping.

(** [tgCall] posts no document. *)
Lemma tgCall_at_json {platform : Platform} (bot : Bot) (env : BotEnv)
  (n : nat) (method : jsstring) (payload : json) :
  Forall (fun req => carries_document req = false)
    (fst (tgCall_at bot env n method payload)).
Proof.
  unfold tgCall_at, post_at.
  repeat match goal with
  | |- context [if ?b then _ else _] => destruct b
  end; simpl; repeat constructor.
Qed.

Lemma tgEdit_at_json {platform : Platform} (bot : Bot) (env : BotEnv)
  (n : nat) (chat_id message_id : option json) (text : jsstring) :
  Forall (fun req => carries_document req = false)
    (fst (tgEdit_at bot env n chat_id message_id text)).
Proof.
  destruct (tgEdit_at_requests bot env n chat_id message_id text) as [E|E];
    rewrite E; [constructor|apply tgCall_at_json].
Qed.

Lemma replay_json {platform : Platform} (bot : Bot) (env : BotEnv)
  (chatId statusMsgId : option json) (ts : list jsstring) :
  forall n,
    Forall (fun req => carries_document req = false)
      (replay bot env chatId statusMsgId n ts).
Proof.
  induction ts as [|t ts IH]; intros n; simpl; [constructor|].
  apply Forall_app. split; [|apply IH].
  unfold progress_at. destruct (truthy_opt statusMsgId); [|constructor].
  apply tgEdit_at_json.
Qed.

Lemma quiet_refl (w : bot_world) : quiet w w.
Proof. split; reflexivity. Qed.

Lemma quiet_trans (a b c : bot_world) : quiet a b -> quiet b c -> quiet a c.
Proof. intros [H1 H2] [H3 H4]. split; congruence. Qed.

Lemma quiet_requests (w : bot_world) (reqs : list tg_request) :
  quiet w {| kv := kv w; sent := sent w ++ reqs; randoms := randoms w |}.
Proof. split; reflexivity. Qed.

Lemma quiet_calls {platform : Platform} (bot : Bot) (env : BotEnv)
  (w : bot_world) (n : nat) (method : jsstring) (payload : json) :
  quiet w {| kv := kv w;
             sent := sent w ++ fst (tgCall_at bot env n method payload);
             randoms := randoms w |}.
Proof. apply quiet_requests. Qed.

(** ** Requests and what they say *)

Section Saying.

Context {cm : CaseMapping} {host : Host} {platform : Platform}.
Variable bot : Bot.
Variable env : BotEnv.

Lemma says_tgCall_at (n : nat) (method text : jsstring) (payload : json) :
  get payload (js "text") = Some (JStr text) ->
  Forall (says text) (fst (tgCall_at bot env n method payload)).
Proof.
  intros G. unfold tgCall_at, post_at.
  repeat match goal with
  | |- context [if ?b then _ else _] => destruct b
  end; simpl; repeat constructor; do 2 eexists; split;
    try reflexivity; exact G.
Qed.

Lemma send_payload_text (chat_id : option json) (text : jsstring)
  (extra : list (jsstring * json)) :
  get (JObj (field "chat_id" chat_id ++ [(js "text", JStr text)] ++ extra))
      (js "text")
  = Some (JStr text).
Proof. destruct chat_id; reflexivity. Qed.

Lemma answer_payload_text (id : option json) (text : jsstring) :
  get (JObj (field "callback_query_id" id
             ++ [(js "text", JStr text); (js "show_alert", JBool false)]))
      (js "text")
  = Some (JStr text).
Proof. destruct id; reflexivity. Qed.

(** What [tgSend] leaves: the store and the random numbers as they were and
    at most one more request, which says the text. *)
Lemma tgSend_run (chat_id : option json) (text : jsstring)
  (extra : list (jsstring * json)) (w w' : bot_world)
  (r : bot_error + json) :
  tgSend bot env chat_id text extra w = (w', r) ->
  quiet w w'
  /\ exists reqs, sent w' = sent w ++ reqs /\ length reqs <= 1
                  /\ Forall (says text) reqs.
Proof.
  intros H. unfold tgSend, tgCall in H. apply requesting_run in H.
  destruct H as (K & Rn & S & _). split; [split; assumption|].
  eexists. split; [exact S|]. split; [apply tgCall_at_requests|].
  apply says_tgCall_at, send_payload_text.
Qed.

Lemma tgAnswerCb_run (id : option json) (text : jsstring)
  (w w' : bot_world) (r : bot_error + json) :
  tgAnswerCb bot env id text w = (w', r) ->
  quiet w w'
  /\ exists reqs, sent w' = sent w ++ reqs /\ length reqs <= 1
                  /\ Forall (says text) reqs.
Proof.
  intros H. unfold tgAnswerCb, tgCall in H. apply requesting_run in H.
  destruct H as (K & Rn & S & _). split; [split; assumption|].
  eexists. split; [exact S|]. split; [apply tgCall_at_requests|].
  apply says_tgCall_at, answer_payload_text.
Qed.

End Saying.

(** ** Updates and the handlers they reach *)

Section Updates.

Context {cm : CaseMapping} {host : Host} {platform : Platform}.
Variable bot : Bot.
Variable env : BotEnv.
Hypothesis KV : KV_bound env = true.

Lemma guard_passes : guards_KV bot && negb (KV_bound env) = false.
Proof. rewrite KV. apply andb_false_r. Qed.

Lemma handleUpdate_callback (update c : json) (w : bot_world) :
  callback_of update = Some c ->
  handleUpdate bot env update w = onCallback bot env c w.
Proof.
  unfold callback_of, handleUpdate. rewrite guard_passes.
  destruct (get update (js "callback_query")) as [c0|]; [|discriminate].
  destruct (truthy c0); [|discriminate]. intros [= ->]. reflexivity.
Qed.

Lemma handleUpdate_message (update msg : json) (w : bot_world) :
  message_of update = Some msg ->
  handleUpdate bot env update w = on_message bot env (Some msg) w.
Proof.
  unfold message_of, callback_of, handleUpdate. rewrite guard_passes.
  destruct (get update (js "callback_query")) as [c0|];
    [destruct (truthy c0)|]; try discriminate;
    (destruct (truthy_opt (or_else _ _)); [|discriminate];
     intros ->; reflexivity).
Qed.

Lemma message_truthy (update msg : json) :
  message_of update = Some msg -> truthy msg = true.
Proof.
  unfold message_of. destruct (callback_of update); [discriminate|].
  destruct (or_else _ _) as [m|] eqn:E; simpl; [|discriminate].
  destruct (truthy m) eqn:T; [|discriminate]. intros [= <-]. exact T.
Qed.

Lemma message_no_callback (update msg : json) :
  message_of update = Some msg -> callback_of update = None.
Proof.
  unfold message_of. destruct (callback_of update); [discriminate|].
  reflexivity.
Qed.

Lemma opt_get_truthy (v : json) (k : jsstring) :
  truthy v = true -> opt_get (Some v) k = get v k.
Proof. destruct v; simpl; reflexivity. Qed.

Lemma is_authed_authorized (userId : option json) (w : bot_world) :
  is_authed env userId w = (w, inr (authorized w (auth_key userId))).
Proof.
  rewrite is_authed_run by exact KV. unfold authorized.
  destruct (assoc_get (auth_key userId) (kv w)); reflexivity.
Qed.

Lemma andThen_kv_get {A : Type} (key : jsstring)
  (f : option jsstring -> Act A) (w : bot_world) :
  andThen (kv_get env key) f w
  = f (option_map kv_value (assoc_get key (kv w))) w.
Proof. unfold andThen. rewrite kv_get_run by exact KV. reflexivity. Qed.

Lemma andThen_is_authed {A : Type} (userId : option json)
  (f : bool -> Act A) (w : bot_world) :
  andThen (is_authed env userId) f w
  = f (authorized w (auth_key userId)) w.
Proof. unfold andThen. rewrite is_authed_authorized. reflexivity. Qed.

Lemma andThen_check {A B : Type} (x : bot_error + A) (f : A -> Act B)
  (w : bot_world) :
  andThen (check x) f w
  = match x with inl e => (w, inl e) | inr a => f a w end.
Proof. unfold andThen, check. destruct x; reflexivity. Qed.

Lemma andThen_check_eq {A B : Type} (a : A) (f : A -> Act B) :
  andThen (check (inr a)) f = f a.
Proof. reflexivity. Qed.

(** The handler of a message whose text is none of /start and /auth, up to
    the test of the authorization. *)
Lemma handleUpdate_text (update : json) (text : jsstring) (w : bot_world) :
  text_of update = Some text ->
  startsWith (js "/start") text = false ->
  startsWith (js "/auth") text = false ->
  handleUpdate bot env update w
  = if authorized w (auth_key (user_of update))
    then
      (if startsWith (js "/logout") text
       then (_ <- kv_delete env (auth_key (user_of update)) ;;
             _ <- kv_delete env (wiz_key (user_of update)) ;;
             _ <- tgSend bot env (chat_of update)
                    (check_mark ++ js " Logged out.") [] ;;
             done tt)%bot w
       else if startsWith (js "/gen") text
       then (_ <- save_session env (user_of update)
                    (new_session (chat_of update) (user_of update)) ;;
             _ <- sendCountMenu bot env (chat_of update) ;;
             done tt)%bot w
       else
         let commands :=
           (_ <- tgSend bot env (chat_of update)
                   (js "Commands:" ++ nl ++ js "/auth <code>" ++ nl
                    ++ js "/gen" ++ nl ++ js "/logout") [] ;;
            done tt)%bot in
         match option_map kv_value
                 (assoc_get (wiz_key (user_of update)) (kv w)) with
         | Some (c :: raw) =>
             (wiz <- check (match JSON_parse_text (c :: raw) with
                            | Some wiz => inr wiz
                            | None => inl JsSyntaxError
                            end) ;;
              typed_step bot env (chat_of update) (user_of update) text wiz
                commands)%bot w
         | _ => commands w
         end)
    else (_ <- tgSend bot env (chat_of update) locked_notice [] ;;
          done tt)%bot w.
Proof.
  intros T S A. unfold text_of in T.
  destruct (message_of update) as [msg|] eqn:M; [|discriminate].
  rewrite (handleUpdate_message _ _ _ M).
  unfold user_of, chat_of. rewrite (message_no_callback _ _ M), M.
  unfold on_message.
  rewrite (opt_get_truthy _ _ (message_truthy _ _ M)), T.
  rewrite andThen_check, S, A, andThen_is_authed.
  destruct (authorized w _); [|reflexivity].
  change (negb true) with false. cbv iota.
  destruct (startsWith (js "/logout") text); [reflexivity|].
  destruct (startsWith (js "/gen") text); [reflexivity|].
  cbv zeta. rewrite andThen_kv_get.
  destruct (option_map kv_value _) as [[|c raw]|]; reflexivity.
Qed.

End Updates.

Section Presses.

Context {cm : CaseMapping} {host : Host} {platform : Platform}.
Variable bot : Bot.
Variable env : BotEnv.
Hypothesis KV : KV_bound env = true.

(** The handler of a press of a button, up to the branches on the datum. *)
Lemma handleUpdate_press (update c : json) (w : bot_world) :
  callback_of update = Some c ->
  handleUpdate bot env update w
  = if authorized w (auth_key (user_of update))
    then
      match option_map kv_value
              (assoc_get (wiz_key (user_of update)) (kv w)) with
      | Some (x :: raw) =>
          (wiz <- check (match JSON_parse_text (x :: raw) with
                         | Some wiz => inr wiz
                         | None => inl JsSyntaxError
                         end) ;;
           data <- check (match text_or_empty (get c (js "data")) with
                          | Some d => inr d
                          | None => inl JsTypeError
                          end) ;;
           callback_step bot env (get c (js "id")) (chat_of update)
             (user_of update) data wiz)%bot w
      | _ =>
          (_ <- tgAnswerCb bot env (get c (js "id"))
                  (js "Session expired.") ;;
           _ <- tgSend bot env (chat_of update)
                  (js "Session expired. Send /gen again.") [] ;;
           done tt)%bot w
      end
    else
      (_ <- tgAnswerCb bot env (get c (js "id")) locked_answer ;;
       _ <- tgSend bot env (chat_of update) locked_callback_notice [] ;;
       done tt)%bot w.
Proof.
  intros C. rewrite (handleUpdate_callback bot env KV _ _ _ C).
  unfold user_of, chat_of. rewrite C. unfold onCallback. cbv zeta.
  rewrite (andThen_is_authed env KV).
  destruct (authorized w _); [|reflexivity].
  change (negb true) with false. cbv iota.
  rewrite (andThen_kv_get env KV).
  destruct (option_map kv_value _) as [[|x raw]|]; reflexivity.
Qed.

(** X12: an update of a user whom the store does not hold as authorized,
    be it a press of a button or a message whose text begins with neither
    /start nor /auth, is answered by the notice that the bot is locked and by
    nothing else: the store is not written, no random number is taken and no
    document is sent. *)
Theorem locked_users_are_turned_away (update : json) (w : bot_world) :
  authorized w (auth_key (user_of update)) = false ->
  (forall text,
     text_of update = Some text ->
     startsWith (js "/start") text = false ->
     startsWith (js "/auth") text = false ->
     handleUpdate bot env update w
     = (_ <- tgSend bot env (chat_of update) locked_notice [] ;;
        done tt)%bot w)
  /\ (forall c,
        callback_of update = Some c ->
        handleUpdate bot env update w
        = (_ <- tgAnswerCb bot env (get c (js "id")) locked_answer ;;
           _ <- tgSend bot env (chat_of update) locked_callback_notice [] ;;
           done tt)%bot w)
  /\ (callback_of update <> None
      \/ (exists text,
            text_of update = Some text
            /\ startsWith (js "/start") text = false
            /\ startsWith (js "/auth") text = false) ->
      quiet w (fst (handleUpdate bot env update w))
      /\ exists reqs,
           sent (fst (handleUpdate bot env update w)) = sent w ++ reqs
           /\ length reqs <= 2
           /\ Forall (fun req => says locked_notice req
                                 \/ says locked_answer req
                                 \/ says locked_callback_notice req) reqs).
Proof.
  intros U.
  assert (M : forall text,
            text_of update = Some text ->
            startsWith (js "/start") text = false ->
            startsWith (js "/auth") text = false ->
            handleUpdate bot env update w
            = (_ <- tgSend bot env (chat_of update) locked_notice [] ;;
               done tt)%bot w).
  { intros text T S A.
    rewrite (handleUpdate_text bot env KV _ _ _ T S A), U. reflexivity. }
  assert (C : forall c,
            callback_of update = Some c ->
            handleUpdate bot env update w
            = (_ <- tgAnswerCb bot env (get c (js "id")) locked_answer ;;
               _ <- tgSend bot env (chat_of update) locked_callback_notice
                      [] ;;
               done tt)%bot w).
  { intros c Hc. rewrite (handleUpdate_press _ _ _ Hc), U. reflexivity. }
  split; [exact M|]. split; [exact C|].
  intros [Hc|(text & T & S & A)].
  - destruct (callback_of update) as [c|] eqn:E; [|congruence].
    rewrite (C c eq_refl). unfold andThen.
    destruct (tgAnswerCb bot env (get c (js "id")) locked_answer w)
      as [w1 r1] eqn:R1.
    apply tgAnswerCb_run in R1.
    destruct R1 as (Q1 & reqs1 & S1 & L1 & F1).
    destruct r1 as [e|a]; simpl.
    + split; [exact Q1|]. exists reqs1. split; [exact S1|].
      split; [lia|]. revert F1. apply Forall_impl. tauto.
    + destruct (tgSend bot env (chat_of update) locked_callback_notice []
                  w1) as [w2 r2] eqn:R2.
      apply tgSend_run in R2.
      destruct R2 as (Q2 & reqs2 & S2 & L2 & F2).
      assert (Q : quiet w w2) by (eapply quiet_trans; eassumption).
      assert (X : sent w2 = sent w ++ reqs1 ++ reqs2)
        by (rewrite S2, S1, app_assoc; reflexivity).
      assert (F : Forall (fun req => says locked_notice req
                                     \/ says locked_answer req
                                     \/ says locked_callback_notice req)
                    (reqs1 ++ reqs2)).
      { apply Forall_app. split.
        - revert F1. apply Forall_impl. tauto.
        - revert F2. apply Forall_impl. tauto. }
      destruct r2 as [e|b]; simpl;
        (split; [exact Q|]; exists (reqs1 ++ reqs2);
         split; [exact X|]; split; [rewrite length_app; lia|exact F]).
  - rewrite (M text T S A). unfold andThen.
    destruct (tgSend bot env (chat_of update) locked_notice [] w)
      as [w1 r1] eqn:R1.
    apply tgSend_run in R1. destruct R1 as (Q1 & reqs1 & S1 & L1 & F1).
    destruct r1 as [e|a]; simpl;
      (split; [exact Q1|]; exists reqs1; split; [exact S1|];
       split; [lia|]; revert F1; apply Forall_impl; tauto).
Qed.

End Presses.

(** ** The store under the commands *)

Lemma assoc_get_filter_out {V : Type} (k k' : jsstring)
  (l : list (jsstring * V)) :
  assoc_get k (filter (fun e => negb (jsstring_eqb k' (fst e))) l)
  = if jsstring_eqb k' k then None else assoc_get k l.
Proof.
  induction l as [|[k0 v0] l IH]; simpl.
  - destruct (jsstring_eqb k' k); reflexivity.
  - destruct (jsstring_eqb k' k0) eqn:E0; simpl.
    + rewrite IH. destruct (jsstring_eqb k' k) eqn:E; [reflexivity|].
      apply jsstring_eqb_eq in E0. subst k0.
      rewrite jsstring_eqb_sym, E. reflexivity.
    + rewrite IH. destruct (jsstring_eqb k' k) eqn:E.
      * apply jsstring_eqb_eq in E. subst k'. rewrite E0. reflexivity.
      * reflexivity.
Qed.

Lemma commands_apart (text : jsstring) :
  (startsWith (js "/auth") text = true ->
   startsWith (js "/start") text = false)
  /\ (startsWith (js "/logout") text = true ->
      startsWith (js "/start") text = false
      /\ startsWith (js "/auth") text = false)
  /\ (startsWith (js "/gen") text = true ->
      startsWith (js "/start") text = false
      /\ startsWith (js "/auth") text = false
      /\ startsWith (js "/logout") text = false).
Proof.
  destruct text as [|c1 [|c2 text]]; vm_compute js; cbn [startsWith].
  - repeat (split || intro); discriminate.
  - rewrite !andb_false_r. repeat (split || intro); discriminate.
  - destruct (N.eqb 47 c1); cbn [andb];
      [|repeat (split || intro); discriminate].
    destruct (N.eqb_spec 97 c2) as [<-|]; cbn [andb];
      [repeat (split || intro); discriminate|].
    destruct (N.eqb_spec 108 c2) as [<-|]; cbn [andb];
      [repeat (split || intro); discriminate|].
    destruct (N.eqb_spec 103 c2) as [<-|]; cbn [andb];
      [repeat (split || intro); discriminate|].
    repeat (split || intro); discriminate.
Qed.

Section Commands.

Context {cm : CaseMapping} {host : Host} {platform : Platform}.
Variable bot : Bot.
Variable env : BotEnv.
Hypothesis KV : KV_bound env = true.

Lemma keys_apart (a b : option json) : auth_key a <> wiz_key b.
Proof. unfold auth_key, wiz_key. vm_compute js. discriminate. Qed.

Lemma andThen_kv_put {A : Type} (key value : jsstring) (ttl : option nat)
  (f : unit -> Act A) (w : bot_world) :
  andThen (kv_put env key value ttl) f w
  = f tt {| kv := assoc_set key {| kv_value := value; kv_ttl := ttl |}
                    (kv w);
            sent := sent w; randoms := randoms w |}.
Proof. unfold andThen, kv_put. rewrite KV. reflexivity. Qed.

Lemma andThen_kv_delete {A : Type} (key : jsstring) (f : unit -> Act A)
  (w : bot_world) :
  andThen (kv_delete env key) f w
  = f tt {| kv := filter (fun e => negb (jsstring_eqb key (fst e))) (kv w);
            sent := sent w; randoms := randoms w |}.
Proof. unfold andThen, kv_delete. rewrite KV. reflexivity. Qed.

(** A message and nothing after it. *)
Lemma notice_run (chat_id : option json) (text : jsstring)
  (extra : list (jsstring * json)) (w : bot_world) :
  let w' := fst ((_ <- tgSend bot env chat_id text extra ;; done tt)%bot w) in
  quiet w w'
  /\ exists reqs, sent w' = sent w ++ reqs /\ length reqs <= 1
                  /\ Forall (says text) reqs.
Proof.
  unfold andThen.
  destruct (tgSend bot env chat_id text extra w) as [w1 r1] eqn:R1.
  apply tgSend_run in R1. destruct r1; exact R1.
Qed.

(** The handler of a message that begins with /auth. *)
Lemma handleUpdate_auth (update : json) (text : jsstring) (w : bot_world) :
  text_of update = Some text ->
  startsWith (js "/auth") text = true ->
  handleUpdate bot env update w
  = if negb (is_empty (nth 1 (split_ws text) []))
       && match admin_code bot env with
          | Some a => jsstring_eqb (nth 1 (split_ws text) []) a
          | None => false
          end
    then (_ <- tgSend bot env (chat_of update)
                 (check_mark ++ js " Authorized." ++ nl
                  ++ js "Use /gen to generate.") [] ;;
          done tt)%bot
           {| kv := assoc_set (auth_key (user_of update))
                      {| kv_value := js "1"; kv_ttl := None |} (kv w);
              sent := sent w; randoms := randoms w |}
    else (_ <- tgSend bot env (chat_of update)
                 (cross_mark ++ js " Wrong code.") [] ;;
          done tt)%bot w.
Proof.
  intros T A. pose proof (proj1 (commands_apart text) A) as S.
  unfold text_of in T.
  destruct (message_of update) as [msg|] eqn:M; [|discriminate].
  rewrite (handleUpdate_message bot env KV _ _ _ M).
  unfold user_of, chat_of. rewrite (message_no_callback _ _ M), M.
  unfold on_message.
  rewrite (opt_get_truthy _ _ (message_truthy _ _ M)), T.
  rewrite andThen_check, S, A. cbv zeta.
  destruct (negb _ && _); [|reflexivity].
  rewrite andThen_kv_put. reflexivity.
Qed.

(** X13: a message that begins with /auth authorizes its sender when the
    word after the command is not empty and is the admin code of the
    environment (trimmed, in the service-worker copy), and only then: the
    store then holds the text 1 under the key of the sender, without an
    expiry.  In every other case, and whenever no admin code is bound, the
    store is left as it was.  One message at most goes out, and it says
    which of the two has happened. *)
Theorem auth_takes_the_admin_code (update : json) (text : jsstring)
  (w : bot_world) :
  text_of update = Some text ->
  startsWith (js "/auth") text = true ->
  let code := nth 1 (split_ws text) [] in
  let w' := fst (handleUpdate bot env update w) in
  let granted := check_mark ++ js " Authorized." ++ nl
                 ++ js "Use /gen to generate." in
  let denied := cross_mark ++ js " Wrong code." in
  (code <> [] -> admin_code bot env = Some code ->
   kv w' = assoc_set (auth_key (user_of update))
             {| kv_value := js "1"; kv_ttl := None |} (kv w)
   /\ authorized w' (auth_key (user_of update)) = true
   /\ exists reqs, sent w' = sent w ++ reqs /\ length reqs <= 1
                   /\ Forall (says granted) reqs)
  /\ (code = [] \/ admin_code bot env <> Some code ->
      kv w' = kv w
      /\ exists reqs, sent w' = sent w ++ reqs /\ length reqs <= 1
                      /\ Forall (says denied) reqs)
  /\ (ADMIN_CODE env = None -> kv w' = kv w)
  /\ randoms w' = randoms w.
Proof.
  intros T A code w' granted denied.
  assert (Yes : negb (is_empty code)
                && match admin_code bot env with
                   | Some a => jsstring_eqb code a
                   | None => false
                   end = true ->
                kv w' = assoc_set (auth_key (user_of update))
                          {| kv_value := js "1"; kv_ttl := None |} (kv w)
                /\ randoms w' = randoms w
                /\ exists reqs, sent w' = sent w ++ reqs /\ length reqs <= 1
                                /\ Forall (says granted) reqs).
  { intros E. subst w'. rewrite (handleUpdate_auth _ _ _ T A).
    fold code. rewrite E.
    match goal with
    | |- context [andThen ?m ?f ?w0] =>
        destruct (notice_run (chat_of update) granted [] w0)
          as ((Q1 & Q2) & N)
    end.
    split; [exact Q1|]. split; [exact Q2|]. exact N. }
  assert (No : negb (is_empty code)
               && match admin_code bot env with
                  | Some a => jsstring_eqb code a
                  | None => false
                  end = false ->
               kv w' = kv w
               /\ randoms w' = randoms w
               /\ exists reqs, sent w' = sent w ++ reqs /\ length reqs <= 1
                               /\ Forall (says denied) reqs).
  { intros E. subst w'. rewrite (handleUpdate_auth _ _ _ T A).
    fold code. rewrite E.
    destruct (notice_run (chat_of update) denied [] w) as ((Q1 & Q2) & N).
    split; [exact Q1|]. split; [exact Q2|]. exact N. }
  assert (Off : code = [] \/ admin_code bot env <> Some code ->
                negb (is_empty code)
                && match admin_code bot env with
                   | Some a => jsstring_eqb code a
                   | None => false
                   end = false).
  { intros [E|N].
    - rewrite E. reflexivity.
    - destruct (admin_code bot env) as [a|]; [|apply andb_false_r].
      assert (F : jsstring_eqb code a = false)
        by (apply jsstring_eqb_neq; congruence).
      rewrite F. apply andb_false_r. }
  split; [|split; [|split]].
  - intros Ne Ad.
    assert (E : negb (is_empty code)
                && match admin_code bot env with
                   | Some a => jsstring_eqb code a
                   | None => false
                   end = true).
    { rewrite Ad, jsstring_eqb_refl.
      destruct code; [congruence|reflexivity]. }
    destruct (Yes E) as (K & _ & N). split; [exact K|]. split; [|exact N].
    unfold authorized. rewrite K, assoc_get_set_same. reflexivity.
  - intros H. destruct (No (Off H)) as (K & _ & N). split; assumption.
  - intros U.
    assert (H : code = [] \/ admin_code bot env <> Some code).
    { unfold admin_code. rewrite U.
      destruct (trims_admin_code bot); [|right; discriminate].
      destruct code as [|c code']; [left; reflexivity|right].
      change (trim (or_empty None)) with (@nil code_unit). discriminate. }
    exact (proj1 (No (Off H))).
  - destruct (negb (is_empty code)
              && match admin_code bot env with
                 | Some a => jsstring_eqb code a
                 | None => false
                 end).
    + exact (proj1 (proj2 (Yes eq_refl))).
    + exact (proj1 (proj2 (No eq_refl))).
Qed.

(** X14: the three commands compose on the store as a login does.  After
    /auth with the admin code the sender is authorized; /gen then stores a
    new session for the sender, which expires after 1800 seconds, and leaves
    the authorization; /logout then removes both, and the sender is locked
    again. *)
Theorem authorization_lasts_until_logout (auth gen logout : json)
  (t1 t2 t3 : jsstring) (w0 : bot_world) :
  text_of auth = Some t1 -> startsWith (js "/auth") t1 = true ->
  nth 1 (split_ws t1) [] <> [] ->
  admin_code bot env = Some (nth 1 (split_ws t1) []) ->
  text_of gen = Some t2 -> startsWith (js "/gen") t2 = true ->
  text_of logout = Some t3 -> startsWith (js "/logout") t3 = true ->
  user_of gen = user_of auth -> user_of logout = user_of auth ->
  let user := user_of auth in
  let w1 := fst (handleUpdate bot env auth w0) in
  let w2 := fst (handleUpdate bot env gen w1) in
  let w3 := fst (handleUpdate bot env logout w2) in
  authorized w1 (auth_key user) = true
  /\ assoc_get (wiz_key user) (kv w2)
     = Some {| kv_value := JSON_stringify_text
                             (new_session (chat_of gen) user);
               kv_ttl := Some 1800 |}
  /\ authorized w2 (auth_key user) = true
  /\ assoc_get (auth_key user) (kv w3) = None
  /\ assoc_get (wiz_key user) (kv w3) = None
  /\ authorized w3 (auth_key user) = false.
Proof.
  intros T1 A1 Ne Ad T2 G2 T3 L3 U2 U3 user w1 w2 w3.
  destruct (commands_apart t2) as (_ & _ & G).
  destruct (G G2) as (S2 & A2 & L2).
  destruct (commands_apart t3) as (_ & L & _). destruct (L L3) as (S3 & A3).
  assert (K1 : authorized w1 (auth_key user) = true).
  { unfold authorized, w1. rewrite (handleUpdate_auth _ _ _ T1 A1), Ad.
    rewrite jsstring_eqb_refl.
    destruct (nth 1 (split_ws t1) []) as [|c l] eqn:E; [congruence|].
    change (negb (is_empty (c :: l)) && true) with true. cbv iota.
    match goal with
    | |- context [andThen ?m ?f ?w] =>
        destruct (notice_run (chat_of auth)
                    (check_mark ++ js " Authorized." ++ nl
                     ++ js "Use /gen to generate.") [] w) as ((Q & _) & _)
    end.
    rewrite Q. simpl kv. rewrite assoc_get_set_same. reflexivity. }
  assert (K2 : kv w2 = assoc_set (wiz_key user)
                         {| kv_value := JSON_stringify_text
                                          (new_session (chat_of gen) user);
                            kv_ttl := Some 1800 |} (kv w1)).
  { unfold w2. rewrite (handleUpdate_text bot env KV _ _ _ T2 S2 A2).
    rewrite U2. fold user. rewrite K1, L2, G2.
    unfold save_session. rewrite andThen_kv_put.
    match goal with
    | |- context [andThen ?m ?f ?w] =>
        destruct (notice_run (chat_of gen) (js "Choose how many files:")
                    count_keyboard w) as ((Q & _) & _)
    end.
    exact Q. }
  assert (A2' : authorized w2 (auth_key user) = true).
  { unfold authorized. rewrite K2.
    rewrite assoc_get_set_other
      by (intros E; exact (keys_apart _ _ (eq_sym E))).
    exact K1. }
  assert (K3 : kv w3
               = filter (fun e => negb (jsstring_eqb (wiz_key user) (fst e)))
                   (filter (fun e => negb (jsstring_eqb (auth_key user)
                                             (fst e)))
                      (kv w2))).
  { unfold w3. rewrite (handleUpdate_text bot env KV _ _ _ T3 S3 A3).
    rewrite U3. fold user. rewrite A2', L3.
    rewrite !andThen_kv_delete.
    match goal with
    | |- context [andThen ?m ?f ?w] =>
        destruct (notice_run (chat_of logout)
                    (check_mark ++ js " Logged out.") [] w) as ((Q & _) & _)
    end.
    exact Q. }
  assert (N3 : assoc_get (auth_key user) (kv w3) = None).
  { rewrite K3, !assoc_get_filter_out, jsstring_eqb_refl.
    destruct (jsstring_eqb _ _); reflexivity. }
  split; [exact K1|]. split; [rewrite K2; apply assoc_get_set_same|].
  split; [exact A2'|]. split; [exact N3|]. split.
  - rewrite K3, assoc_get_filter_out, jsstring_eqb_refl. reflexivity.
  - unfold authorized. rewrite N3. reflexivity.
Qed.

End Commands.

(** ** The wizard *)

Lemma plain_text_text (update : json) (text : jsstring) :
  plain_text update = Some text ->
  text_of update = Some text
  /\ startsWith (js "/start") text = false
  /\ startsWith (js "/auth") text = false
  /\ startsWith (js "/logout") text = false
  /\ startsWith (js "/gen") text = false.
Proof.
  unfold plain_text. destruct (text_of update) as [t|]; [|discriminate].
  destruct (startsWith (js "/start") t) eqn:S; [discriminate|].
  destruct (startsWith (js "/auth") t) eqn:A; [discriminate|].
  destruct (startsWith (js "/logout") t) eqn:L; [discriminate|].
  destruct (startsWith (js "/gen") t) eqn:G; [discriminate|].
  simpl. intros [= <-]. auto.
Qed.

Lemma is_step_step (s t : string) :
  is_step (Some (JStr (js s))) t = String.eqb s t.
Proof.
  unfold is_step.
  destruct (String.eqb_spec s t) as [->|N].
  - apply jsstring_eqb_refl.
  - apply jsstring_eqb_neq. intros E. apply N, js_inj, E.
Qed.

Section Wizard.

Context {cm : CaseMapping} {host : Host} {platform : Platform}.
Variable bot : Bot.
Variable env : BotEnv.
Hypothesis KV : KV_bound env = true.

Let commands (chatId : option json) : Act unit :=
  (_ <- tgSend bot env chatId
          (js "Commands:" ++ nl ++ js "/auth <code>" ++ nl
           ++ js "/gen" ++ nl ++ js "/logout") [] ;;
   done tt)%bot.

(** The handler of a text that is no command, from an authorized user who
    has a session. *)
Lemma handleUpdate_typed (update : json) (text : jsstring) (wiz : json)
  (w : bot_world) :
  authorized w (auth_key (user_of update)) = true ->
  plain_text update = Some text ->
  session w (user_of update) = Some wiz ->
  handleUpdate bot env update w
  = typed_step bot env (chat_of update) (user_of update) text wiz
      (commands (chat_of update)) w.
Proof.
  intros Au P Se. destruct (plain_text_text _ _ P) as (T & S & A & L & G).
  rewrite (handleUpdate_text bot env KV _ _ _ T S A), Au, L, G. cbv zeta.
  unfold session in Se.
  destruct (option_map kv_value _) as [[|c raw]|]; try discriminate.
  rewrite Se, andThen_check. reflexivity.
Qed.

(** What [typed_step] does with a session whose options are an object. *)
Lemma step_of_step (wiz : json) (x : json) :
  get wiz (js "step") = Some x -> step_of wiz = inr (Some x).
Proof. destruct wiz; simpl; congruence. Qed.

Lemma set_option_advances (wiz o : json) (k : string) (v : json) :
  get wiz (js "options") = Some o -> is_object o = true ->
  set_option wiz k v = inr (put wiz (js "options") (put o (js k) v)).
Proof.
  intros G O. unfold set_option. rewrite G, O.
  destruct wiz; try reflexivity. discriminate.
Qed.

Lemma set_step_advances (wiz o : json) (s : string) :
  get wiz (js "options") = Some o ->
  forall x, set_step (put wiz (js "options") x) s
            = inr (put (put wiz (js "options") x) (js "step") (JStr (js s))).
Proof.
  intros G x. unfold set_step.
  rewrite is_object_put, (get_is_object _ _ _ G). reflexivity.
Qed.

(** Setting an option, setting the step and saving the session. *)
Lemma advance_run {A : Type} (userId : option json) (wiz o : json)
  (k : string) (v : json) (s : string) (f : json -> Act A) (w : bot_world) :
  get wiz (js "options") = Some o -> is_object o = true ->
  (wiz1 <- check (set_option wiz k v) ;;
   wiz2 <- check (set_step wiz1 s) ;;
   _ <- save_session env userId wiz2 ;;
   f wiz2)%bot w
  = f (advanced wiz k v s)
      {| kv := assoc_set (wiz_key userId) (stored (advanced wiz k v s))
                 (kv w);
         sent := sent w; randoms := randoms w |}.
Proof.
  intros G O. rewrite andThen_check, (set_option_advances _ _ _ _ G O).
  rewrite andThen_check, (set_step_advances _ _ _ G).
  unfold save_session. rewrite (andThen_kv_put env KV).
  unfold advanced, stored. rewrite G. reflexivity.
Qed.

(** X15: when the session of an authorized user waits for a custom count,
    a typed text is taken for the count if [parseInt] reads from it an
    integer from 1 to 200: the session is stored with that count and the
    step of the first name, to expire after 1800 seconds.  Any other text
    leaves the store as it was and is answered by the request for a number
    between 1 and 200. *)
Theorem custom_count_takes_1_to_200 (update : json) (text : jsstring)
  (wiz o : json) (w : bot_world) :
  authorized w (auth_key (user_of update)) = true ->
  plain_text update = Some text ->
  session w (user_of update) = Some wiz ->
  get wiz (js "step") = Some (JStr (js "custom_count")) ->
  get wiz (js "options") = Some o -> is_object o = true ->
  let w' := fst (handleUpdate bot env update w) in
  (forall n, parseInt (trim text) = Some n -> (1 <= n <= 200)%Z ->
     kv w' = assoc_set (wiz_key (user_of update))
               (stored (advanced wiz "count" (JNum (inject_Z n))
                          "first_mode"))
               (kv w))
  /\ (parseInt (trim text) = None
      \/ (exists n, parseInt (trim text) = Some n /\ (n < 1 \/ 200 < n)%Z) ->
      kv w' = kv w
      /\ exists reqs,
           sent w' = sent w ++ reqs /\ length reqs <= 1
           /\ Forall (says (js "Enter a number between 1 and 200.")) reqs).
Proof.
  intros Au P Se St G O w'. subst w'.
  rewrite (handleUpdate_typed _ _ _ _ Au P Se).
  unfold typed_step.
  rewrite andThen_check, (step_of_step _ _ St). unfold is_step.
  rewrite jsstring_eqb_refl.
  split.
  - intros n Pn B. rewrite Pn.
    assert (E : ((n <? 1) || (200 <? n))%Z = false).
    { apply orb_false_iff. split; apply Z.ltb_ge; lia. }
    rewrite E. rewrite (advance_run _ _ _ _ _ _ _ _ G O).
    match goal with
    | |- context [andThen ?m ?f ?w0] =>
        destruct (notice_run bot env (chat_of update)
                    (js "First name mode:") first_mode_keyboard w0)
          as ((Q & _) & _)
    end.
    exact Q.
  - intros H.
    assert (E : match parseInt (trim text) with
                | Some n =>
                    if ((n <? 1) || (200 <? n))%Z
                    then (_ <- tgSend bot env (chat_of update)
                                 (js "Enter a number between 1 and 200.")
                                 [] ;;
                          done tt)%bot
                    else (wiz1 <- check (set_option wiz "count"
                                           (JNum (inject_Z n))) ;;
                          wiz2 <- check (set_step wiz1 "first_mode") ;;
                          _ <- save_session env (user_of update) wiz2 ;;
                          _ <- sendFirstModeMenu bot env (chat_of update) ;;
                          done tt)%bot
                | None =>
                    (_ <- tgSend bot env (chat_of update)
                            (js "Enter a number between 1 and 200.") [] ;;
                     done tt)%bot
                end
                = (_ <- tgSend bot env (chat_of update)
                          (js "Enter a number between 1 and 200.") [] ;;
                   done tt)%bot).
    { destruct H as [->|(n & -> & B)]; [reflexivity|].
      assert (E : ((n <? 1) || (200 <? n))%Z = true).
      { apply orb_true_iff. destruct B; [left|right]; apply Z.ltb_lt; lia. }
      rewrite E. reflexivity. }
    rewrite E.
    destruct (notice_run bot env (chat_of update)
                (js "Enter a number between 1 and 200.") [] w)
      as ((Q & _) & N).
    split; [exact Q|exact N].
Qed.

End Wizard.

(** ** What a handler keeps *)

Section Handler.

Context {cm : CaseMapping} {host : Host} {platform : Platform}.
Variable bot : Bot.
Variable env : BotEnv.
Variable R : bot_world -> bot_world -> Prop.
Hypothesis R_refl : forall w, R w w.
Hypothesis R_trans : forall a b c, R a b -> R b c -> R a c.
Hypothesis R_calls :
  forall w n method payload,
    R w {| kv := kv w;
           sent := sent w ++ fst (tgCall_at bot env n method payload);
           randoms := randoms w |}.

(** The user whose update is handled, and what the handler may do to the
    store. *)
Variable userId : option json.
Hypothesis R_authorize :
  forall w,
    R w {| kv := assoc_set (auth_key userId)
                   {| kv_value := js "1"; kv_ttl := None |} (kv w);
           sent := sent w; randoms := randoms w |}.
Hypothesis R_save :
  forall w text,
    R w {| kv := assoc_set (wiz_key userId)
                   {| kv_value := text; kv_ttl := Some 1800 |} (kv w);
           sent := sent w; randoms := randoms w |}.
Hypothesis R_forget :
  forall w key,
    key = auth_key userId \/ key = wiz_key userId ->
    R w {| kv := filter (fun e => negb (jsstring_eqb key (fst e))) (kv w);
           sent := sent w; randoms := randoms w |}.

Lemma keeps_authorize :
  keeps R (kv_put env (auth_key userId) (js "1") None).
Proof.
  intros w w' r. unfold kv_put.
  destruct (KV_bound env); intros [= <- _]; [apply R_authorize|apply R_refl].
Qed.

Lemma keeps_save_session (wiz : json) : keeps R (save_session env userId wiz).
Proof.
  intros w w' r. unfold save_session, kv_put.
  destruct (KV_bound env); intros [= <- _]; [apply R_save|apply R_refl].
Qed.

Lemma keeps_kv_delete (key : jsstring) :
  key = auth_key userId \/ key = wiz_key userId ->
  keeps R (kv_delete env key).
Proof.
  intros K w w' r. unfold kv_delete.
  destruct (KV_bound env); intros [= <- _];
    [apply R_forget, K|apply R_refl].
Qed.

Local Ltac keeping :=
  repeat first
    [ apply (keeps_done R R_refl)
    | apply (keeps_fail R R_refl)
    | apply (keeps_check R R_refl)
    | apply (keeps_tgSend bot env R R_calls)
    | apply (keeps_tgAnswerCb bot env R R_calls)
    | apply (keeps_tgEdit bot env R R_refl R_calls)
    | apply (keeps_sendConfirm bot env R R_refl R_calls)
    | apply (keeps_kv_get env R R_refl)
    | apply (keeps_is_authed env R R_refl R_trans)
    | apply keeps_authorize
    | apply keeps_save_session
    | apply keeps_kv_delete; (left + right); reflexivity
    | assumption
    | match goal with
      | |- keeps _ (andThen _ _) =>
          apply (keeps_andThen R R_trans); [|intros ?]
      | |- keeps _ (if ?b then _ else _) => destruct b
      | |- keeps _ (match ?x with Some _ => _ | None => _ end) => destruct x
      | |- keeps _ (let _ := _ in _) => cbv zeta
      end ].

Lemma keeps_typed_step (chatId : option json) (text : jsstring) (wiz : json)
  (otherwise : Act unit) :
  keeps R otherwise ->
  keeps R (typed_step bot env chatId userId text wiz otherwise).
Proof.
  intros O. unfold typed_step, sendFirstModeMenu, sendLastModeMenu. keeping.
Qed.

Lemma keeps_on_message (msg : option json) :
  opt_get (opt_get msg (js "from")) (js "id") = userId ->
  keeps R (on_message bot env msg).
Proof.
  intros U. unfold on_message. rewrite U. unfold sendCountMenu. cbv zeta.
  keeping. apply keeps_typed_step. keeping.
Qed.

Lemma keeps_callback_step (id chatId : option json) (data : jsstring)
  (wiz : json) :
  (data = js "do_generate" ->
   keeps R (do_generate bot env id chatId userId wiz)) ->
  keeps R (callback_step bot env id chatId userId data wiz).
Proof.
  intros G. unfold callback_step, sendFirstModeMenu, sendLastModeMenu.
  cbv zeta.
  destruct (startsWith (js "count:") data); [keeping|].
  destruct (startsWith (js "first:") data); [keeping|].
  destruct (startsWith (js "last:") data); [keeping|].
  destruct (jsstring_eqb data (js "do_generate")) eqn:E.
  - apply G. apply jsstring_eqb_eq. exact E.
  - keeping.
Qed.

Lemma keeps_onCallback (c : json) :
  opt_get (get c (js "from")) (js "id") = userId ->
  (forall wiz,
     text_or_empty (get c (js "data")) = Some (js "do_generate") ->
     keeps R (do_generate bot env (get c (js "id"))
                (opt_get (opt_get (get c (js "message")) (js "chat"))
                   (js "id"))
                userId wiz)) ->
  keeps R (onCallback bot env c).
Proof.
  intros U G. unfold onCallback. rewrite U. cbv zeta.
  apply (keeps_andThen R R_trans); [keeping|]. intros authed.
  destruct (negb authed); [keeping|].
  apply (keeps_andThen R R_trans); [keeping|]. intros wizRaw.
  destruct (is_empty (or_empty wizRaw)); [keeping|].
  apply (keeps_andThen R R_trans); [keeping|]. intros wiz.
  destruct (text_or_empty (get c (js "data"))) as [data|] eqn:D.
  - rewrite andThen_check_eq. apply keeps_callback_step.
    intros ->. apply G. reflexivity.
  - keeping.
Qed.

Lemma keeps_handleUpdate (update : json) :
  user_of update = userId ->
  (forall c wiz,
     callback_of update = Some c ->
     text_or_empty (get c (js "data")) = Some (js "do_generate") ->
     keeps R (do_generate bot env (get c (js "id")) (chat_of update) userId
                wiz)) ->
  keeps R (handleUpdate bot env update).
Proof.
  intros U G. unfold handleUpdate. cbv zeta.
  destruct (guards_KV bot && negb (KV_bound env)); [keeping|].
  unfold user_of, chat_of, message_of, callback_of in *.
  destruct (get update (js "callback_query")) as [c|].
  - destruct (truthy c).
    + apply keeps_onCallback; [exact U|]. intros wiz D.
      apply (G c wiz eq_refl D).
    + destruct (truthy_opt (or_else _ _)); [|keeping].
      apply keeps_on_message. exact U.
  - destruct (truthy_opt (or_else _ _)); [|keeping].
    apply keeps_on_message. exact U.
Qed.

(** *** The generation *)

(** The relation holds across a run of the pipeline, which takes random
    numbers and edits the status message, and across the upload. *)
Hypothesis R_pipeline :
  forall w chatId statusMsgId n ts k,
    R w {| kv := kv w;
           sent := sent w ++ replay bot env chatId statusMsgId n ts;
           randoms := k |}.
Hypothesis R_document :
  sendDocument_names_method bot = false ->
  forall w n chatId b filename,
    R w {| kv := kv w;
           sent := sent w
                   ++ fst (tgSendDocument_at bot env n chatId b filename);
           randoms := randoms w |}.

Lemma keeps_run_pipeline (chatId statusMsgId : option json)
  (options : Options) :
  keeps R (run_pipeline bot env chatId statusMsgId options).
Proof.
  intros w w' r. unfold run_pipeline. cbv zeta.
  destruct (generateOutputsZip _ _ _ _) as [g [e|zip]].
  - destruct e; intros [= <- _]; apply R_pipeline.
  - intros [= <- _]. apply R_pipeline.
Qed.

Lemma keeps_tgSendDocument (chatId : option json) (b : bytes)
  (filename : jsstring) :
  keeps R (tgSendDocument bot env chatId b filename).
Proof.
  unfold tgSendDocument.
  destruct (sendDocument_names_method bot) eqn:E;
    [apply (keeps_fail R R_refl)|].
  apply (keeps_requesting R). intros w n. apply (R_document eq_refl).
Qed.

Lemma keeps_do_generate (id chatId : option json) (wiz : json) :
  keeps R (do_generate bot env id chatId userId wiz).
Proof.
  unfold do_generate.
  apply (keeps_andThen R R_trans); [keeping|]. intros _.
  apply (keeps_andThen R R_trans); [keeping|]. intros status. cbv zeta.
  apply (keeps_try_catch R R_trans); [|intros e; keeping].
  apply (keeps_andThen R R_trans); [keeping|]. intros o.
  apply (keeps_andThen R R_trans); [keeping|]. intros options.
  apply (keeps_andThen R R_trans); [apply keeps_run_pipeline|]. intros zip.
  apply (keeps_andThen R R_trans); [keeping|]. intros _.
  apply (keeps_andThen R R_trans); [apply keeps_tgSendDocument|]. intros _.
  keeping.
Qed.

End Handler.

(** ** The pipeline under the callback of the bot *)

Lemma bind_ext {A B : Type} (m1 m2 : M A) (f1 f2 : A -> M B) :
  (forall w, m1 w = m2 w) -> (forall a w, f1 a w = f2 a w) ->
  forall w, bind m1 f1 w = bind m2 f2 w.
Proof.
  intros Hm Hf w. unfold bind. rewrite Hm.
  destruct (m2 w) as [w' [e|a]]; [reflexivity|apply Hf].
Qed.

Section SinkExt.

Context {cm : CaseMapping} (host : Host).
Variables f1 f2 : nat -> jsstring -> bool.
Hypothesis same : forall n t, f1 n t = f2 n t.
Variable v : Variant.

Lemma progressCb_sink_ext (t : jsstring) (w : world) :
  @progressCb (with_sink host f1) t w = @progressCb (with_sink host f2) t w.
Proof. unfold progressCb. simpl. rewrite same. reflexivity. Qed.

Lemma generateUnit_sink_ext (files : archive) (baseProj : json)
  (options : Options) (i : nat) (st : archive * list jsstring) (w : world) :
  @generateUnit cm (with_sink host f1) v files baseProj options i st w
  = @generateUnit cm (with_sink host f2) v files baseProj options i st w.
Proof.
  unfold generateUnit. destruct st as [out used].
  apply bind_ext; [reflexivity|]. intros r w1.
  apply bind_ext; [reflexivity|]. intros proj w2.
  apply bind_ext; [reflexivity|]. intros fileName w3.
  apply bind_ext; [|reflexivity]. intros w4.
  destruct (progress_due i (count options));
    [apply progressCb_sink_ext|reflexivity].
Qed.

Lemma generateUnits_sink_ext (files : archive) (baseProj : json)
  (options : Options) (indices : list nat) :
  forall st w,
    @generateUnits cm (with_sink host f1) v files baseProj options indices
      st w
    = @generateUnits cm (with_sink host f2) v files baseProj options indices
        st w.
Proof.
  induction indices as [|i rest IH]; intros st w; [reflexivity|].
  cbn [generateUnits]. apply bind_ext; [apply generateUnit_sink_ext|].
  intros st' w'. apply IH.
Qed.

Lemma generateOutputsZip_sink_ext (env : Env) (options : Options)
  (w : world) :
  @generateOutputsZip cm (with_sink host f1) v env options w
  = @generateOutputsZip cm (with_sink host f2) v env options w.
Proof.
  unfold generateOutputsZip.
  apply bind_ext; [apply progressCb_sink_ext|]. intros _ w1.
  apply bind_ext; [reflexivity|]. intros templateBytes w2.
  apply bind_ext; [reflexivity|]. intros files w3.
  destruct (assoc_get (js "data.plab") files) as [plab|]; [|reflexivity].
  apply bind_ext; [reflexivity|]. intros baseProj w4.
  apply bind_ext; [reflexivity|]. intros objectsBundle w5.
  apply bind_ext; [reflexivity|]. intros _ w6.
  apply bind_ext; [apply generateUnits_sink_ext|]. intros [out used] w7.
  apply bind_ext; [apply progressCb_sink_ext|]. reflexivity.
Qed.

End SinkExt.

(** ** The generation *)

Lemma edit_payload_text (chat_id message_id : option json)
  (text : jsstring) :
  get (edit_payload chat_id message_id text) (js "text") = Some (JStr text).
Proof. destruct chat_id, message_id; reflexivity. Qed.

Section Generation.

Context {cm : CaseMapping} {host : Host} {platform : Platform}.
Variable bot : Bot.
Variable env : BotEnv.
Hypothesis KV : KV_bound env = true.

(** Telegram accepts every request, and the token is bound where the code
    asks for it. *)
Hypothesis willing : forall n req, exists data, telegram n req = Accepted data.
Hypothesis token_ok :
  checks_token bot = true -> is_set (TELEGRAM_BOT_TOKEN env) = true.

Lemma tgCall_at_willing (n : nat) (method : jsstring) (payload : json) :
  is_empty (strip_slashes (trim method)) = false ->
  exists url data,
    tgCall_at bot env n method payload = ([tg_json url payload], inr data)
    /\ telegram n (tg_json url payload) = Accepted data.
Proof.
  intros Me. unfold tgCall_at.
  destruct (checks_token bot) eqn:C.
  - specialize (token_ok eq_refl). unfold is_set in token_ok.
    apply negb_true_iff in token_ok. rewrite token_ok, Me. unfold post_at.
    match goal with
    | |- context [telegram n ?req] =>
        destruct (willing n req) as [data E]; rewrite E
    end.
    do 2 eexists. split; [reflexivity|exact E].
  - unfold post_at.
    match goal with
    | |- context [telegram n ?req] =>
        destruct (willing n req) as [data E]; rewrite E
    end.
    do 2 eexists. split; [reflexivity|exact E].
Qed.

Lemma tgCall_willing (method : jsstring) (payload : json) (w : bot_world) :
  is_empty (strip_slashes (trim method)) = false ->
  exists url data,
    tgCall bot env method payload w
    = ({| kv := kv w; sent := sent w ++ [tg_json url payload];
          randoms := randoms w |}, inr data)
    /\ telegram (length (sent w)) (tg_json url payload) = Accepted data.
Proof.
  intros Me. unfold tgCall, requesting.
  destruct (tgCall_at_willing (length (sent w)) method payload Me)
    as (url & data & E & T).
  rewrite E. exists url, data. split; [reflexivity|exact T].
Qed.

Lemma tgEdit_at_willing (n : nat) (chat_id message_id : option json)
  (text : jsstring) :
  exists reqs,
    tgEdit_at bot env n chat_id message_id text = (reqs, inr tt)
    /\ Forall (fun req => carries_document req = false) reqs
    /\ (truthy_opt message_id = true ->
        exists req, reqs = [req] /\ says text req).
Proof.
  unfold tgEdit_at.
  destruct (truthy_opt message_id) eqn:T.
  - rewrite andb_false_r.
    destruct (tgCall_at_willing n (js "editMessageText")
                (edit_payload chat_id message_id text) eq_refl)
      as (url & data & E & _).
    rewrite E. eexists. split; [reflexivity|]. split.
    + repeat constructor.
    + intros _. eexists. split; [reflexivity|].
      do 2 eexists. split; [reflexivity|apply edit_payload_text].
  - destruct (guards_tgEdit bot); simpl.
    + eexists. split; [reflexivity|]. split; [constructor|discriminate].
    + destruct (tgCall_at_willing n (js "editMessageText")
                  (edit_payload chat_id message_id text) eq_refl)
        as (url & data & E & _).
      rewrite E. eexists. split; [reflexivity|]. split.
      * repeat constructor.
      * discriminate.
Qed.

Lemma tgEdit_willing (chat_id message_id : option json) (text : jsstring)
  (w : bot_world) :
  exists reqs,
    tgEdit bot env chat_id message_id text w
    = ({| kv := kv w; sent := sent w ++ reqs; randoms := randoms w |},
       inr tt)
    /\ Forall (fun req => carries_document req = false) reqs
    /\ (truthy_opt message_id = true ->
        exists req, reqs = [req] /\ says text req).
Proof.
  unfold tgEdit, requesting.
  destruct (tgEdit_at_willing (length (sent w)) chat_id message_id text)
    as (reqs & E & J & S).
  rewrite E. exists reqs. split; [reflexivity|]. split; assumption.
Qed.

Lemma tgSendDocument_willing (chatId : option json) (b : bytes)
  (filename : jsstring) (w : bot_world) :
  sendDocument_names_method bot = false ->
  exists url data,
    tgSendDocument bot env chatId b filename w
    = ({| kv := kv w;
          sent := sent w ++ [tg_form url (template chatId) b filename];
          randoms := randoms w |}, inr data).
Proof.
  intros N. unfold tgSendDocument, requesting, tgSendDocument_at.
  rewrite N.
  destruct (checks_token bot) eqn:C.
  - specialize (token_ok eq_refl). unfold is_set in token_ok.
    apply negb_true_iff in token_ok. rewrite token_ok. unfold post_at.
    match goal with
    | |- context [telegram ?n ?req] =>
        destruct (willing n req) as [data E]; rewrite E
    end.
    do 2 eexists. reflexivity.
  - unfold post_at.
    match goal with
    | |- context [telegram ?n ?req] =>
        destruct (willing n req) as [data E]; rewrite E
    end.
    do 2 eexists. reflexivity.
Qed.

Lemma progress_never_fails (chatId statusMsgId : option json) (n : nat)
  (t : jsstring) :
  snd (progress_at bot env chatId statusMsgId n t) = inr tt.
Proof.
  unfold progress_at. destruct (truthy_opt statusMsgId); [|reflexivity].
  destruct (tgEdit_at_willing n chatId statusMsgId t) as (reqs & E & _).
  rewrite E. reflexivity.
Qed.

(** The pipeline under the callback of the bot is the pipeline under a
    callback that never fails. *)
Lemma run_pipeline_willing (chatId statusMsgId : option json)
  (options : Options) (w : bot_world) (g : world) (res : result bytes) :
  generateOutputsZip (host := with_sink host (fun _ _ => false))
    (generation bot) (template_env env) options
    {| random_calls := randoms w; notified := [] |} = (g, res) ->
  res <> inl SinkFailure ->
  run_pipeline bot env chatId statusMsgId options w
  = ({| kv := kv w;
        sent := sent w ++ replay bot env chatId statusMsgId
                            (length (sent w)) (notified g);
        randoms := random_calls g |},
     match res with
     | inr zip => inr zip
     | inl e => inl (GenerationFailed e)
     end).
Proof.
  intros G N. unfold run_pipeline. cbv zeta.
  rewrite (generateOutputsZip_sink_ext host _ (fun _ _ => false))
    by (intros k t; rewrite progress_never_fails; reflexivity).
  rewrite G. destruct res as [e|zip]; [|reflexivity].
  destruct e; try reflexivity. congruence.
Qed.

(** The handler of a press of a button by an authorized user who has a
    session. *)
Lemma handleUpdate_pressed (update c : json) (data : jsstring) (wiz : json)
  (w : bot_world) :
  authorized w (auth_key (user_of update)) = true ->
  callback_of update = Some c ->
  get c (js "data") = Some (JStr data) -> data <> [] ->
  session w (user_of update) = Some wiz ->
  handleUpdate bot env update w
  = callback_step bot env (get c (js "id")) (chat_of update)
      (user_of update) data wiz w.
Proof.
  intros Au C D Ne Se. rewrite (handleUpdate_press bot env KV _ _ _ C), Au.
  unfold session in Se.
  destruct (option_map kv_value _) as [[|x raw]|]; try discriminate.
  rewrite Se, andThen_check, D.
  destruct data as [|d data]; [congruence|]. reflexivity.
Qed.

Lemma callback_step_generate (id chatId userId : option json) (wiz : json) :
  callback_step bot env id chatId userId (js "do_generate") wiz
  = do_generate bot env id chatId userId wiz.
Proof. reflexivity. Qed.

End Generation.

Section GenerationRuns.

Context {cm : CaseMapping} {host : Host} {platform : Platform}.
Variable bot : Bot.
Variable env : BotEnv.
Hypothesis KV : KV_bound env = true.
Hypothesis willing : forall n req, exists data, telegram n req = Accepted data.
Hypothesis token_ok :
  checks_token bot = true -> is_set (TELEGRAM_BOT_TOKEN env) = true.

(** The first two requests of a generation, and the block it then tries. *)
Lemma do_generate_begins (id chatId userId : option json) (wiz : json)
  (w : bot_world) :
  exists first second status,
    carries_document first = false /\ carries_document second = false
    /\ telegram (S (length (sent w))) second = Accepted status
    /\ says (fetching_message bot) second
    /\ do_generate bot env id chatId userId wiz w
       = (let statusMsgId := opt_get (opt_get (Some status) (js "result"))
                               (js "message_id") in
          try_catch
            (o <- check (options_json wiz) ;;
             options <- check (match options_of o with
                               | Some options => inr options
                               | None => inl OutsideModel
                               end) ;;
             zipBytes <- run_pipeline bot env chatId statusMsgId options ;;
             _ <- tgEdit bot env chatId statusMsgId
                    (outbox ++ js " Uploading outputs.zip " ++ ellipsis) ;;
             _ <- tgSendDocument bot env chatId zipBytes
                    (js "outputs.zip") ;;
             _ <- tgEdit bot env chatId statusMsgId
                    (check_mark ++ js " Done!") ;;
             kv_delete env (wiz_key userId))
            (fun e =>
               tgEdit bot env chatId statusMsgId
                 (cross_mark ++ js " Error: " ++ error_text bot e)))%bot
           {| kv := kv w; sent := sent w ++ [first; second];
              randoms := randoms w |}.
Proof.
  unfold do_generate, tgAnswerCb, tgSend.
  destruct (tgCall_willing bot env willing token_ok
              (js "answerCallbackQuery")
              (JObj (field "callback_query_id" id
                     ++ [(js "text", JStr (js "Generating" ++ ellipsis));
                         (js "show_alert", JBool false)])) w eq_refl)
    as (url1 & data1 & E1 & _).
  unfold andThen at 1. rewrite E1. cbv beta iota.
  match goal with
  | |- context [andThen (tgCall bot env (js "sendMessage") ?p) _ ?w1] =>
      destruct (tgCall_willing bot env willing token_ok (js "sendMessage")
                  p w1 eq_refl) as (url2 & status & E2 & T2)
  end.
  unfold andThen at 1. rewrite E2. cbv beta iota.
  do 3 eexists. split; [|split; [|split; [|split; [|]]]].
  5: { simpl. rewrite <- app_assoc. reflexivity. }
  - reflexivity.
  - reflexivity.
  - simpl in T2. rewrite length_app in T2. simpl in T2.
    rewrite Nat.add_1_r in T2. exact T2.
  - do 2 eexists. split; [reflexivity|apply send_payload_text].
Qed.

(** X20: a press of Generate by an authorized user, when Telegram accepts
    every request and the pipeline returns an archive, ends with the upload
    of that archive: exactly one request carries a document, which is the
    archive under the name outputs.zip for the chat of the press; the
    session is then removed from the store, and the handler returns. *)
Theorem generation_uploads_the_archive (update c wiz o : json)
  (options : Options) (g : world) (zip : bytes) (w : bot_world) :
  authorized w (auth_key (user_of update)) = true ->
  callback_of update = Some c ->
  get c (js "data") = Some (JStr (js "do_generate")) ->
  session w (user_of update) = Some wiz ->
  get wiz (js "options") = Some o ->
  options_of (Some o) = Some options ->
  sendDocument_names_method bot = false ->
  generateOutputsZip (host := with_sink host (fun _ _ => false))
    (generation bot) (template_env env) options
    {| random_calls := randoms w; notified := [] |} = (g, inr zip) ->
  exists w' before url after,
    handleUpdate bot env update w = (w', inr tt)
    /\ kv w' = filter (fun e => negb (jsstring_eqb
                                        (wiz_key (user_of update)) (fst e)))
                 (kv w)
    /\ randoms w' = random_calls g
    /\ sent w' = sent w ++ before
                 ++ [tg_form url (template (chat_of update)) zip
                       (js "outputs.zip")]
                 ++ after
    /\ Forall (fun req => carries_document req = false) before
    /\ Forall (fun req => carries_document req = false) after.
Proof.
  intros Au C D Se Go Oo Nm G.
  rewrite (handleUpdate_pressed bot env KV _ _ _ _ _ Au C D
             ltac:(vm_compute; discriminate) Se).
  rewrite callback_step_generate.
  destruct (do_generate_begins (get c (js "id")) (chat_of update)
              (user_of update) wiz w)
    as (first & second & status & J1 & J2 & _ & _ & E).
  rewrite E. clear E. cbv zeta.
  set (mid := opt_get (opt_get (Some status) (js "result"))
                (js "message_id")).
  set (w2 := {| kv := kv w; sent := sent w ++ [first; second];
                randoms := randoms w |}).
  unfold try_catch.
  assert (Oj : options_json wiz = inr (Some o))
    by (unfold options_json; rewrite Go; destruct wiz; try reflexivity;
        discriminate).
  rewrite andThen_check, Oj, andThen_check, Oo.
  unfold andThen at 1.
  rewrite (run_pipeline_willing bot env willing token_ok (chat_of update)
             mid options w2 g (inr zip) G ltac:(discriminate)).
  match goal with
  | |- context [andThen (tgEdit bot env ?a ?b ?t) _ ?w3] =>
      destruct (tgEdit_willing bot env willing token_ok a b t w3)
        as (reqs1 & E1 & J3 & _)
  end.
  unfold andThen at 1. rewrite E1. cbv beta iota.
  match goal with
  | |- context [andThen (tgSendDocument bot env ?a ?b ?n) _ ?w4] =>
      destruct (tgSendDocument_willing bot env willing token_ok a b n w4 Nm)
        as (url & data & E2)
  end.
  unfold andThen at 1. rewrite E2. cbv beta iota.
  match goal with
  | |- context [andThen (tgEdit bot env ?a ?b ?t) _ ?w5] =>
      destruct (tgEdit_willing bot env willing token_ok a b t w5)
        as (reqs2 & E3 & J4 & _)
  end.
  unfold andThen at 1. rewrite E3. cbv beta iota.
  unfold kv_delete. rewrite KV.
  eexists. exists ([first; second]
                   ++ replay bot env (chat_of update) mid
                        (length (sent w2)) (notified g) ++ reqs1).
  exists url, reqs2.
  split; [reflexivity|]. split; [reflexivity|]. split; [reflexivity|].
  split; [simpl; rewrite <- !app_assoc; reflexivity|].
  split; [|exact J4].
  repeat constructor; try assumption.
  apply Forall_app. split; [|exact J3].
  apply replay_json.
Qed.


(** X21: a press of Generate whose pipeline fails, for a reason other than
    its callback, sends no document and leaves the store as it was, so that
    the session is still there for another press; the handler returns
    normally.  When the answer to the status message carries the id of the
    message, the last request edits it to the cross mark and the message of
    the failure. *)
Theorem failed_generation_keeps_the_session (update c wiz o : json)
  (options : Options) (g : world) (e : error) (w : bot_world) :
  authorized w (auth_key (user_of update)) = true ->
  callback_of update = Some c ->
  get c (js "data") = Some (JStr (js "do_generate")) ->
  session w (user_of update) = Some wiz ->
  get wiz (js "options") = Some o ->
  options_of (Some o) = Some options ->
  generateOutputsZip (host := with_sink host (fun _ _ => false))
    (generation bot) (template_env env) options
    {| random_calls := randoms w; notified := [] |} = (g, inl e) ->
  e <> SinkFailure ->
  exists w' reqs,
    handleUpdate bot env update w = (w', inr tt)
    /\ kv w' = kv w
    /\ randoms w' = random_calls g
    /\ sent w' = sent w ++ reqs
    /\ Forall (fun req => carries_document req = false) reqs
    /\ ((forall n req data,
           telegram n req = Accepted data ->
           says (fetching_message bot) req ->
           truthy_opt (opt_get (opt_get (Some data) (js "result"))
                         (js "message_id")) = true) ->
        exists reqs0 req,
          reqs = reqs0 ++ [req]
          /\ says (cross_mark ++ js " Error: "
                   ++ error_text bot (GenerationFailed e)) req).
Proof.
  intros Au C D Se Go Oo G Ne.
  rewrite (handleUpdate_pressed bot env KV _ _ _ _ _ Au C D
             ltac:(vm_compute; discriminate) Se).
  rewrite callback_step_generate.
  destruct (do_generate_begins (get c (js "id")) (chat_of update)
              (user_of update) wiz w)
    as (first & second & status & J1 & J2 & T2 & S2 & E).
  rewrite E. clear E. cbv zeta.
  set (mid := opt_get (opt_get (Some status) (js "result"))
                (js "message_id")).
  set (w2 := {| kv := kv w; sent := sent w ++ [first; second];
                randoms := randoms w |}).
  unfold try_catch.
  assert (Oj : options_json wiz = inr (Some o))
    by (unfold options_json; rewrite Go; destruct wiz; try reflexivity;
        discriminate).
  rewrite andThen_check, Oj, andThen_check, Oo.
  unfold andThen at 1.
  rewrite (run_pipeline_willing bot env willing token_ok (chat_of update)
             mid options w2 g (inl e) G ltac:(congruence)).
  cbv beta iota.
  match goal with
  | |- context [tgEdit bot env ?a ?b ?t ?w3] =>
      destruct (tgEdit_willing bot env willing token_ok a b t w3)
        as (reqs1 & E1 & J3 & S3)
  end.
  rewrite E1.
  eexists. exists ([first; second]
                   ++ replay bot env (chat_of update) mid
                        (length (sent w2)) (notified g) ++ reqs1).
  split; [reflexivity|]. split; [reflexivity|]. split; [reflexivity|].
  split; [simpl; rewrite <- !app_assoc; reflexivity|].
  split.
  - repeat constructor; try assumption.
    apply Forall_app. split; [apply replay_json|exact J3].
  - intros Id. destruct (S3 (Id _ _ _ T2 S2)) as (req & -> & Sr).
    exists ([first; second]
            ++ replay bot env (chat_of update) mid (length (sent w2))
                 (notified g)), req.
    split; [rewrite <- app_assoc; reflexivity|exact Sr].
Qed.

(** X22: in a copy whose [tgSendDocument] builds its address from the name
    [method], which nothing declares, a press of Generate never ends in an
    upload, even when Telegram accepts every request and the pipeline
    returns an archive: the random numbers are taken and the archive is
    built, no request carries a document, the session stays in the store,
    and the status message, when it has an id, is edited to the cross mark
    and the text of the reference error. *)
Theorem an_undeclared_name_stops_the_upload (update c wiz o : json)
  (options : Options) (g : world) (zip : bytes) (w : bot_world) :
  authorized w (auth_key (user_of update)) = true ->
  callback_of update = Some c ->
  get c (js "data") = Some (JStr (js "do_generate")) ->
  session w (user_of update) = Some wiz ->
  get wiz (js "options") = Some o ->
  options_of (Some o) = Some options ->
  sendDocument_names_method bot = true ->
  generateOutputsZip (host := with_sink host (fun _ _ => false))
    (generation bot) (template_env env) options
    {| random_calls := randoms w; notified := [] |} = (g, inr zip) ->
  exists w' reqs,
    handleUpdate bot env update w = (w', inr tt)
    /\ kv w' = kv w
    /\ randoms w' = random_calls g
    /\ sent w' = sent w ++ reqs
    /\ Forall (fun req => carries_document req = false) reqs
    /\ ((forall n req data,
           telegram n req = Accepted data ->
           says (fetching_message bot) req ->
           truthy_opt (opt_get (opt_get (Some data) (js "result"))
                         (js "message_id")) = true) ->
        exists reqs0 req,
          reqs = reqs0 ++ [req]
          /\ says (cross_mark ++ js " Error: " ++ host_text JsReferenceError)
                req).
Proof.
  intros Au C D Se Go Oo Nm G.
  rewrite (handleUpdate_pressed bot env KV _ _ _ _ _ Au C D
             ltac:(vm_compute; discriminate) Se).
  rewrite callback_step_generate.
  destruct (do_generate_begins (get c (js "id")) (chat_of update)
              (user_of update) wiz w)
    as (first & second & status & J1 & J2 & T2 & S2 & E).
  rewrite E. clear E. cbv zeta.
  set (mid := opt_get (opt_get (Some status) (js "result"))
                (js "message_id")).
  set (w2 := {| kv := kv w; sent := sent w ++ [first; second];
                randoms := randoms w |}).
  unfold try_catch.
  assert (Oj : options_json wiz = inr (Some o))
    by (unfold options_json; rewrite Go; destruct wiz; try reflexivity;
        discriminate).
  rewrite andThen_check, Oj, andThen_check, Oo.
  unfold andThen at 1.
  rewrite (run_pipeline_willing bot env willing token_ok (chat_of update)
             mid options w2 g (inr zip) G ltac:(discriminate)).
  cbv beta iota.
  match goal with
  | |- context [andThen (tgEdit bot env ?a ?b ?t) _ ?w3] =>
      destruct (tgEdit_willing bot env willing token_ok a b t w3)
        as (reqs1 & E1 & J3 & _)
  end.
  unfold andThen at 1. rewrite E1. cbv beta iota.
  unfold andThen at 1. unfold tgSendDocument at 1. rewrite Nm.
  unfold fail. cbv beta iota.
  match goal with
  | |- context [tgEdit bot env ?a ?b ?t ?w4] =>
      destruct (tgEdit_willing bot env willing token_ok a b t w4)
        as (reqs2 & E2 & J4 & S4)
  end.
  rewrite E2.
  eexists. exists ([first; second]
                   ++ replay bot env (chat_of update) mid
                        (length (sent w2)) (notified g) ++ reqs1 ++ reqs2).
  split; [reflexivity|]. split; [reflexivity|]. split; [reflexivity|].
  split; [simpl; rewrite <- !app_assoc; reflexivity|].
  split.
  - repeat constructor; try assumption.
    apply Forall_app. split; [apply replay_json|].
    apply Forall_app. split; assumption.
  - intros Id. destruct (S4 (Id _ _ _ T2 S2)) as (req & -> & Sr).
    exists ([first; second]
            ++ replay bot env (chat_of update) mid (length (sent w2))
                 (notified g) ++ reqs1), req.
    split; [rewrite <- !app_assoc; reflexivity|exact Sr].
Qed.

End GenerationRuns.

(** ** The store and its keys *)

Lemma touches_only_same_store (a s : jsstring) (w w' : bot_world) :
  kv w' = kv w -> touches_only a s w w'.
Proof.
  intros E. unfold touches_only. rewrite E. repeat split; auto.
Qed.

Lemma touches_only_trans (a s : jsstring) (w1 w2 w3 : bot_world) :
  touches_only a s w1 w2 -> touches_only a s w2 w3 ->
  touches_only a s w1 w3.
Proof.
  intros (O1 & A1 & S1) (O2 & A2 & S2). split; [|split].
  - intros key Na Ns. rewrite O2, O1 by assumption. reflexivity.
  - intros e H. destruct (A2 e H) as [H2|H2]; [apply A1, H2|right; exact H2].
  - intros e H. destruct (S2 e H) as [H2|H2]; [apply S1, H2|right; exact H2].
Qed.

Lemma touches_only_put_auth (a s : jsstring) (w : bot_world) :
  a <> s ->
  touches_only a s w
    {| kv := assoc_set a {| kv_value := js "1"; kv_ttl := None |} (kv w);
       sent := sent w; randoms := randoms w |}.
Proof.
  intros N. split; [|split]; simpl.
  - intros key Na Ns. apply assoc_get_set_other. congruence.
  - intros e. rewrite assoc_get_set_same. intros [= <-]. right. reflexivity.
  - intros e. rewrite assoc_get_set_other by exact N. auto.
Qed.

Lemma touches_only_put_session (a s text : jsstring) (w : bot_world) :
  a <> s ->
  touches_only a s w
    {| kv := assoc_set s {| kv_value := text; kv_ttl := Some 1800 |} (kv w);
       sent := sent w; randoms := randoms w |}.
Proof.
  intros N. split; [|split]; simpl.
  - intros key Na Ns. apply assoc_get_set_other. congruence.
  - intros e. rewrite assoc_get_set_other by congruence. auto.
  - intros e. rewrite assoc_get_set_same. intros [= <-]. right. reflexivity.
Qed.

Lemma touches_only_delete (a s key : jsstring) (w : bot_world) :
  key = a \/ key = s ->
  touches_only a s w
    {| kv := filter (fun e => negb (jsstring_eqb key (fst e))) (kv w);
       sent := sent w; randoms := randoms w |}.
Proof.
  intros K. split; [|split]; simpl.
  - intros key' Na Ns. rewrite assoc_get_filter_out.
    destruct (jsstring_eqb key key') eqn:E; [|reflexivity].
    apply jsstring_eqb_eq in E. destruct K; congruence.
  - intros e. rewrite assoc_get_filter_out.
    destruct (jsstring_eqb key a); [discriminate|auto].
  - intros e. rewrite assoc_get_filter_out.
    destruct (jsstring_eqb key s); [discriminate|auto].
Qed.

(** X18: whatever an update is, its handler changes the store under two keys
    at most, those of the authorization and of the session of the user the
    update comes from.  An authorization it writes is the text 1 and never
    expires; a session it writes expires after 1800 seconds.  What the store
    holds for other users is as it was. *)
Theorem an_update_touches_the_keys_of_its_sender {cm : CaseMapping}
  {host : Host} {platform : Platform} (bot : Bot) (env : BotEnv)
  (update : json) (w w' : bot_world) (r : bot_error + unit) :
  handleUpdate bot env update w = (w', r) ->
  r <> inl OutsideModel ->
  touches_only (auth_key (user_of update)) (wiz_key (user_of update)) w w'.
Proof.
  intros H _. revert w w' r H.
  change (keeps (touches_only (auth_key (user_of update))
                   (wiz_key (user_of update)))
            (handleUpdate bot env update)).
  assert (Rr : forall w, touches_only (auth_key (user_of update))
                           (wiz_key (user_of update)) w w)
    by (intros w; apply touches_only_same_store; reflexivity).
  assert (Rq : forall w n method payload,
            touches_only (auth_key (user_of update))
              (wiz_key (user_of update)) w
              {| kv := kv w;
                 sent := sent w
                         ++ fst (tgCall_at bot env n method payload);
                 randoms := randoms w |})
    by (intros; apply touches_only_same_store; reflexivity).
  apply (keeps_handleUpdate bot env _ Rr (touches_only_trans _ _) Rq
           (user_of update)).
  - intros w. apply touches_only_put_auth, keys_apart.
  - intros w text. apply touches_only_put_session, keys_apart.
  - intros w key K. apply touches_only_delete, K.
  - reflexivity.
  - intros c wiz _ _.
    apply (keeps_do_generate bot env _ Rr (touches_only_trans _ _) Rq
             (user_of update)).
    + intros w0 key K. apply touches_only_delete, K.
    + intros. apply touches_only_same_store. reflexivity.
    + intros. apply touches_only_same_store. reflexivity.
Qed.

Lemma draws_and_uploads_nothing_trans (w1 w2 w3 : bot_world) :
  draws_and_uploads_nothing w1 w2 -> draws_and_uploads_nothing w2 w3 ->
  draws_and_uploads_nothing w1 w3.
Proof.
  intros (R1 & reqs1 & S1 & J1) (R2 & reqs2 & S2 & J2).
  split; [congruence|]. exists (reqs1 ++ reqs2).
  split; [rewrite S2, S1, app_assoc; reflexivity|].
  apply Forall_app. split; assumption.
Qed.

Lemma draws_and_uploads_nothing_store (w : bot_world) (s : store) :
  draws_and_uploads_nothing w
    {| kv := s; sent := sent w; randoms := randoms w |}.
Proof.
  split; [reflexivity|]. exists []. split; [|constructor].
  simpl. rewrite app_nil_r. reflexivity.
Qed.

(** X19: the press of Generate is the one update for which the bot takes
    random numbers or uploads a document.  Every other update, whoever
    sends it and whatever the store holds, leaves the count of random
    numbers as it was and makes only requests that carry no document. *)
Theorem only_generate_draws_and_uploads {cm : CaseMapping} {host : Host}
  {platform : Platform} (bot : Bot) (env : BotEnv) (update : json)
  (w : bot_world) :
  (forall c, callback_of update = Some c ->
             get c (js "data") <> Some (JStr (js "do_generate"))) ->
  randoms (fst (handleUpdate bot env update w)) = randoms w
  /\ exists reqs,
       sent (fst (handleUpdate bot env update w)) = sent w ++ reqs
       /\ Forall (fun req => carries_document req = false) reqs.
Proof.
  intros N.
  destruct (handleUpdate bot env update w) as [w' r] eqn:H.
  revert w w' r H.
  change (keeps draws_and_uploads_nothing (handleUpdate bot env update)).
  assert (Rr : forall w, draws_and_uploads_nothing w w).
  { intros [s q n]. apply (draws_and_uploads_nothing_store
                             {| kv := s; sent := q; randoms := n |}). }
  assert (Rq : forall w n method payload,
            draws_and_uploads_nothing w
              {| kv := kv w;
                 sent := sent w
                         ++ fst (tgCall_at bot env n method payload);
                 randoms := randoms w |}).
  { intros w n method payload. split; [reflexivity|].
    eexists. split; [reflexivity|apply tgCall_at_json]. }
  apply (keeps_handleUpdate bot env _ Rr draws_and_uploads_nothing_trans Rq
           (user_of update)).
  - intros w. apply draws_and_uploads_nothing_store.
  - intros w text. apply draws_and_uploads_nothing_store.
  - intros w key _. apply draws_and_uploads_nothing_store.
  - reflexivity.
  - intros c wiz C D. exfalso. apply (N c C).
    unfold text_or_empty in D.
    destruct (get c (js "data")) as [[]|]; try discriminate;
      try (destruct (truthy _); discriminate).
    congruence.
Qed.

(** ** The steps of the wizard *)

Lemma count_of_integer (z : Z) :
  count_of (Some (JNum (inject_Z z))) = Some (Z.to_nat z).
Proof.
  unfold count_of, integer_of. simpl.
  rewrite Z.mod_1_r, Z.div_1_r. simpl.
  destruct (Z.ltb_spec z 1) as [L|L]; [|reflexivity].
  f_equal. symmetry. destruct z; try reflexivity. lia.
Qed.

Section WizardSteps.

Context {cm : CaseMapping} {host : Host} {platform : Platform}.
Variable bot : Bot.
Variable env : BotEnv.
Hypothesis KV : KV_bound env = true.

(** The store after a step that ends with requests that carry no result of
    their own. *)
Lemma kv_after_requests {A B : Type} (m : Act A) (k : A -> Act B)
  (w : bot_world) :
  keeps quiet m -> (forall a, keeps quiet (k a)) ->
  kv (fst (andThen m k w)) = kv w.
Proof.
  intros Hm Hk.
  destruct (andThen m k w) as [w' r] eqn:E.
  apply (keeps_andThen quiet quiet_trans m k Hm Hk) in E. apply E.
Qed.

Local Ltac quietly :=
  repeat first
    [ apply (keeps_done quiet quiet_refl)
    | apply (keeps_fail quiet quiet_refl)
    | apply (keeps_check quiet quiet_refl)
    | apply (keeps_tgSend bot env quiet (quiet_calls bot env))
    | apply (keeps_tgAnswerCb bot env quiet (quiet_calls bot env))
    | apply (keeps_sendConfirm bot env quiet quiet_refl (quiet_calls bot env))
    | match goal with
      | |- keeps _ (andThen _ _) =>
          apply (keeps_andThen quiet quiet_trans); [|intros ?]
      | |- forall _, keeps _ _ => intros ?
      end ].

(** What a press of a button of the count menu stores. *)
Lemma count_press_run (update c : json) (data : jsstring) (wiz : json)
  (fields : list (jsstring * json)) (z : Z) (w : bot_world) :
  authorized w (auth_key (user_of update)) = true ->
  callback_of update = Some c ->
  get c (js "data") = Some (JStr data) ->
  startsWith (js "count:") data = true ->
  parseInt (piece data) = Some z ->
  (Z.abs z <= 2 ^ 53)%Z ->
  session w (user_of update) = Some wiz ->
  get wiz (js "options") = Some (JObj fields) ->
  kv (fst (handleUpdate bot env update w))
  = assoc_set (wiz_key (user_of update))
      (stored (advanced wiz "count" (JNum (inject_Z z)) "first_mode"))
      (kv w).
Proof.
  intros Au C D S P B Se Go. unfold piece in P.
  assert (Ne : data <> [])
    by (intros ->; vm_compute in S; discriminate).
  rewrite (handleUpdate_pressed bot env KV _ _ _ _ _ Au C D Ne Se).
  unfold callback_step. cbv zeta. rewrite S.
  assert (Nc : jsstring_eqb (nth 1 (split_on 58%N data) []) (js "custom")
               = false).
  { apply jsstring_eqb_neq. intros E. rewrite E in P.
    vm_compute in P. discriminate. }
  rewrite Nc. unfold parsed_count. rewrite P.
  apply Z.leb_le in B. rewrite B.
  rewrite (advance_run env KV _ _ _ _ _ _ _ _ Go eq_refl).
  unfold sendFirstModeMenu.
  rewrite kv_after_requests; [reflexivity|quietly|quietly].
Qed.

Lemma get_advanced_options (wiz : json) (fields : list (jsstring * json))
  (k : string) (v : json) (step : string) :
  get wiz (js "options") = Some (JObj fields) ->
  get (advanced wiz k v step) (js "options")
  = Some (JObj (assoc_set (js k) v fields)).
Proof.
  intros Go. unfold advanced. rewrite Go.
  rewrite get_put_other by (intros E; apply js_inj in E; discriminate).
  rewrite get_put_same by congruence. reflexivity.
Qed.

(** X17: a button of the count menu stores the number that [parseInt] reads
    from its datum, as it is: where the typed count is held between 1 and
    200, this path checks no bound, and the pipeline will make as many units
    as the datum says. *)
Theorem count_buttons_store_what_they_carry (update c : json)
  (data : jsstring) (wiz : json) (fields : list (jsstring * json)) (z : Z)
  (w : bot_world) :
  authorized w (auth_key (user_of update)) = true ->
  callback_of update = Some c ->
  get c (js "data") = Some (JStr data) ->
  startsWith (js "count:") data = true ->
  parseInt (piece data) = Some z ->
  (Z.abs z <= 2 ^ 53)%Z ->
  session w (user_of update) = Some wiz ->
  get wiz (js "options") = Some (JObj fields) ->
  let wiz' := advanced wiz "count" (JNum (inject_Z z)) "first_mode" in
  kv (fst (handleUpdate bot env update w))
  = assoc_set (wiz_key (user_of update)) (stored wiz') (kv w)
  /\ count_of (opt_get (get wiz' (js "options")) (js "count"))
     = Some (Z.to_nat z).
Proof.
  intros Au C D S P B Se Go wiz'. split.
  - exact (count_press_run _ _ _ _ _ _ _ Au C D S P B Se Go).
  - unfold wiz'. rewrite (get_advanced_options _ _ _ _ _ Go).
    simpl. rewrite assoc_get_set_same. apply count_of_integer.
Qed.

(** X16: a name typed at the step of the first or of the last name is
    stored in title case, trimmed, under the option of that name, and the
    wizard moves on; a blank text stores nothing.  At the step of the last
    name the word random, in any case, is no name: it sets the mode of the
    last name to random instead. *)
Theorem typed_names_are_stored_in_title_case (update : json)
  (text : jsstring) (wiz o : json) (w : bot_world) :
  authorized w (auth_key (user_of update)) = true ->
  plain_text update = Some text ->
  session w (user_of update) = Some wiz ->
  get wiz (js "options") = Some o -> is_object o = true ->
  let w' := fst (handleUpdate bot env update w) in
  let name := titleCase (first_by_index (generation bot)) (trim text) in
  let saved wiz' :=
    kv w' = assoc_set (wiz_key (user_of update)) (stored wiz') (kv w) in
  (get wiz (js "step") = Some (JStr (js "fixed_first_input")) ->
   (trim text = [] -> kv w' = kv w)
   /\ (trim text <> [] ->
       saved (advanced wiz "fixedFirst" (JStr name) "last_mode")))
  /\ (get wiz (js "step") = Some (JStr (js "fixed_last_input")) ->
      (trim text = [] -> kv w' = kv w)
      /\ (trim text <> [] -> toLowerCase (trim text) = js "random" ->
          saved (advanced wiz "lastMode" (JStr (js "random")) "confirm"))
      /\ (trim text <> [] -> toLowerCase (trim text) <> js "random" ->
          saved (advanced wiz "fixedLast" (JStr name) "confirm"))).
Proof.
  intros Au P Se Go Oo w' name saved. subst w' saved. cbv beta.
  rewrite (handleUpdate_typed bot env KV _ _ _ _ Au P Se).
  unfold typed_step. split; intros St.
  - rewrite andThen_check, (step_of_step _ _ St).
    rewrite !is_step_step. cbn [String.eqb Ascii.eqb Bool.eqb].
    cbv iota zeta.
    split; intros E.
    + rewrite E. cbn [is_empty].
      rewrite kv_after_requests; [reflexivity|quietly|quietly].
    + destruct (trim text) as [|c0 r0] eqn:T; [congruence|].
      cbn [is_empty].
      rewrite (advance_run env KV _ _ _ _ _ _ _ _ Go Oo).
      unfold sendLastModeMenu.
      rewrite kv_after_requests; [reflexivity|quietly|quietly].
  - rewrite andThen_check, (step_of_step _ _ St).
    rewrite !is_step_step. cbn [String.eqb Ascii.eqb Bool.eqb].
    cbv iota zeta.
    split; [|split].
    + intros E. rewrite E. cbn [is_empty].
      rewrite kv_after_requests; [reflexivity|quietly|quietly].
    + intros E L. destruct (trim text) as [|c0 r0] eqn:T; [congruence|].
      cbn [is_empty]. rewrite L, jsstring_eqb_refl.
      rewrite (advance_run env KV _ _ _ _ _ _ _ _ Go Oo).
      rewrite kv_after_requests; [reflexivity|quietly|quietly].
    + intros E L. destruct (trim text) as [|c0 r0] eqn:T; [congruence|].
      cbn [is_empty]. apply jsstring_eqb_neq in L. rewrite L.
      rewrite (advance_run env KV _ _ _ _ _ _ _ _ Go Oo).
      rewrite kv_after_requests; [reflexivity|quietly|quietly].
Qed.


Lemma buttons_apart (data : jsstring) :
  (startsWith (js "first:") data = true ->
   startsWith (js "count:") data = false)
  /\ (startsWith (js "last:") data = true ->
      startsWith (js "count:") data = false
      /\ startsWith (js "first:") data = false).
Proof.
  destruct data as [|c1 data]; vm_compute js; cbn [startsWith].
  - repeat (split || intro); discriminate.
  - destruct (N.eqb_spec 102 c1) as [<-|]; cbn [andb];
      [repeat (split || intro); discriminate|].
    destruct (N.eqb_spec 108 c1) as [<-|]; cbn [andb];
      [repeat (split || intro); discriminate|].
    repeat (split || intro); discriminate.
Qed.

(** What a press of a button of a mode menu stores, when the mode is not
    the fixed one. *)
Lemma mode_press_run (first : bool) (update c : json) (data : jsstring)
  (wiz : json) (fields : list (jsstring * json)) (w : bot_world) :
  authorized w (auth_key (user_of update)) = true ->
  callback_of update = Some c ->
  get c (js "data") = Some (JStr data) ->
  startsWith (js (if first then "first:" else "last:")) data = true ->
  piece data <> js "fixed" ->
  session w (user_of update) = Some wiz ->
  get wiz (js "options") = Some (JObj fields) ->
  kv (fst (handleUpdate bot env update w))
  = assoc_set (wiz_key (user_of update))
      (stored (advanced wiz (if first then "firstMode" else "lastMode")
                 (JStr (piece data))
                 (if first then "last_mode" else "confirm")))
      (kv w).
Proof.
  intros Au C D S Nf Se Go. unfold piece in *.
  assert (Ne : data <> [])
    by (intros ->; destruct first; vm_compute in S; discriminate).
  rewrite (handleUpdate_pressed bot env KV _ _ _ _ _ Au C D Ne Se).
  apply jsstring_eqb_neq in Nf.
  unfold callback_step. cbv zeta.
  destruct (buttons_apart data) as (F & L).
  destruct first.
  - rewrite (F S), S.
    rewrite andThen_check, (set_option_advances _ _ _ _ Go eq_refl), Nf.
    rewrite andThen_check, (set_step_advances _ _ _ Go).
    unfold save_session, sendLastModeMenu. rewrite (andThen_kv_put env KV).
    rewrite kv_after_requests; [|quietly|quietly].
    unfold advanced, stored. rewrite Go. reflexivity.
  - destruct (L S) as (L1 & L2). rewrite L1, L2, S.
    rewrite andThen_check, (set_option_advances _ _ _ _ Go eq_refl), Nf.
    rewrite andThen_check, (set_step_advances _ _ _ Go).
    unfold save_session. rewrite (andThen_kv_put env KV).
    rewrite kv_after_requests; [|quietly|quietly].
    unfold advanced, stored. rewrite Go. reflexivity.
Qed.

(** The world after a session has been stored. *)
Lemma saved_session (userId : option json) (wiz : json)
  (w w' : bot_world) :
  kv w' = assoc_set (wiz_key userId) (stored wiz) (kv w) ->
  reads_back wiz ->
  authorized w (auth_key userId) = true ->
  authorized w' (auth_key userId) = true /\ session w' userId = Some wiz.
Proof.
  intros K (Ne & Pa) Au. split.
  - unfold authorized. rewrite K.
    rewrite assoc_get_set_other
      by (intros E; exact (keys_apart _ _ (eq_sym E))).
    exact Au.
  - unfold session. rewrite K, assoc_get_set_same. simpl.
    destruct (JSON_stringify_text wiz) as [|x raw]; [congruence|exact Pa].
Qed.

Lemma options_of_fields (fields : list (jsstring * json)) :
  options_of (Some (JObj fields))
  = match count_of (assoc_get (js "count") fields),
          text_or_empty (assoc_get (js "fixedFirst") fields),
          text_or_empty (assoc_get (js "fixedLast") fields),
          text_or_empty (assoc_get (js "text2") fields) with
    | Some n, Some f, Some l, Some t =>
        Some {| count := n;
                firstMode := mode_of (assoc_get (js "firstMode") fields);
                fixedFirst := f;
                lastMode := mode_of (assoc_get (js "lastMode") fields);
                fixedLast := l;
                text2 := t |}
    | _, _, _, _ => None
    end.
Proof. reflexivity. Qed.

Lemma new_session_options (chatId userId : option json) :
  get (new_session chatId userId) (js "options")
  = Some (JObj [(js "count", JNum (inject_Z 10));
                (js "firstMode", JStr (js "random"));
                (js "fixedFirst", JStr []);
                (js "lastMode", JStr (js "random"));
                (js "fixedLast", JStr (js "Ahmed"));
                (js "text2", JStr (js "15/11/2025"))]).
Proof. destruct chatId, userId; reflexivity. Qed.

(** X27: the buttons of the wizard lead to the options that the pipeline
    runs on.  After /gen, a count button, a button of the first-name menu
    and a button of the last-name menu, neither of them the fixed one, the
    store holds for the user a session at the step of the confirmation, and
    the pipeline reads from it the count of the first button, the two modes
    of the others, and the last name Ahmed and the text 15/11/2025 that /gen
    has set. *)
Theorem the_buttons_lead_to_the_options (gen p1 p2 p3 c1 c2 c3 : json)
  (text d1 d2 d3 : jsstring) (z : Z) (w0 : bot_world) :
  let user := user_of gen in
  let s0 := new_session (chat_of gen) user in
  let s1 := advanced s0 "count" (JNum (inject_Z z)) "first_mode" in
  let s2 := advanced s1 "firstMode" (JStr (piece d2)) "last_mode" in
  let s3 := advanced s2 "lastMode" (JStr (piece d3)) "confirm" in
  let w1 := fst (handleUpdate bot env gen w0) in
  let w2 := fst (handleUpdate bot env p1 w1) in
  let w3 := fst (handleUpdate bot env p2 w2) in
  let w4 := fst (handleUpdate bot env p3 w3) in
  authorized w0 (auth_key user) = true ->
  text_of gen = Some text -> startsWith (js "/gen") text = true ->
  callback_of p1 = Some c1 -> get c1 (js "data") = Some (JStr d1) ->
  startsWith (js "count:") d1 = true ->
  parseInt (piece d1) = Some z -> (Z.abs z <= 2 ^ 53)%Z ->
  callback_of p2 = Some c2 -> get c2 (js "data") = Some (JStr d2) ->
  startsWith (js "first:") d2 = true -> piece d2 <> js "fixed" ->
  callback_of p3 = Some c3 -> get c3 (js "data") = Some (JStr d3) ->
  startsWith (js "last:") d3 = true -> piece d3 <> js "fixed" ->
  user_of p1 = user -> user_of p2 = user -> user_of p3 = user ->
  reads_back s0 -> reads_back s1 -> reads_back s2 ->
  assoc_get (wiz_key user) (kv w4) = Some (stored s3)
  /\ get s3 (js "step") = Some (JStr (js "confirm"))
  /\ options_of (get s3 (js "options"))
     = Some {| count := Z.to_nat z;
               firstMode := piece d2;
               fixedFirst := [];
               lastMode := piece d3;
               fixedLast := js "Ahmed";
               text2 := js "15/11/2025" |}.
Proof.
  intros user s0 s1 s2 s3 w1 w2 w3 w4 Au T G C1 D1 S1 P1 B1 C2 D2 S2 N2
    C3 D3 S3 N3 U1 U2 U3 R0 R1 R2.
  destruct (commands_apart text) as (_ & _ & Gx).
  destruct (Gx G) as (Sx & Ax & Lx).
  pose proof (new_session_options (chat_of gen) user) as O0.
  fold s0 in O0.
  pose proof (get_advanced_options _ _ "count" (JNum (inject_Z z))
                "first_mode" O0) as O1. fold s1 in O1.
  pose proof (get_advanced_options _ _ "firstMode" (JStr (piece d2))
                "last_mode" O1) as O2. fold s2 in O2.
  pose proof (get_advanced_options _ _ "lastMode" (JStr (piece d3))
                "confirm" O2) as O3. fold s3 in O3.
  assert (K1 : kv w1 = assoc_set (wiz_key user) (stored s0) (kv w0)).
  { unfold w1. rewrite (handleUpdate_text bot env KV _ _ _ T Sx Ax).
    fold user. rewrite Au, Lx, G.
    unfold save_session. rewrite (andThen_kv_put env KV).
    unfold sendCountMenu.
    rewrite kv_after_requests; [reflexivity|quietly|quietly]. }
  destruct (saved_session _ _ _ _ K1 R0 Au) as (Au1 & Se1).
  assert (K2 : kv w2 = assoc_set (wiz_key user) (stored s1) (kv w1)).
  { unfold w2. rewrite <- U1 in Au1, Se1 |- *.
    exact (count_press_run _ _ _ _ _ _ _ Au1 C1 D1 S1 P1 B1 Se1 O0). }
  destruct (saved_session _ _ _ _ K2 R1 Au1) as (Au2 & Se2).
  assert (K3 : kv w3 = assoc_set (wiz_key user) (stored s2) (kv w2)).
  { unfold w3. rewrite <- U2 in Au2, Se2 |- *.
    exact (mode_press_run true _ _ _ _ _ _ Au2 C2 D2 S2 N2 Se2 O1). }
  destruct (saved_session _ _ _ _ K3 R2 Au2) as (Au3 & Se3).
  assert (K4 : kv w4 = assoc_set (wiz_key user) (stored s3) (kv w3)).
  { unfold w4. rewrite <- U3 in Au3, Se3 |- *.
    exact (mode_press_run false _ _ _ _ _ _ Au3 C3 D3 S3 N3 Se3 O2). }
  split; [rewrite K4; apply assoc_get_set_same|]. split.
  - unfold s3, advanced. apply get_put_same.
    rewrite get_put_other by (intros E; apply js_inj in E; discriminate).
    unfold s2, advanced.
    rewrite get_put_same; [discriminate|].
    rewrite get_put_other by (intros E; apply js_inj in E; discriminate).
    unfold s1, advanced.
    rewrite get_put_same; [discriminate|].
    rewrite get_put_other by (intros E; apply js_inj in E; discriminate).
    unfold s0, new_session. simpl. discriminate.
  - rewrite O3, options_of_fields.
    repeat first
      [ rewrite assoc_get_set_same
      | rewrite assoc_get_set_other
          by (intros E; apply js_inj in E; discriminate) ].
    rewrite count_of_integer. reflexivity.
Qed.

End WizardSteps.

(** ** The page of the bindings *)

(** X23: the page /debug is answered to whoever asks, with no look at the
    method or at the secret, and changes nothing.  Of the token it shows the
    length and the first six characters, of the admin code and of the
    webhook secret only whether they are set: two environments that differ
    in nothing else give the same page. *)
Theorem debug_tells_no_secret {cm : CaseMapping} {host : Host}
  {platform : Platform} (bot : Bot) (env env' : BotEnv) (req : request)
  (w : bot_world) :
  entry bot <> PagesPost -> req_pathname req = js "/debug" ->
  template_env env' = template_env env -> KV_bound env' = KV_bound env ->
  is_set (ADMIN_CODE env') = is_set (ADMIN_CODE env) ->
  is_set (WEBHOOK_SECRET env') = is_set (WEBHOOK_SECRET env) ->
  length (trim (or_empty (TELEGRAM_BOT_TOKEN env')))
  = length (trim (or_empty (TELEGRAM_BOT_TOKEN env))) ->
  firstn 6 (trim (or_empty (TELEGRAM_BOT_TOKEN env')))
  = firstn 6 (trim (or_empty (TELEGRAM_BOT_TOKEN env))) ->
  webhook bot env' req w = webhook bot env req w
  /\ fst (webhook bot env req w) = w
  /\ exists body,
       snd (webhook bot env req w)
       = Responded {| http_status := 200; http_body_of := Json body |}
       /\ exists shown,
            get body (js "tokenStarts") = Some (JStr shown)
            /\ length shown <= 6.
Proof.
  intros Ne P Te Kv Ad Se Le Fi.
  assert (Em : is_empty (trim (or_empty (TELEGRAM_BOT_TOKEN env')))
               = is_empty (trim (or_empty (TELEGRAM_BOT_TOKEN env)))).
  { destruct (trim (or_empty (TELEGRAM_BOT_TOKEN env'))),
             (trim (or_empty (TELEGRAM_BOT_TOKEN env)));
      try reflexivity; discriminate. }
  unfold webhook. destruct (entry bot); [| congruence |].
  - unfold router. rewrite P, jsstring_eqb_refl.
    unfold debug_of_router. rewrite Te, Kv, Ad, Se, Le, Fi, Em.
    split; [reflexivity|]. split; [reflexivity|].
    eexists. split; [reflexivity|].
    exists (if is_empty (trim (or_empty (TELEGRAM_BOT_TOKEN env))) then []
            else firstn 6 (trim (or_empty (TELEGRAM_BOT_TOKEN env)))).
    split; [reflexivity|].
    destruct (is_empty (trim (or_empty (TELEGRAM_BOT_TOKEN env))));
      [apply Nat.le_0_l|].
    rewrite length_firstn. apply Nat.le_min_l.
  - unfold handleRequest. rewrite P, jsstring_eqb_refl.
    unfold debug_of_handleRequest. rewrite Te, Kv, Ad, Se, Le, Fi, Em.
    split; [reflexivity|]. split; [reflexivity|].
    eexists. split; [reflexivity|].
    exists (firstn 6 (trim (or_empty (TELEGRAM_BOT_TOKEN env)))).
    split; [reflexivity|].
    rewrite length_firstn. apply Nat.le_min_l.
Qed.

(** ** A worker without its store *)

(** X24: when no store is bound, the service-worker copy answers every
    update by at most one message, which says so, and returns; the two other
    copies have no such guard, and there a press of a button, and a message
    that begins with neither /start nor /auth, throw a type error before
    anything is sent. *)
Theorem without_a_store_nothing_is_handled {cm : CaseMapping} {host : Host}
  {platform : Platform} (bot : Bot) (env : BotEnv) (update : json)
  (w : bot_world) :
  KV_bound env = false ->
  (guards_KV bot = true ->
   quiet w (fst (handleUpdate bot env update w))
   /\ exists reqs,
        sent (fst (handleUpdate bot env update w)) = sent w ++ reqs
        /\ length reqs <= 1
        /\ Forall (says kv_notice) reqs)
  /\ (guards_KV bot = false ->
      (forall c, callback_of update = Some c ->
                 handleUpdate bot env update w = (w, inl JsTypeError))
      /\ (forall text,
            text_of update = Some text ->
            startsWith (js "/start") text = false ->
            startsWith (js "/auth") text = false ->
            handleUpdate bot env update w = (w, inl JsTypeError))).
Proof.
  intros K. split; intros G.
  - unfold handleUpdate. rewrite G, K. cbn [negb andb]. cbv zeta iota.
    destruct (truthy_opt _).
    + apply notice_run.
    + simpl. split; [apply quiet_refl|]. exists [].
      rewrite app_nil_r. repeat split; [simpl; lia|constructor].
  - split.
    + intros c C. unfold handleUpdate, callback_of in *.
      rewrite G. cbn [andb]. cbv zeta iota.
      destruct (get update (js "callback_query")) as [c0|]; [|discriminate].
      destruct (truthy c0); [|discriminate].
      unfold onCallback, is_authed, andThen, kv_get. rewrite K. reflexivity.
    + intros text T S A. unfold text_of in T.
      destruct (message_of update) as [msg|] eqn:M; [|discriminate].
      pose proof (message_truthy _ _ M) as Tr.
      unfold handleUpdate, message_of, callback_of in *.
      rewrite G. cbn [andb]. cbv zeta iota.
      assert (E : on_message bot env (Some msg) w = (w, inl JsTypeError)).
      { unfold on_message. rewrite (opt_get_truthy _ _ Tr), T.
        rewrite andThen_check, S, A.
        unfold is_authed, andThen, kv_get. rewrite K. reflexivity. }
      destruct (get update (js "callback_query")) as [c0|].
      * destruct (truthy c0); [discriminate|].
        destruct (truthy_opt (or_else _ _)); [|discriminate].
        rewrite M. exact E.
      * destruct (truthy_opt (or_else _ _)); [|discriminate].
        rewrite M. exact E.
Qed.

(** ** Sessions that come and go *)

Lemma filter_out_fresh {V : Type} (k : jsstring) (v : V)
  (l : list (jsstring * V)) :
  assoc_get k l = None ->
  filter (fun e => negb (jsstring_eqb k (fst e))) (assoc_set k v l) = l.
Proof.
  induction l as [|[k0 v0] l IH]; simpl.
  - intros _. rewrite jsstring_eqb_refl. reflexivity.
  - destruct (jsstring_eqb k k0) eqn:E; [discriminate|].
    intros H. simpl. rewrite E. simpl. rewrite IH by exact H. reflexivity.
Qed.

Section Sessions.

Context {cm : CaseMapping} {host : Host} {platform : Platform}.
Variable bot : Bot.
Variable env : BotEnv.
Hypothesis KV : KV_bound env = true.

(** X25: an authorized user for whom the store holds no session, or an
    empty one, starts nothing: a press of any button is answered that the
    session has expired, a text that is no command by the list of the
    commands, and the store stays as it was. *)
Theorem without_a_session_nothing_is_started (update : json)
  (w : bot_world) :
  authorized w (auth_key (user_of update)) = true ->
  session_text w (user_of update) = [] ->
  (forall c, callback_of update = Some c ->
     handleUpdate bot env update w
     = (_ <- tgAnswerCb bot env (get c (js "id"))
               (js "Session expired.") ;;
        _ <- tgSend bot env (chat_of update)
               (js "Session expired. Send /gen again.") [] ;;
        done tt)%bot w)
  /\ (forall text, plain_text update = Some text ->
        handleUpdate bot env update w
        = (_ <- tgSend bot env (chat_of update) commands_notice [] ;;
           done tt)%bot w)
  /\ (callback_of update <> None \/ plain_text update <> None ->
      kv (fst (handleUpdate bot env update w)) = kv w
      /\ randoms (fst (handleUpdate bot env update w)) = randoms w).
Proof.
  intros Au Se. unfold session_text in Se.
  assert (C : forall c, callback_of update = Some c ->
     handleUpdate bot env update w
     = (_ <- tgAnswerCb bot env (get c (js "id"))
               (js "Session expired.") ;;
        _ <- tgSend bot env (chat_of update)
               (js "Session expired. Send /gen again.") [] ;;
        done tt)%bot w).
  { intros c Hc. rewrite (handleUpdate_press bot env KV _ _ _ Hc), Au.
    destruct (option_map kv_value _) as [[|x raw]|];
      try reflexivity; discriminate. }
  assert (T : forall text, plain_text update = Some text ->
        handleUpdate bot env update w
        = (_ <- tgSend bot env (chat_of update) commands_notice [] ;;
           done tt)%bot w).
  { intros text P. destruct (plain_text_text _ _ P) as (Tx & S & A & L & G).
    rewrite (handleUpdate_text bot env KV _ _ _ Tx S A), Au, L, G. cbv zeta.
    destruct (option_map kv_value _) as [[|x raw]|];
      try reflexivity; discriminate. }
  split; [exact C|]. split; [exact T|].
  intros [H|H].
  - destruct (callback_of update) as [c|]; [|congruence].
    rewrite (C c eq_refl).
    match goal with
    | |- context [andThen ?m ?k w] =>
        assert (Q : keeps quiet (andThen m k))
    end.
    { apply (keeps_andThen quiet quiet_trans);
        [apply (keeps_tgAnswerCb bot env quiet (quiet_calls bot env))|].
      intros _. apply (keeps_notice quiet quiet_refl quiet_trans).
      apply (keeps_tgSend bot env quiet (quiet_calls bot env)). }
    match goal with
    | |- context [andThen ?m ?k w] =>
        destruct (andThen m k w) as [w' r] eqn:E
    end.
    exact (Q _ _ _ E).
  - destruct (plain_text update) as [text|]; [|congruence].
    rewrite (T text eq_refl).
    destruct (notice_run bot env (chat_of update) commands_notice [] w)
      as (Q & _).
    exact Q.
Qed.

(** X26: a session that is opened and cancelled leaves no trace.  When the
    store holds no session for an authorized user, /gen followed by a press
    of Cancel by the same user brings the store back to what it was. *)
Theorem a_cancelled_session_leaves_no_trace (gen cancel c : json)
  (text : jsstring) (w : bot_world) :
  authorized w (auth_key (user_of gen)) = true ->
  assoc_get (wiz_key (user_of gen)) (kv w) = None ->
  text_of gen = Some text -> startsWith (js "/gen") text = true ->
  callback_of cancel = Some c ->
  get c (js "data") = Some (JStr (js "cancel")) ->
  user_of cancel = user_of gen ->
  reads_back (new_session (chat_of gen) (user_of gen)) ->
  kv (fst (handleUpdate bot env cancel
             (fst (handleUpdate bot env gen w))))
  = kv w.
Proof.
  intros Au No T G C D U (Ne & Pa).
  destruct (commands_apart text) as (_ & _ & Gx).
  destruct (Gx G) as (S & A & L).
  set (s0 := new_session (chat_of gen) (user_of gen)) in *.
  assert (K1 : kv (fst (handleUpdate bot env gen w))
               = assoc_set (wiz_key (user_of gen)) (stored s0) (kv w)).
  { rewrite (handleUpdate_text bot env KV _ _ _ T S A), Au, L, G.
    unfold save_session. rewrite (andThen_kv_put env KV).
    unfold sendCountMenu.
    match goal with
    | |- context [andThen ?m ?f ?w0] =>
        destruct (notice_run bot env (chat_of gen)
                    (js "Choose how many files:") count_keyboard w0)
          as ((Q & _) & _)
    end.
    exact Q. }
  set (w1 := fst (handleUpdate bot env gen w)) in *.
  assert (Au1 : authorized w1 (auth_key (user_of cancel)) = true).
  { rewrite U. unfold authorized. rewrite K1.
    rewrite assoc_get_set_other
      by (intros E; exact (keys_apart _ _ (eq_sym E))).
    exact Au. }
  assert (Se1 : session w1 (user_of cancel) = Some s0).
  { unfold session. rewrite U, K1, assoc_get_set_same. simpl.
    destruct (JSON_stringify_text s0) as [|x raw]; [congruence|].
    exact Pa. }
  rewrite (handleUpdate_pressed bot env KV _ _ _ _ _ Au1 C D
             ltac:(vm_compute; discriminate) Se1).
  assert (E : callback_step bot env (get c (js "id")) (chat_of cancel)
                (user_of cancel) (js "cancel") s0
              = (_ <- kv_delete env (wiz_key (user_of cancel)) ;;
                 _ <- tgAnswerCb bot env (get c (js "id"))
                        (js "Cancelled") ;;
                 _ <- tgSend bot env (chat_of cancel)
                        (js "Cancelled. Send /gen again anytime.") [] ;;
                 done tt)%bot) by reflexivity.
  rewrite E, (andThen_kv_delete env KV).
  match goal with
  | |- context [andThen ?m ?k ?w0] =>
      assert (Q : keeps quiet (andThen m k))
  end.
  { apply (keeps_andThen quiet quiet_trans);
      [apply (keeps_tgAnswerCb bot env quiet (quiet_calls bot env))|].
    intros _. apply (keeps_notice quiet quiet_refl quiet_trans).
    apply (keeps_tgSend bot env quiet (quiet_calls bot env)). }
  match goal with
  | |- context [andThen ?m ?k ?w0] =>
      destruct (andThen m k w0) as [w' r] eqn:R
  end.
  apply Q in R. destruct R as [R _]. cbn [fst]. rewrite R. cbn [kv].
  rewrite U, K1. apply filter_out_fresh, No.
Qed.

End Sessions.

(** ** A worker without its token *)

Section BlankToken.

Context {cm : CaseMapping} {host : Host} {platform : Platform}.
Variable bot : Bot.
Variable env : BotEnv.
Hypothesis checks : checks_token bot = true.
Hypothesis blank : is_set (TELEGRAM_BOT_TOKEN env) = false.

Lemma blank_token :
  is_empty (trim (or_empty (TELEGRAM_BOT_TOKEN env))) = true.
Proof. unfold is_set in blank. apply negb_false_iff. exact blank. Qed.

Lemma tgCall_at_blank (n : nat) (method : jsstring) (payload : json) :
  tgCall_at bot env n method payload = ([], inl TokenMissing).
Proof. unfold tgCall_at. rewrite checks, blank_token. reflexivity. Qed.

Lemma tgCall_blank (method : jsstring) (payload : json) (w : bot_world) :
  tgCall bot env method payload w = (w, inl TokenMissing).
Proof.
  unfold tgCall, requesting. rewrite tgCall_at_blank. simpl.
  rewrite app_nil_r. destruct w. reflexivity.
Qed.

Lemma replay_blank (chatId statusMsgId : option json) (ts : list jsstring) :
  forall n, replay bot env chatId statusMsgId n ts = [].
Proof.
  induction ts as [|t ts IH]; intros n; simpl; [reflexivity|].
  rewrite IH, app_nil_r.
  unfold progress_at. destruct (truthy_opt statusMsgId); [|reflexivity].
  destruct (tgEdit_at_requests bot env n chatId statusMsgId t) as [E|E];
    rewrite E; [reflexivity|].
  rewrite tgCall_at_blank. reflexivity.
Qed.

Lemma tgSendDocument_at_blank (n : nat) (chatId : option json) (b : bytes)
  (filename : jsstring) :
  tgSendDocument_at bot env n chatId b filename = ([], inl TokenMissing).
Proof.
  unfold tgSendDocument_at. rewrite checks, blank_token. reflexivity.
Qed.

(** X28: in a copy whose [tgCall] looks at the token first, a token that is
    not bound, or is blank, silences the bot: no request goes to Telegram,
    whatever the update, and every call fails with the error that the token
    is missing, so that a message as plain as /start makes the handler
    throw. *)
Theorem a_blank_token_silences_the_bot (update : json) (w : bot_world) :
  sent (fst (handleUpdate bot env update w)) = sent w
  /\ (forall method payload w0,
        tgCall bot env method payload w0 = (w0, inl TokenMissing))
  /\ (KV_bound env = true ->
      forall text,
        text_of update = Some text ->
        startsWith (js "/start") text = true ->
        handleUpdate bot env update w = (w, inl TokenMissing)).
Proof.
  split; [|split].
  - destruct (handleUpdate bot env update w) as [w' r] eqn:H.
    revert w w' r H.
    change (keeps (fun w w' => sent w' = sent w)
              (handleUpdate bot env update)).
    assert (Rt : forall a b c : bot_world,
              sent b = sent a -> sent c = sent b -> sent c = sent a)
      by (intros; congruence).
    assert (Rq : forall w n method payload,
              sent {| kv := kv w;
                      sent := sent w
                              ++ fst (tgCall_at bot env n method payload);
                      randoms := randoms w |} = sent w)
      by (intros; rewrite tgCall_at_blank; apply app_nil_r).
    apply (keeps_handleUpdate bot env (fun w w' => sent w' = sent w)
             (fun w => eq_refl) Rt Rq (user_of update));
      try reflexivity.
    intros c wiz _ _.
    apply (keeps_do_generate bot env (fun w w' => sent w' = sent w)
             (fun w => eq_refl) Rt Rq (user_of update));
      try reflexivity.
    + intros. simpl. rewrite replay_blank. apply app_nil_r.
    + intros. simpl. rewrite tgSendDocument_at_blank. apply app_nil_r.
  - apply tgCall_blank.
  - intros KV text T S. unfold text_of in T.
    destruct (message_of update) as [msg|] eqn:M; [|discriminate].
    rewrite (handleUpdate_message bot env KV _ _ _ M).
    unfold on_message.
    rewrite (opt_get_truthy _ _ (message_truthy _ _ M)), T.
    rewrite andThen_check, S. unfold tgSend, andThen.
    rewrite tgCall_blank. reflexivity.
Qed.

End BlankToken.

(** ** The theorems at work *)

Lemma webhook_asks_for_the_secret_witness :
  webhook (cm := latin1_case) (host := quiet_host)
    (platform := willing_platform) service_worker_bot sample_bot_env
    (webhook_request (Some (js "guess")) (message_update "/start"))
    empty_world
  = (empty_world, respond 403 "forbidden").
Proof.
  refine (proj1 (webhook_asks_for_the_secret (cm := latin1_case)
                   (host := quiet_host) (platform := willing_platform)
                   service_worker_bot sample_bot_env
                   (webhook_request (Some (js "guess"))
                      (message_update "/start"))
                   (js "s3cret") empty_world _ _ _ _ _) _).
  - left. reflexivity.
  - reflexivity.
  - vm_compute. reflexivity.
  - reflexivity.
  - vm_compute. discriminate.
  - vm_compute. discriminate.
Defined.

Lemma webhook_answers_witness :
  fst (webhook (cm := latin1_case) (host := quiet_host)
         (platform := willing_platform) telegram_js_bot sample_bot_env
         {| req_method := js "GET"; req_pathname := js "/";
            req_secret := None; req_json := None |} empty_world)
  = empty_world
  /\ exists r,
       snd (webhook (cm := latin1_case) (host := quiet_host)
              (platform := willing_platform) telegram_js_bot sample_bot_env
              {| req_method := js "GET"; req_pathname := js "/";
                 req_secret := None; req_json := None |} empty_world)
       = Responded r
       /\ http_status r = 200.
Proof.
  refine (proj2 (proj2 (proj2
            (webhook_answers (cm := latin1_case) (host := quiet_host)
               (platform := willing_platform) telegram_js_bot sample_bot_env
               {| req_method := js "GET"; req_pathname := js "/";
                  req_secret := None; req_json := None |} empty_world _)))
            _ _).
  - right. right. left. reflexivity.
  - discriminate.
  - vm_compute. discriminate.
Defined.

Lemma locked_users_are_turned_away_witness :
  handleUpdate (cm := latin1_case) (host := quiet_host)
    (platform := willing_platform) pages_functions_bot sample_bot_env
    (callback_update "do_generate") empty_world
  = (_ <- tgAnswerCb (platform := willing_platform) pages_functions_bot
            sample_bot_env (Some (JStr (js "cb1"))) locked_answer ;;
     _ <- tgSend (platform := willing_platform) pages_functions_bot
            sample_bot_env (Some sample_chat) locked_callback_notice [] ;;
     done tt)%bot empty_world.
Proof.
  refine (proj1 (proj2
            (locked_users_are_turned_away (cm := latin1_case)
               (host := quiet_host) (platform := willing_platform)
               pages_functions_bot sample_bot_env _
               (callback_update "do_generate") empty_world _))
            (sample_press "do_generate") _).
  - reflexivity.
  - vm_compute. reflexivity.
  - vm_compute. reflexivity.
Defined.

Lemma auth_takes_the_admin_code_witness :
  authorized
    (fst (handleUpdate (cm := latin1_case) (host := quiet_host)
            (platform := willing_platform) service_worker_bot
            sample_bot_env (message_update "/auth open-sesame")
            empty_world))
    (js "auth:5") = true.
Proof.
  refine (proj1 (proj2 (proj1
            (auth_takes_the_admin_code (cm := latin1_case)
               (host := quiet_host) (platform := willing_platform)
               service_worker_bot sample_bot_env _
               (message_update "/auth open-sesame")
               (js "/auth open-sesame") empty_world _ _)
            _ _))).
  - reflexivity.
  - vm_compute. reflexivity.
  - vm_compute. reflexivity.
  - vm_compute. discriminate.
  - vm_compute. reflexivity.
Defined.

Lemma authorization_lasts_until_logout_witness :
  let w1 := fst (handleUpdate (cm := latin1_case) (host := quiet_host)
                   (platform := willing_platform) pages_functions_bot
                   sample_bot_env (message_update "/auth open-sesame")
                   empty_world) in
  let w2 := fst (handleUpdate (cm := latin1_case) (host := quiet_host)
                   (platform := willing_platform) pages_functions_bot
                   sample_bot_env (message_update "/gen") w1) in
  let w3 := fst (handleUpdate (cm := latin1_case) (host := quiet_host)
                   (platform := willing_platform) pages_functions_bot
                   sample_bot_env (message_update "/logout") w2) in
  authorized w2 (js "auth:5") = true /\ authorized w3 (js "auth:5") = false.
Proof.
  pose proof
    (authorization_lasts_until_logout (cm := latin1_case)
       (host := quiet_host) (platform := willing_platform)
       pages_functions_bot sample_bot_env eq_refl
       (message_update "/auth open-sesame") (message_update "/gen")
       (message_update "/logout")
       (js "/auth open-sesame") (js "/gen") (js "/logout") empty_world
       eq_refl eq_refl) as H.
  intros w1 w2 w3.
  refine ((fun K => conj (proj1 (proj2 (proj2 K)))
                      (proj2 (proj2 (proj2 (proj2 (proj2 K))))))
            (H _ _ _ _ _ _ _ _)).
  - vm_compute. discriminate.
  - vm_compute. reflexivity.
  - vm_compute. reflexivity.
  - vm_compute. reflexivity.
  - vm_compute. reflexivity.
  - vm_compute. reflexivity.
  - reflexivity.
  - reflexivity.
Defined.

Lemma custom_count_takes_1_to_200_witness :
  kv (fst (handleUpdate (cm := latin1_case) (host := quiet_host)
             (platform := willing_platform) service_worker_bot
             sample_bot_env (message_update " 42 ")
             (world_with_session (session_at "custom_count"))))
  = assoc_set (js "wiz:5")
      (stored (platform := willing_platform)
         (advanced (session_at "custom_count") "count"
            (JNum (inject_Z 42)) "first_mode"))
      (kv (world_with_session (session_at "custom_count"))).
Proof.
  refine (proj1 (custom_count_takes_1_to_200 (cm := latin1_case)
                   (host := quiet_host) (platform := willing_platform)
                   service_worker_bot sample_bot_env _
                   (message_update " 42 ") (js " 42 ")
                   (session_at "custom_count") _
                   (world_with_session (session_at "custom_count"))
                   _ _ _ _ _ _) 42%Z _ _).
  - reflexivity.
  - vm_compute. reflexivity.
  - vm_compute. reflexivity.
  - vm_compute. reflexivity.
  - vm_compute. reflexivity.
  - vm_compute. reflexivity.
  - vm_compute. reflexivity.
  - vm_compute. reflexivity.
  - lia.
Defined.

Lemma typed_names_are_stored_in_title_case_witness :
  kv (fst (handleUpdate (cm := latin1_case) (host := quiet_host)
             (platform := willing_platform) pages_functions_bot
             sample_bot_env (message_update "  mARY ann ")
             (world_with_session (session_at "fixed_first_input"))))
  = assoc_set (js "wiz:5")
      (stored (platform := willing_platform)
         (advanced (session_at "fixed_first_input") "fixedFirst"
            (JStr (js "Mary Ann")) "last_mode"))
      (kv (world_with_session (session_at "fixed_first_input"))).
Proof.
  refine (proj2 (proj1 (typed_names_are_stored_in_title_case
                          (cm := latin1_case) (host := quiet_host)
                          (platform := willing_platform)
                          pages_functions_bot sample_bot_env _
                          (message_update "  mARY ann ")
                          (js "  mARY ann ")
                          (session_at "fixed_first_input") _
                          (world_with_session
                             (session_at "fixed_first_input"))
                          _ _ _ _ _) _) _).
  - reflexivity.
  - vm_compute. reflexivity.
  - vm_compute. reflexivity.
  - vm_compute. reflexivity.
  - vm_compute. reflexivity.
  - vm_compute. reflexivity.
  - vm_compute. reflexivity.
  - vm_compute. discriminate.
Defined.

Lemma count_buttons_store_what_they_carry_witness :
  kv (fst (handleUpdate (cm := latin1_case) (host := quiet_host)
             (platform := willing_platform) service_worker_bot
             sample_bot_env (callback_update "count:5000")
             (world_with_session (session_at "count"))))
  = assoc_set (js "wiz:5")
      (stored (platform := willing_platform)
         (advanced (session_at "count") "count" (JNum (inject_Z 5000))
            "first_mode"))
      (kv (world_with_session (session_at "count")))
  /\ count_of
       (opt_get
          (get (advanced (session_at "count") "count"
                  (JNum (inject_Z 5000)) "first_mode") (js "options"))
          (js "count"))
     = Some 5000.
Proof.
  refine (count_buttons_store_what_they_carry (cm := latin1_case)
            (host := quiet_host) (platform := willing_platform)
            service_worker_bot sample_bot_env _
            (callback_update "count:5000") (sample_press "count:5000")
            (js "count:5000") (session_at "count") _ 5000%Z
            (world_with_session (session_at "count")) _ _ _ _ _ _ _ _).
  - reflexivity.
  - vm_compute. reflexivity.
  - vm_compute. reflexivity.
  - vm_compute. reflexivity.
  - vm_compute. reflexivity.
  - vm_compute. reflexivity.
  - vm_compute. discriminate.
  - vm_compute. reflexivity.
  - vm_compute. reflexivity.
Defined.

Lemma an_update_touches_the_keys_of_its_sender_witness :
  touches_only (js "auth:5") (js "wiz:5")
    (world_with_session (session_at "count"))
    (fst (handleUpdate (cm := latin1_case) (host := quiet_host)
            (platform := willing_platform) telegram_js_bot sample_bot_env
            (callback_update "cancel")
            (world_with_session (session_at "count")))).
Proof.
  refine (an_update_touches_the_keys_of_its_sender (cm := latin1_case)
            (host := quiet_host) (platform := willing_platform)
            telegram_js_bot sample_bot_env (callback_update "cancel")
            (world_with_session (session_at "count")) _ (inr tt) _ _).
  - vm_compute. reflexivity.
  - discriminate.
Defined.

Lemma only_generate_draws_and_uploads_witness :
  randoms (fst (handleUpdate (cm := latin1_case) (host := quiet_host)
                  (platform := willing_platform) pages_functions_bot
                  sample_bot_env (callback_update "last:random")
                  (world_with_session (session_at "last_mode"))))
  = 0.
Proof.
  refine (proj1 (only_generate_draws_and_uploads (cm := latin1_case)
                   (host := quiet_host) (platform := willing_platform)
                   pages_functions_bot sample_bot_env
                   (callback_update "last:random")
                   (world_with_session (session_at "last_mode")) _)).
  intros c. vm_compute. intros [= <-]. discriminate.
Defined.

Lemma generation_uploads_the_archive_witness :
  exists g zip,
    generateOutputsZip (cm := latin1_case)
      (host := with_sink quiet_host (fun _ _ => false))
      pages_functions sample_env (random_options 2)
      {| random_calls := 0; notified := [] |} = (g, inr zip)
    /\ exists w' before url after,
         handleUpdate (cm := latin1_case) (host := quiet_host)
           (platform := willing_platform) pages_functions_bot
           sample_bot_env (callback_update "do_generate")
           (world_with_session (confirmed_session 2))
         = (w', inr tt)
         /\ kv w' = [(js "auth:5",
                      {| kv_value := js "1"; kv_ttl := None |})]
         /\ randoms w' = random_calls g
         /\ sent w' = before
                      ++ [tg_form url (js "9") zip (js "outputs.zip")]
                      ++ after
         /\ Forall (fun req => carries_document req = false) before
         /\ Forall (fun req => carries_document req = false) after.
Proof.
  eexists. eexists. split; [vm_compute; reflexivity|].
  refine (generation_uploads_the_archive (cm := latin1_case)
            (host := quiet_host) (platform := willing_platform)
            pages_functions_bot sample_bot_env _ _ _
            (callback_update "do_generate") (sample_press "do_generate")
            (confirmed_session 2) _ (random_options 2) _ _
            (world_with_session (confirmed_session 2)) _ _ _ _ _ _ _ _).
  - reflexivity.
  - intros n req. eexists. reflexivity.
  - discriminate.
  - vm_compute. reflexivity.
  - vm_compute. reflexivity.
  - vm_compute. reflexivity.
  - vm_compute. reflexivity.
  - vm_compute. reflexivity.
  - vm_compute. reflexivity.
  - reflexivity.
  - vm_compute. reflexivity.
Defined.

Lemma failed_generation_keeps_the_session_witness :
  exists w' reqs,
    handleUpdate (cm := latin1_case) (host := quiet_host)
      (platform := willing_platform) service_worker_bot
      templateless_bot_env (callback_update "do_generate")
      (world_with_session (confirmed_session 2))
    = (w', inr tt)
    /\ kv w' = kv (world_with_session (confirmed_session 2))
    /\ randoms w' = 0
    /\ sent w' = reqs
    /\ Forall (fun req => carries_document req = false) reqs
    /\ exists reqs0 req,
         reqs = reqs0 ++ [req]
         /\ says (cross_mark ++ js " Error: TEMPLATE_URL not set") req.
Proof.
  destruct (failed_generation_keeps_the_session (cm := latin1_case)
              (host := quiet_host) (platform := willing_platform)
              service_worker_bot templateless_bot_env eq_refl
              (fun n req => ex_intro _ accepted_answer eq_refl)
              (fun _ => eq_refl)
              (callback_update "do_generate") (sample_press "do_generate")
              (confirmed_session 2)
              (JObj [(js "count", JNum (inject_Z 2));
                     (js "firstMode", JStr (js "random"));
                     (js "fixedFirst", JStr []);
                     (js "lastMode", JStr (js "random"));
                     (js "fixedLast", JStr (js "Ahmed"));
                     (js "text2", JStr (js "15/11/2025"))])
              (random_options 2)
              {| random_calls := 0;
                 notified := [downloading_message service_worker] |}
              TemplateUrlNotSet
              (world_with_session (confirmed_session 2))
              eq_refl eq_refl eq_refl eq_refl eq_refl eq_refl eq_refl
              ltac:(discriminate))
    as (w' & reqs & H1 & H2 & H3 & H4 & H5 & H6).
  exists w', reqs. repeat split; try assumption.
  apply H6. intros n req data. vm_compute. intros [= <-] _. reflexivity.
Defined.

Lemma an_undeclared_name_stops_the_upload_witness :
  exists g zip,
    generateOutputsZip (cm := latin1_case)
      (host := with_sink quiet_host (fun _ _ => false))
      telegram_js sample_env (random_options 2)
      {| random_calls := 0; notified := [] |} = (g, inr zip)
    /\ exists w' reqs,
         handleUpdate (cm := latin1_case) (host := quiet_host)
           (platform := willing_platform) telegram_js_bot sample_bot_env
           (callback_update "do_generate")
           (world_with_session (confirmed_session 2))
         = (w', inr tt)
         /\ kv w' = kv (world_with_session (confirmed_session 2))
         /\ randoms w' = random_calls g
         /\ sent w' = reqs
         /\ Forall (fun req => carries_document req = false) reqs.
Proof.
  eexists. eexists. split; [vm_compute; reflexivity|].
  refine ((fun H => match H with
                    | ex_intro _ w' (ex_intro _ reqs
                        (conj H1 (conj H2 (conj H3 (conj H4
                           (conj H5 _)))))) =>
                        ex_intro _ w' (ex_intro _ reqs
                          (conj H1 (conj H2 (conj H3 (conj H4 H5)))))
                    end)
            (an_undeclared_name_stops_the_upload (cm := latin1_case)
               (host := quiet_host) (platform := willing_platform)
               telegram_js_bot sample_bot_env _ _ _
               (callback_update "do_generate") (sample_press "do_generate")
               (confirmed_session 2) _ (random_options 2) _ _
               (world_with_session (confirmed_session 2))
               _ _ _ _ _ _ _ _)).
  - reflexivity.
  - intros n req. eexists. reflexivity.
  - discriminate.
  - vm_compute. reflexivity.
  - vm_compute. reflexivity.
  - vm_compute. reflexivity.
  - vm_compute. reflexivity.
  - vm_compute. reflexivity.
  - vm_compute. reflexivity.
  - reflexivity.
  - vm_compute. reflexivity.
Defined.

Lemma debug_tells_no_secret_witness :
  webhook (cm := latin1_case) (host := quiet_host)
    (platform := willing_platform) service_worker_bot other_bot_env
    {| req_method := js "GET"; req_pathname := js "/debug";
       req_secret := None; req_json := None |} empty_world
  = webhook (cm := latin1_case) (host := quiet_host)
      (platform := willing_platform) service_worker_bot sample_bot_env
      {| req_method := js "GET"; req_pathname := js "/debug";
         req_secret := None; req_json := None |} empty_world.
Proof.
  refine (proj1 (debug_tells_no_secret (cm := latin1_case)
                   (host := quiet_host) (platform := willing_platform)
                   service_worker_bot sample_bot_env other_bot_env
                   {| req_method := js "GET"; req_pathname := js "/debug";
                      req_secret := None; req_json := None |} empty_world
                   _ _ _ _ _ _ _ _)).
  - discriminate.
  - reflexivity.
  - reflexivity.
  - reflexivity.
  - vm_compute. reflexivity.
  - vm_compute. reflexivity.
  - vm_compute. reflexivity.
  - vm_compute. reflexivity.
Defined.

Lemma without_a_store_nothing_is_handled_witness :
  handleUpdate (cm := latin1_case) (host := quiet_host)
    (platform := willing_platform) pages_functions_bot storeless_bot_env
    (message_update "/gen") authorized_world
  = (authorized_world, inl JsTypeError).
Proof.
  refine (proj2 (proj2 (without_a_store_nothing_is_handled
                          (cm := latin1_case) (host := quiet_host)
                          (platform := willing_platform)
                          pages_functions_bot storeless_bot_env
                          (message_update "/gen") authorized_world _) _)
            (js "/gen") _ _ _).
  - reflexivity.
  - reflexivity.
  - vm_compute. reflexivity.
  - vm_compute. reflexivity.
  - vm_compute. reflexivity.
Defined.

Lemma without_a_session_nothing_is_started_witness :
  kv (fst (handleUpdate (cm := latin1_case) (host := quiet_host)
             (platform := willing_platform) service_worker_bot
             sample_bot_env (callback_update "count:10") authorized_world))
  = kv authorized_world
  /\ randoms (fst (handleUpdate (cm := latin1_case) (host := quiet_host)
                     (platform := willing_platform) service_worker_bot
                     sample_bot_env (callback_update "count:10")
                     authorized_world))
     = randoms authorized_world.
Proof.
  refine (proj2 (proj2 (without_a_session_nothing_is_started
                          (cm := latin1_case) (host := quiet_host)
                          (platform := willing_platform)
                          service_worker_bot sample_bot_env _
                          (callback_update "count:10") authorized_world
                          _ _)) _).
  - reflexivity.
  - vm_compute. reflexivity.
  - vm_compute. reflexivity.
  - left. vm_compute. discriminate.
Defined.

Lemma a_cancelled_session_leaves_no_trace_witness :
  kv (fst (handleUpdate (cm := latin1_case) (host := quiet_host)
             (platform := willing_platform) pages_functions_bot
             sample_bot_env (callback_update "cancel")
             (fst (handleUpdate (cm := latin1_case) (host := quiet_host)
                     (platform := willing_platform) pages_functions_bot
                     sample_bot_env (message_update "/gen")
                     authorized_world))))
  = kv authorized_world.
Proof.
  refine (a_cancelled_session_leaves_no_trace (cm := latin1_case)
            (host := quiet_host) (platform := willing_platform)
            pages_functions_bot sample_bot_env _
            (message_update "/gen") (callback_update "cancel")
            (sample_press "cancel") (js "/gen") authorized_world
            _ _ _ _ _ _ _ _).
  - reflexivity.
  - vm_compute. reflexivity.
  - vm_compute. reflexivity.
  - vm_compute. reflexivity.
  - vm_compute. reflexivity.
  - vm_compute. reflexivity.
  - vm_compute. reflexivity.
  - vm_compute. reflexivity.
  - split; [vm_compute; discriminate|vm_compute; reflexivity].
Defined.

Lemma the_buttons_lead_to_the_options_witness :
  options_of
    (get (advanced
            (advanced
               (advanced (new_session (Some sample_chat) (Some sample_user))
                  "count" (JNum (inject_Z 25)) "first_mode")
               "firstMode" (JStr (js "random")) "last_mode")
            "lastMode" (JStr (js "random")) "confirm")
       (js "options"))
  = Some (random_options 25).
Proof.
  refine (proj2 (proj2
            (the_buttons_lead_to_the_options (cm := latin1_case)
               (host := quiet_host) (platform := willing_platform)
               service_worker_bot sample_bot_env _
               (message_update "/gen") (callback_update "count:25")
               (callback_update "first:random")
               (callback_update "last:random")
               (sample_press "count:25") (sample_press "first:random")
               (sample_press "last:random")
               (js "/gen") (js "count:25") (js "first:random")
               (js "last:random") 25%Z authorized_world
               _ _ _ _ _ _ _ _ _ _ _ _ _ _ _ _ _ _ _ _ _ _))).
  - reflexivity.
  - vm_compute. reflexivity.
  - vm_compute. reflexivity.
  - vm_compute. reflexivity.
  - vm_compute. reflexivity.
  - vm_compute. reflexivity.
  - vm_compute. reflexivity.
  - vm_compute. reflexivity.
  - vm_compute. discriminate.
  - vm_compute. reflexivity.
  - vm_compute. reflexivity.
  - vm_compute. reflexivity.
  - vm_compute. discriminate.
  - vm_compute. reflexivity.
  - vm_compute. reflexivity.
  - vm_compute. reflexivity.
  - vm_compute. discriminate.
  - vm_compute. reflexivity.
  - vm_compute. reflexivity.
  - vm_compute. reflexivity.
  - split; [vm_compute; discriminate|vm_compute; reflexivity].
  - split; [vm_compute; discriminate|vm_compute; reflexivity].
  - split; [vm_compute; discriminate|vm_compute; reflexivity].
Defined.

Lemma a_blank_token_silences_the_bot_witness :
  handleUpdate (cm := latin1_case) (host := quiet_host)
    (platform := willing_platform) service_worker_bot tokenless_bot_env
    (message_update "/start") empty_world
  = (empty_world, inl TokenMissing).
Proof.
  refine (proj2 (proj2 (a_blank_token_silences_the_bot (cm := latin1_case)
                          (host := quiet_host)
                          (platform := willing_platform)
                          service_worker_bot tokenless_bot_env _ _
                          (message_update "/start") empty_world))
            _ (js "/start") _ _).
  - reflexivity.
  - reflexivity.
  - reflexivity.
  - vm_compute. reflexivity.
  - vm_compute. reflexivity.
Defined.

(** ** Title case twice, where the case of the words has settled *)

Section SettledWords.

Context {cm : CaseMapping}.

(** What [titleCase] makes of a settled word is a word, which it leaves as
    it is. *)
Lemma settled_capitalize (x : jsstring) :
  settled x ->
  capitalize_word x <> [] /\ no_ws (capitalize_word x) = true
  /\ capitalize_word (capitalize_word x) = capitalize_word x.
Proof.
  intros (u & U & UU & W & NW & LL). unfold capitalize_word. rewrite U.
  cbn [app]. split; [discriminate|]. split.
  - unfold no_ws in *. cbn [forallb]. rewrite W, NW. reflexivity.
  - change (firstn 1 (u :: toLowerCase (skipn 1 x))) with [u].
    change (skipn 1 (u :: toLowerCase (skipn 1 x)))
      with (toLowerCase (skipn 1 x)).
    rewrite UU, LL. reflexivity.
Qed.

Lemma titleCase_settled (by_index : bool) (s : jsstring) :
  Forall settled (words s) ->
  titleCase by_index (titleCase by_index s) = titleCase by_index s.
Proof.
  intros F. rewrite (titleCase_words by_index (titleCase by_index s)).
  rewrite (titleCase_words by_index s). rewrite words_join.
  - rewrite map_map. f_equal. apply map_ext_in. intros x Hx.
    rewrite Forall_forall in F. apply settled_capitalize, F, Hx.
  - rewrite Forall_forall in *. intros y Hy.
    apply in_map_iff in Hy. destruct Hy as (x & <- & Hx).
    destruct (settled_capitalize x (F x Hx)) as (N & W & _).
    split; assumption.
Qed.

(** A text that is not blank has a word. *)
Lemma words_of_text (s : jsstring) : trim s <> [] -> words s <> [].
Proof.
  intros N. rewrite <- (words_trim s).
  destruct (trim_ends s N) as [S _].
  destruct (trim s) as [|c t]; [congruence|]. cbn [starts_ws] in S.
  cbn [words]. rewrite S. destruct t as [|c' t']; [discriminate|].
  destruct (is_ws c'); [discriminate|].
  destruct (words (c' :: t')); discriminate.
Qed.

(** The title case of a text that has a word is not empty, when its words
    are settled. *)
Lemma titleCase_settled_nonempty (by_index : bool) (s : jsstring) :
  words s <> [] -> Forall settled (words s) -> titleCase by_index s <> [].
Proof.
  intros N F. rewrite titleCase_words.
  destruct (words s) as [|x l]; [congruence|].
  inversion F as [|? ? Sx _]; subst.
  destruct (settled_capitalize x Sx) as (Nx & _ & _).
  cbn [map]. destruct (capitalize_word x) eqn:C; [congruence|].
  destruct (map capitalize_word l); cbn [join]; discriminate.
Qed.

(** The words of a text of ASCII characters are settled. *)
Lemma ascii_words_settled (s : jsstring) :
  AsciiCompatible cm -> forallb is_ascii s = true ->
  Forall settled (words s).
Proof.
  intros AC H.
  pose proof (words_forall is_ascii s H) as A.
  pose proof (words_no_ws s) as W.
  pose proof (words_nonempty s) as N.
  rewrite Forall_forall in *. intros x Hx.
  specialize (A x Hx). specialize (W x Hx). specialize (N x Hx).
  destruct x as [|c r]; [congruence|].
  cbn [forallb] in A. apply andb_true_iff in A. destruct A as [Ac Ar].
  unfold no_ws in W. cbn [forallb] in W.
  apply andb_true_iff in W. destruct W as [Wc Wr].
  apply negb_true_iff in Wc.
  assert (Hc : forallb is_ascii [c] = true)
    by (cbn [forallb]; rewrite Ac; reflexivity).
  assert (Hu : forallb is_ascii [ascii_upper c] = true)
    by (cbn [forallb]; rewrite (is_ascii_upper c Ac); reflexivity).
  assert (Hl : forallb is_ascii (map ascii_lower r) = true).
  { rewrite forallb_forall in *. intros y Hy.
    apply in_map_iff in Hy. destruct Hy as (z & <- & Hz).
    apply is_ascii_lower, Ar, Hz. }
  exists (ascii_upper c). cbn [firstn skipn].
  destruct (AC [c] Hc) as [-> _]. destruct (AC _ Hu) as [-> _].
  destruct (AC r Ar) as [_ ->]. destruct (AC _ Hl) as [_ ->].
  cbn [map]. rewrite ascii_upper_idem, is_ws_ascii_upper.
  repeat split; try assumption.
  - unfold no_ws. rewrite forallb_forall in *. intros y Hy.
    apply in_map_iff in Hy. destruct Hy as (z & <- & Hz).
    rewrite is_ws_ascii_lower. apply Wr, Hz.
  - rewrite map_map. apply map_ext. apply ascii_lower_idem.
Qed.

(** So are the words whose first character has an upper case of one
    character, where the conversions of the runtime are idempotent and make
    no white space. *)
Lemma lawful_words_settled (s : jsstring) :
  CaseLaws cm ->
  Forall (fun x => length (toUpperCase (firstn 1 x)) = 1) (words s) ->
  Forall settled (words s).
Proof.
  intros (UU & LL & NW) F.
  pose proof (words_no_ws s) as W.
  pose proof (words_nonempty s) as N.
  rewrite Forall_forall in F, W, N. apply Forall_forall. intros x Hx.
  specialize (F x Hx). specialize (W x Hx). specialize (N x Hx).
  destruct x as [|c r]; [congruence|]. cbn [firstn skipn] in *.
  unfold no_ws in W. cbn [forallb] in W.
  apply andb_true_iff in W. destruct W as [Wc Wr].
  destruct (toUpperCase [c]) as [|u [|u' t]] eqn:U; try discriminate.
  exists u. split; [exact U|]. split; [|split; [|split]].
  - rewrite <- U. apply UU.
  - assert (Nc : no_ws [c] = true)
      by (unfold no_ws; cbn [forallb]; rewrite Wc; reflexivity).
    destruct (NW [c] Nc) as [Nu _]. rewrite U in Nu.
    unfold no_ws in Nu. cbn [forallb] in Nu.
    apply andb_true_iff in Nu. destruct Nu as [Nu _].
    apply negb_true_iff in Nu. exact Nu.
  - apply (NW r). exact Wr.
  - apply LL.
Qed.

End SettledWords.

(** The table [latin1_case] is idempotent and makes no white space. *)
Lemma latin1_upper_unit_idem (c : code_unit) :
  flat_map latin1_upper_unit (latin1_upper_unit c) = latin1_upper_unit c.
Proof.
  unfold latin1_upper_unit at 2 3.
  destruct ((97 <=? c) && (c <=? 122))%N eqn:E1.
  { apply andb_true_iff in E1. destruct E1 as [A B].
    apply N.leb_le in A, B. cbn [flat_map]. rewrite app_nil_r.
    unfold latin1_upper_unit. ncases. }
  destruct (c =? 181)%N eqn:E2; [reflexivity|].
  destruct (c =? 223)%N eqn:E3; [reflexivity|].
  destruct ((224 <=? c) && (c <=? 254) && negb (c =? 247))%N eqn:E4.
  { apply andb_true_iff in E4. destruct E4 as [E4 _].
    apply andb_true_iff in E4. destruct E4 as [A B].
    apply N.leb_le in A, B. cbn [flat_map]. rewrite app_nil_r.
    unfold latin1_upper_unit. ncases. }
  destruct (c =? 255)%N eqn:E5; [reflexivity|].
  cbn [flat_map]. rewrite app_nil_r. unfold latin1_upper_unit.
  rewrite E1, E2, E3, E4, E5. reflexivity.
Qed.

Lemma latin1_lower_unit_idem (c : code_unit) :
  latin1_lower_unit (latin1_lower_unit c) = latin1_lower_unit c.
Proof.
  unfold latin1_lower_unit at 2 3.
  destruct ((65 <=? c) && (c <=? 90))%N eqn:E1.
  { apply andb_true_iff in E1. destruct E1 as [A B].
    apply N.leb_le in A, B. unfold latin1_lower_unit. ncases. }
  destruct ((192 <=? c) && (c <=? 222) && negb (c =? 215))%N eqn:E2.
  { apply andb_true_iff in E2. destruct E2 as [E2 _].
    apply andb_true_iff in E2. destruct E2 as [A B].
    apply N.leb_le in A, B. unfold latin1_lower_unit. ncases. }
  unfold latin1_lower_unit. rewrite E1, E2. reflexivity.
Qed.

Lemma latin1_upper_unit_no_ws (c : code_unit) :
  is_ws c = false -> no_ws (latin1_upper_unit c) = true.
Proof.
  intros W. unfold latin1_upper_unit.
  destruct ((97 <=? c) && (c <=? 122))%N eqn:E1.
  { apply andb_true_iff in E1. destruct E1 as [A B].
    apply N.leb_le in A, B. unfold no_ws, is_ws. cbn [forallb]. ncases. }
  destruct (c =? 181)%N eqn:E2; [reflexivity|].
  destruct (c =? 223)%N eqn:E3; [reflexivity|].
  destruct ((224 <=? c) && (c <=? 254) && negb (c =? 247))%N eqn:E4.
  { apply andb_true_iff in E4. destruct E4 as [E4 _].
    apply andb_true_iff in E4. destruct E4 as [A B].
    apply N.leb_le in A, B. unfold no_ws, is_ws. cbn [forallb]. ncases. }
  destruct (c =? 255)%N eqn:E5; [reflexivity|].
  unfold no_ws. cbn [forallb]. rewrite W. reflexivity.
Qed.

Lemma latin1_lower_unit_no_ws (c : code_unit) :
  is_ws c = false -> is_ws (latin1_lower_unit c) = false.
Proof.
  intros W. unfold latin1_lower_unit.
  destruct ((65 <=? c) && (c <=? 90))%N eqn:E1.
  { apply andb_true_iff in E1. destruct E1 as [A B].
    apply N.leb_le in A, B. unfold is_ws. ncases. }
  destruct ((192 <=? c) && (c <=? 222) && negb (c =? 215))%N eqn:E2.
  { apply andb_true_iff in E2. destruct E2 as [E2 _].
    apply andb_true_iff in E2. destruct E2 as [A B].
    apply N.leb_le in A, B. unfold is_ws. ncases. }
  exact W.
Qed.

Lemma latin1_case_laws : CaseLaws latin1_case.
Proof.
  split; [|split].
  - intros s. cbn [toUpperCase latin1_case].
    induction s as [|c r IH]; [reflexivity|]. cbn [flat_map].
    rewrite flat_map_app, IH, latin1_upper_unit_idem. reflexivity.
  - intros s. cbn [toLowerCase latin1_case]. rewrite map_map.
    apply map_ext. apply latin1_lower_unit_idem.
  - intros s. cbn [toUpperCase toLowerCase latin1_case]. unfold no_ws.
    induction s as [|c r IH]; [split; reflexivity|].
    cbn [forallb flat_map map]. rewrite andb_true_iff, negb_true_iff.
    intros [Wc Wr]. destruct (IH Wr) as [IU IL]. split.
    + rewrite forallb_app, IU, andb_true_r.
      apply latin1_upper_unit_no_ws. exact Wc.
    + rewrite IL, (latin1_lower_unit_no_ws c Wc). reflexivity.
Qed.

(** ** The fixed name, from the wizard to the units *)

Section NameShown.

Context {cm : CaseMapping} {host : Host} {platform : Platform}.
Variable bot : Bot.
Variable env : BotEnv.
Hypothesis KV : KV_bound env = true.

Local Ltac quietly :=
  repeat first
    [ apply (keeps_done quiet quiet_refl)
    | apply (keeps_fail quiet quiet_refl)
    | apply (keeps_check quiet quiet_refl)
    | apply (keeps_tgSend bot env quiet (quiet_calls bot env))
    | apply (keeps_tgAnswerCb bot env quiet (quiet_calls bot env))
    | match goal with
      | |- keeps _ (andThen _ _) =>
          apply (keeps_andThen quiet quiet_trans); [|intros ?]
      | |- forall _, keeps _ _ => intros ?
      end ].

(** The step of the wizard that takes the last name, when the text is a
    name: the session is stored with the name in title case, and the
    confirmation is sent for its options. *)
Lemma last_name_typed_run (update : json) (text : jsstring) (wiz : json)
  (fields : list (jsstring * json)) (w : bot_world) :
  authorized w (auth_key (user_of update)) = true ->
  plain_text update = Some text ->
  session w (user_of update) = Some wiz ->
  get wiz (js "step") = Some (JStr (js "fixed_last_input")) ->
  get wiz (js "options") = Some (JObj fields) ->
  trim text <> [] -> toLowerCase (trim text) <> js "random" ->
  let last := titleCase (first_by_index (generation bot)) (trim text) in
  let wiz' := advanced wiz "fixedLast" (JStr last) "confirm" in
  handleUpdate bot env update w
  = (_ <- tgSend bot env (chat_of update)
            (summary (JObj (assoc_set (js "fixedLast") (JStr last) fields)))
            confirm_keyboard ;;
     done tt)%bot
      {| kv := assoc_set (wiz_key (user_of update)) (stored wiz') (kv w);
         sent := sent w; randoms := randoms w |}.
Proof.
  intros Au P Se St Go E L last wiz'.
  rewrite (handleUpdate_typed bot env KV _ _ _ _ Au P Se).
  unfold typed_step.
  rewrite andThen_check, (step_of_step _ _ St).
  rewrite !is_step_step. cbn [String.eqb Ascii.eqb Bool.eqb].
  cbv iota zeta.
  destruct (trim text) as [|c0 r0] eqn:T; [congruence|].
  cbn [is_empty]. apply jsstring_eqb_neq in L. rewrite L.
  rewrite (advance_run env KV _ _ _ _ _ _ _ _ Go eq_refl).
  rewrite andThen_check.
  assert (O : options_json
                (advanced wiz "fixedLast"
                   (JStr (titleCase (first_by_index (generation bot))
                            (c0 :: r0))) "confirm")
              = inr (Some (JObj (assoc_set (js "fixedLast")
                                   (JStr (titleCase
                                            (first_by_index (generation bot))
                                            (c0 :: r0))) fields)))).
  { pose proof (get_advanced_options wiz fields "fixedLast"
                  (JStr (titleCase (first_by_index (generation bot))
                           (c0 :: r0))) "confirm" Go) as G.
    unfold options_json.
    destruct (advanced wiz "fixedLast" _ "confirm");
      try discriminate; rewrite <- G; reflexivity. }
  rewrite O. reflexivity.
Qed.

(** A message leaves one request when the token is bound where the code
    asks for it. *)
Lemma tgSend_sends (chat_id : option json) (text : jsstring)
  (extra : list (jsstring * json)) (w : bot_world) :
  (checks_token bot = true -> is_set (TELEGRAM_BOT_TOKEN env) = true) ->
  exists url payload,
    sent (fst ((_ <- tgSend bot env chat_id text extra ;; done tt)%bot w))
    = sent w ++ [tg_json url payload]
    /\ get payload (js "text") = Some (JStr text).
Proof.
  intros Tk. unfold andThen, tgSend, tgCall, requesting, tgCall_at.
  destruct (checks_token bot).
  - specialize (Tk eq_refl). unfold is_set in Tk.
    apply negb_true_iff in Tk. rewrite Tk.
    change (is_empty (strip_slashes (trim (js "sendMessage"))))
      with false.
    cbv iota. unfold post_at.
    do 2 eexists. split.
    + match goal with
      | |- context [match ?t with Accepted _ => _ | _ => _ end] =>
          destruct t
      end; reflexivity.
    + apply send_payload_text.
  - unfold post_at. do 2 eexists. split.
    + match goal with
      | |- context [match ?t with Accepted _ => _ | _ => _ end] =>
          destruct t
      end; reflexivity.
    + apply send_payload_text.
Qed.

(** The text of the confirmation when both names are fixed. *)
Lemma summary_fixed (fields : list (jsstring * json))
  (first last : jsstring) :
  assoc_get (js "firstMode") fields = Some (JStr (js "fixed")) ->
  assoc_get (js "lastMode") fields = Some (JStr (js "fixed")) ->
  assoc_get (js "fixedFirst") fields = Some (JStr first) ->
  assoc_get (js "fixedLast") fields = Some (JStr last) ->
  summary (JObj fields)
  = fixed_confirmation (template (assoc_get (js "count") fields))
      (template (assoc_get (js "text2") fields)) first last.
Proof.
  intros M1 M2 F L. unfold summary, fixed_confirmation. cbn [get].
  rewrite M1, M2, F, L, jsstring_eqb_refl. cbn [template ToString].
  change (js " first: fixed (") with (js " first: " ++ js "fixed" ++ js " (").
  change (js " last: fixed (") with (js " last: " ++ js "fixed" ++ js " (").
  rewrite <- !app_assoc. reflexivity.
Qed.

(** The step of the wizard that takes the first name, when the text is
    not blank. *)
Lemma first_name_typed_run (update : json) (text : jsstring) (wiz : json)
  (fields : list (jsstring * json)) (w : bot_world) :
  authorized w (auth_key (user_of update)) = true ->
  plain_text update = Some text ->
  session w (user_of update) = Some wiz ->
  get wiz (js "step") = Some (JStr (js "fixed_first_input")) ->
  get wiz (js "options") = Some (JObj fields) ->
  trim text <> [] ->
  kv (fst (handleUpdate bot env update w))
  = assoc_set (wiz_key (user_of update))
      (stored (advanced wiz "fixedFirst"
                 (JStr (titleCase (first_by_index (generation bot))
                          (trim text))) "last_mode"))
      (kv w).
Proof.
  intros Au P Se St Go E.
  rewrite (handleUpdate_typed bot env KV _ _ _ _ Au P Se).
  unfold typed_step.
  rewrite andThen_check, (step_of_step _ _ St).
  rewrite !is_step_step. cbn [String.eqb Ascii.eqb Bool.eqb].
  cbv iota zeta.
  destruct (trim text) as [|c0 r0] eqn:T; [congruence|].
  cbn [is_empty].
  rewrite (advance_run env KV _ _ _ _ _ _ _ _ Go eq_refl).
  unfold sendLastModeMenu.
  destruct (andThen _ _ _) as [w1 r1] eqn:R.
  apply (keeps_andThen quiet quiet_trans) in R.
  - cbn [fst]. destruct R as [R _]. rewrite R. reflexivity.
  - apply (keeps_tgSend bot env quiet (quiet_calls bot env)).
  - intros ?. apply (keeps_done quiet quiet_refl).
Qed.

(** A press of the button fixed of the menu of the first or of the last
    name: the mode is stored, and the wizard waits for the name. *)
Lemma fixed_press_run (first : bool) (update c : json) (wiz : json)
  (fields : list (jsstring * json)) (w : bot_world) :
  authorized w (auth_key (user_of update)) = true ->
  callback_of update = Some c ->
  get c (js "data")
  = Some (JStr (js (if first then "first:fixed" else "last:fixed"))) ->
  session w (user_of update) = Some wiz ->
  get wiz (js "options") = Some (JObj fields) ->
  kv (fst (handleUpdate bot env update w))
  = assoc_set (wiz_key (user_of update))
      (stored (advanced wiz (if first then "firstMode" else "lastMode")
                 (JStr (js "fixed"))
                 (if first then "fixed_first_input"
                  else "fixed_last_input")))
      (kv w).
Proof.
  intros Au C D Se Go.
  assert (Ne : js (if first then "first:fixed" else "last:fixed") <> [])
    by (destruct first; vm_compute; discriminate).
  rewrite (handleUpdate_pressed bot env KV _ _ _ _ _ Au C D Ne Se).
  unfold callback_step. cbv zeta.
  destruct first.
  - change (startsWith (js "count:") (js "first:fixed")) with false.
    change (startsWith (js "first:") (js "first:fixed")) with true.
    change (nth 1 (split_on 58%N (js "first:fixed")) []) with (js "fixed").
    cbv iota.
    rewrite andThen_check, (set_option_advances _ _ _ _ Go eq_refl).
    rewrite jsstring_eqb_refl.
    rewrite andThen_check, (set_step_advances _ _ _ Go).
    unfold save_session. rewrite (andThen_kv_put env KV).
    rewrite kv_after_requests; [|quietly|quietly].
    unfold advanced, stored. rewrite Go. reflexivity.
  - change (startsWith (js "count:") (js "last:fixed")) with false.
    change (startsWith (js "first:") (js "last:fixed")) with false.
    change (startsWith (js "last:") (js "last:fixed")) with true.
    change (nth 1 (split_on 58%N (js "last:fixed")) []) with (js "fixed").
    cbv iota.
    rewrite andThen_check, (set_option_advances _ _ _ _ Go eq_refl).
    rewrite jsstring_eqb_refl.
    rewrite andThen_check, (set_step_advances _ _ _ Go).
    unfold save_session. rewrite (andThen_kv_put env KV).
    rewrite kv_after_requests; [|quietly|quietly].
    unfold advanced, stored. rewrite Go. reflexivity.
Qed.

(** The name of the options is no index of an array. *)
Lemma options_no_index (n : nat) : array_index (js "options") n = None.
Proof.
  destruct (array_index (js "options") n) as [i|] eqn:E; [|reflexivity].
  apply array_index_Some in E. destruct E as [_ E].
  pose proof (String_of_nat_digits i) as D. rewrite <- E in D.
  vm_compute in D. discriminate.
Qed.

(** The step of a session that has moved on. *)
Lemma get_advanced_step (wiz o : json) (k : string) (v : json)
  (step : string) :
  get wiz (js "options") = Some o ->
  get (advanced wiz k v step) (js "step") = Some (JStr (js step)).
Proof.
  intros Go. unfold advanced. rewrite Go.
  destruct wiz; try discriminate.
  - cbn [get] in Go. rewrite options_no_index in Go. discriminate.
  - cbn [put get]. apply assoc_get_set_same.
Qed.

(** The last name typed when both names are fixed: what is stored, what
    the confirmation shows and what the generator makes of the options. *)
Lemma last_name_shown (update : json) (text : jsstring) (wiz : json)
  (fields : list (jsstring * json)) (a : jsstring) (w : bot_world) :
  authorized w (auth_key (user_of update)) = true ->
  plain_text update = Some text ->
  session w (user_of update) = Some wiz ->
  get wiz (js "step") = Some (JStr (js "fixed_last_input")) ->
  get wiz (js "options") = Some (JObj fields) ->
  assoc_get (js "firstMode") fields = Some (JStr (js "fixed")) ->
  assoc_get (js "lastMode") fields = Some (JStr (js "fixed")) ->
  assoc_get (js "fixedFirst") fields
  = Some (JStr (titleCase (first_by_index (generation bot)) a)) ->
  trim text <> [] -> toLowerCase (trim text) <> js "random" ->
  Forall settled (words a) -> Forall settled (words text) ->
  let first := titleCase (first_by_index (generation bot)) a in
  let last := titleCase (first_by_index (generation bot)) (trim text) in
  let wiz' := advanced wiz "fixedLast" (JStr last) "confirm" in
  let shown := JObj (assoc_set (js "fixedLast") (JStr last) fields) in
  let w' := fst (handleUpdate bot env update w) in
  kv w' = assoc_set (wiz_key (user_of update)) (stored wiz') (kv w)
  /\ get wiz' (js "options") = Some shown
  /\ (exists reqs,
        sent w' = sent w ++ reqs /\ length reqs <= 1
        /\ Forall (says (summary shown)) reqs)
  /\ ((checks_token bot = true -> is_set (TELEGRAM_BOT_TOKEN env) = true) ->
      exists url payload,
        sent w' = sent w ++ [tg_json url payload]
        /\ get payload (js "text") = Some (JStr (summary shown)))
  /\ summary shown
     = fixed_confirmation (template (assoc_get (js "count") fields))
         (template (assoc_get (js "text2") fields)) first last
  /\ (forall options,
        options_of (Some shown) = Some options ->
        forall w0, exists w1 r,
          nextRecord (generation bot) options w0 = (w1, inr r)
          /\ fullName r = trim (first ++ js " " ++ last)).
Proof.
  intros Au P Se St Go M1 M2 Fi E L Sa St' first last wiz' shown w'.
  assert (Ne : js "fixedLast" <> js "firstMode"
               /\ js "fixedLast" <> js "lastMode"
               /\ js "fixedLast" <> js "fixedFirst"
               /\ js "fixedLast" <> js "count"
               /\ js "fixedLast" <> js "text2")
    by (repeat split; intros Q; apply js_inj in Q; discriminate).
  destruct Ne as (N1 & N2 & N3 & N4 & N5).
  assert (Su : summary shown
               = fixed_confirmation
                   (template (assoc_get (js "count") fields))
                   (template (assoc_get (js "text2") fields)) first last).
  { unfold shown.
    rewrite (summary_fixed _ first last).
    - rewrite (assoc_get_set_other _ _ _ _ N4),
        (assoc_get_set_other _ _ _ _ N5). reflexivity.
    - rewrite assoc_get_set_other by assumption. exact M1.
    - rewrite assoc_get_set_other by assumption. exact M2.
    - rewrite assoc_get_set_other by assumption. exact Fi.
    - apply assoc_get_set_same. }
  pose proof (last_name_typed_run update text wiz fields w
                Au P Se St Go E L) as Run.
  cbv zeta in Run. fold last in Run. fold wiz' in Run. fold shown in Run.
  split; [|split; [|split; [|split; [|split]]]].
  - unfold w'. rewrite Run.
    destruct (andThen _ _ _) as [w1 r1] eqn:R.
    apply (keeps_andThen quiet quiet_trans) in R.
    + cbn [fst]. destruct R as [R _]. rewrite R. reflexivity.
    + apply (keeps_tgSend bot env quiet (quiet_calls bot env)).
    + intros ?. apply (keeps_done quiet quiet_refl).
  - apply get_advanced_options. exact Go.
  - unfold w'. rewrite Run.
    match goal with
    | |- context [andThen ?m ?k ?w1] =>
        destruct (notice_run bot env (chat_of update) (summary shown)
                    confirm_keyboard w1) as [_ Q]
    end.
    exact Q.
  - intros Tk. unfold w'. rewrite Run.
    match goal with
    | |- context [andThen ?m ?k ?w1] =>
        destruct (tgSend_sends (chat_of update) (summary shown)
                    confirm_keyboard w1 Tk) as (url & payload & Q)
    end.
    exists url, payload. exact Q.
  - exact Su.
  - intros options O w0. unfold shown in O.
    rewrite options_of_fields in O.
    rewrite (assoc_get_set_other _ _ _ _ N1),
      (assoc_get_set_other _ _ _ _ N2), (assoc_get_set_other _ _ _ _ N3),
      (assoc_get_set_other _ _ _ _ N4), (assoc_get_set_other _ _ _ _ N5),
      assoc_get_set_same, M1, M2, Fi in O.
    cbn [text_or_empty mode_of] in O.
    destruct (count_of _); [|discriminate].
    destruct (text_or_empty _); [|discriminate].
    injection O as <-.
    match goal with
    | |- context [nextRecord _ ?o _] =>
        destruct (nextRecord_run (generation bot) o w0)
          as (r & w1 & R & _)
    end.
    exists w1, r. split; [exact R|].
    rewrite (fun A B => nextRecord_fixed (generation bot) _ w0 w1 r
                          A B R) by reflexivity.
    cbn [fixedFirst fixedLast]. fold first. fold last.
    assert (Nl : last <> []).
    { unfold last. apply titleCase_settled_nonempty.
      - rewrite words_trim. apply words_of_text. exact E.
      - rewrite words_trim. exact St'. }
    unfold or_default. destruct last as [|c l] eqn:El; [congruence|].
    cbn [is_empty]. rewrite <- El. unfold first at 1. unfold last at 1.
    rewrite (titleCase_settled _ a Sa).
    rewrite (titleCase_settled _ (trim text))
      by (rewrite words_trim; exact St').
    reflexivity.
Qed.

(** The conversation that fixes both names, from the button of the first
    name to the confirmation. *)
Lemma fixed_names_conversation (p1 m1 p2 m2 c1 c2 : json)
  (t1 t2 : jsstring) (wiz : json) (fields : list (jsstring * json))
  (w0 : bot_world) :
  let user := user_of p1 in
  let first := titleCase (first_by_index (generation bot)) (trim t1) in
  let last := titleCase (first_by_index (generation bot)) (trim t2) in
  let s1 := advanced wiz "firstMode" (JStr (js "fixed"))
              "fixed_first_input" in
  let s2 := advanced s1 "fixedFirst" (JStr first) "last_mode" in
  let s3 := advanced s2 "lastMode" (JStr (js "fixed"))
              "fixed_last_input" in
  let s4 := advanced s3 "fixedLast" (JStr last) "confirm" in
  let w1 := fst (handleUpdate bot env p1 w0) in
  let w2 := fst (handleUpdate bot env m1 w1) in
  let w3 := fst (handleUpdate bot env p2 w2) in
  let w4 := fst (handleUpdate bot env m2 w3) in
  authorized w0 (auth_key user) = true ->
  session w0 user = Some wiz ->
  get wiz (js "options") = Some (JObj fields) ->
  callback_of p1 = Some c1 ->
  get c1 (js "data") = Some (JStr (js "first:fixed")) ->
  plain_text m1 = Some t1 -> trim t1 <> [] ->
  callback_of p2 = Some c2 ->
  get c2 (js "data") = Some (JStr (js "last:fixed")) ->
  plain_text m2 = Some t2 -> trim t2 <> [] ->
  toLowerCase (trim t2) <> js "random" ->
  user_of m1 = user -> user_of p2 = user -> user_of m2 = user ->
  reads_back s1 -> reads_back s2 -> reads_back s3 ->
  Forall settled (words t1) -> Forall settled (words t2) ->
  assoc_get (wiz_key user) (kv w4) = Some (stored s4)
  /\ (exists shown,
        get s4 (js "options") = Some shown
        /\ summary shown
           = fixed_confirmation (template (assoc_get (js "count") fields))
               (template (assoc_get (js "text2") fields)) first last
        /\ (exists reqs,
              sent w4 = sent w3 ++ reqs /\ length reqs <= 1
              /\ Forall (says (summary shown)) reqs)
        /\ ((checks_token bot = true ->
             is_set (TELEGRAM_BOT_TOKEN env) = true) ->
            exists url payload,
              sent w4 = sent w3 ++ [tg_json url payload]
              /\ get payload (js "text") = Some (JStr (summary shown)))
        /\ (forall options,
              options_of (Some shown) = Some options ->
              forall w, exists w' r,
                nextRecord (generation bot) options w = (w', inr r)
                /\ fullName r = trim (first ++ js " " ++ last))).
Proof.
  intros user first last s1 s2 s3 s4 w1 w2 w3 w4 Au Se Go C1 D1 P1 E1
    C2 D2 P2 E2 L2 U1 U2 U3 R1 R2 R3 S1 S2.
  pose proof (get_advanced_options _ _ "firstMode" (JStr (js "fixed"))
                "fixed_first_input" Go) as O1. fold s1 in O1.
  pose proof (get_advanced_options _ _ "fixedFirst" (JStr first)
                "last_mode" O1) as O2. fold s2 in O2.
  pose proof (get_advanced_options _ _ "lastMode" (JStr (js "fixed"))
                "fixed_last_input" O2) as O3. fold s3 in O3.
  assert (K1 : kv w1 = assoc_set (wiz_key user) (stored s1) (kv w0))
    by exact (fixed_press_run true _ _ _ _ _ Au C1 D1 Se Go).
  destruct (saved_session _ _ _ _ K1 R1 Au) as (Au1 & Se1).
  assert (K2 : kv w2 = assoc_set (wiz_key user) (stored s2) (kv w1)).
  { unfold w2. rewrite <- U1 in Au1, Se1 |- *.
    exact (first_name_typed_run _ _ _ _ _ Au1 P1 Se1
             (get_advanced_step _ _ _ _ _ Go) O1 E1). }
  destruct (saved_session _ _ _ _ K2 R2 Au1) as (Au2 & Se2).
  assert (K3 : kv w3 = assoc_set (wiz_key user) (stored s3) (kv w2)).
  { unfold w3. rewrite <- U2 in Au2, Se2 |- *.
    exact (fixed_press_run false _ _ _ _ _ Au2 C2 D2 Se2 O2). }
  destruct (saved_session _ _ _ _ K3 R3 Au2) as (Au3 & Se3).
  assert (Ne : forall a b : string, a <> b -> js a <> js b)
    by (intros a b N Q; apply js_inj in Q; congruence).
  assert (M1 : assoc_get (js "firstMode")
                 (assoc_set (js "lastMode") (JStr (js "fixed"))
                    (assoc_set (js "fixedFirst") (JStr first)
                       (assoc_set (js "firstMode") (JStr (js "fixed"))
                          fields)))
               = Some (JStr (js "fixed"))).
  { rewrite !assoc_get_set_other by (apply Ne; discriminate).
    apply assoc_get_set_same. }
  assert (M2 : assoc_get (js "lastMode")
                 (assoc_set (js "lastMode") (JStr (js "fixed"))
                    (assoc_set (js "fixedFirst") (JStr first)
                       (assoc_set (js "firstMode") (JStr (js "fixed"))
                          fields)))
               = Some (JStr (js "fixed")))
    by apply assoc_get_set_same.
  assert (Fi : assoc_get (js "fixedFirst")
                 (assoc_set (js "lastMode") (JStr (js "fixed"))
                    (assoc_set (js "fixedFirst") (JStr first)
                       (assoc_set (js "firstMode") (JStr (js "fixed"))
                          fields)))
               = Some (JStr first)).
  { rewrite assoc_get_set_other by (apply Ne; discriminate).
    apply assoc_get_set_same. }
  assert (S1' : Forall settled (words (trim t1)))
    by (rewrite words_trim; exact S1).
  rewrite <- U3 in Au3, Se3.
  destruct (last_name_shown m2 t2 s3 _ (trim t1) w3 Au3 P2 Se3
              (get_advanced_step _ _ _ _ _ O2) O3 M1 M2 Fi E2 L2 S1' S2)
    as (K4 & G4 & Q1 & Q2 & Su & NR).
  split.
  - unfold w4. rewrite K4, U3. apply assoc_get_set_same.
  - eexists. split; [exact G4|]. split; [|split; [exact Q1|split]].
    + rewrite Su.
      rewrite !assoc_get_set_other by (apply Ne; discriminate).
      reflexivity.
    + exact Q2.
    + exact NR.
Qed.

End NameShown.

(** C10, as the code has it: [titleCase] is not idempotent on every text
    (the counterexample above), and it is on every text whose words are
    settled: the upper case of the first character of the word is one
    character, which is no white space and is its own upper case, and the
    lower case of the remainder holds no white space and is its own lower
    case.  The words of every text of ASCII characters are settled, and so
    are, where the case conversions of the runtime are idempotent and make
    no white space, the words whose first character has an upper case of
    one character.  For names of such words the wizard and the generator
    agree.  A first name typed at its step is stored as its title case,
    trimmed.  When both names are fixed and the last name is typed, the
    session is stored with the title case [L] of the text, trimmed, next to
    the stored first name [F]; the confirmation that is sent shows
    fixed ([F]) for the first name and fixed ([L]) for the last; and every
    record that the generator makes from the options of that session bears
    the full name of [F], a space and [L], trimmed.  So it is at the end of
    the conversation that fixes both names: the button fixed of the first
    name, the first name, the button fixed of the last name and the last
    name. *)
Theorem C10_titleCase_idempotent_on_settled_words {cm : CaseMapping}
  {host : Host} {platform : Platform} (bot : Bot) (env : BotEnv) :
  (forall by_index s,
     Forall settled (words s) ->
     titleCase by_index (titleCase by_index s) = titleCase by_index s)
  /\ (AsciiCompatible cm ->
      forall by_index s, forallb is_ascii s = true ->
        Forall settled (words s)
        /\ titleCase by_index (titleCase by_index s) = titleCase by_index s)
  /\ (CaseLaws cm ->
      forall by_index s,
        Forall (fun x => length (toUpperCase (firstn 1 x)) = 1) (words s) ->
        Forall settled (words s)
        /\ titleCase by_index (titleCase by_index s) = titleCase by_index s)
  /\ (forall update text wiz fields w,
        KV_bound env = true ->
        authorized w (auth_key (user_of update)) = true ->
        plain_text update = Some text ->
        session w (user_of update) = Some wiz ->
        get wiz (js "step") = Some (JStr (js "fixed_first_input")) ->
        get wiz (js "options") = Some (JObj fields) ->
        trim text <> [] ->
        let first :=
          titleCase (first_by_index (generation bot)) (trim text) in
        let wiz' := advanced wiz "fixedFirst" (JStr first) "last_mode" in
        kv (fst (handleUpdate bot env update w))
        = assoc_set (wiz_key (user_of update)) (stored wiz') (kv w)
        /\ opt_get (get wiz' (js "options")) (js "fixedFirst")
           = Some (JStr first))
  /\ (forall update text wiz fields a w,
        KV_bound env = true ->
        authorized w (auth_key (user_of update)) = true ->
        plain_text update = Some text ->
        session w (user_of update) = Some wiz ->
        get wiz (js "step") = Some (JStr (js "fixed_last_input")) ->
        get wiz (js "options") = Some (JObj fields) ->
        assoc_get (js "firstMode") fields = Some (JStr (js "fixed")) ->
        assoc_get (js "lastMode") fields = Some (JStr (js "fixed")) ->
        assoc_get (js "fixedFirst") fields
        = Some (JStr (titleCase (first_by_index (generation bot)) a)) ->
        trim text <> [] -> toLowerCase (trim text) <> js "random" ->
        Forall settled (words a) -> Forall settled (words text) ->
        let first := titleCase (first_by_index (generation bot)) a in
        let last :=
          titleCase (first_by_index (generation bot)) (trim text) in
        let wiz' := advanced wiz "fixedLast" (JStr last) "confirm" in
        let shown :=
          JObj (assoc_set (js "fixedLast") (JStr last) fields) in
        let w' := fst (handleUpdate bot env update w) in
        kv w' = assoc_set (wiz_key (user_of update)) (stored wiz') (kv w)
        /\ get wiz' (js "options") = Some shown
        /\ (exists reqs,
              sent w' = sent w ++ reqs /\ length reqs <= 1
              /\ Forall (says (summary shown)) reqs)
        /\ ((checks_token bot = true ->
             is_set (TELEGRAM_BOT_TOKEN env) = true) ->
            exists url payload,
              sent w' = sent w ++ [tg_json url payload]
              /\ get payload (js "text") = Some (JStr (summary shown)))
        /\ summary shown
           = fixed_confirmation
               (template (assoc_get (js "count") fields))
               (template (assoc_get (js "text2") fields)) first last
        /\ (forall options,
              options_of (Some shown) = Some options ->
              forall w0, exists w1 r,
                nextRecord (generation bot) options w0 = (w1, inr r)
                /\ fullName r = trim (first ++ js " " ++ last)))
  /\ (forall p1 m1 p2 m2 c1 c2 t1 t2 wiz fields w0,
        KV_bound env = true ->
        let user := user_of p1 in
        let first :=
          titleCase (first_by_index (generation bot)) (trim t1) in
        let last :=
          titleCase (first_by_index (generation bot)) (trim t2) in
        let s1 := advanced wiz "firstMode" (JStr (js "fixed"))
                    "fixed_first_input" in
        let s2 := advanced s1 "fixedFirst" (JStr first) "last_mode" in
        let s3 := advanced s2 "lastMode" (JStr (js "fixed"))
                    "fixed_last_input" in
        let s4 := advanced s3 "fixedLast" (JStr last) "confirm" in
        let w1 := fst (handleUpdate bot env p1 w0) in
        let w2 := fst (handleUpdate bot env m1 w1) in
        let w3 := fst (handleUpdate bot env p2 w2) in
        let w4 := fst (handleUpdate bot env m2 w3) in
        authorized w0 (auth_key user) = true ->
        session w0 user = Some wiz ->
        get wiz (js "options") = Some (JObj fields) ->
        callback_of p1 = Some c1 ->
        get c1 (js "data") = Some (JStr (js "first:fixed")) ->
        plain_text m1 = Some t1 -> trim t1 <> [] ->
        callback_of p2 = Some c2 ->
        get c2 (js "data") = Some (JStr (js "last:fixed")) ->
        plain_text m2 = Some t2 -> trim t2 <> [] ->
        toLowerCase (trim t2) <> js "random" ->
        user_of m1 = user -> user_of p2 = user -> user_of m2 = user ->
        reads_back s1 -> reads_back s2 -> reads_back s3 ->
        Forall settled (words t1) -> Forall settled (words t2) ->
        assoc_get (wiz_key user) (kv w4) = Some (stored s4)
        /\ (exists shown,
              get s4 (js "options") = Some shown
              /\ summary shown
                 = fixed_confirmation
                     (template (assoc_get (js "count") fields))
                     (template (assoc_get (js "text2") fields)) first last
              /\ (exists reqs,
                    sent w4 = sent w3 ++ reqs /\ length reqs <= 1
                    /\ Forall (says (summary shown)) reqs)
              /\ ((checks_token bot = true ->
                   is_set (TELEGRAM_BOT_TOKEN env) = true) ->
                  exists url payload,
                    sent w4 = sent w3 ++ [tg_json url payload]
                    /\ get payload (js "text")
                       = Some (JStr (summary shown)))
              /\ (forall options,
                    options_of (Some shown) = Some options ->
                    forall w, exists w' r,
                      nextRecord (generation bot) options w = (w', inr r)
                      /\ fullName r = trim (first ++ js " " ++ last)))).
Proof.
  split; [|split; [|split; [|split; [|split]]]].
  - intros by_index s F. apply titleCase_settled; exact F.
  - intros AC by_index s A.
    pose proof (ascii_words_settled s AC A) as F.
    split; [exact F|apply titleCase_settled; exact F].
  - intros CL by_index s U.
    pose proof (lawful_words_settled s CL U) as F.
    split; [exact F|apply titleCase_settled; exact F].
  - intros update text wiz fields w KV Au P Se St Go E first wiz'. split.
    + exact (first_name_typed_run bot env KV _ _ _ _ _ Au P Se St Go E).
    + unfold wiz'.
      rewrite (get_advanced_options _ _ _ _ _ Go). cbn [opt_get get].
      apply assoc_get_set_same.
  - intros update text wiz fields a w KV.
    exact (last_name_shown bot env KV update text wiz fields a w).
  - intros p1 m1 p2 m2 c1 c2 t1 t2 wiz fields w0 KV.
    exact (fixed_names_conversation bot env KV p1 m1 p2 m2 c1 c2 t1 t2
             wiz fields w0).
Qed.

Lemma C10_witness :
  let run update w :=
    fst (handleUpdate (cm := latin1_case) (host := quiet_host)
           (platform := willing_platform) service_worker_bot
           sample_bot_env update w) in
  let w3 :=
    run (callback_update "last:fixed")
      (run (text_update sample_first_name)
         (run (callback_update "first:fixed")
            (world_with_session (session_at "first_mode")))) in
  let w4 := run (message_update "  van der BERG ") w3 in
  titleCase (cm := latin1_case) true sample_first_name
  = sample_first_name_stored
  /\ (exists url payload,
        sent w4 = sent w3 ++ [tg_json url payload]
        /\ get payload (js "text")
           = Some (JStr (fixed_confirmation (js "10") (js "15/11/2025")
                           sample_first_name_stored (js "Van Der Berg"))))
  /\ (forall w, exists w' r,
        nextRecord (cm := latin1_case) (host := quiet_host) service_worker
          {| count := 10; firstMode := js "fixed";
             fixedFirst := sample_first_name_stored;
             lastMode := js "fixed"; fixedLast := js "Van Der Berg";
             text2 := js "15/11/2025" |} w
        = (w', inr r)
        /\ fullName r = sample_first_name_stored ++ js " Van Der Berg").
Proof.
  intros run w3 w4.
  unshelve epose proof
    (proj2 (proj2 (proj2 (proj2 (proj2
       (C10_titleCase_idempotent_on_settled_words (cm := latin1_case)
          (host := quiet_host) (platform := willing_platform)
          service_worker_bot sample_bot_env)))))
       (callback_update "first:fixed") (text_update sample_first_name)
       (callback_update "last:fixed") (message_update "  van der BERG ")
       (sample_press "first:fixed") (sample_press "last:fixed")
       sample_first_name (js "  van der BERG ")
       (session_at "first_mode") default_fields
       (world_with_session (session_at "first_mode"))
       _ _ _ _ _ _ _ _ _ _ _ _ _ _ _ _ _ _ _ _ _) as H.
  - reflexivity.
  - vm_compute. reflexivity.
  - vm_compute. reflexivity.
  - vm_compute. reflexivity.
  - vm_compute. reflexivity.
  - vm_compute. reflexivity.
  - vm_compute. reflexivity.
  - vm_compute. discriminate.
  - vm_compute. reflexivity.
  - vm_compute. reflexivity.
  - vm_compute. reflexivity.
  - vm_compute. discriminate.
  - vm_compute. discriminate.
  - vm_compute. reflexivity.
  - vm_compute. reflexivity.
  - vm_compute. reflexivity.
  - split; [vm_compute; discriminate|vm_compute; reflexivity].
  - split; [vm_compute; discriminate|vm_compute; reflexivity].
  - split; [vm_compute; discriminate|vm_compute; reflexivity].
  - repeat constructor. exists 201%N. vm_compute. auto.
  - apply ascii_words_settled;
      [exact latin1_ascii_compatible|vm_compute; reflexivity].
  - cbv zeta in H. destruct H as (_ & shown & G & Su & _ & S & NR).
    split; [vm_compute; reflexivity|]. split.
    + destruct S as (url & payload & Q1 & Q2);
        [intros _; vm_compute; reflexivity|].
      exists url, payload. split; [exact Q1|].
      rewrite Q2, Su. vm_compute. reflexivity.
    + intros w.
      vm_compute in G. injection G as <-.
      destruct (NR _ eq_refl w) as (w' & r & R & Fn).
      exists w', r. split; [exact R|].
      rewrite Fn. vm_compute. reflexivity.
Defined.
